(* ===== verification/_CoqProject ===== *)
-Q . S2P
Prelude.v
PyStr.v
PyNum.v
PyValue.v
Json.v
Csv.v
CsvTable.v
Effects.v
Config.v
ExistingRules.v
RuleBuilder.v
CreateRule.v
CsvDriver.v
Server.v
Service.v
Render.v
