(* ===== verification/Prelude.v ===== *)
(** * Verification of [create_yom_tov_rules.py]

    The program is one Python script, [src/create_yom_tov_rules.py].  It
    reads four settings from the process environment, asks the SmartThings
    rules service which rules exist, reads a CSV file of holiday dates and,
    for every date whose rule name is not known to the service, posts a rule
    that switches a refrigerator to its sabbath mode on that date.

    ** The parts of the program and the files that model them

    - [Prelude] (this file): the result type of fallible Python code
      ([outcome]: a value or a raised exception) with its monad, the
      development's hint databases and tactics, and shared lemmas on strings
      and lists.
    - [PyStr]: the string builtins the script calls: truthiness, [str.split]
      with a one-character separator, [int()] on text, the substring test
      [in].  Strings are sequences of code points below 256.  The class
      [Interp] holds what the script's behaviour depends on in the
      interpreter and in [requests]: the limit on the digits of an
      integer, the room the recursion limit leaves, and which exceptions
      [requests] raises.
    - [PyNum]: the numbers of JSON text: the decimal digits of an integer
      ([int_text]), [float] of a decimal text ([float_of_decimal]) and
      [repr] of a float ([float_str]).
    - [PyValue]: the Python values [json.loads] produces and the script
      builds ([value]), the exceptions of the script ([exn]) and their
      classes, subscription [v[k]], the test [k in v], and dictionaries with
      arbitrary hashable keys ([pydict]) as the comprehension in
      [get_existing_rules] fills them.
    - [Json]: lines 41, 135 and 137, the JSON text of a request and of a
      response: [json_dumps] is [json.dumps] as [requests.post] calls it
      on the argument [json=rule], [json_loads] is [json.loads] as
      [response.json()] calls it on the text of a response.
    - [Csv]: the file as the script reads it, lines 150-151 and 157:
      [open] in text mode with its universal newlines
      ([translate_newlines], [file_lines]) and [csv.reader] for the
      default dialect, the state machine of CPython 3.11
      ([process_char] is [parse_process_char], [read_lines] the loop that
      yields the rows); [csv_reader] gives the rows of a text and the
      exception that ends the reading, if any.
    - [CsvTable]: the text of a table of cells, quoted or not, with the
      line ends of Unix, DOS or the old Macintosh ([table_text]), the text
      [csv.writer] writes ([write_table]), and what the reader makes of
      them.
    - [Effects]: the effects of the script as a monad [prog]: a writer of
      events (print, HTTP GET, HTTP POST, sleep), a state for the remote
      service, and exceptions with Python's [try]/[except].  The remote
      service is the class [Network]; every theorem about the script holds
      for every instance of it.  A response is a status and a text, which
      [json] decodes; [http_post] encodes the body before it sends.
    - [Config]: lines 8-24, the settings and the configuration check.
    - [ExistingRules]: lines 26-55, [get_existing_rules].
    - [RuleBuilder]: lines 62-125, the date parser and the rule payload,
      with the meaning of a payload (an evaluator of the rule language,
      modelled from the service's documentation) and the theorem that the
      payload fires exactly on its date when the virtual switch is on.
      [RoomForRule] says that the recursion limit leaves the encoder the
      ten levels of the payload.
    - [CreateRule]: lines 57-145, [create_rule].
    - [CsvDriver]: lines 148-183, the rows of [csv.DictReader], the body
      of the loop ([process_row]), the [try] statement ([main_loop]) and
      the whole script ([script]) with its exit status.  The file is a
      list of rows, possibly ended by an exception; [text_file] is the
      file of a text, read by [csv_reader].

    - [Server]: an ideal rules service as an instance of [Network]: it
      stores the rules it is sent and lists them, its answers being JSON
      text.  It is modelled from what the script expects of the service,
      not from code.
    - [Service]: the class [Service] of the services that keep their
      rules and store nothing but what they are sent, with the ideal
      service and a service that refuses requests as instances.
    - [Render]: the text of the lines the script prints: [str] and
      [repr] of the values an f-string interpolates, the line of every
      [print] call ([render]) and the standard output of a run
      ([stdout]).

    The files depend on each other in this order.  For the script the
    remote service is the class [Network] of [Effects]; every theorem
    outside [Server] and [Service] holds for all its instances, and the
    theorems of [Service] are proved against the interface [Service], which
    its instances discharge.  The examples run against
    the instance [canned_network], which answers the requests from a list,
    or against [ideal_service].

    ** How state and operations correspond to the code

    A Python function that only computes is a Rocq function into [outcome]:
    [Ret v] for a returned value and [Raise e] for an exception.  A function
    with effects is a [prog A]: given the state of the remote service it
    yields an [outcome], the list of events it caused, in the order they
    happened, and the new state of the service.  [print] is the event
    [EvPrint] carrying a structured message (the values interpolated in the
    f-string; [render] gives the text of the line); [requests.get] and
    [requests.post] are
    [EvGet] and [EvPost] answered by the [Network] instance;
    [time.sleep(1)] is [EvSleep 1]; [sys.exit(1)] raises [SystemExit 1], as
    in Python, and the exit status of the process is computed from the final
    outcome by [exit_status].

    The body of a response is its text.  [response.json()] is [json]: the
    decoder [json_loads] run on the text with the digit limit and the
    recursion room of the interpreter, its failure raised as the exception
    [requests] makes of it ([decode_error]: [JSONDecodeError], a
    [RequestException] from requests 2.27 on; [ValueError] for an integer
    beyond the digit limit; [RecursionError]).  [requests.post(...,
    json=rule)] is [http_post]: the encoder [json_dumps] runs first
    ([request_body]) and an exception of it leaves before anything is
    sent; the event [EvPost] and the service get the value, of which the
    text is the encoding ([rule_on_the_wire]).  A string of JSON text with
    an escape above 255 is outside the strings of the development: the
    decoder ends with [Beyond] and the run with [OutOfModel], which is no
    exception of Python and which no [except] clause of the model
    catches.  The theorems that say what a run raises name it as a case
    of its own, and say nothing of the script in that case.

    Each function is first given its runs, one lemma per way through it
    ([get_existing_rules_fail], [create_rule_post], ...), and a view that
    collects them ([get_existing_rules_spec], [create_rule_spec]); the
    properties are proved from these.  What a run did is read off its
    events through projections: [posts] (the bodies posted), [requests],
    [traffic] (requests and pauses) and [sleeps].  [shows p r l] says that
    the projection [p] of the run [r] is a prefix of [l], and all of [l]
    when the run returned; [for_each_shows] lifts it from the body of a
    loop to the loop.  [traced p] says that the program [p] changes the
    service by its requests only: the state after a run is the [replay] of
    its events.  The operations of the monad keep it, and the hints of the
    database [traced] prove it of every function of the script
    ([script_traced]).  [related R p q] says that [p] and [q], run from
    states related by [R], end alike, with the same events, in related
    states; when [R] is a [simulation] of one service by another, the
    script is related to itself ([script_related]).

    ** What the theorems show

    - [PyStr]: [s.split(sep)] is characterised as the inverse of joining
      ([py_split_spec]); [int()] accepts exactly the text of a well-formed
      literal within the digit limit ([py_int_accepts_exactly],
      [py_int_over_limit]); the substring test ([str_contains_spec]).
    - [PyNum]: the digits of an integer are its decimal expansion
      ([digits_of_spec]); [int] reads back what [str] wrote
      ([py_int_int_text]); what [int] accepted is within the limit of
      [str] ([py_int_within]).
    - [Json]: the decoder terminates, within the fuel [json_loads] gives
      it ([json_loads_terminates], from [scan_once_total] and the
      monotonicity of the descent in its fuel, [scan_once_mono]); it
      reads back what the encoder wrote, for values without floats and
      without a key twice in an object ([json_roundtrip]); the encoder
      and the decoder stop with [RecursionError] at the same depth
      ([json_too_deep]) and with [ValueError] at the same number of
      digits ([json_digit_limit]); the encoder succeeds exactly when
      nothing in the value stops it ([refusal_None], [refusal_Some]);
      what the decoder returns has no key twice in an object and is a
      value the encoder writes under the same limits
      ([json_loads_decoded], by [scan_once_yields]), and is read back
      from its own text when it has no float ([json_loads_again]).
    - [Csv]: the invariant of the reader, by induction on the readers a
      run reaches ([reaches], [reader_invariant]); reading line by line is
      reading character by character ([csv_reader_stream], against
      the reference [read_stream]); a text within the limit of a field
      raises nothing ([csv_reader_short_text]).
    - [CsvTable]: the reader gives back the cells of a table
      ([csv_reader_table]) and the rows the writer wrote
      ([csv_reader_roundtrip]); without quotes it is [split] at the commas
      ([csv_reader_split_lines]); a field that passes the limit ends the
      reading with [CsvError] after the rows before it
      ([csv_reader_field_too_long]).
    - [Config]: the check passes exactly on complete settings
      ([load_config_ok_iff]).
    - [ExistingRules]: a dictionary the function returns is well formed
      whatever the service answered ([get_existing_rules_wf]); failures, other statuses and bodies that are not
      JSON yield the empty dictionary ([get_existing_rules_degrades]); on a
      well-formed listing the dictionary maps each name to the identifier
      of the last rule of that name ([get_existing_rules_index], against
      the finite map [named_rules]); JSON of another shape raises out of
      the function ([get_existing_rules_raises_iff],
      [get_existing_rules_number_body]), and so does JSON nested deeper
      than the recursion limit allows ([get_existing_rules_deep_body]);
      one GET and nothing else ([get_existing_rules_one_request]).
    - [RuleBuilder]: which texts are dates ([parse_date_ok_iff],
      [parse_date_iso], [parse_date_rejects], [parse_date_nonneg]); the
      payload encodes a rule that turns sabbath mode on exactly when the
      switch is on and today is the date ([build_rule_meaning]) and
      determines name and date ([build_rule_inj]); the JSON form of a
      rule determines the rule ([decode_encode_rule]); the text
      [requests.post] writes for the payload decodes to the payload, which
      is the JSON form of the sabbath rule ([rule_on_the_wire]).
    - [CreateRule]: a known name causes no request
      ([create_rule_skips_existing]); a date that does not parse causes no
      request and no sleep ([create_rule_invalid_date]); a call that
      returns slept after its request ([create_rule_throttles]); when and
      what a call raises ([create_rule_raises_iff],
      [create_rule_skips_sleep], [create_rule_raises_exception]); without
      room for the encoder the call raises [RecursionError] and sends
      nothing ([create_rule_no_room]).
    - [CsvDriver]: the rows of the reader ([make_row_keys],
      [make_row_lookup], [row_get_never_raises]); the run on the text of a
      table is the steps of the plan of its rows ([main_loop_from_text]),
      and stops with an unexpected error at a field beyond the limit
      ([main_loop_field_too_long]);
      the calls a row leads to and their names
      ([process_row_both_dates], [process_row_first_only],
      [process_row_last_only]); the bodies posted by a run are those of the
      plan of the file, in order ([main_loop_posts]), paced by sleeps
      ([main_loop_paced], [script_traffic]), never for a known name
      ([main_loop_never_resubmits]); how a run ends ([main_loop_exit],
      [main_loop_bad_headers], [main_loop_file_not_found],
      [main_loop_empty_file], [script_missing_config],
      [script_bad_headers], [script_fetch_raises], [script_exit_status]);
      and that a holiday listed twice is submitted twice
      ([main_loop_duplicate_rows]).
    - [Server]: against the ideal service a run leaves in the store the
      rules of its plan ([run_stores_plan]), every rule the file calls for
      under a date that parses is in the store when the run is over
      ([script_has_rule]), and a second run of the same file posts
      nothing ([second_run_posts_nothing]); [script_text_stores] runs the
      script from the text of a file to the store.
    - [Service]: against every service of the class a run leaves in the
      store the rules it held and some of the rules it posted
      ([names_after_run]); a run that was shown the rules leaves no two
      rules of one name unless the file repeats a name
      ([run_keeps_names_distinct]); a run after a failed fetch does
      ([failed_fetch_duplicates]); the service whose verdicts are used up
      is the ideal service to the script ([granted_simulation], by
      [script_related]), and one more run then completes what earlier
      runs were refused ([retry_creates_every_rule]).

    - [Render]: [repr] of a string is a literal of the string
      ([read_literal_repr_str]) and determines it ([repr_str_inj]); the
      identifiers the script prints are values [str] writes, the digit
      limit of [str] being the one the decoder kept
      ([printed_ids_render], from [json_formats] and
      [get_existing_rules_formats]); a call of [create_rule] that
      returns has printed one line and a call that raises none
      ([create_rule_one_line]), so that a run of the loop that returns
      has printed a line for every step of the plan of the file
      ([main_loop_line_per_step]); [script_transcript] is the output of
      a run.

    ** Bounds

    Fuel is used in one place, the descent of the JSON decoder, which
    calls itself on the rest of the text: [scan_once], [parse_elements]
    and [parse_members] take one unit for each call.  [json_loads] gives
    [fuel_of text], twice the length of the text plus two: each call but
    the first follows a character the caller consumed or is the one call
    for the items of an array or object, whose opening bracket was
    consumed.  [json_loads_terminates] proves that this is enough for
    every text and that more fuel changes nothing, so the branch of the
    spent fuel is never taken.  Every other function is structurally
    recursive on its input (a string, a list of rows, a list of items).

    Integers are unbounded ([Z]), as Python's.  A float is an IEEE 754
    double, a [spec_float] of the Standard Library with the precision 53
    and the exponent bound 1024, the infinities and nan included, which
    [json.loads] reads from [Infinity] and [NaN].  The class [Interp]
    holds the limits of the interpreter: [int_max_str_digits], the number
    of digits [int()] and [str()] convert (4300 by default, [None] when
    the limit is off), and [recursion_room], the arrays and objects inside
    one another that the JSON encoder and decoder have frames for (about
    990 when the script runs with the default limit of 1000; the instance
    [cpython311] takes 990).  The theorems hold for every instance; those
    about a request that is sent assume [RoomForRule], that the room is
    at least the ten levels of the payload ([build_rule_depth]), and
    [create_rule_no_room] says what happens otherwise.  The limit of
    [csv.reader] on the length of a field is [field_limit], the default
    of 131072 characters; beyond it the reader raises [CsvError], which
    the script reports as an unexpected error.

    ** Library code

    [csv.reader], the [json] module, [int], [float], [str] and [repr]
    are not code of the script; they are modelled as CPython 3.11
    implements them, since what the script does depends on them.  The
    models compute, and were compared with the interpreter on generated
    inputs: the reader and the writer of [csv] on 774 texts and tables,
    [json.loads] on 2132 texts, [json.dumps] on 445 values, [float] and
    [repr] of floats on 7230 numbers, [str], [repr] and the printed
    lines on 2876 values and messages.

    ** Not modelled

    Every line of code of the script is modelled; what is left out is
    library code the script only calls, and what the script cannot
    observe.
    - The transport of [requests]: connections, TLS, redirects, the
      headers the library adds, the choice of the encoding in which the
      bytes of a response become its text.  The model starts from the
      status and the text of a response and ends at the value given as
      [json=]; a failure of the transport is an answer of the [Network].
    - Characters above 255 in JSON text, since a string of the
      development is a sequence of code points below 256: the decoder
      ends with [Beyond] on an escape above 255, and the run with
      [OutOfModel].
    - The decoding of the bytes of the CSV file into text, with its errors
      and the byte order mark: it depends on the encoding of the locale,
      which the script does not set.  The model starts from the text, and
      an exception of the reader is part of a [csv_file].
    - The states of [csv.reader] for an escape character, which the
      default dialect does not have, and the key [None] under which
      [DictReader] stores surplus fields, which the script never reads.
    - The text of an exception, which [print] writes on lines 54, 142 and
      182: it is what the library that raised the exception gave it, and
      the development keeps the class of an exception only.  [render]
      takes the text as a parameter, the key of a [KeyError] apart.
    - The limit of [repr] on the nesting of a list or dictionary: a
      decoded value is no deeper than the decoder had frames for, and
      [repr] runs with more frames left than the decoder had.
    - Of the remote service: authentication, rate limits, and when it
      runs the rules it holds; [Service] states what the theorems assume
      of it. *)

From Stdlib Require Export ZArith Ascii String List Lia.
From stdpp Require Export base tactics option list strings.

Set Default Proof Using "Type".

(** ** Hint databases

    [py] collects the resolution hints of the development; the rewrite
    database [pyrw] collects the equations that evaluate one step of a
    model ([run_bind], [run_ret], ...).  Each file adds to both. *)

Create HintDb py discriminated.
Create Rewrite HintDb pyrw.

(** ** Outcomes: a value, or a raised exception *)

Section Outcome.
Context {E : Type}.

Inductive outcome (A : Type) : Type :=
| Ret (a : A)
| Raise (e : E).

#[global] Arguments Ret {A} a.
#[global] Arguments Raise {A} e.

Definition outcome_bind {A B} (m : outcome A) (f : A → outcome B) : outcome B :=
  match m with
  | Ret a => f a
  | Raise e => Raise e
  end.

Definition outcome_map {A B} (f : A → B) (m : outcome A) : outcome B :=
  outcome_bind m (λ a, Ret (f a)).

Definition is_ret {A} (m : outcome A) : bool :=
  match m with Ret _ => true | Raise _ => false end.

Definition raised {A} (m : outcome A) : option E :=
  match m with Ret _ => None | Raise e => Some e end.

Definition of_option {A} (o : option A) (e : E) : outcome A :=
  match o with Some a => Ret a | None => Raise e end.

(** A monadic left fold: the loop [for x in l: acc = f(acc, x)] that stops
    at the first exception. *)
Fixpoint outcome_foldl {A B} (f : B → A → outcome B) (b : B) (l : list A) : outcome B :=
  match l with
  | [] => Ret b
  | x :: l' => outcome_bind (f b x) (λ b', outcome_foldl f b' l')
  end.

End Outcome.

#[global] Arguments outcome : clear implicits.

#[export] Instance outcome_ret {E} : MRet (outcome E) := λ A, @Ret E A.
#[export] Instance outcome_mbind {E} : MBind (outcome E) := λ A B f m, outcome_bind m f.
#[export] Instance outcome_fmap {E} : FMap (outcome E) := λ A B f m, outcome_map f m.

(** The same outcome with another exception in the place of the raised one. *)
Definition reraise {E E' A} (f : E → E') (m : outcome E A) : outcome E' A :=
  match m with
  | Ret a => Ret a
  | Raise e => Raise (f e)
  end.

#[export] Instance outcome_eq_dec {E A} `{EqDecision E, EqDecision A} :
  EqDecision (outcome E A).
Proof. solve_decision. Defined.

(** ** Tactics *)

(** [outcome_inv] turns equations between [Ret] and [Raise] into equations
    between their arguments and closes the contradictory ones. *)
Ltac outcome_inv :=
  repeat match goal with
  | H : Ret _ = Ret _ |- _ => injection H as H
  | H : Raise _ = Raise _ |- _ => injection H as H
  | H : Ret _ = Raise _ |- _ => discriminate H
  | H : Raise _ = Ret _ |- _ => discriminate H
  | H : Some _ = Some _ |- _ => injection H as H
  | H : Some _ = None |- _ => discriminate H
  | H : None = Some _ |- _ => discriminate H
  end; subst.

(** [py_simpl] evaluates a model as far as the rewrite database goes. *)
Ltac py_simpl := repeat (progress (autorewrite with pyrw; cbn [fst snd])).

(** [case_ascii c d] splits on whether the characters [c] and [d] are equal. *)
Ltac case_ascii c d := destruct (decide (c = d)) as [->|?].

(** ** Laws of [outcome] *)

Section OutcomeLaws.
Context {E : Type}.
Implicit Types e : E.

Lemma outcome_bind_ret_l {A B} (a : A) (f : A → outcome E B) :
  outcome_bind (Ret a) f = f a.
Proof. done. Qed.

Lemma outcome_bind_raise {A B} e (f : A → outcome E B) :
  outcome_bind (Raise e) f = Raise e.
Proof. done. Qed.

Lemma outcome_bind_ret_r {A} (m : outcome E A) : outcome_bind m Ret = m.
Proof. by destruct m. Qed.

Lemma outcome_bind_assoc {A B C} (m : outcome E A)
    (f : A → outcome E B) (g : B → outcome E C) :
  outcome_bind (outcome_bind m f) g = outcome_bind m (λ a, outcome_bind (f a) g).
Proof. by destruct m. Qed.

Lemma outcome_bind_Ret_inv {A B} (m : outcome E A) (f : A → outcome E B) b :
  outcome_bind m f = Ret b ↔ ∃ a, m = Ret a ∧ f a = Ret b.
Proof. destruct m; naive_solver. Qed.

Lemma outcome_bind_Raise_inv {A B} (m : outcome E A) (f : A → outcome E B) e :
  outcome_bind m f = Raise e ↔ m = Raise e ∨ ∃ a, m = Ret a ∧ f a = Raise e.
Proof. destruct m; naive_solver. Qed.

Lemma is_ret_true {A} (m : outcome E A) : is_ret m = true ↔ ∃ a, m = Ret a.
Proof. destruct m; naive_solver. Qed.

Lemma raised_None {A} (m : outcome E A) : raised m = None ↔ ∃ a, m = Ret a.
Proof. destruct m; naive_solver. Qed.

Lemma outcome_foldl_app {A B} (f : B → A → outcome E B) b (l1 l2 : list A) :
  outcome_foldl f b (l1 ++ l2) =
  outcome_bind (outcome_foldl f b l1) (λ b', outcome_foldl f b' l2).
Proof.
  revert b. induction l1 as [|x l1 IH]; intros b; [done|].
  cbn. destruct (f b x); [apply IH | done].
Qed.

(** A fold whose every step returns is the pure fold. *)
Lemma outcome_foldl_pure {A B} (f : B → A → outcome E B) (g : B → A → B) b (l : list A) :
  (∀ b x, x ∈ l → f b x = Ret (g b x)) →
  outcome_foldl f b l = Ret (foldl g b l).
Proof.
  revert b. induction l as [|x l IH]; intros b Hf; [done|].
  cbn. rewrite Hf by left. cbn. apply IH. intros. apply Hf. by right.
Qed.

(** An invariant of the steps that return is an invariant of the fold. *)
Lemma outcome_foldl_inv {A B} (P : B → Prop) (f : B → A → outcome E B) (l : list A) b b' :
  (∀ b x b', x ∈ l → P b → f b x = Ret b' → P b') →
  P b → outcome_foldl f b l = Ret b' → P b'.
Proof.
  revert b. induction l as [|x l IH]; intros b Hf Hb; cbn; [by intros [= <-]|].
  destruct (f b x) as [b1|] eqn:Hfx; [|done]. cbn. apply IH.
  - intros ????. apply Hf. by right.
  - by apply (Hf b x); [left|..].
Qed.

End OutcomeLaws.

#[export] Hint Rewrite @outcome_bind_ret_l @outcome_bind_raise @outcome_bind_ret_r : pyrw.

(** ** Strings as lists of characters *)

Abbreviation chars := String.list_ascii_of_string.
Abbreviation of_chars := String.string_of_list_ascii.

Lemma of_chars_chars (s : string) : of_chars (chars s) = s.
Proof. apply String.string_of_list_ascii_of_string. Qed.

Lemma chars_of_chars (l : list ascii) : chars (of_chars l) = l.
Proof. apply String.list_ascii_of_string_of_list_ascii. Qed.

Lemma chars_inj (s t : string) : chars s = chars t → s = t.
Proof. intros H. by rewrite <-(of_chars_chars s), H, of_chars_chars. Qed.

Lemma chars_app (s t : string) : chars (s +:+ t) = chars s ++ chars t.
Proof. induction s as [|c s IH]; [done|]. cbn. by rewrite <-IH. Qed.

Lemma string_app_nil_l (s : string) : "" +:+ s = s.
Proof. done. Qed.

Lemma string_app_nil_r (s : string) : s +:+ "" = s.
Proof. apply chars_inj. by rewrite chars_app, app_nil_r. Qed.

Lemma string_app_assoc (s t u : string) : (s +:+ t) +:+ u = s +:+ (t +:+ u).
Proof. apply chars_inj. by rewrite !chars_app, app_assoc. Qed.

Lemma string_app_cons (c : ascii) (s t : string) :
  String c s +:+ t = String c (s +:+ t).
Proof. done. Qed.

(** [str_norm] brings a text to the form [String c (... (s +:+ t))]. *)
Create Rewrite HintDb str.
#[export] Hint Rewrite string_app_assoc string_app_cons string_app_nil_l : str.

Ltac str_norm := autorewrite with str.

Lemma string_length_chars (s : string) : String.length s = length (chars s).
Proof. induction s; cbn; congruence. Qed.

Lemma string_app_inv_tail (s t u : string) : s +:+ u = t +:+ u → s = t.
Proof.
  intros H. apply chars_inj. apply (f_equal chars) in H.
  rewrite !chars_app in H. by apply app_inv_tail in H.
Qed.

#[export] Hint Rewrite string_app_nil_l string_app_nil_r string_app_assoc
  string_app_cons : pyrw.

(** ** Lists *)

Lemma foldl_snoc {A B} (f : B → A → B) b (l : list A) x :
  foldl f b (l ++ [x]) = f (foldl f b l) x.
Proof. by rewrite foldl_app. Qed.

(** Two folds over one list keep a relation that each step keeps. *)
Lemma foldl_rel {A B C} (R : B → C → Prop) (f : B → A → B) (g : C → A → C)
    (l : list A) b c :
  R b c → (∀ b c x, x ∈ l → R b c → R (f b x) (g c x)) →
  R (foldl f b l) (foldl g c l).
Proof.
  revert b c. induction l as [|x l IH]; intros b c Hbc Hstep; [done|].
  cbn. apply IH; [apply Hstep; [left|done] | intros; apply Hstep; [by right|done]].
Qed.

(** A fold keeps an invariant that each step keeps. *)
Lemma foldl_inv {A B} (P : B → Prop) (f : B → A → B) (l : list A) b :
  P b → (∀ b x, x ∈ l → P b → P (f b x)) → P (foldl f b l).
Proof.
  revert b. induction l as [|x l IH]; intros b Hb Hstep; [done|].
  cbn. apply IH; [apply Hstep; [left|done] | intros; apply Hstep; [by right|done]].
Qed.

Lemma fst_zip_take {A B} (l : list A) (k : list B) :
  (zip l k).*1 = take (length k) l.
Proof.
  revert k. induction l as [|x l IH]; intros [|y k]; cbn; try done.
  by rewrite IH.
Qed.

Lemma concat_fmap_concat {A B} (f : A → list B) (ls : list (list A)) :
  concat (f <$> concat ls) = concat ((λ l, concat (f <$> l)) <$> ls).
Proof.
  induction ls as [|l ls IH]; [done|].
  cbn [concat]. by rewrite fmap_app, concat_app, IH.
Qed.

Lemma elem_of_concat {A} (x : A) (ls : list (list A)) :
  x ∈ concat ls ↔ ∃ l, l ∈ ls ∧ x ∈ l.
Proof.
  rewrite list_elem_of_In, in_concat. split; intros (l & H1 & H2); exists l;
    by rewrite ?list_elem_of_In in *.
Qed.

Lemma forallb_Forall {A} (f : A → bool) (l : list A) :
  forallb f l = true ↔ Forall (λ x, f x = true) l.
Proof.
  induction l as [|x l IH]; cbn; [by split|].
  rewrite andb_true_iff, Forall_cons. naive_solver.
Qed.

Lemma Forall_iff_each {A} (P Q : A → Prop) (l : list A) :
  Forall (λ x, P x ↔ Q x) l → Forall P l ↔ Forall Q l.
Proof. induction 1 as [|x l Hx _ IH]; [done|]. by rewrite !Forall_cons, Hx, IH. Qed.

Lemma max_list_le (ns : list nat) (n : nat) : max_list ns ≤ n ↔ Forall (λ k, k ≤ n) ns.
Proof.
  induction ns as [|k ns IH]; cbn; [split; [done|lia]|]. rewrite Forall_cons, <-IH. lia.
Qed.

(** The first element of a list that fails a test. *)
Lemma list_first_not {A} (P : A → Prop) `{∀ x, Decision (P x)} (l : list A) :
  ¬ Forall P l → ∃ l1 x l2, l = l1 ++ x :: l2 ∧ Forall P l1 ∧ ¬ P x.
Proof.
  induction l as [|a l IH]; [by intros []|]. intros Hn.
  destruct (decide (P a)) as [Ha|Ha]; [|by exists [], a, l].
  destruct IH as (l1 & x & l2 & -> & ? & ?); [by intros ?; apply Hn; constructor|].
  exists (a :: l1), x, l2. split_and!; [done|by constructor|done].
Qed.

(** Induction on the length of a string. *)
Lemma string_length_ind (P : string → Prop) :
  (∀ s, (∀ t, String.length t < String.length s → P t) → P s) → ∀ s, P s.
Proof.
  intros Hstep s. induction (well_founded_ltof _ String.length s) as [s _ IH].
  by apply Hstep.
Qed.

(** Reading back what was written, element by element. *)
Lemma mapM_fmap_Some {A B} (f : B → option A) (g : A → B) (l : list A) :
  Forall (λ x, f (g x) = Some x) l → mapM f (g <$> l) = Some l.
Proof.
  intros Hl. apply mapM_Some_2. induction Hl; constructor; auto.
Qed.

Lemma forallb_bool_decide {A} (P : A → Prop) `{∀ x, Decision (P x)} (l : list A) :
  forallb (λ x, bool_decide (P x)) l = true ↔ Forall P l.
Proof.
  induction l as [|x l IH]; cbn; [by split|].
  by rewrite andb_true_iff, bool_decide_eq_true, Forall_cons, IH.
Qed.

Lemma Forall_filter_true {A} (P : A → Prop) `{∀ x, Decision (P x)} (l : list A) :
  Forall P l → filter P l = l.
Proof.
  induction 1 as [|x l Hx _ IH]; [done|].
  by rewrite filter_cons_True, IH.
Qed.
