(* ===== verification/PyStr.v ===== *)
(** * Python's string builtins, as the script uses them

    [str_truthy] is the truth value of a string ([if s:]); [py_split] is
    [s.split(sep)] for a separator of one character (line 62 splits a date
    at ["-"]); [str_contains] is the substring test [needle in s] (line 42,
    when the response body is a JSON string); [py_int] is [int(s)] (line 62).

    [py_join] is the inverse of [py_split]; the script never joins, the
    function states what [py_split] returns. *)

From S2P Require Import Prelude.

(** ** Truthiness *)

Definition str_truthy (s : string) : bool :=
  match s with
  | "" => false
  | String _ _ => true
  end.

(** ** [str.split] at one character *)

Fixpoint py_split (sep : ascii) (s : string) : list string :=
  match s with
  | "" => [""]
  | String c s' =>
      if decide (c = sep) then "" :: py_split sep s'
      else match py_split sep s' with
           | p :: ps => String c p :: ps
           | [] => [String c ""]
           end
  end.

Fixpoint py_join (sep : ascii) (l : list string) : string :=
  match l with
  | [] => ""
  | [p] => p
  | p :: ps => p +:+ String sep (py_join sep ps)
  end.

Fixpoint str_count (c : ascii) (s : string) : nat :=
  match s with
  | "" => 0
  | String d s' => (if decide (d = c) then 1 else 0) + str_count c s'
  end.

Definition str_mem (c : ascii) (s : string) : bool :=
  bool_decide (c ∈ chars s).

(** ** The substring test *)

Fixpoint str_prefix (p s : string) : bool :=
  match p, s with
  | "", _ => true
  | String a p', String b s' => if decide (a = b) then str_prefix p' s' else false
  | String _ _, "" => false
  end.

Fixpoint str_contains (needle s : string) : bool :=
  str_prefix needle s ||
  match s with
  | "" => false
  | String _ s' => str_contains needle s'
  end.

Lemma str_truthy_true (s : string) : str_truthy s = true ↔ s ≠ "".
Proof. by destruct s. Qed.

(** ** Lemmas on [py_split] *)

Section Split.
Context (sep : ascii).
Implicit Types (s p : string) (c : ascii) (l : list string).

Lemma py_split_nonempty s : py_split sep s ≠ [].
Proof. destruct s as [|c s]; cbn; [done|]. repeat case_match; done. Qed.

Lemma py_split_cons s : ∃ p ps, py_split sep s = p :: ps.
Proof.
  destruct (py_split sep s) as [|p ps] eqn:E; eauto.
  by apply py_split_nonempty in E.
Qed.

Lemma py_split_sep s : py_split sep (String sep s) = "" :: py_split sep s.
Proof. cbn. by rewrite decide_True. Qed.

Lemma py_split_other c s p ps :
  c ≠ sep → py_split sep s = p :: ps →
  py_split sep (String c s) = String c p :: ps.
Proof. intros Hc Hs. cbn. by rewrite decide_False, Hs. Qed.

Lemma py_join_cons p q l :
  py_join sep (p :: q :: l) = p +:+ String sep (py_join sep (q :: l)).
Proof. done. Qed.

Lemma py_join_cons_char c p l :
  py_join sep (String c p :: l) = String c (py_join sep (p :: l)).
Proof. by destruct l. Qed.

Lemma py_join_empty_head l :
  l ≠ [] → py_join sep ("" :: l) = String sep (py_join sep l).
Proof. by destruct l. Qed.

Lemma str_mem_cons c d s :
  str_mem c (String d s) = bool_decide (c = d) || str_mem c s.
Proof.
  unfold str_mem. cbn. rewrite <-bool_decide_or.
  apply bool_decide_ext, elem_of_cons.
Qed.

Lemma str_mem_false_cons c d s :
  str_mem c (String d s) = false ↔ c ≠ d ∧ str_mem c s = false.
Proof.
  rewrite str_mem_cons, orb_false_iff, bool_decide_eq_false. done.
Qed.

Lemma py_split_no_sep_id s : str_mem sep s = false → py_split sep s = [s].
Proof.
  induction s as [|c s IH]; [done|].
  intros [Hc Hs]%str_mem_false_cons.
  by rewrite (py_split_other c s s []); [| |apply IH].
Qed.

(** Splitting [p ++ sep ++ s], where [p] has no separator, yields [p] and
    then the parts of [s]: the step every proof about a concrete format
    takes. *)
Lemma py_split_app p s :
  str_mem sep p = false →
  py_split sep (p +:+ String sep s) = p :: py_split sep s.
Proof.
  induction p as [|c p IH]; intros Hp.
  - apply py_split_sep.
  - apply str_mem_false_cons in Hp as [Hc Hp].
    rewrite string_app_cons. by apply py_split_other, IH.
Qed.

Lemma py_split_parts_no_sep s : Forall (λ p, str_mem sep p = false) (py_split sep s).
Proof.
  induction s as [|c s IH]; [by repeat constructor|].
  destruct (py_split_cons s) as (p & ps & E). rewrite E in IH.
  apply Forall_cons in IH as [Hp Hps].
  case_ascii c sep.
  - rewrite py_split_sep, E. by repeat constructor.
  - rewrite (py_split_other c s p ps) by done.
    constructor; [|done]. by apply str_mem_false_cons.
Qed.

End Split.

(** ** Properties of [py_split] *)

(** Joining the parts of a split with the separator gives the string back. *)
Lemma py_join_split (sep : ascii) (s : string) :
  py_join sep (py_split sep s) = s.
Proof.
  induction s as [|c s IH]; [done|].
  destruct (py_split_cons sep s) as (p & ps & E). rewrite E in IH.
  case_ascii c sep.
  - rewrite py_split_sep, E, py_join_empty_head by done. by rewrite IH.
  - rewrite (py_split_other sep c s p ps) by done.
    by rewrite py_join_cons_char, IH.
Qed.

(** A split has one part more than the string has separators. *)
Lemma py_split_length (sep : ascii) (s : string) :
  length (py_split sep s) = S (str_count sep s).
Proof.
  induction s as [|c s IH]; [done|].
  destruct (py_split_cons sep s) as (p & ps & E). rewrite E in IH.
  case_ascii c sep.
  - rewrite py_split_sep, E. cbn. rewrite decide_True by done. cbn in *. lia.
  - rewrite (py_split_other sep c s p ps) by done.
    cbn. rewrite decide_False by done. cbn in *. lia.
Qed.

(** Splitting a join of parts that are free of the separator gives the
    parts back. *)
Lemma py_split_join (sep : ascii) (l : list string) :
  l ≠ [] → Forall (λ p, str_mem sep p = false) l →
  py_split sep (py_join sep l) = l.
Proof.
  intros Hne Hl. induction Hl as [|p l Hp Hl IH]; [done|].
  destruct l as [|q l]; [by apply py_split_no_sep_id|].
  rewrite py_join_cons, py_split_app by done. by rewrite IH.
Qed.

(** [s.split(sep)] is the one list of parts that is not empty, whose
    parts are free of the separator, and whose join with the separator is
    [s]; it has one part more than [s] has separators. *)
Theorem py_split_spec (sep : ascii) (s : string) (l : list string) :
  py_split sep s = l ↔
  l ≠ [] ∧ Forall (λ p, str_mem sep p = false) l ∧ py_join sep l = s ∧
  length l = S (str_count sep s).
Proof.
  split.
  - intros <-. split_and!.
    + apply py_split_nonempty.
    + apply py_split_parts_no_sep.
    + apply py_join_split.
    + apply py_split_length.
  - intros (Hne & Hl & <- & _). by apply py_split_join.
Qed.

(** ** The substring test *)

Lemma str_prefix_spec (p s : string) :
  str_prefix p s = true ↔ ∃ t, s = p +:+ t.
Proof.
  revert s. induction p as [|a p IH]; intros s.
  - split; [|done]. intros _. by exists s.
  - destruct s as [|b s]; cbn.
    + split; [done|]. by intros [t Ht].
    + case_decide as Hab.
      * subst b. rewrite IH. split; intros [t Ht]; exists t.
        -- by rewrite Ht.
        -- rewrite string_app_cons in Ht. by injection Ht.
      * split; [done|]. intros [t Ht]. rewrite string_app_cons in Ht.
        injection Ht as -> _. done.
Qed.

(** [needle in s] holds exactly when [s] is some text, then the needle,
    then some text. *)
Theorem str_contains_spec (needle s : string) :
  str_contains needle s = true ↔ ∃ a b, s = a +:+ needle +:+ b.
Proof.
  induction s as [|c s IH]; cbn; rewrite orb_true_iff, str_prefix_spec.
  - split.
    + intros [[t Ht]|?]; [|done]. by exists "", t.
    + intros ([|? a] & b & Hab); [|done]. left. by exists b.
  - rewrite IH. split.
    + intros [[t Ht]|(a & b & Hab)]; [by exists "", t|].
      exists (String c a), b. by rewrite Hab.
    + intros ([|c' a] & b & Hab); [left; by exists b|].
      right. exists a, b. rewrite string_app_cons in Hab. by injection Hab.
Qed.

(** ** [int()] on text

    CPython first maps every whitespace code point above 126 to a blank
    (below 256 these are U+0085 and U+00A0), then reads: blanks, an optional
    sign, digits in which single underscores may stand between two digits,
    blanks, the end.  Blanks are the six characters of C's [isspace].
    Anything else raises [ValueError], here [None].  When a limit on the
    number of digits is set ([sys.set_int_max_str_digits], 4300 by default
    since CPython 3.11) a longer number is refused too. *)

Definition is_space (c : ascii) : bool :=
  match N_of_ascii c with
  | 9 | 10 | 11 | 12 | 13 | 32 | 133 | 160 => true
  | _ => false
  end%N.

Definition digit_of (c : ascii) : option Z :=
  let n := N_of_ascii c in
  if (48 <=? n)%N && (n <=? 57)%N then Some (Z.of_N n - 48)%Z else None.

#[global] Arguments is_space : simpl never.
#[global] Arguments digit_of : simpl never.

Fixpoint lstrip (s : string) : string :=
  match s with
  | String c s' => if is_space c then lstrip s' else s
  | "" => ""
  end.

Fixpoint all_space (s : string) : bool :=
  match s with
  | String c s' => is_space c && all_space s'
  | "" => true
  end.

(** What the scanner of digits has just read. *)
Inductive scan_state := AtStart | AfterDigit | AfterUnderscore.

(** [scan_digits st acc n s] reads digits and underscores off [s]; [acc] is
    the value and [n] the number of the digits read so far.  It stops at the
    first other character and returns the value, the number of digits and
    the rest, or [None] when no digit was read or an underscore is not
    between two digits. *)
Fixpoint scan_digits (st : scan_state) (acc : Z) (n : nat) (s : string)
    : option (Z * nat * string) :=
  let stop := match st with AfterDigit => Some (acc, n, s) | _ => None end in
  match s with
  | "" => stop
  | String c s' =>
      match digit_of c with
      | Some d => scan_digits AfterDigit (10 * acc + d)%Z (S n) s'
      | None =>
          if decide (c = "_"%char) then
            match st with
            | AfterDigit => scan_digits AfterUnderscore acc n s'
            | _ => None
            end
          else stop
      end
  end.

Definition split_sign (s : string) : bool * string :=
  match s with
  | String "+" s' => (false, s')
  | String "-" s' => (true, s')
  | _ => (false, s)
  end.

Definition within_limit (limit : option nat) (n : nat) : bool :=
  match limit with
  | Some k => bool_decide (n ≤ k)
  | None => true
  end.

Definition py_int (limit : option nat) (s : string) : option Z :=
  let '(neg, body) := split_sign (lstrip s) in
  match scan_digits AtStart 0%Z 0 body with
  | Some (v, n, rest) =>
      if all_space rest && within_limit limit n
      then Some (if neg then - v else v)%Z
      else None
  | None => None
  end.

(** ** Decimal literals: what [py_int] accepts

    A literal is blanks, an optional sign, groups of digits separated by
    single underscores, blanks.  [lit_text] is its text and [lit_value] the
    number it denotes. *)

Definition digit_char (d : nat) : ascii := ascii_of_nat (48 + d).

Fixpoint digits_str (ds : list nat) : string :=
  match ds with
  | [] => ""
  | d :: ds' => String (digit_char d) (digits_str ds')
  end.

Definition digits_val_from (acc : Z) (ds : list nat) : Z :=
  foldl (λ a d, 10 * a + Z.of_nat d)%Z acc ds.

Definition digits_val (ds : list nat) : Z := digits_val_from 0 ds.

Definition is_digits (ds : list nat) : Prop := Forall (λ d, d < 10) ds.

Inductive sign := NoSign | Plus | Minus.

Definition sign_text (sg : sign) : string :=
  match sg with NoSign => "" | Plus => "+" | Minus => "-" end.

Definition sign_apply (sg : sign) (v : Z) : Z :=
  match sg with Minus => - v | _ => v end%Z.

Record literal := Literal {
  lit_lead : string;
  lit_sign : sign;
  lit_groups : list (list nat);
  lit_trail : string;
}.

Definition lit_text (l : literal) : string :=
  lit_lead l +:+ sign_text (lit_sign l) +:+
  py_join "_" (digits_str <$> lit_groups l) +:+ lit_trail l.

Definition lit_value (l : literal) : Z :=
  sign_apply (lit_sign l) (digits_val (concat (lit_groups l))).

Definition lit_digits (l : literal) : nat := length (concat (lit_groups l)).

Record lit_wf (l : literal) : Prop := {
  wf_lead : all_space (lit_lead l) = true;
  wf_trail : all_space (lit_trail l) = true;
  wf_groups : lit_groups l ≠ [];
  wf_digits : Forall (λ g, g ≠ [] ∧ is_digits g) (lit_groups l);
}.

(** ** Characters *)

Lemma digit_of_digit_char (d : nat) :
  d < 10 → digit_of (digit_char d) = Some (Z.of_nat d).
Proof. intros H. do 10 (destruct d as [|d]; [done|]). lia. Qed.

Lemma digit_of_space (c : ascii) : is_space c = true → digit_of c = None.
Proof. destruct c as [[|] [|] [|] [|] [|] [|] [|] [|]]; by vm_compute. Qed.

Lemma space_not_underscore (c : ascii) : is_space c = true → c ≠ "_"%char.
Proof. by intros H ->. Qed.

Lemma space_not_sign (c : ascii) :
  is_space c = true → c ≠ "+"%char ∧ c ≠ "-"%char.
Proof. intros H. by split; intros ->. Qed.

Lemma digit_not_space (c : ascii) d : digit_of c = Some d → is_space c = false.
Proof.
  destruct (is_space c) eqn:E; [|done]. by rewrite digit_of_space.
Qed.

Lemma digit_not_sign (c : ascii) d :
  digit_of c = Some d → c ≠ "+"%char ∧ c ≠ "-"%char.
Proof. intros H. by split; intros ->. Qed.

Lemma digit_of_bounds (c : ascii) d : digit_of c = Some d → (0 ≤ d ≤ 9)%Z.
Proof.
  unfold digit_of. case_match eqn:E; [|done]. intros [= <-].
  apply andb_true_iff in E as [?%N.leb_le ?%N.leb_le]. lia.
Qed.

(** ** Stripping and scanning *)

Lemma lstrip_app_space (w s : string) :
  all_space w = true → lstrip (w +:+ s) = lstrip s.
Proof.
  induction w as [|c w IH]; [done|]. rewrite string_app_cons. cbn.
  intros [Hc Hw]%andb_true_iff. rewrite Hc. auto.
Qed.

Lemma lstrip_no_space c s : is_space c = false → lstrip (String c s) = String c s.
Proof. intros H. cbn. by rewrite H. Qed.

Lemma scan_digits_stop (acc : Z) (n : nat) (w : string) :
  all_space w = true → scan_digits AfterDigit acc n w = Some (acc, n, w).
Proof.
  destruct w as [|c w]; [done|]. cbn. intros [Hc _]%andb_true_iff.
  rewrite (digit_of_space c Hc), decide_False;
    [done | by apply space_not_underscore].
Qed.

Lemma scan_digits_digit st acc n d s :
  d < 10 →
  scan_digits st acc n (String (digit_char d) s) =
  scan_digits AfterDigit (10 * acc + Z.of_nat d)%Z (S n) s.
Proof. intros H. cbn. by rewrite digit_of_digit_char. Qed.

Lemma scan_digits_group st acc n (g : list nat) s :
  g ≠ [] → is_digits g →
  scan_digits st acc n (digits_str g +:+ s) =
  scan_digits AfterDigit (digits_val_from acc g) (n + length g) s.
Proof.
  intros Hne Hg. revert st acc n.
  induction Hg as [|d g Hd Hg IH]; [done|]. intros st acc n.
  cbn [digits_str]. rewrite string_app_cons, scan_digits_digit by done.
  destruct g as [|d' g]; [cbn; f_equal; lia|].
  rewrite IH by done. cbn. f_equal. lia.
Qed.

Lemma scan_digits_underscore acc n (g : list nat) s :
  g ≠ [] → is_digits g →
  scan_digits AfterDigit acc n (String "_" (digits_str g +:+ s)) =
  scan_digits AfterDigit (digits_val_from acc g) (n + length g) s.
Proof.
  intros Hne Hg. destruct g as [|d g]; [done|].
  rewrite <-(scan_digits_group AfterUnderscore) by done.
  apply Forall_cons in Hg as [Hd _]. cbn [digits_str].
  rewrite string_app_cons. cbn. by rewrite digit_of_digit_char.
Qed.

Lemma digits_val_from_app acc (g h : list nat) :
  digits_val_from acc (g ++ h) = digits_val_from (digits_val_from acc g) h.
Proof. apply foldl_app. Qed.

Lemma digits_val_from_nonneg acc (g : list nat) :
  (0 ≤ acc)%Z → (0 ≤ digits_val_from acc g)%Z.
Proof.
  revert acc. induction g as [|d g IH]; intros acc Hacc; [done|].
  cbn. apply IH. lia.
Qed.

(** The groups after the first, each behind its underscore. *)
Fixpoint groups_tail (gs : list (list nat)) : string :=
  match gs with
  | [] => ""
  | g :: gs' => String "_" (digits_str g +:+ groups_tail gs')
  end.

Lemma py_join_groups (g : list nat) (gs : list (list nat)) :
  py_join "_" (digits_str <$> (g :: gs)) = digits_str g +:+ groups_tail gs.
Proof.
  revert g. induction gs as [|h gs IH]; intros g.
  - cbn. by rewrite string_app_nil_r.
  - rewrite !fmap_cons, py_join_cons, <-fmap_cons. by rewrite IH.
Qed.

Lemma scan_digits_tail acc n (gs : list (list nat)) s :
  Forall (λ g, g ≠ [] ∧ is_digits g) gs →
  all_space s = true →
  scan_digits AfterDigit acc n (groups_tail gs +:+ s) =
  Some (digits_val_from acc (concat gs), n + length (concat gs), s).
Proof.
  intros Hgs Hs. revert acc n.
  induction Hgs as [|g gs [Hne Hg] _ IH]; intros acc n.
  - cbn [groups_tail concat]. rewrite string_app_nil_l, scan_digits_stop by done.
    cbn. by rewrite Nat.add_0_r.
  - cbn [groups_tail concat]. rewrite string_app_cons, string_app_assoc.
    rewrite scan_digits_underscore, IH by done.
    rewrite digits_val_from_app, length_app. do 3 f_equal. lia.
Qed.

(** Scanning the groups of a literal reads all of them. *)
Lemma scan_digits_groups (gs : list (list nat)) s :
  gs ≠ [] → Forall (λ g, g ≠ [] ∧ is_digits g) gs →
  all_space s = true →
  scan_digits AtStart 0 0 (py_join "_" (digits_str <$> gs) +:+ s) =
  Some (digits_val (concat gs), length (concat gs), s).
Proof.
  intros Hne Hgs Hs. destruct gs as [|g gs]; [done|].
  apply Forall_cons in Hgs as [[Hg1 Hg2] Hgs].
  rewrite py_join_groups, string_app_assoc, scan_digits_group by done.
  rewrite scan_digits_tail by done. cbn [concat].
  unfold digits_val. by rewrite digits_val_from_app, length_app.
Qed.

Lemma digits_str_head (g : list nat) :
  g ≠ [] → is_digits g →
  ∃ d t, d < 10 ∧ digits_str g = String (digit_char d) t.
Proof. intros Hne Hg. destruct Hg as [|d g Hd _]; [done|]. by exists d, (digits_str g). Qed.

Lemma digit_char_plain (d : nat) :
  d < 10 →
  is_space (digit_char d) = false ∧
  digit_char d ≠ "+"%char ∧ digit_char d ≠ "-"%char.
Proof.
  intros Hd. pose proof (digit_of_digit_char d Hd) as H.
  split; [by eapply digit_not_space | by eapply digit_not_sign].
Qed.

Lemma split_sign_plain c s :
  c ≠ "+"%char → c ≠ "-"%char → split_sign (String c s) = (false, String c s).
Proof.
  intros Hp Hm. unfold split_sign.
  destruct c as [[|] [|] [|] [|] [|] [|] [|] [|]]; done.
Qed.

(** [lstrip] returns a suffix, and what it drops is blank. *)
Lemma lstrip_spec (s : string) :
  ∃ w, all_space w = true ∧ s = w +:+ lstrip s ∧
       match lstrip s with String c _ => is_space c = false | "" => True end.
Proof.
  induction s as [|c s (w & Hw & Hs & Hc)]; [by exists ""|].
  cbn [lstrip]. destruct (is_space c) eqn:E.
  - exists (String c w). cbn [all_space]. rewrite E, Hw, string_app_cons.
    by rewrite <-Hs.
  - by exists "".
Qed.

(** What [scan_digits] reads is made of digits and underscores, and its
    value is not negative when it starts from a value that is not. *)
Lemma scan_digits_spec st acc n s v m rest :
  scan_digits st acc n s = Some (v, m, rest) →
  ∃ body, s = body +:+ rest ∧
    Forall (λ c, is_Some (digit_of c) ∨ c = "_"%char) (chars body) ∧
    ((0 ≤ acc)%Z → (0 ≤ v)%Z) ∧ n ≤ m.
Proof.
  revert st acc n. induction s as [|c s IH]; intros st acc n.
  - destruct st; cbn; intros [= <- <- <-]. by exists "".
  - cbn [scan_digits]. destruct (digit_of c) as [d|] eqn:Ed.
    + intros (body & -> & Hb & Hv & Hn)%IH. exists (String c body).
      split_and!; [done| |pose proof (digit_of_bounds c d Ed); lia|lia].
      cbn. constructor; [left; by rewrite Ed | done].
    + case_decide as Hc.
      * destruct st; try done.
        intros (body & -> & Hb & Hv & Hn)%IH. exists (String c body).
        split_and!; [done| |done|done]. cbn. constructor; [by right | done].
      * destruct st; try done. intros [= <- <- <-]. by exists "".
Qed.

Lemma digit_of_inv (c : ascii) d :
  digit_of c = Some d →
  ∃ k, k < 10 ∧ c = digit_char k ∧ d = Z.of_nat k.
Proof.
  intros H. exists (Z.to_nat d). pose proof (digit_of_bounds c d H).
  split_and!; [lia| |lia].
  revert H. unfold digit_of, digit_char. case_match eqn:E; [|done].
  intros [= <-]. rewrite <-(ascii_nat_embedding c) at 1. f_equal.
  unfold nat_of_ascii. lia.
Qed.

(** Conversely, whatever [scan_digits] reads is a run of digits (empty only
    when a digit was just read) and then groups behind underscores. *)
Lemma scan_digits_inv st acc n s v m rest :
  scan_digits st acc n s = Some (v, m, rest) →
  ∃ g gs,
    (st ≠ AfterDigit → g ≠ []) ∧ is_digits g ∧
    Forall (λ g, g ≠ [] ∧ is_digits g) gs ∧
    s = digits_str g +:+ groups_tail gs +:+ rest ∧
    v = digits_val_from acc (g ++ concat gs) ∧
    m = n + length (g ++ concat gs).
Proof.
  revert st acc n. induction s as [|c s IH]; intros st acc n.
  - destruct st; cbn; intros [= <- <- <-]. exists [], [].
    split_and!; try done. constructor.
  - cbn [scan_digits]. destruct (digit_of c) as [d|] eqn:Ed.
    + apply digit_of_inv in Ed as (k & Hk & -> & ->).
      intros (g & gs & _ & Hg & Hgs & -> & -> & ->)%IH.
      exists (k :: g), gs. split_and!; try done.
      * by constructor.
      * cbn. lia.
    + case_decide as Hc.
      * destruct st; try done. subst c.
        intros (g & gs & Hne & Hg & Hgs & -> & -> & ->)%IH.
        exists [], (g :: gs). split_and!; try done.
        -- constructor.
        -- constructor; [split; [by apply Hne | done] | done].
        -- cbn [groups_tail concat digits_str].
           by rewrite string_app_nil_l, string_app_cons, string_app_assoc.
      * destruct st; try done. intros [= <- <- <-]. exists [], [].
        split_and!; try done. constructor.
Qed.

Definition is_minus (sg : sign) : bool :=
  match sg with Minus => true | _ => false end.

(** The sign in front of a body that does not start with a blank. *)
Lemma split_sign_inv (t : string) neg body :
  split_sign t = (neg, body) →
  ∃ sg, t = sign_text sg +:+ body ∧ neg = is_minus sg.
Proof.
  destruct t as [|c t]; [intros [= <- <-]; by exists NoSign|].
  destruct (decide (c = "+"%char)) as [->|Hp]; [intros [= <- <-]; by exists Plus|].
  destruct (decide (c = "-"%char)) as [->|Hm]; [intros [= <- <-]; by exists Minus|].
  rewrite split_sign_plain by done. intros [= <- <-]. by exists NoSign.
Qed.

Lemma split_sign_body (sg : sign) (c : ascii) (t : string) :
  is_space c = false → c ≠ "+"%char → c ≠ "-"%char →
  split_sign (lstrip (sign_text sg +:+ String c t)) = (is_minus sg, String c t).
Proof.
  intros Hsp Hp Hm. destruct sg; cbn [sign_text is_minus];
    rewrite ?string_app_nil_l, ?string_app_cons, lstrip_no_space by done;
    [by apply split_sign_plain | done | done].
Qed.

(** [py_int] on the text of a well-formed literal. *)
Lemma py_int_lit_text (limit : option nat) (l : literal) :
  lit_wf l →
  py_int limit (lit_text l) =
  if within_limit limit (lit_digits l) then Some (lit_value l) else None.
Proof.
  intros [Hlead Htrail Hne Hgs]. unfold py_int, lit_text, lit_value, lit_digits.
  rewrite lstrip_app_space by done.
  pose proof (scan_digits_groups _ _ Hne Hgs Htrail) as Hscan.
  destruct (lit_groups l) as [|g gs] eqn:Eg; [done|].
  pose proof Hgs as [[Hg1 Hg2] _]%Forall_cons.
  destruct (digits_str_head g Hg1 Hg2) as (d & t & Hd & Et).
  destruct (digit_char_plain d Hd) as (Hsp & Hp & Hm).
  rewrite py_join_groups, Et, !string_app_cons in Hscan |- *.
  rewrite split_sign_body, Hscan, Htrail by done.
  by destruct (lit_sign l).
Qed.

(** Every accepted text is the text of a well-formed literal. *)
Lemma py_int_inv (limit : option nat) (s : string) (v : Z) :
  py_int limit s = Some v →
  ∃ l, lit_wf l ∧ s = lit_text l ∧ v = lit_value l ∧
       within_limit limit (lit_digits l) = true.
Proof.
  unfold py_int. destruct (lstrip_spec s) as (w & Hw & Hs & _).
  destruct (split_sign (lstrip s)) as [neg body] eqn:Esg.
  apply split_sign_inv in Esg as (sg & Et & ->).
  destruct (scan_digits AtStart 0 0 body) as [[[v0 n] rest]|] eqn:Esc; [|done].
  apply scan_digits_inv in Esc as (g & gs & Hne & Hg & Hgs & -> & -> & ->).
  case_match eqn:E; [|done]. apply andb_true_iff in E as [Hrest Hlim].
  intros [= <-]. exists (Literal w sg (g :: gs) rest).
  split_and!.
  - split; cbn; [done|done|done|]. constructor; [|done]. split; [by apply Hne|done].
  - unfold lit_text. cbn [lit_lead lit_sign lit_groups lit_trail].
    rewrite py_join_groups, Hs at 1. by rewrite Et, !string_app_assoc.
  - unfold lit_value. cbn [lit_sign lit_groups concat]. by destruct sg.
  - done.
Qed.

(** ** Characters of a literal *)

Definition int_char (c : ascii) : bool :=
  is_space c || bool_decide (is_Some (digit_of c)) ||
  bool_decide (c ∈ ["_"; "+"; "-"]%char).

Lemma str_mem_app (c : ascii) (a b : string) :
  str_mem c (a +:+ b) = str_mem c a || str_mem c b.
Proof.
  unfold str_mem. rewrite chars_app, <-bool_decide_or.
  apply bool_decide_ext, elem_of_app.
Qed.

Lemma all_space_chars (w : string) :
  all_space w = true ↔ Forall (λ c, is_space c = true) (chars w).
Proof.
  induction w as [|c w IH]; cbn; [by split|].
  rewrite andb_true_iff, Forall_cons, IH. done.
Qed.

Lemma digits_str_chars (g : list nat) :
  is_digits g → Forall (λ c, is_Some (digit_of c)) (chars (digits_str g)).
Proof.
  induction 1 as [|d g Hd _ IH]; cbn; constructor; [|done].
  by rewrite digit_of_digit_char.
Qed.

Lemma lit_text_chars (l : literal) :
  lit_wf l → Forall (λ c, int_char c = true) (chars (lit_text l)).
Proof.
  intros [Hlead Htrail _ Hgs]. unfold lit_text. rewrite !chars_app, !Forall_app.
  assert (∀ w, all_space w = true → Forall (λ c, int_char c = true) (chars w)) as Hsp.
  { intros w Hw%all_space_chars. eapply Forall_impl; [done|].
    intros c Hc. unfold int_char. by rewrite Hc. }
  split_and!; [by apply Hsp | by destruct (lit_sign l); repeat constructor | | by apply Hsp].
  destruct (lit_groups l) as [|g gs]; [constructor|].
  rewrite py_join_groups, chars_app, Forall_app.
  apply Forall_cons in Hgs as [[_ Hg] Hgs].
  assert (∀ h, is_digits h → Forall (λ c, int_char c = true) (chars (digits_str h))) as Hd.
  { intros h Hh%digits_str_chars. eapply Forall_impl; [done|].
    intros c Hc. unfold int_char. rewrite (bool_decide_eq_true_2 _ Hc).
    by rewrite orb_true_r. }
  split; [by apply Hd|].
  induction Hgs as [|h hs [_ Hh] _ IH]; [constructor|].
  cbn [groups_tail chars]. constructor; [done|].
  rewrite chars_app, Forall_app. split; [by apply Hd | done].
Qed.

(** ** Properties of [py_int] *)

(** C9: [int(s)] returns [v] exactly when [s] is the text of a well-formed
    literal (blanks, an optional sign, groups of digits separated by single
    underscores, blanks) that denotes [v] and has no more digits than the
    limit allows. *)
Theorem py_int_accepts_exactly (limit : option nat) (s : string) (v : Z) :
  py_int limit s = Some v ↔
  ∃ l, lit_wf l ∧ s = lit_text l ∧ v = lit_value l ∧
       within_limit limit (lit_digits l) = true.
Proof.
  split; [apply py_int_inv|].
  intros (l & Hwf & -> & -> & Hlim). by rewrite py_int_lit_text, Hlim.
Qed.

(** A text that holds a character other than a blank, a digit, an
    underscore or a sign is refused. *)
Lemma py_int_foreign_char (limit : option nat) (s : string) (c : ascii) :
  c ∈ chars s → int_char c = false → py_int limit s = None.
Proof.
  intros Hc Hf. destruct (py_int limit s) as [v|] eqn:E; [|done].
  apply py_int_inv in E as (l & Hwf & -> & _).
  pose proof (lit_text_chars l Hwf) as Hall.
  rewrite Forall_forall in Hall. by rewrite (Hall c Hc) in Hf.
Qed.

(** A text without a minus sign never denotes a negative number. *)
Lemma py_int_nonneg (limit : option nat) (s : string) (v : Z) :
  str_mem "-" s = false → py_int limit s = Some v → (0 ≤ v)%Z.
Proof.
  intros Hs (l & Hwf & -> & -> & _)%py_int_inv. revert Hs.
  unfold lit_text, lit_value. rewrite !str_mem_app, !orb_false_iff.
  intros (_ & Hsg & _).
  destruct (lit_sign l); [| |done]; by apply digits_val_from_nonneg.
Qed.

(** A well-formed literal with more digits than the limit is refused,
    whatever its value; leading zeros count. *)
Theorem py_int_over_limit (k : nat) (l : literal) :
  lit_wf l → k < lit_digits l → py_int (Some k) (lit_text l) = None.
Proof.
  intros Hwf Hk. rewrite py_int_lit_text by done.
  cbn. by rewrite bool_decide_eq_false_2 by lia.
Qed.

Lemma py_int_over_limit_witness : py_int (Some 3) "0_007" = None.
Proof.
  apply (py_int_over_limit 3 (Literal "" NoSign [[0]; [0; 0; 7]] "")); [|cbn; lia].
  split; cbn; [done|done|done|]. repeat constructor; (done || lia).
Defined.

(** ** The interpreter's setting *)

(** The interpreter and the library the script runs on.
    [int_max_str_digits] is [sys.get_int_max_str_digits()]: [None] when the
    interpreter has no limit (CPython before 3.11, or a limit of 0),
    [Some 4300] by default since.  [recursion_room] is the arrays and
    objects inside one another that the encoder and the decoder of JSON
    may enter before the recursion limit stops them: 994 of the 1000
    frames of the default limit where a script calls them.
    [json_decode_error] is whether [requests] has a [JSONDecodeError] of
    its own, which it has from version 2.27 on; [invalid_json_error] is
    whether it has [InvalidJSONError] and writes a body without
    [allow_nan], as the versions from 2.26 on do. *)
Class Interp := {
  int_max_str_digits : option nat;
  recursion_room : nat;
  json_decode_error : bool;
  invalid_json_error : bool;
}.

Definition cpython311 : Interp :=
  {| int_max_str_digits := Some 4300; recursion_room := 990;
     json_decode_error := true; invalid_json_error := true |}.

(** [py_int] on the text of one run of digits. *)
Lemma py_int_digits (limit : option nat) (g : list nat) :
  g ≠ [] → is_digits g → within_limit limit (length g) = true →
  py_int limit (digits_str g) = Some (digits_val g).
Proof.
  intros Hne Hg Hlim.
  pose proof (py_int_lit_text limit (Literal "" NoSign [g] "")) as H.
  unfold lit_text, lit_value, lit_digits in H. cbn in H.
  rewrite app_nil_r, string_app_nil_r, Hlim in H. apply H.
  split; cbn; [done|done|done|]. by repeat constructor.
Qed.

(** A character of a join is a character of a part, or the separator. *)
Lemma py_join_chars (sep c : ascii) (l : list string) :
  c ∈ chars (py_join sep l) → c = sep ∨ ∃ p, p ∈ l ∧ c ∈ chars p.
Proof.
  induction l as [|p l IH]; [by intros ?%elem_of_nil|].
  destruct l as [|q l].
  - intros Hc. right. exists p. split; [left|done].
  - rewrite py_join_cons, chars_app. cbn [chars].
    intros [Hc|[->|Hc]%elem_of_cons]%elem_of_app.
    + right. exists p. split; [left|done].
    + by left.
    + destruct (IH Hc) as [->|(p' & Hp' & Hc')]; [by left|].
      right. exists p'. split; [by right|done].
Qed.

(** A part of a join lies inside the join. *)
Lemma py_join_part (sep : ascii) (p : string) (l : list string) :
  p ∈ l → ∃ a b, py_join sep l = a +:+ p +:+ b.
Proof.
  induction l as [|q l IH]; [by intros ?%elem_of_nil|].
  intros [->|Hp]%elem_of_cons.
  - destruct l as [|q' l]; [by exists "", ""; rewrite string_app_nil_r|].
    by exists "", (String sep (py_join sep (q' :: l))).
  - destruct l as [|q' l]; [by apply elem_of_nil in Hp|].
    destruct (IH Hp) as (a & b & E). exists (q +:+ String sep a), b.
    by rewrite py_join_cons, E, string_app_assoc.
Qed.

(** A part of a split lies inside the string. *)
Lemma py_split_part (sep : ascii) (p s : string) :
  p ∈ py_split sep s → ∃ a b, s = a +:+ p +:+ b.
Proof.
  intros Hp. destruct (py_join_part sep p _ Hp) as (a & b & E).
  exists a, b. by rewrite <-E, py_join_split.
Qed.
