(* ===== verification/PyNum.v ===== *)
(** * Numbers and their text

    What the JSON encoder and decoder of the standard library call on
    numbers: [str] of an integer ([int_text]; the limit on the number of
    digits is counted on [digits_of]), [float] of decimal text
    ([float_of_decimal], rounded to the nearest double, ties to even) and
    [repr] of a float ([float_str], the shortest decimal text that reads
    back as the float).

    A double is a [spec_float] of the standard library's specification of
    IEEE 754 arithmetic, with the precision and the exponent range of
    binary64; [dyadic_of] gives a finite double as the pair [(m, e)],
    [m * 2^e] with [m] odd.

    [float_of_decimal] and [float_str] were run against CPython 3.11 on
    2330 and 4900 numbers; what is proved here is about the digits of
    integers: [digits_of] gives the digits of a number
    ([digits_of_spec]), [int] reads back what [str] wrote
    ([py_int_int_text]), and a number [int] accepted is within the limit
    of [str] ([py_int_within]). *)

From Stdlib Require Import Floats.SpecFloat.
From S2P Require Import Prelude PyStr.

#[local] Open Scope Z_scope.

(** ** [str] of an integer *)

(** The decimal digits of [n], the most significant first, before [acc];
    [fuel] bounds the number of digits. *)
Fixpoint digits_from (fuel : nat) (n : Z) (acc : list nat) : list nat :=
  match fuel with
  | O => acc
  | S fuel' =>
      let acc' := Z.to_nat (n mod 10) :: acc in
      if n <? 10 then acc' else digits_from fuel' (n / 10) acc'
  end.

(** A number below [2^k] has at most [k] digits, and zero has one. *)
Definition digits_of (n : Z) : list nat :=
  digits_from (S (Z.to_nat (Z.log2 n))) n [].

#[global] Arguments digits_of : simpl never.

Definition nat_str (n : Z) : string := digits_str (digits_of n).

(** [str(n)], without the limit. *)
Definition int_text (n : Z) : string :=
  sign_text (if n <? 0 then Minus else NoSign) +:+ nat_str (Z.abs n).

(** ** Doubles *)

Definition prec : Z := 53.
Definition emax : Z := 1024.

(** [p * 2^e] with the factors two of [p] moved to the exponent. *)
Fixpoint strip_twos (p : positive) (e : Z) : positive * Z :=
  match p with
  | xO p' => strip_twos p' (e + 1)
  | _ => (p, e)
  end.

(** A finite double as [m * 2^e], [None] for the infinities and NaN.  The
    two zeros are one number. *)
Definition dyadic_of (x : spec_float) : option (Z * Z) :=
  match x with
  | S754_zero _ => Some (0, 0)
  | S754_finite s m e =>
      let '(m', e') := strip_twos m e in Some (if s then Z.neg m' else Z.pos m', e')
  | S754_infinity _ | S754_nan => None
  end.

(** ** [float] of decimal text

    [float_of_decimal neg n k] is [float] of the text that denotes
    [n * 10^k], negated when [neg]: the nearest double, the even one of
    two nearest, an infinity beyond the largest double. *)
Definition float_of_decimal (neg : bool) (n k : Z) : spec_float :=
  match n with
  | Z.pos p =>
      if 0 <=? k then
        binary_normalize prec emax (if neg then - (n * 10 ^ k) else n * 10 ^ k) 0 neg
      else
        SFdiv prec emax (S754_finite neg p 0)
              (S754_finite false (Z.to_pos (10 ^ (- k))) 0)
  | _ => S754_zero neg
  end.

(** ** [repr] of a float *)

(** The least [j] from [j] on with [den <= num * 10^j]. *)
Fixpoint scale_up (fuel : nat) (num den j : Z) : Z :=
  match fuel with
  | O => j
  | S fuel' => if den <=? num then j else scale_up fuel' (num * 10) den (j + 1)
  end.

(** The decimal exponent of [num / den]: the [E] with
    [10^E <= num / den < 10^(E+1)]. *)
Definition dec_exp (num den : Z) : Z :=
  if den <=? num then Z.of_nat (length (digits_of (num / den))) - 1
  else - scale_up (S (Z.to_nat (Z.log2 den))) num den 0.

(** Whether the decimal [d * 10^q] reads as the double [a * 2^e]. *)
Definition reads_as (a e d q : Z) : bool :=
  bool_decide (dyadic_of (float_of_decimal false d q) =
               dyadic_of (S754_finite false (Z.to_pos a) e)).

(** The shortest decimal that reads as [a * 2^e = num / den], from [n]
    digits on: of the two decimals of [n] digits next to the number the
    one that reads as it, the nearer one if both do; with one digit more
    if none does.  Seventeen digits are enough for every double. *)
Fixpoint shortest (fuel : nat) (n a e num den E : Z) : Z * Z :=
  let q := E - (n - 1) in
  let num' := num * 10 ^ Z.max (- q) 0 in
  let den' := den * 10 ^ Z.max q 0 in
  let lo := num' / den' in
  match fuel with
  | O => (lo, q)
  | S fuel' =>
      match reads_as a e lo q, reads_as a e (lo + 1) q with
      | true, true => if 2 * (num' mod den') <=? den' then (lo, q) else (lo + 1, q)
      | true, false => (lo, q)
      | false, true => (lo + 1, q)
      | false, false => shortest fuel' (n + 1) a e num den E
      end
  end.

(** Zeros at the end of the digits go to the exponent. *)
Fixpoint strip_tens (fuel : nat) (d q : Z) : Z * Z :=
  match fuel with
  | O => (d, q)
  | S fuel' => if d mod 10 =? 0 then strip_tens fuel' (d / 10) (q + 1) else (d, q)
  end.

Fixpoint zeros (n : nat) : string :=
  match n with
  | O => ""
  | S n' => String "0" (zeros n')
  end.

(** The point after the first [k] characters. *)
Fixpoint insert_point (k : nat) (ds : string) : string :=
  match k, ds with
  | O, _ => String "." ds
  | S k', String c ds' => String c (insert_point k' ds')
  | S k', "" => ""
  end.

(** The digits [ds] with the point after [decpt] of them, as [repr] lays
    them out: with an exponent when the point is more than sixteen places
    to the right or more than three zeros to the left. *)
Definition float_layout (ds : string) (decpt : Z) : string :=
  let n := Z.of_nat (String.length ds) in
  if (-4 <? decpt) && (decpt <=? 16) then
    if decpt <=? 0 then "0." +:+ zeros (Z.to_nat (- decpt)) +:+ ds
    else if n <=? decpt then ds +:+ zeros (Z.to_nat (decpt - n)) +:+ ".0"
    else insert_point (Z.to_nat decpt) ds
  else
    let x := decpt - 1 in
    let mantissa :=
      match ds with
      | String c (String _ _ as rest) => String c (String "." rest)
      | _ => ds
      end in
    mantissa +:+ "e" +:+ (if x <? 0 then "-" else "+") +:+
    (if Z.abs x <? 10 then "0" else "") +:+ nat_str (Z.abs x).

(** [repr(x)] for the finite double [x = m * 2^e]. *)
Definition float_repr (m e : Z) : string :=
  match m with
  | 0 => "0.0"
  | _ =>
      let a := Z.abs m in
      let num := a * 2 ^ Z.max e 0 in
      let den := 2 ^ Z.max (- e) 0 in
      let '(d0, q0) := shortest 17 1 a e num den (dec_exp num den) in
      let '(d, q) := strip_tens 17 d0 q0 in
      let ds := nat_str d in
      let body := float_layout ds (Z.of_nat (String.length ds) + q) in
      if m <? 0 then String "-" body else body
  end.

(** [repr(x)] for a double: the zeros keep their sign. *)
Definition float_str (x : spec_float) : string :=
  match x with
  | S754_zero neg => if neg then "-0.0" else "0.0"
  | S754_infinity neg => if neg then "-inf" else "inf"
  | S754_nan => "nan"
  | S754_finite neg m e => float_repr (if neg then Z.neg m else Z.pos m) e
  end.

(** ** The digits of a number *)

Lemma log2_div10 n : 10 ≤ n → Z.log2 (n / 10) < Z.log2 n.
Proof.
  intros Hn. apply Z.log2_lt_pow2; [apply Z.div_str_pos; lia|].
  pose proof (Z.log2_spec n ltac:(lia)) as [Hlo Hhi].
  rewrite Z.pow_succ_r in Hhi by apply Z.log2_nonneg.
  apply Z.div_lt_upper_bound; lia.
Qed.

Lemma digits_val_from_cons acc d ds :
  digits_val_from acc (d :: ds) = digits_val_from (10 * acc + Z.of_nat d) ds.
Proof. done. Qed.

Lemma digits_from_spec fuel n acc :
  0 ≤ n → Z.log2 n < Z.of_nat fuel → is_digits acc →
  is_digits (digits_from fuel n acc) ∧
  digits_val (digits_from fuel n acc) = digits_val_from n acc ∧
  digits_from fuel n acc ≠ [].
Proof.
  revert n acc. induction fuel as [|fuel IH]; intros n acc Hn Hlog Hacc.
  { pose proof (Z.log2_nonneg n). lia. }
  cbn [digits_from].
  assert (is_digits (Z.to_nat (n mod 10) :: acc)) as Hacc'.
  { apply Forall_cons. split; [|done]. pose proof (Z.mod_pos_bound n 10). lia. }
  destruct (Z.ltb_spec n 10) as [Hlt|Hge].
  - split_and!; [done| |done]. unfold digits_val. rewrite digits_val_from_cons.
    rewrite Z.mod_small, Z2Nat.id by lia. f_equal.
  - destruct (IH (n / 10) (Z.to_nat (n mod 10) :: acc)) as (H1 & H2 & H3); [| |done|].
    + apply Z.div_pos; lia.
    + pose proof (log2_div10 n). lia.
    + split_and!; [done| |done]. rewrite H2, digits_val_from_cons.
      rewrite Z2Nat.id by (pose proof (Z.mod_pos_bound n 10); lia).
      f_equal. pose proof (Z.div_mod n 10). lia.
Qed.

(** The digits of a number are digits, give the number back, and are not
    empty: the fuel of [digits_of] is enough. *)
Lemma digits_of_spec n :
  0 ≤ n →
  is_digits (digits_of n) ∧ digits_val (digits_of n) = n ∧ digits_of n ≠ [].
Proof.
  intros Hn. unfold digits_of.
  destruct (digits_from_spec (S (Z.to_nat (Z.log2 n))) n []) as (H1 & H2 & H3);
    [done| |constructor|done].
  pose proof (Z.log2_nonneg n). lia.
Qed.

(** [int] on an optional sign and one run of digits. *)
Lemma py_int_sign_digits limit (sg : sign) (g : list nat) :
  g ≠ [] → is_digits g →
  py_int limit (sign_text sg +:+ digits_str g) =
  if within_limit limit (length g) then Some (sign_apply sg (digits_val g)) else None.
Proof.
  intros Hne Hg. pose proof (py_int_lit_text limit (Literal "" sg [g] "")) as H.
  unfold lit_text, lit_value, lit_digits in H. cbn in H.
  rewrite app_nil_r, string_app_nil_r in H. apply H.
  split; cbn; [done..|]. by repeat constructor.
Qed.

(** What [int] reads of the text of an integer is the integer: [str] and
    [int] raise on the same numbers. *)
Lemma py_int_int_text limit n :
  py_int limit (int_text n) =
  if within_limit limit (length (digits_of (Z.abs n))) then Some n else None.
Proof.
  unfold int_text, nat_str.
  destruct (digits_of_spec (Z.abs n)) as (Hd & Hv & Hne); [lia|].
  rewrite py_int_sign_digits, Hv by done.
  by destruct (Z.ltb_spec n 0); cbn [sign_apply]; rewrite ?Z.abs_neq, ?Z.abs_eq,
    ?Z.opp_involutive by lia.
Qed.

(** The digits of a positive number do not start with zero. *)
Lemma digits_from_head fuel n acc :
  0 < n → Z.log2 n < Z.of_nat fuel →
  ∃ d ds, digits_from fuel n acc = d :: ds ∧ (0 < d < 10)%nat.
Proof.
  revert n acc. induction fuel as [|fuel IH]; intros n acc Hn Hlog.
  { pose proof (Z.log2_nonneg n). lia. }
  cbn [digits_from]. destruct (Z.ltb_spec n 10) as [Hlt|Hge].
  - eexists _, _. split; [done|]. rewrite Z.mod_small by lia. lia.
  - apply IH; [apply Z.div_str_pos; lia|].
    pose proof (log2_div10 n). lia.
Qed.

Lemma digits_of_head n :
  0 ≤ n →
  digits_of n = [0%nat] ∨ ∃ d ds, digits_of n = d :: ds ∧ (0 < d < 10)%nat.
Proof.
  intros Hn. destruct (decide (n = 0)) as [->|Hne]; [by left|right].
  apply digits_from_head; [lia|]. pose proof (Z.log2_nonneg n). lia.
Qed.

(** ** The number of digits *)

Lemma digits_from_length fuel n acc (k : nat) :
  0 ≤ n < 10 ^ Z.of_nat k → (0 < k)%nat →
  (length (digits_from fuel n acc) ≤ length acc + k)%nat.
Proof.
  revert n acc k. induction fuel as [|fuel IH]; intros n acc k Hn Hk; cbn; [lia|].
  destruct (Z.ltb_spec n 10) as [Hlt|Hge]; cbn; [lia|].
  destruct k as [|[|k]]; [lia| |].
  { change (10 ^ Z.of_nat 1) with 10 in Hn. lia. }
  etrans; [apply (IH _ _ (S k)); [|lia]|cbn; lia].
  rewrite Nat2Z.inj_succ, Z.pow_succ_r in Hn by lia.
  split; [apply Z.div_pos; lia|apply Z.div_lt_upper_bound; lia].
Qed.

Lemma digits_val_bound (g : list nat) :
  is_digits g → 0 ≤ digits_val g < 10 ^ Z.of_nat (length g).
Proof.
  induction g as [|d g IH] using rev_ind; intros Hg; [done|].
  apply Forall_app in Hg as [Hg [Hd _]%Forall_cons]. specialize (IH Hg).
  unfold digits_val in *. rewrite digits_val_from_app, length_app. cbn.
  rewrite Nat2Z.inj_add, Z.pow_add_r by lia. change (10 ^ Z.of_nat 1) with 10. lia.
Qed.

(** A number written with [k] digits, leading zeros among them, has no
    more than [k] digits. *)
Lemma digits_of_length (g : list nat) :
  g ≠ [] → is_digits g → (length (digits_of (digits_val g)) ≤ length g)%nat.
Proof.
  intros Hne Hg. apply (digits_from_length _ _ []); [by apply digits_val_bound|].
  destruct g; [done|cbn; lia].
Qed.

(** What [int] accepted, [str] writes. *)
Lemma py_int_within limit s n :
  py_int limit s = Some n → within_limit limit (length (digits_of (Z.abs n))) = true.
Proof.
  intros (l & [_ _ Hne Hgs] & _ & -> & Hlim)%py_int_inv.
  destruct limit as [k|]; [|done]. cbn in *. apply bool_decide_eq_true in Hlim.
  apply bool_decide_eq_true. etrans; [|exact Hlim]. unfold lit_value, lit_digits.
  assert (is_digits (concat (lit_groups l))) as Hds.
  { apply Forall_concat. eapply Forall_impl; [exact Hgs|]. by intros g [_ ?]. }
  assert (concat (lit_groups l) ≠ []) as Hc.
  { destruct (lit_groups l) as [|g gs]; [done|]. apply Forall_cons in Hgs as [[Hg _] _].
    by destruct g. }
  pose proof (digits_val_bound _ Hds).
  replace (Z.abs _) with (digits_val (concat (lit_groups l)))
    by (destruct (lit_sign l); cbn; lia).
  by apply digits_of_length.
Qed.
