(* ===== verification/PyValue.v ===== *)
(** * Python values and exceptions

    [value] is what [response.json()] returns and what the script builds as
    the rule: [None], booleans, integers, floats, strings, lists and
    dictionaries with string keys.  A dictionary is an association list in
    insertion order; a key is looked up at its first binding.

    [exn] is the exceptions the script can meet, [isinstance] the classes
    its [except] clauses name.

    [pydict] is a dictionary with arbitrary hashable keys, as the
    comprehension of [get_existing_rules] builds it: keys are compared with
    Python's [==], under which [1], [1.0] and [True] are one key. *)

From Stdlib Require Import Floats.SpecFloat.
From S2P Require Import Prelude PyStr.

(** ** Values *)

#[local] Unset Elimination Schemes.

Inductive value :=
| VNone
| VBool (b : bool)
| VInt (n : Z)
| VFloat (x : spec_float)
| VStr (s : string)
| VList (l : list value)
| VDict (d : list (string * value)).

#[local] Set Elimination Schemes.

(** The induction principle descends into the lists. *)
Section ValueInd.
Context (P : value → Prop).
Context (HNone : P VNone) (HBool : ∀ b, P (VBool b)) (HInt : ∀ n, P (VInt n))
  (HFloat : ∀ x, P (VFloat x)) (HStr : ∀ s, P (VStr s))
  (HList : ∀ l, Forall P l → P (VList l))
  (HDict : ∀ d, Forall (λ kv, P kv.2) d → P (VDict d)).

Fixpoint value_ind' (v : value) : P v :=
  match v with
  | VNone => HNone
  | VBool b => HBool b
  | VInt n => HInt n
  | VFloat x => HFloat x
  | VStr s => HStr s
  | VList l =>
      HList l ((fix go (l : list value) : Forall P l :=
                  match l with
                  | [] => Forall_nil_2 P
                  | x :: l' => Forall_cons_2 P x l' (value_ind' x) (go l')
                  end) l)
  | VDict d =>
      HDict d ((fix go (d : list (string * value)) : Forall (λ kv, P kv.2) d :=
                  match d with
                  | [] => Forall_nil_2 _
                  | kv :: d' => Forall_cons_2 _ kv d' (value_ind' kv.2) (go d')
                  end) d)
  end.

End ValueInd.

#[export] Instance spec_float_eq_dec : EqDecision spec_float.
Proof. solve_decision. Defined.

(** Equality of values is decidable. *)
Fixpoint value_eqb (x y : value) : bool :=
  match x, y with
  | VNone, VNone => true
  | VBool a, VBool b => bool_decide (a = b)
  | VInt a, VInt b => bool_decide (a = b)
  | VFloat x, VFloat y => bool_decide (x = y)
  | VStr s, VStr t => bool_decide (s = t)
  | VList l, VList l' =>
      (fix go (l l' : list value) : bool :=
         match l, l' with
         | [], [] => true
         | a :: l, b :: l' => value_eqb a b && go l l'
         | _, _ => false
         end) l l'
  | VDict d, VDict d' =>
      (fix go (d d' : list (string * value)) : bool :=
         match d, d' with
         | [], [] => true
         | (k, a) :: d, (k', b) :: d' =>
             bool_decide (k = k') && value_eqb a b && go d d'
         | _, _ => false
         end) d d'
  | _, _ => false
  end.

Lemma value_eqb_eq (x y : value) : value_eqb x y = true ↔ x = y.
Proof.
  revert y. induction x as [| | | | |l IH|d IH] using value_ind';
    intros [| | | | |l'|d']; cbn;
    rewrite ?andb_true_iff, ?bool_decide_eq_true;
    try (split; intros; destruct_and?; congruence).
  - revert l'. induction IH as [|a l Ha _ IHl]; intros [|b l'];
      try (split; intros; congruence).
    rewrite andb_true_iff, Ha. specialize (IHl l').
    split; [intros [-> [= ->]%IHl]; done | intros [= -> ->]].
    split; [done | by apply IHl].
  - revert d'. induction IH as [|[k a] d Ha _ IHd]; intros [|[k' b] d'];
      try (split; intros; congruence).
    rewrite !andb_true_iff, bool_decide_eq_true. cbn in Ha. rewrite Ha.
    specialize (IHd d').
    split; [intros [[-> ->] [= ->]%IHd]; done | intros [= -> -> ->]].
    split_and!; [done | done | by apply IHd].
Qed.

#[export] Instance value_eq_dec : EqDecision value.
Proof.
  intros x y. destruct (value_eqb x y) eqn:E.
  - left. by apply value_eqb_eq.
  - right. intros H%value_eqb_eq. congruence.
Defined.

(** ** Exceptions *)

Inductive exn :=
| TypeError
| KeyError (key : string)
| AttributeError
| ValueError
| JSONDecodeError (of_requests : bool)
| RequestException
| FileNotFoundError
| OSError
| CsvError
| RecursionError
| SystemExit (code : Z)
| OutOfModel.

(** The classes the [except] clauses of the script name. *)
Inductive exn_class := CException | CValueError | CRequestException | CFileNotFoundError.

(** [JSONDecodeError] is what [response.json()] raises on a body that is
    not JSON: a [ValueError] in every version of requests, and a
    [RequestException] too from requests 2.27 on ([of_requests]).
    [SystemExit] derives from [BaseException] only.  [OutOfModel] is no
    exception of Python: it ends the runs on which the script meets a
    string with a character above 255, which the strings of the
    development do not have; no clause catches it, and what the theorems
    say of a run that ends with it says nothing of the script. *)
Definition isinstance (e : exn) (c : exn_class) : bool :=
  match c, e with
  | _, OutOfModel => false
  | CException, SystemExit _ => false
  | CException, _ => true
  | CValueError, (ValueError | JSONDecodeError _) => true
  | CRequestException, (RequestException | JSONDecodeError true) => true
  | CFileNotFoundError, FileNotFoundError => true
  | _, _ => false
  end.

#[global] Arguments isinstance : simpl nomatch.

#[export] Instance exn_eq_dec : EqDecision exn.
Proof.
  intros x y. unfold Decision.
  decide equality; [apply String.eq_dec | apply bool_dec | apply Z.eq_dec].
Defined.

#[export] Instance exn_class_eq_dec : EqDecision exn_class.
Proof. solve_decision. Defined.

Abbreviation result := (outcome exn).

(** ** Dictionaries with string keys *)

Fixpoint assoc {A} (k : string) (d : list (string * A)) : option A :=
  match d with
  | [] => None
  | (k', v) :: d' => if decide (k' = k) then Some v else assoc k d'
  end.

(** ** The operations of the script on values *)

(** [needle in data], line 42. *)
Definition py_contains (needle : string) (data : value) : result bool :=
  match data with
  | VDict d => Ret (bool_decide (is_Some (assoc needle d)))
  | VList l => Ret (bool_decide (VStr needle ∈ l))
  | VStr s => Ret (str_contains needle s)
  | VNone | VBool _ | VInt _ | VFloat _ => Raise TypeError
  end.

(** [data[key]] for a string [key], lines 42 and 43. *)
Definition py_getitem (data : value) (key : string) : result value :=
  match data with
  | VDict d => of_option (assoc key d) (KeyError key)
  | _ => Raise TypeError
  end.

(** [isinstance(v, list)], line 42. *)
Definition is_list (v : value) : bool :=
  match v with VList _ => true | _ => false end.

(** [v.get(key, default)], line 137: only dictionaries have the method. *)
Definition py_get (v : value) (key : string) (dflt : value) : result value :=
  match v with
  | VDict d => Ret (default dflt (assoc key d))
  | _ => Raise AttributeError
  end.

(** ** Hashable keys and Python's [==] on them

    Lists and dictionaries are not hashable.  Numbers are compared by
    value, whatever their type: [True == 1 == 1.0], and [0.0 == -0.0].
    The decoder of JSON gives one object for every [NaN] it reads, and a
    dictionary finds a key that is the object it holds before it asks
    [==]: among the values of the script [NaN] is the key [NaN]. *)

Definition hashable (v : value) : bool :=
  match v with
  | VList _ | VDict _ => false
  | _ => true
  end.

(** A number: [m * 2^e], an infinity, or [nan]. *)
Inductive num := Dyadic (m e : Z) | Infinite (neg : bool) | NotANumber.

Definition num_of_float (x : spec_float) : num :=
  match x with
  | S754_zero _ => Dyadic 0 0
  | S754_infinity neg => Infinite neg
  | S754_nan => NotANumber
  | S754_finite neg m e => Dyadic (if neg then Z.neg m else Z.pos m) e
  end.

Definition num_of (v : value) : option num :=
  match v with
  | VBool b => Some (Dyadic (Z.b2z b) 0)
  | VInt n => Some (Dyadic n 0)
  | VFloat x => Some (num_of_float x)
  | _ => None
  end.

Definition dyadic_eqb (x y : Z * Z) : bool :=
  let e := (x.2 `min` y.2)%Z in
  bool_decide (x.1 * 2 ^ (x.2 - e) = y.1 * 2 ^ (y.2 - e))%Z.

Definition num_eqb (x y : num) : bool :=
  match x, y with
  | Dyadic m e, Dyadic m' e' => dyadic_eqb (m, e) (m', e')
  | Infinite a, Infinite b => bool_decide (a = b)
  | NotANumber, NotANumber => true
  | _, _ => false
  end.

Definition key_eqb (a b : value) : bool :=
  match a, b with
  | VNone, VNone => true
  | VStr s, VStr t => bool_decide (s = t)
  | _, _ =>
      match num_of a, num_of b with
      | Some x, Some y => num_eqb x y
      | _, _ => false
      end
  end.

(** ** Dictionaries with hashable keys *)

Definition pydict := list (value * value).

Fixpoint dict_lookup (d : pydict) (k : value) : option value :=
  match d with
  | [] => None
  | (k', v') :: d' => if key_eqb k' k then Some v' else dict_lookup d' k
  end.

(** [d[k] = v] on an existing key keeps the key object and its place. *)
Fixpoint dict_update (d : pydict) (k v : value) : pydict :=
  match d with
  | [] => [(k, v)]
  | (k', v') :: d' =>
      if key_eqb k' k then (k', v) :: d' else (k', v') :: dict_update d' k v
  end.

Definition dict_setitem (d : pydict) (k v : value) : result pydict :=
  if hashable k then Ret (dict_update d k v) else Raise TypeError.

(** [name in d] and [d[name]] for a string [name], lines 58 and 59. *)
Definition dict_contains (d : pydict) (name : string) : bool :=
  bool_decide (is_Some (dict_lookup d (VStr name))).

(** Keys are hashable and pairwise different. *)
Fixpoint dict_wf (d : pydict) : Prop :=
  match d with
  | [] => True
  | (k, _) :: d' => hashable k = true ∧ dict_lookup d' k = None ∧ dict_wf d'
  end.

(** ** Laws of key equality *)

Definition key_equiv (a b : value) : Prop := key_eqb a b = true.

Lemma dyadic_eqb_scale (x y : Z * Z) (e : Z) :
  (e ≤ x.2)%Z → (e ≤ y.2)%Z →
  dyadic_eqb x y = true ↔ (x.1 * 2 ^ (x.2 - e) = y.1 * 2 ^ (y.2 - e))%Z.
Proof.
  destruct x as [m1 e1], y as [m2 e2]. cbn. intros H1 H2.
  unfold dyadic_eqb. cbn. rewrite bool_decide_eq_true.
  set (k := (e1 `min` e2)%Z).
  assert (∀ f, (k ≤ f)%Z → (2 ^ (f - e) = 2 ^ (f - k) * 2 ^ (k - e))%Z) as Hpow.
  { intros f Hf. rewrite <-Z.pow_add_r by lia. f_equal. lia. }
  rewrite (Hpow e1), (Hpow e2) by lia.
  assert (0 < 2 ^ (k - e))%Z by (apply Z.pow_pos_nonneg; lia).
  rewrite !Z.mul_assoc. split; [by intros ->|]. by intros ?%Z.mul_cancel_r; [|lia].
Qed.

Lemma dyadic_eqb_refl x : dyadic_eqb x x = true.
Proof. unfold dyadic_eqb. by rewrite bool_decide_eq_true. Qed.

Lemma dyadic_eqb_sym x y : dyadic_eqb x y = dyadic_eqb y x.
Proof.
  unfold dyadic_eqb. rewrite (Z.min_comm y.2). apply bool_decide_ext. naive_solver.
Qed.

Lemma dyadic_eqb_trans x y z :
  dyadic_eqb x y = true → dyadic_eqb y z = true → dyadic_eqb x z = true.
Proof.
  set (e := (x.2 `min` (y.2 `min` z.2))%Z).
  rewrite !(dyadic_eqb_scale _ _ e) by lia. congruence.
Qed.

Lemma num_eqb_refl x : num_eqb x x = true.
Proof. destruct x; cbn; [apply dyadic_eqb_refl | by apply bool_decide_eq_true | done]. Qed.

Lemma num_eqb_sym x y : num_eqb x y = num_eqb y x.
Proof.
  destruct x, y; cbn; try done; [apply dyadic_eqb_sym|].
  apply bool_decide_ext. naive_solver.
Qed.

Lemma num_eqb_trans x y z : num_eqb x y = true → num_eqb y z = true → num_eqb x z = true.
Proof.
  destruct x, y, z; cbn; try done; [apply dyadic_eqb_trans|].
  rewrite !bool_decide_eq_true. congruence.
Qed.

Lemma key_eqb_refl k : hashable k = true → key_eqb k k = true.
Proof.
  destruct k; cbn [key_eqb num_of hashable]; try done; auto using num_eqb_refl.
  by rewrite bool_decide_eq_true.
Qed.

Lemma key_eqb_sym a b : key_eqb a b = key_eqb b a.
Proof.
  destruct a, b; cbn [key_eqb num_of]; try done; auto using num_eqb_sym.
  apply bool_decide_ext. naive_solver.
Qed.

Lemma key_eqb_trans a b c :
  key_eqb a b = true → key_eqb b c = true → key_eqb a c = true.
Proof.
  destruct a, b, c; cbn [key_eqb num_of]; try done; try apply num_eqb_trans.
  rewrite !bool_decide_eq_true. congruence.
Qed.

Lemma key_eqb_hashable a b : key_eqb a b = true → hashable a = true ∧ hashable b = true.
Proof. by destruct a, b. Qed.

(** Key equality is a partial equivalence: an equivalence on the hashable
    values. *)
#[export] Instance key_equiv_sym : Symmetric key_equiv.
Proof. intros a b. unfold key_equiv. by rewrite key_eqb_sym. Qed.

#[export] Instance key_equiv_trans : Transitive key_equiv.
Proof. intros a b c. apply key_eqb_trans. Qed.

(** A string is equal to itself only. *)
Lemma key_eqb_str_r k s : key_eqb k (VStr s) = true ↔ k = VStr s.
Proof.
  destruct k; cbn; try (split; congruence).
  rewrite bool_decide_eq_true. split; congruence.
Qed.

Lemma key_eqb_str_l k s : key_eqb (VStr s) k = true ↔ k = VStr s.
Proof. by rewrite key_eqb_sym, key_eqb_str_r. Qed.

(** Equal keys are looked up alike. *)
#[export] Instance dict_lookup_proper (d : pydict) :
  Proper (key_equiv ==> eq) (dict_lookup d).
Proof.
  intros a b Hab. induction d as [|[k v] d IH]; [done|]. cbn.
  destruct (key_eqb k a) eqn:Ea, (key_eqb k b) eqn:Eb; try done.
  - by rewrite (key_eqb_trans k a b) in Eb.
  - symmetry in Hab. by rewrite (key_eqb_trans k b a) in Ea.
Qed.

(** ** Laws of dictionaries *)

Section Dict.
Implicit Types (d : pydict) (k v : value).

Lemma dict_lookup_update_eq d k k' v :
  hashable k = true → key_equiv k k' →
  dict_lookup (dict_update d k v) k' = Some v.
Proof.
  intros Hk Hkk'. rewrite <-(dict_lookup_proper _ k k' Hkk'). clear k' Hkk'.
  induction d as [|[k0 v0] d IH]; cbn.
  - by rewrite key_eqb_refl.
  - destruct (key_eqb k0 k) eqn:E; cbn; by rewrite E.
Qed.

Lemma dict_lookup_update_ne d k k' v :
  key_eqb k k' = false →
  dict_lookup (dict_update d k v) k' = dict_lookup d k'.
Proof.
  intros Hkk'. induction d as [|[k0 v0] d IH]; cbn.
  - by rewrite Hkk'.
  - destruct (key_eqb k0 k) eqn:E; cbn; [|by rewrite IH].
    destruct (key_eqb k0 k') eqn:E'; [|done].
    rewrite key_eqb_sym in E. by rewrite (key_eqb_trans k k0 k') in Hkk'.
Qed.

Lemma dict_update_wf d k v :
  hashable k = true → dict_wf d → dict_wf (dict_update d k v).
Proof.
  intros Hk. induction d as [|[k0 v0] d IH]; cbn; [done|].
  intros (Hk0 & Hfresh & Hd). destruct (key_eqb k0 k) eqn:E; cbn; [done|].
  split_and!; [done| |by apply IH].
  rewrite dict_lookup_update_ne; [done|]. by rewrite key_eqb_sym.
Qed.

Lemma dict_update_length d k v :
  length (dict_update d k v) =
  match dict_lookup d k with Some _ => length d | None => S (length d) end.
Proof.
  induction d as [|[k0 v0] d IH]; cbn; [done|].
  destruct (key_eqb k0 k); cbn; [done|]. rewrite IH. by destruct (dict_lookup d k).
Qed.

Lemma dict_contains_spec d name :
  dict_contains d name = true ↔ is_Some (dict_lookup d (VStr name)).
Proof. unfold dict_contains. by rewrite bool_decide_eq_true. Qed.

End Dict.

#[export] Hint Resolve key_eqb_refl dict_update_wf : py.
