(* ===== verification/Json.v ===== *)
(** * JSON text

    What [requests] does with the argument [json=rule] of line 135 and
    what [response.json()] does with the text of a response: the encoder
    and the decoder of Python's [json] module, as [requests] calls them.

    [json_dumps] is [json.dumps(v, allow_nan=...)]: the separators are
    [", "] and [": "], every character outside the printable ASCII range
    is written as an escape.  [json_loads] is [json.loads(text)]: the
    recursive descent of [scan_once] with [scanstring] for strings and the
    number syntax of the scanner.  The decoder ends in four ways beside a
    value ([failure]): the text is not JSON ([JSONDecodeError]), an
    integer has more digits than the interpreter converts ([ValueError]),
    the arrays and objects are nested deeper than the interpreter has
    frames left ([RecursionError]), or a string of the text has a
    character above 255, which the strings of the development do not
    have ([Beyond]).  The encoder ends with the first of the failures it
    meets on its way through the value ([refusal]): an integer beyond
    the limit, a float that is no number when [allow_nan] is off
    ([OutOfRange]), or a nesting deeper than the frames left.

    The descent is not structural: [scan_once] takes fuel, and
    [json_loads] gives it twice the length of the text, which is enough
    ([json_loads_terminates]).  The decoder reads back what the encoder
    wrote ([json_roundtrip]); both stop at the same depth
    ([json_too_deep]) and at the same number of digits
    ([json_digit_limit]); what the decoder returns, the encoder writes
    ([json_loads_decoded]).

    Both were run against the [json] module of CPython 3.11: the decoder
    on 2132 texts, the encoder on 445 values. *)

From Stdlib Require Import Floats.SpecFloat.
From S2P Require Import Prelude PyStr PyNum PyValue.

(** ** Characters *)

Definition DQ : ascii := "034"%char.
Definition BS : ascii := "\"%char.

(** A hexadecimal digit, in lower case as the encoder writes it. *)
Definition hex_char (n : N) : ascii :=
  if (n <? 10)%N then ascii_of_N (48 + n) else ascii_of_N (87 + n).

(** The value of a hexadecimal digit of either case. *)
Definition hex_val (c : ascii) : option N :=
  let n := N_of_ascii c in
  if (48 <=? n)%N && (n <=? 57)%N then Some (n - 48)%N
  else if (97 <=? n)%N && (n <=? 102)%N then Some (n - 87)%N
  else if (65 <=? n)%N && (n <=? 70)%N then Some (n - 55)%N
  else None.

#[global] Arguments hex_val : simpl never.

(** ** The encoder *)

(** [ESCAPE_DCT] and the replacement of [encode_basestring_ascii]: the
    quote and the backslash after a backslash, five control characters by
    their letter, every other character outside [' '..'~'] as [\u00XX]. *)
Definition escape_char (c : ascii) : string :=
  let n := N_of_ascii c in
  if decide (c = DQ) then String BS (String DQ "")
  else if decide (c = BS) then String BS (String BS "")
  else if (n =? 8)%N then String BS "b"
  else if (n =? 9)%N then String BS "t"
  else if (n =? 10)%N then String BS "n"
  else if (n =? 12)%N then String BS "f"
  else if (n =? 13)%N then String BS "r"
  else if (n <? 32)%N || (126 <? n)%N then
    String BS (String "u" (String "0" (String "0"
      (String (hex_char (n / 16)) (String (hex_char (n mod 16)) "")))))
  else String c "".

Fixpoint escape_ascii (s : string) : string :=
  match s with
  | "" => ""
  | String c s' => escape_char c +:+ escape_ascii s'
  end.

(** [encode_basestring_ascii]. *)
Definition encode_string (s : string) : string :=
  String DQ (escape_ascii s +:+ String DQ "").

(** The items of an array or an object, separated by [", "]. *)
Fixpoint join_items (items : list string) : string :=
  match items with
  | [] => ""
  | [x] => x
  | x :: items' => x +:+ ", " +:+ join_items items'
  end.

(** The text of a float: [repr], and the words of JavaScript for what
    is no number of JSON. *)
Definition float_json (x : spec_float) : string :=
  match x with
  | S754_infinity neg => if neg then "-Infinity" else "Infinity"
  | S754_nan => "NaN"
  | _ => float_str x
  end.

Definition is_finite (x : spec_float) : bool :=
  match x with
  | S754_infinity _ | S754_nan => false
  | _ => true
  end.

(** The text of a value, the limit on the digits of an integer apart. *)
Fixpoint dumps_text (v : value) : string :=
  match v with
  | VNone => "null"
  | VBool b => if b then "true" else "false"
  | VInt n => int_text n
  | VFloat x => float_json x
  | VStr s => encode_string s
  | VList l => "[" +:+ join_items (dumps_text <$> l) +:+ "]"
  | VDict d =>
      "{" +:+ join_items ((λ kv, encode_string kv.1 +:+ ": " +:+ dumps_text kv.2) <$> d)
      +:+ "}"
  end.

(** The values whose numbers the encoder writes: no integer that [str]
    refuses, and without [allow_nan] no float that is not finite. *)
Fixpoint encodable (allow_nan : bool) (limit : option nat) (v : value) : bool :=
  match v with
  | VInt n => within_limit limit (length (digits_of (Z.abs n)))
  | VFloat x => allow_nan || is_finite x
  | VList l => forallb (encodable allow_nan limit) l
  | VDict d => forallb (λ kv, encodable allow_nan limit kv.2) d
  | _ => true
  end.

(** The arrays and objects around the innermost value. *)
Fixpoint value_depth (v : value) : nat :=
  match v with
  | VList l => S (max_list (value_depth <$> l))
  | VDict d => S (max_list ((λ kv, value_depth kv.2) <$> d))
  | _ => 0
  end.

(** How the encoder and the decoder end when they give no result: the
    text is not JSON, an integer has more digits than [int] and [str]
    convert, the arrays and objects are deeper than the recursion limit
    allows, a string has a character above 255, a float is no number of
    JSON. *)
Inductive failure :=
| NotJson
| DigitLimit
| TooDeep
| Beyond
| OutOfRange.

#[export] Instance failure_eq_dec : EqDecision failure.
Proof. solve_decision. Defined.

(** What the [json] module raises. *)
Definition failure_exn (f : failure) : exn :=
  match f with
  | NotJson => JSONDecodeError false
  | DigitLimit | OutOfRange => ValueError
  | TooDeep => RecursionError
  | Beyond => OutOfModel
  end.

Fixpoint first_some {A B} (f : A → option B) (l : list A) : option B :=
  match l with
  | [] => None
  | x :: l' => match f x with Some y => Some y | None => first_some f l' end
  end.

(** What stops the encoder first, in the order it writes the value, with
    room for [depth] arrays and objects inside one another. *)
Fixpoint refusal (allow_nan : bool) (limit : option nat) (depth : nat) (v : value)
    {struct v} : option failure :=
  match v with
  | VInt n =>
      if within_limit limit (length (digits_of (Z.abs n))) then None else Some DigitLimit
  | VFloat x => if allow_nan || is_finite x then None else Some OutOfRange
  | VList l =>
      match depth with
      | O => Some TooDeep
      | S depth' => first_some (refusal allow_nan limit depth') l
      end
  | VDict d =>
      match depth with
      | O => Some TooDeep
      | S depth' => first_some (λ kv, refusal allow_nan limit depth' kv.2) d
      end
  | _ => None
  end.

(** [json.dumps(v, allow_nan=allow_nan)]. *)
Definition json_dumps (allow_nan : bool) (limit : option nat) (depth : nat) (v : value)
    : outcome failure string :=
  match refusal allow_nan limit depth v with
  | Some f => Raise f
  | None => Ret (dumps_text v)
  end.

(** ** The decoder *)

Definition is_ws (c : ascii) : bool :=
  match N_of_ascii c with
  | 9 | 10 | 13 | 32 => true
  | _ => false
  end%N.

#[global] Arguments is_ws : simpl never.

Fixpoint skip_ws (s : string) : string :=
  match s with
  | String c s' => if is_ws c then skip_ws s' else s
  | "" => ""
  end.

(** The text after the character [c], when the text starts with it. *)
Definition starts (c : ascii) (s : string) : option string :=
  match s with
  | String c' s' => if decide (c' = c) then Some s' else None
  | "" => None
  end.

(** The character a backslash and [e] stand for, [\u] apart. *)
Definition unescape (e : ascii) : option ascii :=
  if decide (e = DQ) then Some DQ
  else if decide (e = BS) then Some BS
  else if decide (e = "/"%char) then Some "/"%char
  else if decide (e = "b"%char) then Some "008"%char
  else if decide (e = "f"%char) then Some "012"%char
  else if decide (e = "n"%char) then Some "010"%char
  else if decide (e = "r"%char) then Some "013"%char
  else if decide (e = "t"%char) then Some "009"%char
  else None.

(** The code point of four hexadecimal digits. *)
Definition hex4 (a b c d : ascii) : option N :=
  x ← hex_val a; y ← hex_val b; z ← hex_val c; w ← hex_val d;
  Some (((x * 16 + y) * 16 + z) * 16 + w)%N.

(** The character [c] before the string that [r] scanned. *)
Definition scanned (c : ascii) (r : outcome failure (string * string))
    : outcome failure (string * string) :=
  p ← r; Ret (String c p.1, p.2).

(** [scanstring], strict: the string up to the closing quote and the text
    after it.  A control character, an unknown escape and the end of the
    text before the quote are errors. *)
Fixpoint scanstring (s : string) : outcome failure (string * string) :=
  match s with
  | "" => Raise NotJson
  | String c s' =>
      if decide (c = DQ) then Ret ("", s')
      else if decide (c = BS) then
        match s' with
        | "" => Raise NotJson
        | String e s'' =>
            if decide (e = "u"%char) then
              match s'' with
              | String h1 (String h2 (String h3 (String h4 s3))) =>
                  match hex4 h1 h2 h3 h4 with
                  | Some n =>
                      if (n <? 256)%N then scanned (ascii_of_N n) (scanstring s3)
                      else Raise Beyond
                  | None => Raise NotJson
                  end
              | _ => Raise NotJson
              end
            else
              match unescape e with
              | Some c' => scanned c' (scanstring s'')
              | None => Raise NotJson
              end
        end
      else if (N_of_ascii c <? 32)%N then Raise NotJson
      else scanned c (scanstring s')
  end.

(** The digits at the head of a text, and the text after them. *)
Fixpoint take_digits (s : string) : list nat * string :=
  match s with
  | String c s' =>
      match digit_of c with
      | Some d => let '(ds, rest) := take_digits s' in (Z.to_nat d :: ds, rest)
      | None => ([], s)
      end
  | "" => ([], "")
  end.

(** At least one digit. *)
Definition take_digits1 (s : string) : option (list nat * string) :=
  match take_digits s with
  | ([], _) => None
  | r => Some r
  end.

(** The integer part of a number: [0], or digits that do not start with
    [0]. *)
Definition take_integer (s : string) : option (list nat * string) :=
  match starts "0" s with
  | Some s' => Some ([0], s')
  | None => take_digits1 s
  end.

(** The fraction: a point and at least one digit. *)
Definition take_fraction (s : string) : option (list nat * string) :=
  starts "." s ≫= take_digits1.

(** A sign or none. *)
Definition take_sign (s : string) : bool * string :=
  match starts "-" s, starts "+" s with
  | Some t, _ => (true, t)
  | None, Some t => (false, t)
  | None, None => (false, s)
  end.

(** The exponent: [e] or [E], a sign or none, at least one digit. *)
Definition take_exponent (s : string) : option (Z * string) :=
  match s with
  | String c s' =>
      if bool_decide (c = "e"%char) || bool_decide (c = "E"%char) then
        let '(neg, s'') := take_sign s' in
        '(ds, rest) ← take_digits1 s'';
        Some (if neg then - digits_val ds else digits_val ds, rest)%Z
      else None
  | "" => None
  end.

(** [int] of the digits of a number without fraction and exponent. *)
Definition int_number (limit : option nat) (neg : bool) (ds : list nat) (rest : string)
    : outcome failure (value * string) :=
  match py_int limit (sign_text (if neg then Minus else NoSign) +:+ digits_str ds) with
  | Some n => Ret (VInt n, rest)
  | None => Raise DigitLimit
  end.

(** [float] of the digits, the digits of the fraction and the exponent. *)
Definition float_number (neg : bool) (ds fs : list nat) (ex : Z) (rest : string)
    : outcome failure (value * string) :=
  Ret (VFloat (float_of_decimal neg (digits_val (ds ++ fs)) (ex - Z.of_nat (length fs))), rest).

(** The number at the head of a text, [NUMBER_RE]: [int] of the text
    without fraction and exponent, [float] of the text with one of
    them. *)
Definition match_number (limit : option nat) (s : string)
    : option (outcome failure (value * string)) :=
  let '(neg, s1) := from_option (λ t, (true, t)) (false, s) (starts "-" s) in
  '(ds, s2) ← take_integer s1;
  match take_fraction s2 with
  | Some (fs, s3) =>
      match take_exponent s3 with
      | Some (ex, s4) => Some (float_number neg ds fs ex s4)
      | None => Some (float_number neg ds fs 0 s3)
      end
  | None =>
      match take_exponent s2 with
      | Some (ex, s4) => Some (float_number neg ds [] ex s4)
      | None => Some (int_number limit neg ds s2)
      end
  end.

(** [dict(pairs)]: a later value replaces the value of an equal key, at
    the place of the first. *)
Fixpoint assoc_set (d : list (string * value)) (k : string) (v : value)
    : list (string * value) :=
  match d with
  | [] => [(k, v)]
  | (k', v') :: d' => if decide (k' = k) then (k', v) :: d' else (k', v') :: assoc_set d' k v
  end.

Definition dict_of_pairs (pairs : list (string * value)) : list (string * value) :=
  foldl (λ d kv, assoc_set d kv.1 kv.2) [] pairs.

(** A word at the head of the text. *)
Fixpoint after_word (w s : string) : option string :=
  match w, s with
  | "", _ => Some s
  | String a w', String b s' => if decide (a = b) then after_word w' s' else None
  | String _ _, "" => None
  end.

(** The words of the scanner, in the order it tries them: [NaN] and the
    infinities are no JSON, and the decoder reads them. *)
Definition words : list (string * value) :=
  [("null", VNone); ("true", VBool true); ("false", VBool false);
   ("NaN", VFloat S754_nan); ("Infinity", VFloat (S754_infinity false));
   ("-Infinity", VFloat (S754_infinity true))].

Fixpoint scan_word (ws : list (string * value)) (s : string) : option (value * string) :=
  match ws with
  | [] => None
  | (w, v) :: ws' =>
      match after_word w s with
      | Some rest => Some (v, rest)
      | None => scan_word ws' s
      end
  end.

(** A value that is no string, array or object: a word or a number. *)
Definition scan_atom (limit : option nat) (s : string) : outcome failure (value * string) :=
  match scan_word words s with
  | Some r => Ret r
  | None => default (Raise NotJson) (match_number limit s)
  end.

(** What a parser gives for a text: the end of the fuel, a failure, or a
    result and the text after it. *)
Abbreviation parsed A := (option (outcome failure (A * string))).

Abbreviation parser A := (string → parsed A).

(** The case analysis of [scan_once] on the first character; [members]
    and [elements] read the inside of an object and of an array, given
    the number of arrays and objects the decoder may still enter. *)
Definition scan_value (limit : option nat)
    (members : nat → parser (list (string * value)))
    (elements : nat → parser (list value))
    (depth : nat) : parser value := λ s,
  match s with
  | "" => Some (Raise NotJson)
  | String c s' =>
      if decide (c = DQ) then Some (p ← scanstring s'; Ret (VStr p.1, p.2))
      else if decide (c = "{"%char) then
        match depth with
        | O => Some (Raise TooDeep)
        | S depth' =>
            match starts "}" (skip_ws s') with
            | Some rest => Some (Ret (VDict [], rest))
            | None =>
                r ← members depth' (skip_ws s');
                Some (p ← r; Ret (VDict (dict_of_pairs p.1), p.2))
            end
        end
      else if decide (c = "["%char) then
        match depth with
        | O => Some (Raise TooDeep)
        | S depth' =>
            match starts "]" (skip_ws s') with
            | Some rest => Some (Ret (VList [], rest))
            | None => r ← elements depth' (skip_ws s'); Some (p ← r; Ret (VList p.1, p.2))
            end
        end
      else Some (scan_atom limit s)
  end.

(** After an item of an array or an object: the closing bracket, or a
    comma and the next round of the loop. *)
Definition round_end {A} (close : ascii) (next : parser (list A)) (x : A)
    : parser (list A) := λ rest,
  match starts close (skip_ws rest), starts "," (skip_ws rest) with
  | Some t, _ => Some (Ret ([x], t))
  | None, Some t => r ← next (skip_ws t); Some (p ← r; Ret (x :: p.1, p.2))
  | None, None => Some (Raise NotJson)
  end.

(** One round of the loop of [JSONArray]: a value and what follows it. *)
Definition elements_step (scan : parser value) (next : parser (list value))
    : parser (list value) := λ s,
  r ← scan s;
  match r with
  | Raise e => Some (Raise e)
  | Ret (v, rest) => round_end "]" next v rest
  end.

(** One round of the loop of [JSONObject]: a key, a colon, a value and
    what follows it. *)
Definition members_step (scan : parser value) (next : parser (list (string * value)))
    : parser (list (string * value)) := λ s,
  match starts DQ s with
  | None => Some (Raise NotJson)
  | Some s' =>
      match scanstring s' with
      | Raise e => Some (Raise e)
      | Ret (key, rest) =>
          match starts ":" (skip_ws rest) with
          | None => Some (Raise NotJson)
          | Some rest' =>
              r ← scan (skip_ws rest');
              match r with
              | Raise e => Some (Raise e)
              | Ret (v, rest'') => round_end "}" next (key, v) rest''
              end
          end
      end
  end.

(** [scan_once], [JSONArray] and [JSONObject]: the value at the head of
    the text and the text after it.  Each call takes one unit of fuel;
    [None] is the end of the fuel. *)
Fixpoint scan_once (limit : option nat) (fuel depth : nat) : parser value :=
  match fuel with
  | O => λ _, None
  | S fuel' => scan_value limit (parse_members limit fuel') (parse_elements limit fuel') depth
  end
with parse_elements (limit : option nat) (fuel depth : nat) : parser (list value) :=
  match fuel with
  | O => λ _, None
  | S fuel' => elements_step (scan_once limit fuel' depth) (parse_elements limit fuel' depth)
  end
with parse_members (limit : option nat) (fuel depth : nat) : parser (list (string * value)) :=
  match fuel with
  | O => λ _, None
  | S fuel' => members_step (scan_once limit fuel' depth) (parse_members limit fuel' depth)
  end.

(** The fuel [json_loads] gives the descent. *)
Definition fuel_of (text : string) : nat := 2 * String.length text + 2.

(** After the value, blanks and the end of the text. *)
Definition the_end (r : outcome failure (value * string)) : outcome failure value :=
  p ← r; if decide (skip_ws p.2 = "") then Ret p.1 else Raise NotJson.

(** [json.loads(text)]: blanks, one value, blanks, the end of the text. *)
Definition json_loads (limit : option nat) (depth : nat) (text : string)
    : outcome failure value :=
  match scan_once limit (fuel_of text) depth (skip_ws text) with
  | Some r => the_end r
  | None => Raise NotJson
  end.

(** ** What the scanners consume *)

Section Consume.
Implicit Types (s t rest : string) (c : ascii).

Lemma starts_Some c s rest : starts c s = Some rest ↔ s = String c rest.
Proof.
  destruct s as [|c' s]; cbn; [done|]. case_decide; naive_solver.
Qed.

Lemma starts_cons c s : starts c (String c s) = Some s.
Proof. by apply starts_Some. Qed.

Lemma starts_length c s rest :
  starts c s = Some rest → String.length s = S (String.length rest).
Proof. by intros ->%starts_Some. Qed.

Lemma skip_ws_length s : String.length (skip_ws s) ≤ String.length s.
Proof. induction s as [|c s IH]; cbn; [done|]. case_match; cbn; lia. Qed.

Lemma scanned_Ret c (r : outcome failure (string * string)) t rest :
  scanned c r = Ret (t, rest) → ∃ t', r = Ret (t', rest) ∧ t = String c t'.
Proof. destruct r as [[t' rest']|]; [|done]. intros [= <- <-]. by exists t'. Qed.

Lemma scanstring_length s t rest :
  scanstring s = Ret (t, rest) → String.length rest < String.length s.
Proof.
  revert t rest. induction s as [s IH] using string_length_ind. intros t rest.
  destruct s as [|c s']; [done|]. cbn [scanstring].
  case_decide; [intros [= <- <-]; cbn; lia|]. case_decide.
  - destruct s' as [|e s'']; [done|]. case_decide.
    + destruct s'' as [|h1 [|h2 [|h3 [|h4 s3]]]]; try done.
      destruct (hex4 h1 h2 h3 h4); [|done]. case_match; [|done].
      intros (t' & Hr & ->)%scanned_Ret. apply IH in Hr; cbn in *; lia.
    + destruct (unescape e); [|done].
      intros (t' & Hr & ->)%scanned_Ret. apply IH in Hr; cbn in *; lia.
  - case_match; [done|].
    intros (t' & Hr & ->)%scanned_Ret. apply IH in Hr; cbn in *; lia.
Qed.

Lemma take_digits_length s ds rest :
  take_digits s = (ds, rest) → String.length rest + length ds = String.length s.
Proof.
  revert ds rest. induction s as [|c s IH]; intros ds rest; cbn.
  - by intros [= <- <-].
  - destruct (digit_of c); [|by intros [= <- <-]].
    destruct (take_digits s) as [ds' rest'] eqn:E. intros [= <- <-].
    specialize (IH _ _ eq_refl). cbn. lia.
Qed.

Lemma take_digits1_Some s ds rest :
  take_digits1 s = Some (ds, rest) → take_digits s = (ds, rest) ∧ ds ≠ [].
Proof. unfold take_digits1. by destruct (take_digits s) as [[|d ds'] rest']; intros [= <- <-]. Qed.

Lemma take_digits1_length s ds rest :
  take_digits1 s = Some (ds, rest) → String.length rest < String.length s.
Proof.
  intros [H Hne]%take_digits1_Some. apply take_digits_length in H.
  destruct ds; [done|]. cbn in H. lia.
Qed.

Lemma take_integer_length s ds rest :
  take_integer s = Some (ds, rest) → String.length rest < String.length s.
Proof.
  unfold take_integer. destruct (starts "0" s) as [s'|] eqn:E.
  - intros [= <- <-]. apply starts_length in E. lia.
  - apply take_digits1_length.
Qed.

Lemma take_fraction_length s fs rest :
  take_fraction s = Some (fs, rest) → String.length rest < String.length s.
Proof.
  unfold take_fraction. destruct (starts "." s) as [s'|] eqn:E; [|done]. cbn.
  intros H%take_digits1_length. apply starts_length in E. lia.
Qed.

Lemma take_sign_length s neg rest :
  take_sign s = (neg, rest) → String.length rest ≤ String.length s.
Proof.
  unfold take_sign. destruct (starts "-" s) eqn:E1; [|destruct (starts "+" s) eqn:E2];
    intros [= <- <-]; [apply starts_length in E1|apply starts_length in E2|]; lia.
Qed.

Lemma take_exponent_length s ex rest :
  take_exponent s = Some (ex, rest) → String.length rest < String.length s.
Proof.
  destruct s as [|c s']; [done|]. cbn. case_match; [|done].
  destruct (take_sign s') as [neg s''] eqn:Es. apply take_sign_length in Es.
  destruct (take_digits1 s'') as [[ds r]|] eqn:Ed; [|done]. cbn.
  intros [= <- <-]. apply take_digits1_length in Ed. lia.
Qed.

Lemma int_number_rest limit neg ds r v rest :
  int_number limit neg ds r = Ret (v, rest) → rest = r.
Proof. unfold int_number. case_match; [|done]. by intros [= _ <-]. Qed.

Lemma match_number_length limit s v rest :
  match_number limit s = Some (Ret (v, rest)) → String.length rest < String.length s.
Proof.
  unfold match_number.
  assert (∀ neg s1, (neg, s1) = from_option (λ t, (true, t)) (false, s) (starts "-" s) →
                    String.length s1 ≤ String.length s) as Hs.
  { intros neg s1. destruct (starts "-" s) eqn:E; intros [= -> ->]; [|done].
    apply starts_length in E. lia. }
  destruct (from_option _ _ _) as [neg s1]. specialize (Hs _ _ eq_refl).
  destruct (take_integer s1) as [[ds s2]|] eqn:Ei; [|done]. cbn.
  apply take_integer_length in Ei.
  destruct (take_fraction s2) as [[fs s3]|] eqn:Ef.
  - apply take_fraction_length in Ef.
    destruct (take_exponent s3) as [[ex s4]|] eqn:Ee.
    + apply take_exponent_length in Ee. intros [= _ <-]. lia.
    + intros [= _ <-]. lia.
  - destruct (take_exponent s2) as [[ex s4]|] eqn:Ee.
    + apply take_exponent_length in Ee. intros [= _ <-]. lia.
    + intros [= ->%int_number_rest]. lia.
Qed.

Lemma after_word_length w s rest :
  after_word w s = Some rest → String.length s = String.length w + String.length rest.
Proof.
  revert s. induction w as [|a w IH]; intros [|b s]; cbn; try done.
  - by intros [= <-].
  - by intros [= <-].
  - case_decide; [|done]. intros Hw%IH. lia.
Qed.

Lemma scan_word_length ws s v rest :
  Forall (λ wv, wv.1 ≠ "") ws → scan_word ws s = Some (v, rest) →
  String.length rest < String.length s.
Proof.
  induction 1 as [|[w v'] ws Hw _ IH]; cbn; [done|].
  destruct (after_word w s) eqn:E; [|done]. intros [= _ <-].
  apply after_word_length in E. destruct w; [done|]. cbn in E. lia.
Qed.

Lemma scan_atom_length limit s v rest :
  scan_atom limit s = Ret (v, rest) → String.length rest < String.length s.
Proof.
  unfold scan_atom. destruct (scan_word words s) as [[v' rest']|] eqn:E.
  - intros [= <- <-]. revert E. apply scan_word_length. by repeat constructor.
  - destruct (match_number limit s) eqn:En; [|done].
    cbn. intros ->. by apply match_number_length in En.
Qed.

End Consume.

(** ** Fuel

    [covers n p]: the parser [p] reads every text of less than [n]
    characters without running out of fuel, and leaves less text than it
    was given.  [below p q]: what [p] reads, [q] reads alike; more fuel
    changes no result. *)

Definition covers {A} (n : nat) (p : parser A) : Prop :=
  ∀ s, String.length s < n →
    ∃ r, p s = Some r ∧ ∀ x rest, r = Ret (x, rest) → String.length rest < String.length s.

Definition below {A} (p q : parser A) : Prop :=
  ∀ s r, p s = Some r → q s = Some r.

#[export] Instance below_preorder {A} : PreOrder (@below A).
Proof. split; [by intros p s r|]. intros p q u Hpq Hqu s r Hp. by apply Hqu, Hpq. Qed.

Lemma covers_le {A} (n m : nat) (p : parser A) : covers n p → m ≤ n → covers m p.
Proof. intros Hp Hm s Hs. apply Hp. lia. Qed.

Lemma covers_below {A} (n : nat) (p q : parser A) : covers n p → below p q → covers n q.
Proof.
  intros Hp Hpq s Hs. destruct (Hp s Hs) as (r & Hr & Hlen). exists r. split; [|done].
  by apply Hpq.
Qed.

Section Steps.
Context (limit : option nat).
Context (members members' : nat → parser (list (string * value))).
Context (elements elements' : nat → parser (list value)).
Context (scan scan' : parser value).
Implicit Types (s t rest : string) (depth n : nat).

(** What is read inside the brackets is shorter than the text. *)
Lemma inside_covers {A B} (f : A → B) n (p : parser A) c s' :
  covers n p → String.length s' < n →
  ∃ r, (r0 ← p (skip_ws s'); Some (x ← r0; Ret (f x.1, x.2))) = Some r ∧
       ∀ y rest, r = Ret (y, rest) → String.length rest < String.length (String c s').
Proof.
  intros Hp Hs. pose proof (skip_ws_length s').
  destruct (Hp (skip_ws s') ltac:(lia)) as (r & -> & Hlen).
  eexists. split; [done|]. intros y rest. destruct r as [[x rest']|]; [|done].
  intros [= _ <-]. specialize (Hlen _ _ eq_refl). cbn. lia.
Qed.

Lemma scan_value_covers n depth :
  (∀ d, covers n (members d)) → (∀ d, covers n (elements d)) →
  covers (S n) (scan_value limit members elements depth).
Proof.
  intros Hm He [|c s'] Hs; [by eexists|]. cbn [scan_value].
  repeat case_decide.
  - eexists. split; [done|]. intros x rest.
    destruct (scanstring s') as [[t r']|] eqn:E; [|done]. intros [= _ <-].
    apply scanstring_length in E. cbn. lia.
  - destruct depth as [|d]; [by eexists|].
    destruct (starts "}" (skip_ws s')) as [r'|] eqn:E.
    + eexists. split; [done|]. intros x rest [= _ <-].
      apply starts_length in E. pose proof (skip_ws_length s'). cbn. lia.
    + apply (inside_covers (λ l, VDict (dict_of_pairs l)) n); [done|]. cbn in Hs. lia.
  - destruct depth as [|d]; [by eexists|].
    destruct (starts "]" (skip_ws s')) as [r'|] eqn:E.
    + eexists. split; [done|]. intros x rest [= _ <-].
      apply starts_length in E. pose proof (skip_ws_length s'). cbn. lia.
    + apply (inside_covers VList n); [done|]. cbn in Hs. lia.
  - eexists. split; [done|]. intros x rest. apply scan_atom_length.
Qed.

Lemma scan_value_below depth :
  (∀ d, below (members d) (members' d)) → (∀ d, below (elements d) (elements' d)) →
  below (scan_value limit members elements depth) (scan_value limit members' elements' depth).
Proof.
  intros Hm He [|c s'] r; [done|]. cbn [scan_value].
  repeat case_decide; try done; destruct depth as [|d]; try done; case_match; try done.
  - intros (x & Hx & Hr)%bind_Some. by rewrite (Hm _ _ _ Hx).
  - intros (x & Hx & Hr)%bind_Some. by rewrite (He _ _ _ Hx).
Qed.

Lemma round_end_covers {A} (close : ascii) (x : A) n (next : parser (list A)) rest :
  covers n next → String.length rest ≤ n →
  ∃ r, round_end close next x rest = Some r ∧
       ∀ y t, r = Ret (y, t) → String.length t < String.length rest.
Proof.
  intros Hnext Hrest. pose proof (skip_ws_length rest). unfold round_end.
  destruct (starts close (skip_ws rest)) as [t|] eqn:E1;
    [|destruct (starts "," (skip_ws rest)) as [t|] eqn:E2]; [| |by eexists].
  - eexists. split; [done|]. intros y t' [= _ <-]. apply starts_length in E1. lia.
  - apply starts_length in E2. pose proof (skip_ws_length t).
    destruct (Hnext (skip_ws t) ltac:(lia)) as (r & -> & Hlen).
    eexists. split; [done|]. intros y t'. destruct r as [[l u]|]; [|done].
    intros [= _ <-]. specialize (Hlen _ _ eq_refl). lia.
Qed.

Lemma round_end_below {A} (close : ascii) (x : A) (next next' : parser (list A)) :
  below next next' → below (round_end close next x) (round_end close next' x).
Proof.
  intros Hnext rest r. unfold round_end. repeat case_match; try done.
  intros (y & Hy & Hr)%bind_Some. by rewrite (Hnext _ _ Hy).
Qed.

Lemma elements_step_covers n (next : parser (list value)) :
  covers (S n) scan → covers n next → covers (S n) (elements_step scan next).
Proof.
  intros Hscan Hnext s Hs. destruct (Hscan s Hs) as (r & Hr & Hlen).
  unfold elements_step. rewrite Hr. cbn. destruct r as [[v rest]|e]; [|by eexists].
  specialize (Hlen _ _ eq_refl).
  destruct (round_end_covers "]" v n next rest Hnext ltac:(lia)) as (r & -> & Hr').
  exists r. split; [done|]. intros y t Ht. specialize (Hr' _ _ Ht). lia.
Qed.

Lemma members_step_covers n (next : parser (list (string * value))) :
  covers (S n) scan → covers n next → covers (S n) (members_step scan next).
Proof.
  intros Hscan Hnext s Hs. unfold members_step.
  destruct (starts DQ s) as [s'|] eqn:E; [|by eexists]. apply starts_length in E.
  destruct (scanstring s') as [[key rest]|] eqn:Ek; [|by eexists].
  apply scanstring_length in Ek. pose proof (skip_ws_length rest).
  destruct (starts ":" (skip_ws rest)) as [rest'|] eqn:Ec; [|by eexists].
  apply starts_length in Ec. pose proof (skip_ws_length rest').
  destruct (Hscan (skip_ws rest') ltac:(lia)) as (r & -> & Hlen). cbn.
  destruct r as [[v rest'']|e]; [|by eexists]. specialize (Hlen _ _ eq_refl).
  destruct (round_end_covers "}" (key, v) n next rest'' Hnext ltac:(lia)) as (r & Hr & Hr').
  exists r. split; [done|]. intros y t Ht. specialize (Hr' _ _ Ht). lia.
Qed.

Lemma elements_step_below (next next' : parser (list value)) :
  below scan scan' → below next next' →
  below (elements_step scan next) (elements_step scan' next').
Proof.
  intros Hscan Hnext s r. unfold elements_step.
  intros ([[v rest]|e] & Hx & Hr)%bind_Some; rewrite (Hscan _ _ Hx); cbn; [|done].
  by apply (round_end_below _ _ next next').
Qed.

Lemma members_step_below (next next' : parser (list (string * value))) :
  below scan scan' → below next next' →
  below (members_step scan next) (members_step scan' next').
Proof.
  intros Hscan Hnext s r. unfold members_step. repeat case_match; try done.
  intros ([[v rest]|e] & Hx & Hr)%bind_Some; rewrite (Hscan _ _ Hx); cbn; [|done].
  by apply (round_end_below _ _ next next').
Qed.

End Steps.

Section Fuel.
Context (limit : option nat).
Implicit Types (fuel depth n : nat).

(** The fuel that covers the texts of less than [n] characters. *)
Lemma scan_once_covers fuel :
  ∀ depth n,
    (2 * n ≤ fuel + 1 → covers n (scan_once limit fuel depth)) ∧
    (2 * n ≤ fuel → covers n (parse_elements limit fuel depth)) ∧
    (2 * n ≤ fuel → covers n (parse_members limit fuel depth)).
Proof.
  induction fuel as [|fuel IH]; intros depth [|n];
    try (split_and!; intros ? s ?; lia).
  split_and!; intros Hn; cbn [scan_once parse_elements parse_members].
  - apply scan_value_covers; intros d; apply IH; lia.
  - apply elements_step_covers; apply IH; lia.
  - apply members_step_covers; apply IH; lia.
Qed.

Lemma scan_once_S fuel :
  ∀ depth,
    below (scan_once limit fuel depth) (scan_once limit (S fuel) depth) ∧
    below (parse_elements limit fuel depth) (parse_elements limit (S fuel) depth) ∧
    below (parse_members limit fuel depth) (parse_members limit (S fuel) depth).
Proof.
  induction fuel as [|fuel IH]; intros depth; [by split_and!|].
  split_and!.
  - apply scan_value_below; intros d; apply IH.
  - apply elements_step_below; apply IH.
  - apply members_step_below; apply IH.
Qed.

(** More fuel changes no result. *)
Lemma scan_once_mono fuel fuel' depth :
  fuel ≤ fuel' → below (scan_once limit fuel depth) (scan_once limit fuel' depth).
Proof.
  induction 1 as [|fuel' _ IH]; [done|]. etrans; [done|]. apply scan_once_S.
Qed.

Lemma parse_elements_mono fuel fuel' depth :
  fuel ≤ fuel' → below (parse_elements limit fuel depth) (parse_elements limit fuel' depth).
Proof.
  induction 1 as [|fuel' _ IH]; [done|]. etrans; [done|]. apply scan_once_S.
Qed.

Lemma parse_members_mono fuel fuel' depth :
  fuel ≤ fuel' → below (parse_members limit fuel depth) (parse_members limit fuel' depth).
Proof.
  induction 1 as [|fuel' _ IH]; [done|]. etrans; [done|]. apply scan_once_S.
Qed.

(** Twice the length of the text is fuel enough. *)
Lemma scan_once_enough fuel depth s :
  2 * String.length s < fuel →
  ∃ r, scan_once limit fuel depth s = Some r ∧
       ∀ v rest, r = Ret (v, rest) → String.length rest < String.length s.
Proof.
  intros Hs. destruct (scan_once_covers fuel depth (S (String.length s))) as (H & _).
  apply H; lia.
Qed.

End Fuel.

(** ** Reading what the encoder wrote: numbers and strings *)

(** A comma or a closing bracket: what follows a value inside an array or
    an object. *)
Definition delimiter (c : ascii) : bool :=
  bool_decide (c = ","%char) || bool_decide (c = "]"%char) || bool_decide (c = "}"%char).

(** The text after a value: the end, or a delimiter. *)
Definition delimited (rest : string) : bool :=
  match rest with
  | "" => true
  | String c _ => delimiter c
  end.

Section ReadBack.
Context (limit : option nat).
Implicit Types (s t rest : string) (c : ascii) (ds : list nat) (n : Z).

Lemma delimiter_cases c :
  delimiter c = true → c = ","%char ∨ c = "]"%char ∨ c = "}"%char.
Proof.
  unfold delimiter. rewrite !orb_true_iff, !bool_decide_eq_true. naive_solver.
Qed.

Lemma take_digits_delimited rest : delimited rest = true → take_digits rest = ([], rest).
Proof.
  destruct rest as [|c t]; [done|]. cbn.
  by intros [-> | [-> | ->]]%delimiter_cases.
Qed.

Lemma take_digits_digits ds rest :
  is_digits ds → delimited rest = true → take_digits (digits_str ds +:+ rest) = (ds, rest).
Proof.
  intros Hds Hrest. induction Hds as [|d ds Hd _ IH]; cbn [digits_str].
  - rewrite string_app_nil_l. by apply take_digits_delimited.
  - rewrite string_app_cons. cbn [take_digits].
    by rewrite digit_of_digit_char, IH, Nat2Z.id.
Qed.

Lemma take_fraction_delimited rest : delimited rest = true → take_fraction rest = None.
Proof.
  destruct rest as [|c t]; [done|]. cbn. by intros [-> | [-> | ->]]%delimiter_cases.
Qed.

Lemma take_exponent_delimited rest : delimited rest = true → take_exponent rest = None.
Proof.
  destruct rest as [|c t]; [done|]. cbn. by intros [-> | [-> | ->]]%delimiter_cases.
Qed.

Lemma digit_char_nonzero (d : nat) : 0 < d < 10 → digit_char d ≠ "0"%char.
Proof. intros Hd. do 10 (destruct d as [|d]; [done || lia|]). lia. Qed.

(** The digits of a number, read back as the integer part. *)
Lemma take_integer_digits n rest :
  (0 ≤ n)%Z → delimited rest = true →
  take_integer (nat_str n +:+ rest) = Some (digits_of n, rest).
Proof.
  intros Hn Hrest. unfold nat_str, take_integer.
  destruct (digits_of_spec n Hn) as (Hds & _ & _).
  destruct (digits_of_head n Hn) as [E|(d & ds & E & Hd)]; rewrite E in Hds |- *.
  - by cbn.
  - cbn [digits_str]. rewrite string_app_cons. cbn [starts].
    rewrite decide_False by (by apply digit_char_nonzero).
    change (String (digit_char d) (digits_str ds +:+ rest))
      with (String (digit_char d) (digits_str ds) +:+ rest).
    change (String (digit_char d) (digits_str ds)) with (digits_str (d :: ds)).
    unfold take_digits1. by rewrite take_digits_digits.
Qed.

(** The text of an integer, read back: the integer, unless it has more
    digits than the limit. *)
Lemma match_number_int_text n rest :
  delimited rest = true →
  match_number limit (int_text n +:+ rest) =
  Some (if within_limit limit (length (digits_of (Z.abs n)))
        then Ret (VInt n, rest) else Raise DigitLimit).
Proof.
  intros Hrest. pose proof (py_int_int_text limit n) as Hint.
  pose proof (take_integer_digits (Z.abs n) rest ltac:(lia) Hrest) as Hds.
  unfold match_number, int_number, int_text, nat_str in *. rewrite string_app_assoc.
  revert Hint. destruct (n <? 0)%Z; cbn [sign_text]; intros Hint.
  - rewrite string_app_cons, string_app_nil_l, starts_cons. cbn [from_option].
    rewrite Hds. cbn. rewrite take_fraction_delimited, take_exponent_delimited by done.
    rewrite Hint. by case_match.
  - rewrite string_app_nil_l in *.
    assert (starts "-" (digits_str (digits_of (Z.abs n)) +:+ rest) = None) as ->.
    { destruct (digits_of_spec (Z.abs n)) as (Hd & _ & Hne); [lia|].
      destruct (digits_str_head _ Hne Hd) as (d & t & Hd' & ->).
      rewrite string_app_cons. cbn. rewrite decide_False; [done|].
      by apply digit_char_plain. }
    cbn [from_option]. rewrite Hds. cbn.
    rewrite take_fraction_delimited, take_exponent_delimited by done.
    rewrite string_app_nil_l, Hint. by case_match.
Qed.

Lemma match_number_int n rest :
  delimited rest = true → within_limit limit (length (digits_of (Z.abs n))) = true →
  match_number limit (int_text n +:+ rest) = Some (Ret (VInt n, rest)).
Proof. intros Hrest Hlim. by rewrite match_number_int_text, Hlim. Qed.

(** An escape, read back, is the character it stands for. *)
Lemma scanstring_escape_char c t :
  scanstring (escape_char c +:+ t) = scanned c (scanstring t).
Proof. by destruct c as [[] [] [] [] [] [] [] []]. Qed.

Lemma scanstring_escape s rest :
  scanstring (escape_ascii s +:+ String DQ rest) = Ret (s, rest).
Proof.
  induction s as [|c s IH]; [done|]. cbn [escape_ascii].
  by rewrite string_app_assoc, scanstring_escape_char, IH.
Qed.

(** The first character of the text of a number. *)
Definition number_start (c : ascii) : bool :=
  bool_decide (c = "-"%char) || bool_decide (is_Some (digit_of c)).

Lemma int_text_start n : ∃ c t, int_text n = String c t ∧ number_start c = true.
Proof.
  unfold int_text, nat_str. destruct (digits_of_spec (Z.abs n)) as (Hd & _ & Hne); [lia|].
  destruct (digits_str_head _ Hne Hd) as (d & t & Hd' & ->).
  destruct (n <? 0)%Z; cbn [sign_text].
  - by eexists _, _.
  - rewrite string_app_nil_l. eexists _, _. split; [done|]. unfold number_start.
    by rewrite (digit_of_digit_char d Hd'), orb_true_r.
Qed.

Lemma scan_atom_number c t r :
  number_start c = true → match_number limit (String c t) = Some r →
  scan_atom limit (String c t) = r.
Proof.
  intros Hc Hr. unfold scan_atom.
  assert (scan_word words (String c t) = None) as ->; [|by rewrite Hr].
  unfold words. cbn [scan_word after_word].
  destruct (decide (c = "-"%char)) as [->|Hm].
  - rewrite !decide_False, decide_True by done.
    destruct t as [|d t]; [done|]. case_decide as Hd; [|done]. by rewrite <-Hd in Hr.
  - rewrite !decide_False; [done|intros <-; done..].
Qed.

End ReadBack.

(** ** Reading what the encoder wrote: values

    The decoder reads back the text of a value without floats whose
    dictionaries have no key twice, inside the depth it may enter. *)

Fixpoint json_plain (v : value) : bool :=
  match v with
  | VFloat _ => false
  | VList l => forallb json_plain l
  | VDict d => bool_decide (NoDup d.*1) && forallb (λ kv, json_plain kv.2) d
  | _ => true
  end.

(** The first character of the text of a value. *)
Definition value_start (c : ascii) : bool :=
  number_start c || bool_decide (c ∈ [DQ; "{"; "["; "n"; "t"; "f"]%char).

Section Items.
Context {A : Type} (close : ascii) (next : parser (list A)).
Context (Hclose : is_ws close = false) (Hcomma : close ≠ ","%char).
Implicit Types (s t rest : string) (c : ascii) (x : A).

Lemma skip_ws_start c t : is_ws c = false → skip_ws (String c t) = String c t.
Proof. intros Hc. cbn. by rewrite Hc. Qed.

Lemma value_start_plain c :
  value_start c = true → is_ws c = false ∧ c ≠ "]"%char ∧ c ≠ "}"%char.
Proof. by destruct c as [[] [] [] [] [] [] [] []]. Qed.

Lemma round_end_last x t : round_end close next x (String close t) = Some (Ret ([x], t)).
Proof. unfold round_end. by rewrite skip_ws_start, starts_cons. Qed.

Lemma round_end_comma x c t r :
  value_start c = true → next (String c t) = Some r →
  round_end close next x (", " +:+ String c t) = Some (p ← r; Ret (x :: p.1, p.2)).
Proof.
  intros (Hc & _)%value_start_plain Hnext. unfold round_end.
  rewrite !string_app_cons, string_app_nil_l, skip_ws_start by done. cbn [starts].
  rewrite decide_False, decide_True by done.
  change (skip_ws (String " " (String c t))) with (skip_ws (String c t)).
  by rewrite skip_ws_start, Hnext.
Qed.

Lemma round_end_more x c t l rest :
  value_start c = true → next (String c t) = Some (Ret (l, rest)) →
  round_end close next x (", " +:+ String c t) = Some (Ret (x :: l, rest)).
Proof. intros Hc Hnext. by rewrite (round_end_comma x c t _ Hc Hnext). Qed.

Lemma round_end_raise x c t e :
  value_start c = true → next (String c t) = Some (Raise e) →
  round_end close next x (", " +:+ String c t) = Some (Raise e).
Proof. intros Hc Hnext. by rewrite (round_end_comma x c t _ Hc Hnext). Qed.

End Items.

Lemma assoc_set_fresh (d : list (string * value)) k v :
  k ∉ d.*1 → assoc_set d k v = d ++ [(k, v)].
Proof.
  induction d as [|[k' v'] d IH]; [done|]. cbn. intros [Hk Hd]%not_elem_of_cons.
  by rewrite decide_False, IH.
Qed.

(** A list of pairs with distinct keys is the dictionary of the pairs. *)
Lemma dict_of_pairs_NoDup (d : list (string * value)) :
  NoDup d.*1 → dict_of_pairs d = d.
Proof.
  unfold dict_of_pairs. change d with ([] ++ d) at 1 3. generalize (@nil (string * value)).
  induction d as [|[k v] d IH]; intros acc; [by rewrite app_nil_r|].
  intros Hnd. cbn [foldl fst snd].
  replace (acc ++ (k, v) :: d) with ((acc ++ [(k, v)]) ++ d) in * by (by rewrite <-app_assoc).
  rewrite assoc_set_fresh; [by apply IH|].
  rewrite !fmap_app in Hnd. apply NoDup_app in Hnd as ((_ & Hk & _)%NoDup_app & _).
  intros Hin. eapply Hk; [done|]. cbn. left.
Qed.

Section RoundTrip.
Context (allow_nan : bool) (limit : option nat).
Implicit Types (v : value) (l : list value) (d : list (string * value)).
Implicit Types (depth fuel : nat) (s t rest : string) (c : ascii).

Lemma dumps_text_start v :
  json_plain v = true → ∃ c t, dumps_text v = String c t ∧ value_start c = true.
Proof.
  destruct v as [|[]|n|x|s|l|d]; intros Hp; try done;
    try (by eexists _, _); try (by eexists _, _; rewrite string_app_cons).
  destruct (int_text_start n) as (c & t & E & Hc). exists c, t. split; [done|].
  unfold value_start. by rewrite Hc.
Qed.

Lemma join_items_start c t (items : list string) :
  ∃ t', join_items (String c t :: items) = String c t'.
Proof. destruct items; [by eexists|]. eexists. cbn. by rewrite string_app_cons. Qed.

(** The text of a member of an object. *)
Definition member_text (kv : string * value) : string :=
  encode_string kv.1 +:+ ": " +:+ dumps_text kv.2.

Lemma member_text_start kv : ∃ t, member_text kv = String DQ t.
Proof. by eexists. Qed.

Lemma dumps_text_dict d :
  dumps_text (VDict d) = "{" +:+ join_items (member_text <$> d) +:+ "}".
Proof. done. Qed.

(** The decoder reads the text of [v] back, whatever delimiter follows,
    given fuel enough. *)
Definition reads_back (depth : nat) (v : value) : Prop :=
  ∀ rest, delimited rest = true →
    ∃ fuel, scan_once limit fuel depth (dumps_text v +:+ rest) = Some (Ret (v, rest)).

(** An array that is not empty, given what the loop makes of its
    elements. *)
Lemma scan_value_elements members elements depth c t r :
  value_start c = true → elements depth (String c t) = Some r →
  scan_value limit members elements (S depth) (String "[" (String c t)) =
  Some (p ← r; Ret (VList p.1, p.2)).
Proof.
  intros (Hws & Hc & _)%value_start_plain He. cbn [scan_value].
  rewrite decide_False, decide_False, decide_True, skip_ws_start by done.
  cbn [starts]. by rewrite decide_False, He.
Qed.

Lemma scan_value_array members elements depth c t l rest :
  value_start c = true → elements depth (String c t) = Some (Ret (l, rest)) →
  scan_value limit members elements (S depth) (String "[" (String c t)) =
  Some (Ret (VList l, rest)).
Proof. intros Hc He. by rewrite (scan_value_elements _ _ _ _ _ _ Hc He). Qed.

(** An object that is not empty, given what the loop makes of its
    members. *)
Lemma scan_value_members members elements depth t r :
  members depth (String DQ t) = Some r →
  scan_value limit members elements (S depth) (String "{" (String DQ t)) =
  Some (p ← r; Ret (VDict (dict_of_pairs p.1), p.2)).
Proof.
  intros Hm. cbn [scan_value].
  rewrite decide_False, decide_True, skip_ws_start by done.
  cbn [starts]. by rewrite decide_False, Hm.
Qed.

Lemma scan_value_object members elements depth t d rest :
  NoDup d.*1 → members depth (String DQ t) = Some (Ret (d, rest)) →
  scan_value limit members elements (S depth) (String "{" (String DQ t)) =
  Some (Ret (VDict d, rest)).
Proof.
  intros Hd Hm. rewrite (scan_value_members _ _ _ _ _ Hm). cbn.
  by rewrite dict_of_pairs_NoDup.
Qed.

(** A member of an object, given what the scanner makes of its value. *)
Lemma members_step_scan scan (next : parser (list (string * value))) k v rest r :
  json_plain v = true → scan (dumps_text v +:+ rest) = Some r →
  members_step scan next (member_text (k, v) +:+ rest) =
  match r with
  | Raise e => Some (Raise e)
  | Ret (v', rest') => round_end "}" next (k, v') rest'
  end.
Proof.
  intros (c & t & E & (Hc & _)%value_start_plain)%dumps_text_start Hscan.
  unfold members_step, member_text, encode_string. cbn [fst snd]. str_norm.
  rewrite starts_cons, scanstring_escape, skip_ws_start, starts_cons by done.
  change (skip_ws (String " " ?x)) with (skip_ws x).
  rewrite E, string_app_cons, skip_ws_start, <-string_app_cons, <-E by done.
  by rewrite Hscan.
Qed.

Lemma members_step_item scan (next : parser (list (string * value))) k v rest r :
  json_plain v = true → scan (dumps_text v +:+ rest) = Some (Ret (v, rest)) →
  round_end "}" next (k, v) rest = Some r →
  members_step scan next (member_text (k, v) +:+ rest) = Some r.
Proof. intros Hp Hscan Hend. by rewrite (members_step_scan _ _ _ _ _ _ Hp Hscan). Qed.

Lemma join_items_cons (x y : string) (items : list string) :
  join_items (x :: y :: items) = x +:+ ", " +:+ join_items (y :: items).
Proof. done. Qed.

(** The elements of an array that is not empty, up to the bracket. *)
Lemma parse_elements_dumps depth l rest :
  l ≠ [] → Forall (reads_back depth) l → Forall (λ v, json_plain v = true) l →
  ∃ fuel, parse_elements limit fuel depth
            (join_items (dumps_text <$> l) +:+ String "]" rest) = Some (Ret (l, rest)).
Proof.
  intros Hne Hread Hplain. induction Hread as [|x l Hx Hl IH]; [done|].
  apply Forall_cons in Hplain as [Hpx Hpl]. destruct l as [|y l'].
  - destruct (Hx (String "]" rest) eq_refl) as (f & Hf). exists (S f).
    cbn [parse_elements fmap list_fmap join_items]. unfold elements_step.
    rewrite Hf. by apply round_end_last.
  - destruct (IH ltac:(done) Hpl) as (f2 & Hf2).
    apply Forall_cons in Hpl as [(c & t & E & Hc)%dumps_text_start _].
    destruct (join_items_start c t (dumps_text <$> l')) as (t' & Ej).
    cbn [fmap list_fmap] in Hf2 |- *. rewrite join_items_cons.
    rewrite E, Ej, (string_app_cons c) in Hf2. rewrite E, Ej, !string_app_assoc, (string_app_cons c).
    destruct (Hx (", " +:+ String c (t' +:+ String "]" rest)) eq_refl) as (f1 & Hf1).
    exists (S (f1 `max` f2)). cbn [parse_elements]. unfold elements_step.
    rewrite (scan_once_mono _ f1 (f1 `max` f2) depth ltac:(lia) _ _ Hf1).
    cbn [mbind option_bind].
    apply round_end_more; [done..|]. by apply (parse_elements_mono _ f2); [lia|].
Qed.

(** The members of an object that is not empty, up to the bracket. *)
Lemma parse_members_dumps depth d rest :
  d ≠ [] → Forall (λ kv, reads_back depth kv.2) d →
  Forall (λ kv, json_plain kv.2 = true) d →
  ∃ fuel, parse_members limit fuel depth
            (join_items (member_text <$> d) +:+ String "}" rest) = Some (Ret (d, rest)).
Proof.
  intros Hne Hread Hplain. induction Hread as [|[k x] d Hx Hd IH]; [done|].
  apply Forall_cons in Hplain as [Hpx Hpl]. cbn [snd] in Hx, Hpx. destruct d as [|[k' y] d'].
  - destruct (Hx (String "}" rest) eq_refl) as (f & Hf). exists (S f).
    cbn [parse_members fmap list_fmap join_items].
    by apply members_step_item; [..|apply round_end_last].
  - destruct (IH ltac:(done) Hpl) as (f2 & Hf2).
    destruct (join_items_start DQ ((escape_ascii k' +:+ String DQ "") +:+ ": " +:+ dumps_text y)
                (member_text <$> d')) as (t' & Ej).
    cbn [fmap list_fmap] in Hf2 |- *. rewrite join_items_cons.
    change (member_text (k', y)) with
      (String DQ ((escape_ascii k' +:+ String DQ "") +:+ ": " +:+ dumps_text y)) in *.
    rewrite Ej, (string_app_cons DQ) in Hf2.
    rewrite Ej, !string_app_assoc, (string_app_cons DQ).
    destruct (Hx (", " +:+ String DQ (t' +:+ String "}" rest)) eq_refl) as (f1 & Hf1).
    exists (S (f1 `max` f2)). cbn [parse_members].
    apply members_step_item; [done|by apply (scan_once_mono _ f1); [lia|]|].
    apply round_end_more; [done..|]. by apply (parse_members_mono _ f2); [lia|].
Qed.

(** The values inside a value are no deeper than it allows. *)
Lemma value_depth_inside {A} (f : A → value) (items : list A) depth :
  S (max_list ((λ x, value_depth (f x)) <$> items)) ≤ S depth →
  Forall (λ x, value_depth (f x) ≤ depth) items.
Proof.
  intros Hd. apply Forall_forall. intros x Hx.
  assert (value_depth (f x) ≤ max_list ((λ x, value_depth (f x)) <$> items)); [|lia].
  apply max_list_elem_of_le, list_elem_of_fmap. by exists x.
Qed.

(** The decoder reads the text of a plain value back, at every depth
    that holds the value. *)
Lemma scan_once_dumps v :
  json_plain v = true → encodable allow_nan limit v = true →
  ∀ depth, value_depth v ≤ depth → reads_back depth v.
Proof.
  induction v as [| [] |n|x|s|l IH|d IH] using value_ind';
    intros Hp He depth Hd rest Hrest; try done; try (by exists 1).
  - exists 1. destruct (int_text_start n) as (c & t & E & Hc).
    cbn [scan_once dumps_text]. rewrite E, string_app_cons. cbn [scan_value].
    assert (c ≠ DQ ∧ c ≠ "{" ∧ c ≠ "[")%char as (? & ? & ?).
    { by destruct c as [[] [] [] [] [] [] [] []]. }
    rewrite !decide_False by done. f_equal. apply scan_atom_number; [done|].
    rewrite <-string_app_cons, <-E. by apply match_number_int.
  - exists 1. cbn [scan_once dumps_text]. unfold encode_string. str_norm.
    cbn [scan_value]. by rewrite decide_True, scanstring_escape.
  - destruct depth as [|depth]; [cbn in Hd; lia|]. cbn [json_plain encodable] in Hp, He.
    apply forallb_Forall in Hp, He. apply (value_depth_inside id) in Hd.
    destruct l as [|x l']; [by exists 1|].
    destruct (parse_elements_dumps depth (x :: l') rest) as (f & Hf); [done| |done|].
    { apply Forall_forall. intros v Hv. rewrite Forall_forall in IH, Hp, He, Hd.
      apply IH; [done|by apply Hp|by apply He|by apply Hd]. }
    exists (S f). cbn [scan_once dumps_text]. str_norm.
    apply Forall_cons in Hp as [(c & t & E & Hc)%dumps_text_start _].
    revert Hf. cbn [fmap list_fmap]. rewrite E.
    destruct (join_items_start c t (dumps_text <$> l')) as (t' & ->).
    rewrite string_app_cons. by apply scan_value_array.
  - destruct depth as [|depth]; [cbn in Hd; lia|]. cbn [json_plain encodable] in Hp, He.
    apply andb_true_iff in Hp as [Hnd%bool_decide_eq_true Hp].
    apply forallb_Forall in Hp, He. apply (value_depth_inside snd) in Hd.
    destruct d as [|[k x] d']; [by exists 1|].
    destruct (parse_members_dumps depth ((k, x) :: d') rest) as (f & Hf); [done| |done|].
    { apply Forall_forall. intros kv Hkv. rewrite Forall_forall in IH, Hp, He, Hd.
      apply IH; [done|by apply Hp|by apply He|by apply Hd]. }
    exists (S f). cbn [scan_once]. rewrite dumps_text_dict. str_norm.
    revert Hf. cbn [fmap list_fmap]. destruct (member_text_start (k, x)) as (t & ->).
    destruct (join_items_start DQ t (member_text <$> d')) as (t' & ->).
    rewrite string_app_cons. by apply scan_value_object.
Qed.

(** *** Texts nested too deep *)

(** The decoder runs out of room inside the text of [v], whatever
    follows it. *)
Definition falls_short (depth : nat) (v : value) : Prop :=
  ∀ rest, ∃ fuel, scan_once limit fuel depth (dumps_text v +:+ rest) = Some (Raise TooDeep).

Lemma join_items_head (x : string) (items : list string) :
  ∃ t, join_items (x :: items) = x +:+ t.
Proof. destruct items; [exists ""; by rewrite string_app_nil_r|by eexists]. Qed.

Lemma join_items_more (x : string) (items : list string) :
  items ≠ [] → join_items (x :: items) = x +:+ ", " +:+ join_items items.
Proof. by destruct items. Qed.

(** The text of plain elements starts as a value. *)
Lemma join_elements_start l :
  l ≠ [] → Forall (λ v, json_plain v = true) l →
  ∃ c t, join_items (dumps_text <$> l) = String c t ∧ value_start c = true.
Proof.
  destruct l as [|x l]; [done|]. intros _ [(c & t & E & Hc)%dumps_text_start _]%Forall_cons.
  cbn [fmap list_fmap]. rewrite E.
  destruct (join_items_start c t (dumps_text <$> l)) as (t' & ->). by exists c, t'.
Qed.

Lemma join_members_start d : d ≠ [] → ∃ t, join_items (member_text <$> d) = String DQ t.
Proof.
  destruct d as [|kv d]; [done|]. intros _. destruct (member_text_start kv) as (t0 & E0).
  cbn [fmap list_fmap]. rewrite E0.
  destruct (join_items_start DQ t0 (member_text <$> d)) as (t' & ->). by exists t'.
Qed.

(** The loop of an array stops at the first element that is too deep. *)
Lemma parse_elements_short depth l1 x l2 rest :
  Forall (reads_back depth) l1 → Forall (λ v, json_plain v = true) (l1 ++ x :: l2) →
  falls_short depth x →
  ∃ fuel, parse_elements limit fuel depth
            (join_items (dumps_text <$> (l1 ++ x :: l2)) +:+ rest) = Some (Raise TooDeep).
Proof.
  intros Hread Hplain Hx. induction Hread as [|y l1 Hy _ IH]; cbn [app fmap list_fmap] in *.
  - destruct (join_items_head (dumps_text x) (dumps_text <$> l2)) as (t & ->).
    rewrite string_app_assoc. destruct (Hx (t +:+ rest)) as (f & Hf). exists (S f).
    cbn [parse_elements]. unfold elements_step. by rewrite Hf.
  - apply Forall_cons in Hplain as [Hpy Hpl]. destruct (IH Hpl) as (f2 & Hf2).
    destruct (join_elements_start (l1 ++ x :: l2)) as (c & t & Ej & Hc);
      [by destruct l1|done|].
    rewrite join_items_more by (by destruct l1).
    rewrite Ej, (string_app_cons c) in Hf2. rewrite Ej, !string_app_assoc, (string_app_cons c).
    destruct (Hy (", " +:+ String c (t +:+ rest)) eq_refl) as (f1 & Hf1).
    exists (S (f1 `max` f2)). cbn [parse_elements]. unfold elements_step.
    rewrite (scan_once_mono _ f1 (f1 `max` f2) depth ltac:(lia) _ _ Hf1).
    cbn [mbind option_bind].
    apply round_end_raise; [done..|]. by apply (parse_elements_mono _ f2); [lia|].
Qed.

(** The loop of an object stops at the first member that is too deep. *)
Lemma parse_members_short depth d1 kx d2 rest :
  Forall (λ kv, reads_back depth kv.2) d1 →
  Forall (λ kv, json_plain kv.2 = true) (d1 ++ kx :: d2) →
  falls_short depth kx.2 →
  ∃ fuel, parse_members limit fuel depth
            (join_items (member_text <$> (d1 ++ kx :: d2)) +:+ rest) = Some (Raise TooDeep).
Proof.
  intros Hread Hplain Hx.
  induction Hread as [|[k y] d1 Hy _ IH]; cbn [app fmap list_fmap snd] in *.
  - apply Forall_cons in Hplain as [Hpx _]. destruct kx as [k x].
    destruct (join_items_head (member_text (k, x)) (member_text <$> d2)) as (t & ->).
    unfold member_text at 1. cbn [fst snd] in *. rewrite !string_app_assoc.
    destruct (Hx (t +:+ rest)) as (f & Hf). exists (S f). cbn [parse_members].
    pose proof (members_step_scan (scan_once limit f depth) (parse_members limit f depth)
                  k x (t +:+ rest) _ Hpx Hf) as Hm.
    unfold member_text in Hm. cbn [fst snd] in Hm. by rewrite !string_app_assoc in Hm.
  - apply Forall_cons in Hplain as [Hpy Hpl]. destruct (IH Hpl) as (f2 & Hf2).
    destruct (join_members_start (d1 ++ kx :: d2)) as (t & Ej); [by destruct d1|].
    rewrite join_items_more by (by destruct d1).
    rewrite Ej, (string_app_cons DQ) in Hf2.
    rewrite Ej, !string_app_assoc, (string_app_cons DQ).
    destruct (Hy (", " +:+ String DQ (t +:+ rest)) eq_refl) as (f1 & Hf1).
    exists (S (f1 `max` f2)). cbn [parse_members].
    rewrite (members_step_scan _ _ k y _ (Ret (y, ", " +:+ String DQ (t +:+ rest))));
      [|done|by apply (scan_once_mono _ f1); [lia|]].
    apply round_end_raise; [done..|]. by apply (parse_members_mono _ f2); [lia|].
Qed.

(** The decoder raises on the text of a value that is deeper than its
    room: it reads what comes before the first array or object it has no
    room for, and stops there. *)
Lemma scan_once_short v :
  json_plain v = true → encodable allow_nan limit v = true →
  ∀ depth, depth < value_depth v → falls_short depth v.
Proof.
  induction v as [| [] |n|x|s|l IH|d IH] using value_ind';
    intros Hp He depth Hd rest; cbn [value_depth] in Hd; try lia;
    (destruct depth as [|depth]; [by exists 1|]);
    cbn [json_plain encodable] in Hp, He.
  - apply forallb_Forall in Hp, He.
    destruct (list_first_not (λ v, value_depth v ≤ depth) l) as (l1 & x & l2 & -> & Hl1 & Hx).
    { intros Hall. assert (max_list (value_depth <$> l) ≤ depth); [|lia].
      by apply max_list_le, Forall_fmap. }
    destruct (parse_elements_short depth l1 x l2 (String "]" rest)) as (f & Hf); [|done|..].
    { apply Forall_app in Hp as [Hp _], He as [He _]. rewrite Forall_forall in Hp, He, Hl1.
      apply Forall_forall. intros v Hv. apply scan_once_dumps; auto. }
    { apply Forall_app in IH as [_ [IHx _]%Forall_cons], Hp as [_ [Hpx _]%Forall_cons],
        He as [_ [Hex _]%Forall_cons]. apply IHx; [done..|lia]. }
    destruct (join_elements_start (l1 ++ x :: l2)) as (c & t & Ej & Hc);
      [by destruct l1|done|].
    exists (S f). cbn [scan_once dumps_text]. str_norm. revert Hf. rewrite Ej, string_app_cons.
    intros Hf. by rewrite (scan_value_elements _ _ _ _ _ _ Hc Hf).
  - apply andb_true_iff in Hp as [_ Hp]. apply forallb_Forall in Hp, He.
    destruct (list_first_not (λ kv : string * value, value_depth kv.2 ≤ depth) d)
      as (d1 & kx & d2 & -> & Hd1 & Hx).
    { intros Hall. assert (max_list ((λ kv, value_depth kv.2) <$> d) ≤ depth); [|lia].
      by apply max_list_le, Forall_fmap. }
    destruct (parse_members_short depth d1 kx d2 (String "}" rest)) as (f & Hf); [|done|..].
    { apply Forall_app in Hp as [Hp _], He as [He _]. rewrite Forall_forall in Hp, He, Hd1.
      apply Forall_forall. intros kv Hkv. apply scan_once_dumps; auto. }
    { apply Forall_app in IH as [_ [IHx _]%Forall_cons], Hp as [_ [Hpx _]%Forall_cons],
        He as [_ [Hex _]%Forall_cons]. apply IHx; [done..|lia]. }
    destruct (join_members_start (d1 ++ kx :: d2)) as (t & Ej); [by destruct d1|].
    exists (S f). cbn [scan_once]. rewrite dumps_text_dict. str_norm. revert Hf.
    rewrite Ej, string_app_cons. intros Hf. by rewrite (scan_value_members _ _ _ _ _ Hf).
Qed.

End RoundTrip.

(** ** What the encoder refuses *)

Lemma first_some_None {A B} (f : A → option B) (l : list A) :
  first_some f l = None ↔ Forall (λ x, f x = None) l.
Proof.
  induction l as [|x l IH]; cbn; [by split|]. rewrite Forall_cons, <-IH.
  destruct (f x); naive_solver.
Qed.

(** The encoder writes the values whose numbers it writes and whose
    depth it has room for. *)
Lemma refusal_if (b : bool) (f : failure) (n : nat) :
  (if b then None else Some f) = None ↔ b = true ∧ 0 ≤ n.
Proof. destruct b; split; [by split; [|lia]|done|done|by intros []]. Qed.

Lemma refusal_None allow_nan limit depth v :
  refusal allow_nan limit depth v = None ↔
  encodable allow_nan limit v = true ∧ value_depth v ≤ depth.
Proof.
  revert depth. induction v as [|b|n|x|s|l IH|d IH] using value_ind'; intros depth;
    cbn [refusal encodable value_depth]; try apply refusal_if;
    try (by apply (refusal_if true NotJson));
    (destruct depth as [|depth]; [split; [done|lia]|]);
    rewrite first_some_None, forallb_Forall, <-Nat.succ_le_mono, max_list_le, Forall_fmap,
      <-Forall_and; apply Forall_iff_each; (eapply Forall_impl; [exact IH|]);
    intros v Hv; apply Hv.
Qed.

Lemma first_some_Some {A B} (f : A → option B) (l : list A) (y : B) :
  first_some f l = Some y → ∃ x, x ∈ l ∧ f x = Some y.
Proof.
  induction l as [|x l IH]; cbn; [done|]. destruct (f x) eqn:E.
  - intros [= ->]. exists x. split; [left|done].
  - intros (x' & ? & ?)%IH. exists x'. split; [by right|done].
Qed.

(** With numbers it writes, the encoder stops for want of room only. *)
Lemma refusal_Some allow_nan limit depth v f :
  refusal allow_nan limit depth v = Some f → encodable allow_nan limit v = true →
  f = TooDeep.
Proof.
  revert depth. induction v as [|b|n|x|s|l IH|d IH] using value_ind'; intros depth;
    cbn [refusal encodable]; try done; try (intros Hr Hw; by rewrite Hw in Hr);
    (destruct depth as [|depth]; [by intros [= <-]|]);
    intros (x & Hx & Hr)%first_some_Some He%forallb_Forall;
    rewrite Forall_forall in IH, He; by eapply IH, He.
Qed.

(** ** The decoder as a whole *)

(** ** What the decoder returns

    A value the decoder returns has no key twice in an object, no integer
    beyond the digit limit and no more arrays and objects inside one
    another than the decoder had room for: it is a value the encoder
    writes. *)

(** No object of the value has a key twice. *)
Fixpoint keys_distinct (v : value) : bool :=
  match v with
  | VList l => forallb keys_distinct l
  | VDict d => bool_decide (NoDup d.*1) && forallb (λ kv, keys_distinct kv.2) d
  | _ => true
  end.

(** No float in the value. *)
Fixpoint float_free (v : value) : bool :=
  match v with
  | VFloat _ => false
  | VList l => forallb float_free l
  | VDict d => forallb (λ kv, float_free kv.2) d
  | _ => true
  end.

(** What holds of a decoded value, read with room for [depth] arrays and
    objects. *)
Definition decoded (limit : option nat) (depth : nat) (v : value) : Prop :=
  keys_distinct v = true ∧ refusal true limit depth v = None.

(** The results of a parser satisfy [P]. *)
Definition yields {A} (P : A → Prop) (p : parser A) : Prop :=
  ∀ s x rest, p s = Some (Ret (x, rest)) → P x.

Lemma forallb_andb {A} (f g h : A → bool) (l : list A) :
  Forall (λ x, h x = f x && g x) l → forallb h l = forallb f l && forallb g l.
Proof.
  induction 1 as [|x l Hx _ IH]; [done|]. cbn. rewrite Hx, IH.
  by destruct (f x), (g x), (forallb f l).
Qed.

Lemma json_plain_split v : json_plain v = float_free v && keys_distinct v.
Proof.
  induction v as [| | | | |l IH|d IH] using value_ind'; try done;
    cbn [json_plain float_free keys_distinct].
  - by apply forallb_andb.
  - rewrite (forallb_andb (λ kv, float_free kv.2) (λ kv, keys_distinct kv.2)) by done.
    by destruct (bool_decide _), (forallb _ d).
Qed.

Section Dict.
Context (P : value → Prop).
Implicit Types (d pairs : list (string * value)) (k : string) (v : value).

Lemma assoc_set_keys d k v :
  (assoc_set d k v).*1 = if decide (k ∈ d.*1) then d.*1 else d.*1 ++ [k].
Proof.
  induction d as [|[k' v'] d IH]; [done|]. cbn.
  destruct (decide (k' = k)) as [->|E]; cbn.
  - by rewrite decide_True by left.
  - rewrite IH. destruct (decide (k ∈ d.*1)) as [Hk|Hk].
    + by rewrite decide_True by (by right).
    + rewrite decide_False; [done|]. by intros [?|?]%elem_of_cons.
Qed.

Lemma assoc_set_NoDup d k v : NoDup d.*1 → NoDup (assoc_set d k v).*1.
Proof.
  intros Hd. rewrite assoc_set_keys. case_decide as Hk; [done|].
  apply NoDup_app. split_and!; [done| |apply NoDup_singleton].
  by intros x Hx ->%list_elem_of_singleton.
Qed.

Lemma assoc_set_Forall d k v :
  Forall (λ kv, P kv.2) d → P v → Forall (λ kv, P kv.2) (assoc_set d k v).
Proof.
  intros Hd Hv. induction Hd as [|[k' v'] d Hx Hd IH]; cbn; [by repeat constructor|].
  case_decide; by constructor.
Qed.

Lemma dict_of_pairs_keys pairs : NoDup (dict_of_pairs pairs).*1.
Proof.
  unfold dict_of_pairs. generalize (NoDup_nil_2 (A:=string)).
  change (@nil string) with (@nil (string * value)).*1. generalize (@nil (string * value)).
  induction pairs as [|[k v] pairs IH]; intros d Hd; [done|]. by apply IH, assoc_set_NoDup.
Qed.

Lemma dict_of_pairs_Forall pairs :
  Forall (λ kv, P kv.2) pairs → Forall (λ kv, P kv.2) (dict_of_pairs pairs).
Proof.
  unfold dict_of_pairs. generalize (Forall_nil_2 (λ kv : string * value, P kv.2)).
  generalize (@nil (string * value)). intros d Hd Hp. revert d Hd.
  induction Hp as [|[k v] pairs Hx _ IH]; intros d Hd; [done|]. by apply IH, assoc_set_Forall.
Qed.

End Dict.

Section Decoded.
Context (limit : option nat).
Implicit Types (v : value) (l : list value) (d : list (string * value)).
Implicit Types (depth fuel : nat) (s t rest : string).

Lemma decoded_list depth l : Forall (decoded limit depth) l → decoded limit (S depth) (VList l).
Proof.
  intros Hl. split; cbn [keys_distinct refusal].
  - apply forallb_Forall. by eapply Forall_impl; [done|intros ? []].
  - apply first_some_None. by eapply Forall_impl; [done|intros ? []].
Qed.

Lemma decoded_dict depth pairs :
  Forall (λ kv, decoded limit depth kv.2) pairs →
  decoded limit (S depth) (VDict (dict_of_pairs pairs)).
Proof.
  intros Hd%dict_of_pairs_Forall. split; cbn [keys_distinct refusal].
  - apply andb_true_iff. split; [apply bool_decide_eq_true, dict_of_pairs_keys|].
    apply forallb_Forall. by eapply Forall_impl; [done|intros ? []].
  - apply first_some_None. by eapply Forall_impl; [done|intros ? []].
Qed.

Lemma match_number_decoded depth s r v rest :
  match_number limit s = Some r → r = Ret (v, rest) → decoded limit depth v.
Proof.
  unfold match_number, float_number, int_number. intros Hr ->. revert Hr.
  destruct (from_option _ _ _) as [neg s1]. intros ([ds s2] & _ & Hr)%bind_Some.
  revert Hr. repeat case_match; intros [= <-]; (split; [done|]); cbn;
    by erewrite ?py_int_within.
Qed.

Lemma scan_atom_decoded depth s v rest :
  scan_atom limit s = Ret (v, rest) → decoded limit depth v.
Proof.
  unfold scan_atom. destruct (scan_word words s) as [[v' t]|] eqn:E.
  - intros [= <- <-]. revert E. unfold words. cbn [scan_word].
    repeat case_match; by intros [= <- _].
  - destruct (match_number limit s) as [r|] eqn:E'; [|done]. cbn.
    intros ->. by eapply match_number_decoded.
Qed.

Lemma round_end_yields {A} (P : A → Prop) close (next : parser (list A)) x :
  yields (Forall P) next → P x → yields (Forall P) (round_end close next x).
Proof.
  intros Hnext Hx t l rest. unfold round_end. repeat case_match; try done.
  - intros [= <- _]. by constructor.
  - intros ([[l' u]|] & Hl & [= <- _])%bind_Some. constructor; [done|]. by eapply Hnext.
Qed.

Lemma elements_step_yields (Q : value → Prop) scan next :
  yields Q scan → yields (Forall Q) next → yields (Forall Q) (elements_step scan next).
Proof.
  intros Hscan Hnext s l rest. unfold elements_step.
  intros ([[v t]|] & Hv & Hl)%bind_Some; [|done].
  eapply round_end_yields; [done| |done]. by eapply Hscan.
Qed.

Lemma members_step_yields (Q : value → Prop) scan next :
  yields Q scan → yields (Forall (λ kv, Q kv.2)) next →
  yields (Forall (λ kv, Q kv.2)) (members_step scan next).
Proof.
  intros Hscan Hnext s l rest. unfold members_step. repeat case_match; try done.
  intros ([[v t]|] & Hv & Hl)%bind_Some; [|done].
  eapply (round_end_yields (λ kv, Q kv.2)); [done| |done]. by eapply Hscan.
Qed.

Lemma scan_value_yields members elements depth :
  (∀ n, yields (Forall (λ kv, decoded limit n kv.2)) (members n)) →
  (∀ n, yields (Forall (decoded limit n)) (elements n)) →
  yields (decoded limit depth) (scan_value limit members elements depth).
Proof.
  intros Hm He [|c s] v rest; [done|]. cbn [scan_value]. repeat case_decide.
  - destruct (scanstring s) as [[k t]|]; [|done]. by intros [= <- _].
  - destruct depth as [|n]; [done|]. case_match; [by intros [= <- _]|].
    intros ([[l t]|] & Hl & [= <- _])%bind_Some. by eapply decoded_dict, Hm.
  - destruct depth as [|n]; [done|]. case_match; [by intros [= <- _]|].
    intros ([[l t]|] & Hl & [= <- _])%bind_Some. by eapply decoded_list, He.
  - intros [= Hv]. by eapply scan_atom_decoded.
Qed.

Lemma scan_once_yields fuel :
  ∀ depth,
    yields (decoded limit depth) (scan_once limit fuel depth) ∧
    yields (Forall (decoded limit depth)) (parse_elements limit fuel depth) ∧
    yields (Forall (λ kv, decoded limit depth kv.2)) (parse_members limit fuel depth).
Proof.
  induction fuel as [|fuel IH]; intros depth; [by split_and!|].
  split_and!; cbn [scan_once parse_elements parse_members].
  - apply scan_value_yields; intros n; apply IH.
  - apply elements_step_yields; apply IH.
  - apply members_step_yields; apply IH.
Qed.

(** What [json.loads] returns is a decoded value. *)
Lemma json_loads_yields depth text v :
  json_loads limit depth text = Ret v → decoded limit depth v.
Proof.
  unfold json_loads, the_end. destruct (scan_once _ _ _ _) as [[[v' rest]|]|] eqn:E; try done.
  cbn. case_decide; [|done]. intros [= <-]. by eapply scan_once_yields.
Qed.

End Decoded.

Section Loads.
Context (allow_nan : bool) (limit : option nat) (depth : nat).
Implicit Types (text : string) (fuel : nat).

(** Two runs that both end agree. *)
Lemma scan_once_agree fuel fuel' s r r' :
  scan_once limit fuel depth s = Some r → scan_once limit fuel' depth s = Some r' → r = r'.
Proof.
  intros H%(scan_once_mono _ _ (fuel `max` fuel')) H'%(scan_once_mono _ _ (fuel `max` fuel'));
    [congruence|lia..].
Qed.

(** The descent ends within the fuel [json_loads] gives it, and more fuel
    changes nothing. *)
Lemma scan_once_total text :
  ∃ r, ∀ n, scan_once limit (fuel_of text + n) depth (skip_ws text) = Some r.
Proof.
  destruct (scan_once_enough limit (fuel_of text) depth (skip_ws text)) as (r & Hr & _).
  { pose proof (skip_ws_length text). unfold fuel_of. lia. }
  exists r. intros n. apply (scan_once_mono limit (fuel_of text)); [lia|done].
Qed.

(** [json_loads] returns what the descent returns with any fuel that is
    enough for it. *)
Lemma json_loads_scan text fuel r :
  scan_once limit fuel depth (skip_ws text) = Some r → json_loads limit depth text = the_end r.
Proof.
  intros Hr. unfold json_loads. destruct (scan_once_total text) as (r' & Hr').
  specialize (Hr' 0). rewrite Nat.add_0_r in Hr'. rewrite Hr'.
  by rewrite (scan_once_agree _ _ _ _ _ Hr' Hr).
Qed.

(** What [json.dumps] writes of a plain value, [json.loads] reads back,
    given the room the encoder had. *)
Lemma json_loads_dumps room v text :
  json_plain v = true → room ≤ depth →
  json_dumps allow_nan limit room v = Ret text → json_loads limit depth text = Ret v.
Proof.
  intros Hp Hroom. unfold json_dumps.
  destruct (refusal allow_nan limit room v) eqn:E; intros [= <-].
  apply refusal_None in E as [He Hd]. assert (value_depth v ≤ depth) as Hd' by lia.
  clear Hd. rename Hd' into Hd.
  destruct (scan_once_dumps allow_nan limit v Hp He depth Hd "" eq_refl) as (f & Hf).
  rewrite string_app_nil_r in Hf.
  destruct (dumps_text_start v Hp) as (c & t & E & (Hws & _)%value_start_plain).
  rewrite (json_loads_scan _ f (Ret (v, ""))); [done|]. by rewrite E, skip_ws_start, <-E.
Qed.

(** The decoder raises on the text of a value deeper than its room. *)
Lemma json_loads_short v :
  json_plain v = true → encodable allow_nan limit v = true → depth < value_depth v →
  json_loads limit depth (dumps_text v) = Raise TooDeep.
Proof.
  intros Hp He Hd. destruct (scan_once_short allow_nan limit v Hp He depth Hd "") as (f & Hf).
  rewrite string_app_nil_r in Hf.
  destruct (dumps_text_start v Hp) as (c & t & E & (Hws & _)%value_start_plain).
  rewrite (json_loads_scan _ f (Raise TooDeep)); [done|]. by rewrite E, skip_ws_start, <-E.
Qed.

End Loads.

(** ** Theorems *)

Section Theorems.
Context (allow_nan : bool) (limit : option nat) (depth : nat).
Implicit Types (v : value) (text : string).

(** C7: [json.loads] terminates: the descent ends within the fuel [fuel_of]
    gives it, twice the length of the text and two, whatever the text;
    more fuel changes nothing, and [json_loads] is the end of that
    descent: it never takes the branch of the spent fuel. *)
Theorem json_loads_terminates text :
  ∃ r, (∀ n, scan_once limit (fuel_of text + n) depth (skip_ws text) = Some r) ∧
       json_loads limit depth text = the_end r.
Proof.
  destruct (scan_once_total limit depth text) as (r & Hr). exists r. split; [done|].
  apply (json_loads_scan _ _ _ (fuel_of text + 0)), Hr.
Qed.

(** C6: [json.loads] reads back what [json.dumps] wrote of a value without
    floats whose dictionaries have no key twice: the value itself, with
    the order of the keys. *)
Theorem json_roundtrip v text :
  json_plain v = true →
  json_dumps allow_nan limit depth v = Ret text → json_loads limit depth text = Ret v.
Proof. intros Hp Hd. by apply (json_loads_dumps allow_nan limit depth depth v). Qed.

(** C33: a value deeper than the room of the interpreter stops the encoder
    and, written without that limit, the decoder: both raise
    [RecursionError]. *)
Theorem json_too_deep v :
  json_plain v = true → encodable allow_nan limit v = true → depth < value_depth v →
  json_dumps allow_nan limit depth v = Raise TooDeep ∧
  json_loads limit depth (dumps_text v) = Raise TooDeep.
Proof.
  intros Hp He Hd. split.
  - unfold json_dumps. destruct (refusal allow_nan limit depth v) as [f|] eqn:E.
    + by rewrite (refusal_Some _ _ _ _ _ E He).
    + apply refusal_None in E as [_ ?]. lia.
  - by apply (json_loads_short allow_nan).
Qed.

(** C34: an integer of more digits than the limit stops the encoder and,
    written without that limit, the decoder: both raise [ValueError]. *)
Theorem json_digit_limit n :
  within_limit limit (length (digits_of (Z.abs n))) = false →
  json_dumps allow_nan limit depth (VInt n) = Raise DigitLimit ∧
  json_loads limit depth (int_text n) = Raise DigitLimit.
Proof.
  intros Hlim. split; [unfold json_dumps; cbn; by rewrite Hlim|].
  destruct (int_text_start n) as (c & t & E & Hc).
  assert (is_ws c = false ∧ c ≠ DQ ∧ c ≠ "{" ∧ c ≠ "[")%char as (Hws & ? & ? & ?).
  { clear E. by destruct c as [[] [] [] [] [] [] [] []]. }
  rewrite (json_loads_scan _ _ _ 1 (Raise DigitLimit)); [done|].
  rewrite E, skip_ws_start by done. cbn [scan_once scan_value].
  rewrite !decide_False by done. f_equal. apply scan_atom_number; [done|].
  rewrite <-E, <-(string_app_nil_r (int_text n)).
  by rewrite match_number_int_text, Hlim.
Qed.

(** C8: what [json.loads] returns, [json.dumps] writes: in a value the
    decoder returns no object has a key twice, no integer is beyond the
    digit limit and the arrays and objects are no deeper than the room
    the decoder had, so that the encoder, which takes every float when
    [allow_nan] is on, refuses nothing. *)
Theorem json_loads_decoded text v :
  json_loads limit depth text = Ret v →
  keys_distinct v = true ∧ json_dumps true limit depth v = Ret (dumps_text v).
Proof.
  intros [Hk Hr]%json_loads_yields. split; [done|]. unfold json_dumps. by rewrite Hr.
Qed.

(** A value the decoder returned is read back from its own text,
    when it has no float: writing and reading again changes nothing. *)
Theorem json_loads_again text v :
  json_loads limit depth text = Ret v → float_free v = true →
  json_loads limit depth (dumps_text v) = Ret v.
Proof.
  intros [Hk Hr]%json_loads_yields Hf.
  apply (json_loads_dumps true limit depth depth v); [|done|].
  - by rewrite json_plain_split, Hf, Hk.
  - unfold json_dumps. by rewrite Hr.
Qed.

End Theorems.

(** ** Examples *)

Definition example_value : value :=
  VDict [("name", VStr "Pesach (2025)"); ("days", VList [VInt 12; VInt (-3); VNone]);
         ("done", VBool false)].

Lemma json_roundtrip_witness :
  json_loads (Some 4300) 5 (dumps_text example_value) = Ret example_value.
Proof. by apply (json_roundtrip false (Some 4300) 5 example_value). Defined.

Lemma json_too_deep_witness :
  json_dumps false None 2 (VList [VList [VInt 1; VList []]]) = Raise TooDeep ∧
  json_loads None 2 (dumps_text (VList [VList [VInt 1; VList []]])) = Raise TooDeep.
Proof. apply (json_too_deep false None 2); [done|done|cbn; lia]. Defined.

Lemma json_digit_limit_witness :
  json_dumps false (Some 3) 9 (VInt 12345) = Raise DigitLimit ∧
  json_loads (Some 3) 9 (int_text 12345) = Raise DigitLimit.
Proof. by apply (json_digit_limit false (Some 3) 9 12345). Defined.

(** An object with a key twice, as a service may write it: the decoder
    keeps the last value. *)
Definition example_twice : string :=
  dumps_text (VDict [("id", VInt 1); ("name", VStr "a"); ("id", VList [VInt 2; VNone])]).

Lemma json_loads_decoded_witness :
  keys_distinct (VDict [("id", VList [VInt 2; VNone]); ("name", VStr "a")]) = true ∧
  json_dumps true (Some 4300) 5 (VDict [("id", VList [VInt 2; VNone]); ("name", VStr "a")]) =
  Ret (dumps_text (VDict [("id", VList [VInt 2; VNone]); ("name", VStr "a")])).
Proof. apply (json_loads_decoded (Some 4300) 5 example_twice). by vm_compute. Defined.

Lemma json_loads_again_witness :
  json_loads (Some 4300) 5
    (dumps_text (VDict [("id", VList [VInt 2; VNone]); ("name", VStr "a")])) =
  Ret (VDict [("id", VList [VInt 2; VNone]); ("name", VStr "a")]).
Proof. apply (json_loads_again (Some 4300) 5 example_twice); by vm_compute. Defined.

(** The words [NaN] and [Infinity] are read as floats, and [1e400] as an
    infinity; two keys of one name leave the last value at the first
    place. *)
Example json_loads_words :
  json_loads None 3 "[NaN, -Infinity, 1e400, -0.0]" =
  Ret (VList [VFloat S754_nan; VFloat (S754_infinity true); VFloat (S754_infinity false);
              VFloat (S754_zero true)]).
Proof. by vm_compute. Qed.

Example json_loads_half : json_loads None 3 "[0.5]" = Ret (VList [VFloat (S754_finite false 4503599627370496 (-53))]).
Proof. by vm_compute. Qed.

(** Arrays inside one another. *)
Fixpoint nest (n : nat) : value :=
  match n with
  | O => VNone
  | S n' => VList [nest n']
  end.
