(* ===== verification/Csv.v ===== *)
(** * The CSV file: [open(CSV_FILE, 'r')] and [csv.reader]

    The script opens the file in text mode and hands it to
    [csv.DictReader], which reads it through [csv.reader] with the default
    dialect ([excel]: delimiter [,], quote character, doubled quotes, no
    escape character, not strict).  Neither is code of the script; both
    are modelled here as CPython 3.11 implements them, so that a run of the
    script can start from the text of the file.

    - Text mode translates the line ends ["\r\n"] and ["\r"] to ["\n"]
      ([translate_newlines]); iterating over the file yields its lines,
      each with its ["\n"] ([split_lines]).
    - [csv.reader] is the state machine [parse_process_char] of
      [Modules/_csv.c]: [process_char] is one step of it, with [None] for
      the end-of-line mark the reader feeds after each line.  The states of
      the escape character are left out: the dialect has none.
      [read_lines] is the loop of [Reader_iternext] over the lines, for
      all the rows of the file.

    The text is a string of decoded characters; decoding errors and the
    byte order mark are outside the model.

    The theorems: the invariant of the reader ([reader_invariant]), the
    agreement of reading by lines with reading by characters
    ([csv_reader_stream]) and the absence of exceptions on a text
    within the limit of a field ([csv_reader_short_text]).  What the reader
    makes of the text of a table is in [CsvTable]. *)

From S2P Require Import Prelude PyStr PyValue.

(** ** Lines *)

Definition LF : ascii := "010"%char.
Definition CR : ascii := "013"%char.
Definition QUOTE : ascii := "034"%char.
Definition COMMA : ascii := ","%char.

(** Universal newlines: what reading in text mode makes of the line ends. *)
Fixpoint translate_newlines (s : string) : string :=
  match s with
  | "" => ""
  | String c s' =>
      if decide (c = CR) then
        String LF match s' with
                  | String c' s'' =>
                      if decide (c' = LF) then translate_newlines s''
                      else translate_newlines s'
                  | "" => ""
                  end
      else String c (translate_newlines s')
  end.

(** The lines of a text, each with its line end; [cur] is the line read so
    far. *)
Fixpoint split_lines_from (cur s : string) : list string :=
  match s with
  | "" => if decide (cur = "") then [] else [cur]
  | String c s' =>
      if decide (c = LF) then (cur +:+ String LF "") :: split_lines_from "" s'
      else split_lines_from (cur +:+ String c "") s'
  end.

Definition split_lines (s : string) : list string := split_lines_from "" s.

(** What iterating over the file opened in text mode yields. *)
Definition file_lines (text : string) : list string :=
  split_lines (translate_newlines text).

(** ** The reader *)

(** [csv.field_size_limit()]. *)
Definition field_limit : N := 131072.

Inductive parser_state :=
| START_RECORD
| START_FIELD
| IN_FIELD
| IN_QUOTED_FIELD
| QUOTE_IN_QUOTED_FIELD
| EAT_CRNL.

#[export] Instance parser_state_eq_dec : EqDecision parser_state.
Proof. solve_decision. Defined.

(** The reader object: its state, the fields of the row read so far, the
    field being read and its length. *)
Record reader := Reader {
  state : parser_state;
  fields : list string;
  field : string;
  field_len : N;
}.

Definition set_state (st : parser_state) (r : reader) : reader :=
  Reader st (fields r) (field r) (field_len r).

(** [parse_reset]. *)
Definition parse_reset : reader := Reader START_RECORD [] "" 0.

(** [parse_add_char]: the character joins the field, unless the field is
    at the limit already. *)
Definition parse_add_char (r : reader) (c : ascii) : result reader :=
  if (field_limit <=? field_len r)%N then Raise CsvError
  else Ret (Reader (state r) (fields r) (field r +:+ String c "") (field_len r + 1)).

(** [parse_save_field]: the field joins the row. *)
Definition parse_save_field (r : reader) : reader :=
  Reader (state r) (fields r ++ [field r]) "" 0.

Definition is_newline (c : ascii) : bool :=
  bool_decide (c = LF) || bool_decide (c = CR).

(** The case [START_FIELD] of [parse_process_char]. *)
Definition start_field (r : reader) (c : option ascii) : result reader :=
  match c with
  | Some ch =>
      if is_newline ch then Ret (set_state EAT_CRNL (parse_save_field r))
      else if decide (ch = QUOTE) then Ret (set_state IN_QUOTED_FIELD r)
      else if decide (ch = COMMA) then Ret (parse_save_field r)
      else set_state IN_FIELD <$> parse_add_char r ch
  | None => Ret (set_state START_RECORD (parse_save_field r))
  end.

(** [parse_process_char]; [None] is the end-of-line mark [EOL]. *)
Definition process_char (r : reader) (c : option ascii) : result reader :=
  match state r with
  | START_RECORD =>
      match c with
      | None => Ret r
      | Some ch =>
          if is_newline ch then Ret (set_state EAT_CRNL r)
          else start_field (set_state START_FIELD r) c
      end
  | START_FIELD => start_field r c
  | IN_FIELD =>
      match c with
      | Some ch =>
          if is_newline ch then Ret (set_state EAT_CRNL (parse_save_field r))
          else if decide (ch = COMMA) then Ret (set_state START_FIELD (parse_save_field r))
          else parse_add_char r ch
      | None => Ret (set_state START_RECORD (parse_save_field r))
      end
  | IN_QUOTED_FIELD =>
      match c with
      | Some ch =>
          if decide (ch = QUOTE) then Ret (set_state QUOTE_IN_QUOTED_FIELD r)
          else parse_add_char r ch
      | None => Ret r
      end
  | QUOTE_IN_QUOTED_FIELD =>
      match c with
      | Some ch =>
          if decide (ch = QUOTE) then set_state IN_QUOTED_FIELD <$> parse_add_char r ch
          else if decide (ch = COMMA) then Ret (set_state START_FIELD (parse_save_field r))
          else if is_newline ch then Ret (set_state EAT_CRNL (parse_save_field r))
          else set_state IN_FIELD <$> parse_add_char r ch
      | None => Ret (set_state START_RECORD (parse_save_field r))
      end
  | EAT_CRNL =>
      match c with
      | Some ch => if is_newline ch then Ret r else Raise CsvError
      | None => Ret (set_state START_RECORD r)
      end
  end.

#[global] Arguments process_char : simpl never.
#[global] Arguments parse_add_char : simpl never.

(** The characters of a line, one after the other. *)
Fixpoint process_chars (r : reader) (line : string) : result reader :=
  match line with
  | "" => Ret r
  | String c line' => r' ← process_char r (Some c); process_chars r' line'
  end.

(** A line and the end-of-line mark after it: one round of the loop of
    [Reader_iternext]. *)
Definition process_line (r : reader) (line : string) : result reader :=
  r' ← process_chars r line; process_char r' None.

(** At the end of the input the reader still holds a row when it is inside
    a field. *)
Definition pending (r : reader) : bool :=
  negb (field_len r =? 0)%N || bool_decide (state r = IN_QUOTED_FIELD).

(** A row joins the rows that follow it. *)
Definition cons_row (row : list string) (p : list (list string) * option exn)
    : list (list string) * option exn :=
  (row :: p.1, p.2).

(** After a line and its end-of-line mark: an exception ends the
    iteration; a reader back in [START_RECORD] has a row to yield, and the
    next row starts from [parse_reset]; otherwise the row goes on with the
    next line. *)
Definition row_end (r : result reader)
    (next : reader → list (list string) * option exn)
    : list (list string) * option exn :=
  match r with
  | Raise e => ([], Some e)
  | Ret r' =>
      if decide (state r' = START_RECORD) then cons_row (fields r') (next parse_reset)
      else next r'
  end.

(** The rows [csv.reader] yields for the lines, and the exception that ends
    the iteration if there is one.  At the end of the lines a reader that
    is inside a field yields the row it holds. *)
Fixpoint read_lines (r : reader) (lines : list string) : list (list string) * option exn :=
  match lines with
  | [] => (if pending r then [fields (parse_save_field r)] else [], None)
  | line :: rest => row_end (process_line r line) (λ r', read_lines r' rest)
  end.

(** [csv.reader(csvfile)] on the text of the file. *)
Definition csv_reader (text : string) : list (list string) * option exn :=
  read_lines parse_reset (file_lines text).

(** The same reading, character by character: the end-of-line mark
    follows every line feed and the last character of the text. *)
Fixpoint read_stream (r : reader) (s : string) : list (list string) * option exn :=
  match s with
  | "" =>
      if decide (state r = START_RECORD) then read_lines r []
      else row_end (process_char r None) (λ r', read_lines r' [])
  | String c s' =>
      match process_char r (Some c) with
      | Raise e => ([], Some e)
      | Ret r' =>
          if decide (c = LF) then row_end (process_char r' None) (λ r'', read_stream r'' s')
          else read_stream r' s'
      end
  end.

(** ** Steps of the reader *)

Lemma process_chars_app r a b :
  process_chars r (a +:+ b) = r' ← process_chars r a; process_chars r' b.
Proof.
  revert r. induction a as [|c a IH]; intros r; [done|].
  rewrite string_app_cons. cbn. destruct (process_char r (Some c)); [apply IH|done].
Qed.

Lemma process_chars_snoc r a c :
  process_chars r (a +:+ String c "") = r' ← process_chars r a; process_char r' (Some c).
Proof.
  rewrite process_chars_app. destruct (process_chars r a) as [r'|]; [|done].
  cbn. by destruct (process_char r' (Some c)).
Qed.

(** ** The invariant of the reader

    [field_len] is the length of the field, which is within the limit, and
    the field is empty where no field has begun.  The invariant holds of
    every reader that [parse_reset] and the steps of [process_char] lead
    to. *)

Definition len (s : string) : N := N.of_nat (String.length s).

Record reader_inv (r : reader) : Prop := {
  inv_len : field_len r = len (field r);
  inv_limit : (field_len r ≤ field_limit)%N;
  inv_empty : state r ∈ [START_RECORD; START_FIELD; EAT_CRNL] → field r = "";
}.

(** The readers of a run: the fresh reader, and the reader after a
    character or an end-of-line mark that raised nothing. *)
Inductive reaches : reader → Prop :=
| reaches_reset : reaches parse_reset
| reaches_char r c r' : reaches r → process_char r c = Ret r' → reaches r'.

Lemma len_snoc s c : len (s +:+ String c "") = (len s + 1)%N.
Proof.
  unfold len. induction s as [|d s IH]; [done|].
  rewrite string_app_cons. cbn [String.length]. lia.
Qed.

Lemma len_cons c s : len (String c s) = (len s + 1)%N.
Proof. unfold len. cbn [String.length]. lia. Qed.

Lemma len_app s t : len (s +:+ t) = (len s + len t)%N.
Proof.
  unfold len. induction s as [|d s IH]; [rewrite string_app_nil_l; cbn; lia|].
  rewrite string_app_cons. cbn [String.length]. lia.
Qed.

Lemma parse_reset_inv : reader_inv parse_reset.
Proof. by split. Qed.

Lemma parse_add_char_Ret r c r' :
  parse_add_char r c = Ret r' ↔
  (field_len r < field_limit)%N ∧
  r' = Reader (state r) (fields r) (field r +:+ String c "") (field_len r + 1).
Proof.
  unfold parse_add_char. destruct (N.leb_spec field_limit (field_len r)).
  - split; [done|]. intros [? _]. lia.
  - split; [by intros [= <-]|by intros [_ ->]].
Qed.

(** Every step of the reader keeps the invariant. *)
Lemma process_char_inv r c r' :
  reader_inv r → process_char r c = Ret r' → reader_inv r'.
Proof.
  intros [Hlen Hlim Hemp]. destruct r as [st fs f n]. cbn in Hlen, Hlim, Hemp.
  unfold process_char, start_field, parse_add_char.
  destruct st, c as [ch|]; cbn; repeat case_match; cbn; intros; simplify_eq;
    repeat match goal with H : (_ <=? _)%N = false |- _ => apply N.leb_gt in H end;
    (split; cbn; rewrite ?len_snoc, ?elem_of_cons, ?elem_of_nil in *;
     first [done | lia | naive_solver]).
Qed.

(** C27: the invariant of the reader holds at every point of a run: the
    length the reader keeps is the length of the field it holds, no field
    grows beyond the limit of 131072 characters, and outside a field the
    reader holds no text. *)
Theorem reader_invariant r : reaches r → reader_inv r.
Proof.
  induction 1 as [|r c r' _ IH Hstep]; [apply parse_reset_inv|].
  by eapply process_char_inv.
Qed.

Lemma reaches_chars r s r' : reaches r → process_chars r s = Ret r' → reaches r'.
Proof.
  revert r. induction s as [|c s IH]; intros r Hr; cbn; [by intros [= <-]|].
  destruct (process_char r (Some c)) as [r1|] eqn:E; [|done]. cbn.
  apply IH. by eapply reaches_char.
Qed.

(** ** Lines and stream

    Reading line by line and reading character by character give the same
    rows. *)

(** Only the end-of-line mark takes the reader back to [START_RECORD]. *)
Lemma process_char_not_start r c r' :
  process_char r (Some c) = Ret r' → state r' ≠ START_RECORD.
Proof.
  unfold process_char, start_field, parse_add_char.
  destruct r as [[] fs f n]; cbn; repeat case_match; cbn;
    intros; by simplify_eq.
Qed.

Lemma process_chars_not_start r s r' :
  s ≠ "" → process_chars r s = Ret r' → state r' ≠ START_RECORD.
Proof.
  revert r. induction s as [|c s IH]; intros r; [done|intros _].
  cbn. destruct (process_char r (Some c)) as [r1|] eqn:E; [|done].
  destruct s as [|d s]; [|by apply IH].
  cbn. intros [= <-]. by eapply process_char_not_start.
Qed.

(** After the end-of-line mark the reader is between two rows or inside a
    quoted field. *)
Lemma process_char_eol r r' :
  process_char r None = Ret r' →
  state r' = START_RECORD ∨ state r' = IN_QUOTED_FIELD ∧ r = r'.
Proof.
  unfold process_char, start_field.
  destruct r as [[] fs f n]; cbn; intros; simplify_eq; auto.
Qed.

Lemma row_end_ext x k1 k2 :
  k1 parse_reset = k2 parse_reset →
  (∀ r, x = Ret r → state r ≠ START_RECORD → k1 r = k2 r) →
  row_end x k1 = row_end x k2.
Proof.
  intros H0 H. destruct x as [r|]; [|done]. cbn.
  case_decide; [by rewrite H0|by apply H].
Qed.

Lemma process_line_snoc r cur c :
  process_line r (cur +:+ String c "") =
  r1 ← process_chars r cur; r2 ← process_char r1 (Some c); process_char r2 None.
Proof.
  unfold process_line. rewrite process_chars_snoc.
  destruct (process_chars r cur) as [r1|]; [|done]. cbn.
  by destruct (process_char r1 (Some c)).
Qed.

(** An exception inside a line ends the reading at that line. *)
Lemma read_lines_raise r cur s e :
  process_chars r cur = Raise e →
  read_lines r (split_lines_from cur s) = ([], Some e).
Proof.
  revert cur. induction s as [|c s IH]; intros cur Hcur; cbn.
  - case_decide as Hc; [by subst|]. cbn. unfold process_line. by rewrite Hcur.
  - case_decide as Hc.
    + cbn. by rewrite process_line_snoc, Hcur.
    + apply IH. by rewrite process_chars_snoc, Hcur.
Qed.

Lemma read_lines_stream_from r0 cur r s :
  process_chars r0 cur = Ret r →
  (cur = "" → state r0 = START_RECORD ∨ state r0 = IN_QUOTED_FIELD) →
  read_lines r0 (split_lines_from cur s) = read_stream r s.
Proof.
  revert r0 cur r. induction s as [|c s IH]; intros r0 cur r Hcur Hst; cbn.
  - case_decide as Hc.
    + subst cur. injection Hcur as <-. case_decide as Hr; [done|].
      destruct (Hst eq_refl) as [?|Hq]; [done|].
      unfold process_char. by rewrite Hq; cbn; rewrite decide_False by done.
    + rewrite decide_False by (by eapply process_chars_not_start).
      cbn. unfold process_line. by rewrite Hcur.
  - destruct (process_char r (Some c)) as [r1|e] eqn:E1.
    + case_decide as Hc.
      * subst c. cbn [read_lines]. rewrite process_line_snoc, Hcur. cbn. rewrite E1. cbn.
        apply row_end_ext.
        -- apply (IH parse_reset ""); [done|by left].
        -- intros r2 E2 Hr2. apply (IH r2 ""); [done|].
           intros _. destruct (process_char_eol _ _ E2) as [|[? _]]; auto.
      * apply IH; [by rewrite process_chars_snoc, Hcur|].
        intros Hnil. by destruct cur.
    + assert (process_chars r0 (cur +:+ String c "") = Raise e) as Hraise
        by (by rewrite process_chars_snoc, Hcur).
      case_decide as Hc; [|by apply read_lines_raise].
      subst c. cbn. unfold process_line. by rewrite Hraise.
Qed.

(** Reading the file line by line, as the reader does, gives the rows
    and the exception of reading the translated text character by
    character with an end-of-line mark after every line feed and after the
    last character: where the lines are cut makes no difference. *)
Lemma csv_reader_stream text :
  csv_reader text = read_stream parse_reset (translate_newlines text).
Proof. apply read_lines_stream_from; [done|by left]. Qed.

(** ** No exception on a short text *)

Lemma process_char_safe r c :
  state r ≠ EAT_CRNL → (field_len r < field_limit)%N →
  ∃ r', process_char r (Some c) = Ret r' ∧ (field_len r' ≤ field_len r + 1)%N ∧
        (is_newline c = false → state r' ≠ EAT_CRNL).
Proof.
  intros Hst Hlen. unfold process_char, start_field, parse_add_char.
  destruct r as [st fs f n]; cbn in *.
  assert ((field_limit <=? n)%N = false) as Hleb by (apply N.leb_gt; lia).
  destruct st; try done; cbn; rewrite ?Hleb;
    repeat case_match; cbn; eexists; (split; [done|]); cbn; split; (lia || done).
Qed.

Lemma process_char_eol_safe r :
  ∃ r', process_char r None = Ret r' ∧ (field_len r' ≤ field_len r)%N ∧
        state r' ≠ EAT_CRNL.
Proof.
  unfold process_char, start_field.
  destruct r as [[] fs f n]; cbn; eexists; (split; [done|]); cbn; split; (lia || done).
Qed.

Lemma read_stream_safe s r :
  CR ∉ chars s → state r ≠ EAT_CRNL → (field_len r + len s ≤ field_limit)%N →
  (read_stream r s).2 = None.
Proof.
  revert r. induction s as [|c s IH]; intros r Hs Hst Hlen; cbn [read_stream].
  - case_decide; [done|].
    destruct (process_char_eol_safe r) as (r' & -> & _ & _). cbn. by case_decide.
  - cbn in Hs. apply not_elem_of_cons in Hs as [Hc Hs]. rewrite len_cons in Hlen.
    destruct (process_char_safe r c Hst) as (r1 & -> & Hlen1 & Hst1); [lia|].
    case_decide as Hlf.
    + destruct (process_char_eol_safe r1) as (r2 & -> & Hlen2 & Hst2). cbn.
      case_decide; cbn; apply IH; cbn; first [done|lia].
    + apply IH; [done| |lia]. apply Hst1. unfold is_newline.
      by rewrite !bool_decide_eq_false_2.
Qed.

(** The line ends of the translated text are line feeds, and the
    translation adds no character. *)
Definition translated (s t : string) : Prop :=
  (CR ∉ chars t) ∧ (len t ≤ len s)%N.

Lemma translated_cons c s t :
  c ≠ CR → translated s t → translated (String c s) (String c t).
Proof.
  intros Hc [Ht Hlen]. split; cbn [chars]; [by apply not_elem_of_cons|].
  rewrite !len_cons. lia.
Qed.

Lemma translated_line_end c s t :
  translated s t → translated (String c s) (String LF t).
Proof.
  intros [Ht Hlen]. split; cbn [chars]; [by apply not_elem_of_cons|].
  rewrite !len_cons. lia.
Qed.

Lemma translated_nil : translated "" "".
Proof. split; [apply not_elem_of_nil|done]. Qed.

Lemma translated_skip c s t : translated s t → translated (String c s) t.
Proof. intros [Ht Hlen]. split; [done|]. rewrite len_cons. lia. Qed.

Lemma translate_newlines_translated s :
  translated s (translate_newlines s) ∧
  (∀ c, translated (String c s) (translate_newlines (String c s))).
Proof.
  induction s as [|d s [IH1 IH2]].
  - split; [apply translated_nil|]. intros c. cbn.
    case_decide; [apply translated_line_end|apply translated_cons]; auto using translated_nil.
  - split; [apply IH2|]. intros c. specialize (IH2 d).
    change (translate_newlines (String c (String d s))) with
      (if decide (c = CR) then
         String LF (if decide (d = LF) then translate_newlines s
                    else translate_newlines (String d s))
       else String c (translate_newlines (String d s))).
    repeat case_decide; subst.
    + by apply translated_skip, translated_cons.
    + by apply translated_line_end.
    + by apply translated_cons.
Qed.

(** C26: on a text of at most 131072 characters the reader raises nothing:
    the only errors of the reader in this dialect are a field beyond the
    limit and a character after a carriage return, and reading in text
    mode leaves no carriage return. *)
Theorem csv_reader_short_text text :
  (len text ≤ field_limit)%N → (csv_reader text).2 = None.
Proof.
  intros Hlen. rewrite csv_reader_stream.
  destruct (translate_newlines_translated text) as [[Hcr Hlen'] _].
  apply read_stream_safe; cbn; [done|done|lia].
Qed.

(** ** Examples *)

Lemma reader_invariant_witness : reader_inv (Reader IN_FIELD ["a"] "b" 1).
Proof.
  apply reader_invariant, (reaches_chars parse_reset "a,b"); [constructor|done].
Defined.

Lemma csv_reader_short_text_witness : (csv_reader "a,b").2 = None.
Proof. apply csv_reader_short_text. by vm_compute. Defined.

(** A character after the quote that closes a field joins the field, and a
    quote inside a plain field is a character like any other. *)
Example csv_reader_lenient :
  csv_reader (String QUOTE ("a" +:+ String QUOTE ("b,c" +:+ String QUOTE "d"))) =
  ([["ab"; "c" +:+ String QUOTE "d"]], None).
Proof. by vm_compute. Qed.
