(* ===== verification/CsvTable.v ===== *)
(** * Tables of CSV text

    What the reader of [Csv] makes of the text of a table: the cells of a
    row separated by commas, quoted or not, the rows ended as Unix, DOS or
    the old Macintosh end their lines.  [table_text] writes a table of
    cells, [write_table] a table of fields with the quotes [csv.writer]
    would use.  The theorems say that the reader gives the fields back
    ([csv_reader_table], [csv_reader_roundtrip]), that it does what
    [split] at the commas does where the text has no quotes
    ([csv_reader_split_lines]), and that it raises at a field beyond its
    limit ([csv_reader_field_too_long]). *)

From S2P Require Import Prelude PyStr PyValue Csv.

(** ** Tables

    The text of a table, as a spreadsheet writes it: the cells of a row
    separated by commas, each row followed by a line end; a cell is
    written as it is, or between quotes with its quotes doubled.  The line
    end is the one of the system that wrote the file. *)

Inductive cell :=
| Plain (f : string)
| Quoted (f : string).

Definition cell_value (c : cell) : string :=
  match c with
  | Plain f | Quoted f => f
  end.

Definition row_values (row : list cell) : list string := cell_value <$> row.

Definition table_values (rows : list (list cell)) : list (list string) :=
  row_values <$> rows.

Fixpoint escape (f : string) : string :=
  match f with
  | "" => ""
  | String c f' =>
      if decide (c = QUOTE) then String QUOTE (String QUOTE (escape f'))
      else String c (escape f')
  end.

Definition cell_text (c : cell) : string :=
  match c with
  | Plain f => f
  | Quoted f => String QUOTE (escape f +:+ String QUOTE "")
  end.

Fixpoint row_tail (cs : list cell) : string :=
  match cs with
  | [] => ""
  | c :: cs' => String COMMA (cell_text c +:+ row_tail cs')
  end.

Definition row_text (row : list cell) : string :=
  match row with
  | [] => ""
  | c :: cs => cell_text c +:+ row_tail cs
  end.

Inductive line_end :=
| Unix
| Dos
| Mac.

Definition eol_text (e : line_end) : string :=
  match e with
  | Unix => String LF ""
  | Dos => String CR (String LF "")
  | Mac => String CR ""
  end.

Fixpoint table_text (e : line_end) (rows : list (list cell)) : string :=
  match rows with
  | [] => ""
  | row :: rows' => row_text row +:+ eol_text e +:+ table_text e rows'
  end.

(** A character that needs no quotes. *)
Definition plain_char (c : ascii) : bool :=
  negb (is_newline c) && negb (bool_decide (c = QUOTE)) && negb (bool_decide (c = COMMA)).

(** A cell the reader gives back: within the limit of a field, free of
    carriage returns, and of plain characters if it is not quoted. *)
Definition cell_ok (c : cell) : Prop :=
  (len (cell_value c) ≤ field_limit)%N ∧
  match c with
  | Plain f => Forall (λ ch, plain_char ch = true) (chars f)
  | Quoted f => CR ∉ chars f
  end.

(** A row of such cells; the row of one empty cell is written as an empty
    line, which is the text of the empty row. *)
Definition row_ok (row : list cell) : Prop :=
  Forall cell_ok row ∧ row ≠ [Plain ""].

#[export] Instance cell_eq_dec : EqDecision cell.
Proof. solve_decision. Defined.

#[export] Instance cell_ok_dec c : Decision (cell_ok c).
Proof. unfold cell_ok. destruct c; apply _. Defined.

#[export] Instance row_ok_dec row : Decision (row_ok row).
Proof. unfold row_ok. apply _. Defined.

(** The reader holds the field [f] after the fields [fs], and the field is
    complete at the next comma or line end. *)
Record held (r : reader) (fs : list string) (f : string) : Prop := {
  held_fields : fields r = fs;
  held_field : field r = f;
  held_len : field_len r = len f;
  held_state :
    state r = START_FIELD ∧ f = "" ∨ state r = IN_FIELD ∨ state r = QUOTE_IN_QUOTED_FIELD;
}.

(** The row so far ends in a field of [field_limit] characters, and the
    character [c] would join that field. *)
Record overflows (row : list cell) (c : ascii) : Prop := {
  over_row : row_ok row;
  over_last : ∃ f, last (row_values row) = Some f ∧ len f = field_limit;
  over_comma : c ≠ COMMA;
  over_newline : is_newline c = false;
}.

Lemma plain_char_spec c :
  plain_char c = true ↔ c ≠ LF ∧ c ≠ CR ∧ c ≠ QUOTE ∧ c ≠ COMMA.
Proof.
  unfold plain_char, is_newline.
  rewrite !andb_true_iff, !negb_true_iff, orb_false_iff, !bool_decide_eq_false.
  naive_solver.
Qed.

Lemma plain_char_not_newline c : plain_char c = true → is_newline c = false.
Proof. unfold plain_char. by intros [[?%negb_true_iff _]%andb_true_iff _]%andb_true_iff. Qed.

Lemma held_comma r fs f :
  held r fs f →
  process_char r (Some COMMA) = Ret (Reader START_FIELD (fs ++ [f]) "" 0).
Proof.
  intros [<- <- _ Hst]. unfold process_char, start_field, parse_save_field.
  destruct r as [st fs f n]; cbn in *. by destruct Hst as [[-> _]|[->| ->]].
Qed.

Lemma held_LF r fs f :
  held r fs f →
  process_char r (Some LF) = Ret (Reader EAT_CRNL (fs ++ [f]) "" 0).
Proof.
  intros [<- <- _ Hst]. unfold process_char, start_field, parse_save_field.
  destruct r as [st fs f n]; cbn in *. by destruct Hst as [[-> _]|[->| ->]].
Qed.

(** ** Reading a table *)

Lemma read_stream_char r c r' s :
  process_char r (Some c) = Ret r' → c ≠ LF →
  read_stream r (String c s) = read_stream r' s.
Proof. intros E Hc. cbn. by rewrite E, decide_False. Qed.

(** A line feed inside a quoted field joins the field, and the end-of-line
    mark after it changes nothing. *)
Lemma read_stream_quoted_LF r r' s :
  process_char r (Some LF) = Ret r' → state r' = IN_QUOTED_FIELD →
  read_stream r (String LF s) = read_stream r' s.
Proof.
  intros E Hst. cbn. rewrite E, decide_True by done.
  unfold process_char. rewrite Hst. cbn. by rewrite Hst.
Qed.

(** The line feed that ends a row. *)
Lemma read_stream_row_end r fs s :
  process_char r (Some LF) = Ret (Reader EAT_CRNL fs "" 0) →
  read_stream r (String LF s) = cons_row fs (read_stream parse_reset s).
Proof. intros E. cbn. by rewrite E. Qed.

(** At the start of a row a character that is no line end starts a field. *)
Lemma read_stream_start r c s :
  state r = START_RECORD → is_newline c = false →
  read_stream r (String c s) = read_stream (set_state START_FIELD r) (String c s).
Proof.
  intros Hst Hc. cbn [read_stream]. unfold process_char. by rewrite Hst, Hc.
Qed.

Lemma add_char_quoted r c :
  state r = IN_QUOTED_FIELD → c ≠ QUOTE → (field_len r < field_limit)%N →
  process_char r (Some c) =
  Ret (Reader IN_QUOTED_FIELD (fields r) (field r +:+ String c "") (field_len r + 1)).
Proof.
  intros Hst Hc Hlen. unfold process_char. rewrite Hst, decide_False by done.
  apply parse_add_char_Ret. by rewrite Hst.
Qed.

Lemma quote_quoted r :
  state r = IN_QUOTED_FIELD →
  process_char r (Some QUOTE) = Ret (set_state QUOTE_IN_QUOTED_FIELD r).
Proof. intros Hst. unfold process_char. by rewrite Hst, decide_True. Qed.

Lemma quote_after_quote r :
  state r = QUOTE_IN_QUOTED_FIELD → (field_len r < field_limit)%N →
  process_char r (Some QUOTE) =
  Ret (Reader IN_QUOTED_FIELD (fields r) (field r +:+ String QUOTE "") (field_len r + 1)).
Proof.
  intros Hst Hlen. unfold process_char, parse_add_char. rewrite Hst, decide_True by done.
  by destruct (N.leb_spec field_limit (field_len r)); [lia|].
Qed.

Lemma add_char_plain r c :
  state r = IN_FIELD → plain_char c = true → (field_len r < field_limit)%N →
  process_char r (Some c) =
  Ret (Reader IN_FIELD (fields r) (field r +:+ String c "") (field_len r + 1)).
Proof.
  intros Hst Hp Hlen. pose proof (plain_char_not_newline c Hp) as Hn.
  apply plain_char_spec in Hp as (_ & _ & _ & Hc).
  unfold process_char. rewrite Hst, Hn, decide_False by done.
  apply parse_add_char_Ret. by rewrite Hst.
Qed.

Lemma snoc_app s c t : (s +:+ String c "") +:+ t = s +:+ String c t.
Proof. by rewrite string_app_assoc. Qed.

(** The text of a quoted field, read inside the quotes. *)
Lemma read_stream_escape f r rest :
  state r = IN_QUOTED_FIELD → (field_len r + len f ≤ field_limit)%N →
  read_stream r (escape f +:+ rest) =
  read_stream (Reader IN_QUOTED_FIELD (fields r) (field r +:+ f) (field_len r + len f)) rest.
Proof.
  revert r. induction f as [|c f IH]; intros r Hst Hlen.
  - rewrite string_app_nil_l, string_app_nil_r, N.add_0_r. by destruct r; cbn in *; subst.
  - rewrite len_cons in Hlen.
    assert (∀ r', r' = Reader IN_QUOTED_FIELD (fields r) (field r +:+ String c "") (field_len r + 1) →
      read_stream r' (escape f +:+ rest) =
      read_stream (Reader IN_QUOTED_FIELD (fields r) (field r +:+ String c f)
                     (field_len r + len (String c f))) rest) as Hnext.
    { intros r' ->. rewrite IH by (cbn; first [done|lia]). cbn.
      by rewrite snoc_app, len_cons, (N.add_comm (len f) 1), N.add_assoc. }
    cbn [escape]. case_decide as Hc.
    + subst c. rewrite !string_app_cons.
      rewrite (read_stream_char _ _ _ _ (quote_quoted r Hst)) by done.
      rewrite (read_stream_char _ _ _ _
                 (quote_after_quote (set_state QUOTE_IN_QUOTED_FIELD r) eq_refl ltac:(cbn; lia)))
        by done.
      by apply Hnext.
    + rewrite string_app_cons.
      pose proof (add_char_quoted r c Hst Hc ltac:(lia)) as E.
      destruct (decide (c = LF)) as [->|Hlf].
      * rewrite (read_stream_quoted_LF _ _ _ E) by done. by apply Hnext.
      * rewrite (read_stream_char _ _ _ _ E) by done. by apply Hnext.
Qed.

(** The text of a plain field, read inside the field. *)
Lemma read_stream_plain f r rest :
  state r = IN_FIELD → (field_len r + len f ≤ field_limit)%N →
  Forall (λ ch, plain_char ch = true) (chars f) →
  read_stream r (f +:+ rest) =
  read_stream (Reader IN_FIELD (fields r) (field r +:+ f) (field_len r + len f)) rest.
Proof.
  revert r. induction f as [|c f IH]; intros r Hst Hlen Hf.
  - rewrite string_app_nil_l, string_app_nil_r, N.add_0_r. by destruct r; cbn in *; subst.
  - rewrite len_cons in Hlen. cbn in Hf. apply Forall_cons in Hf as [Hc Hf].
    rewrite string_app_cons.
    rewrite (read_stream_char _ _ _ _ (add_char_plain r c Hst Hc ltac:(lia)))
      by (by apply plain_char_spec).
    rewrite IH by (cbn; first [done|lia]). cbn.
    by rewrite snoc_app, len_cons, (N.add_comm (len f) 1), N.add_assoc.
Qed.

(** A cell read from the start of a field: the reader holds its value. *)
Lemma read_stream_cell fs c :
  cell_ok c →
  ∃ r, held r fs (cell_value c) ∧
       ∀ rest, read_stream (Reader START_FIELD fs "" 0) (cell_text c +:+ rest) =
               read_stream r rest.
Proof.
  intros [Hlen Hc]. destruct c as [f|f]; cbn in Hlen, Hc |- *.
  - destruct f as [|ch f].
    + exists (Reader START_FIELD fs "" 0). split; [by split; auto|done].
    + exists (Reader IN_FIELD fs (String ch f) (len (String ch f))).
      split; [by split; auto|intros rest].
      apply Forall_cons in Hc as [Hch Hf]. rewrite len_cons in Hlen.
      pose proof (plain_char_not_newline ch Hch) as Hn.
      apply plain_char_spec in Hch as (Hlf & _ & Hq & Hcomma).
      rewrite string_app_cons, (read_stream_char _ ch (Reader IN_FIELD fs (String ch "") 1)).
      * rewrite read_stream_plain by (cbn; first [done|lia]). cbn.
        by rewrite len_cons, N.add_comm.
      * unfold process_char, start_field. cbn. by rewrite Hn, !decide_False.
      * done.
  - exists (Reader QUOTE_IN_QUOTED_FIELD fs f (len f)).
    split; [by split; auto|intros rest].
    rewrite string_app_cons, snoc_app.
    rewrite (read_stream_char _ QUOTE (Reader IN_QUOTED_FIELD fs "" 0)) by done.
    rewrite read_stream_escape by (cbn; first [done|lia]). cbn [state fields field field_len].
    rewrite string_app_nil_l, N.add_0_l.
    by rewrite (read_stream_char _ QUOTE _ _ (quote_quoted (Reader IN_QUOTED_FIELD fs f (len f)) eq_refl)).
Qed.

(** The cells after the first of a row: the reader holds the last of them,
    after the fields of the others. *)
Lemma read_stream_row_tail cs r fs f :
  held r fs f → Forall cell_ok cs →
  ∃ r' fs' f', held r' fs' f' ∧ fs ++ f :: row_values cs = fs' ++ [f'] ∧
    ∀ rest, read_stream r (row_tail cs +:+ rest) = read_stream r' rest.
Proof.
  intros Hr Hcs. revert r fs f Hr.
  induction Hcs as [|c cs Hc Hcs IH]; intros r fs f Hr; [by exists r, fs, f|].
  destruct (read_stream_cell (fs ++ [f]) c Hc) as (r1 & Hr1 & Hread).
  destruct (IH r1 _ _ Hr1) as (r' & fs' & f' & Hr' & E & Hnext).
  exists r', fs', f'. split_and!; [done|by rewrite <-E, <-app_assoc|intros rest].
  cbn [row_tail]. rewrite string_app_cons, !string_app_assoc.
  by rewrite (read_stream_char _ _ _ _ (held_comma r fs f Hr)), Hread, Hnext.
Qed.

Lemma cell_text_head c :
  cell_ok c → c ≠ Plain "" →
  ∃ ch s, cell_text c = String ch s ∧ is_newline ch = false.
Proof.
  intros [_ Hc] Hne. destruct c as [[|ch f]|f]; [done|..].
  - exists ch, f. split; [done|]. apply Forall_cons in Hc as [Hch _].
    by apply plain_char_not_newline.
  - by eexists _, _.
Qed.

Lemma row_text_head c cs :
  row_ok (c :: cs) →
  ∃ ch s, row_text (c :: cs) = String ch s ∧ is_newline ch = false.
Proof.
  intros [[Hc Hcs]%Forall_cons Hne]. destruct (decide (c = Plain "")) as [->|Hc'].
  - destruct cs as [|c' cs]; [done|]. by eexists _, _.
  - destruct (cell_text_head c Hc Hc') as (ch & s & E & Hch).
    exists ch, (s +:+ row_tail cs). by rewrite <-string_app_cons, <-E.
Qed.

(** The cells of a row that is not empty: the reader holds the last of
    them. *)
Lemma read_stream_row_held row :
  row_ok row → row ≠ [] →
  ∃ r fs f, held r fs f ∧ row_values row = fs ++ [f] ∧
    ∀ rest, read_stream parse_reset (row_text row +:+ rest) = read_stream r rest.
Proof.
  intros Hrow Hne. destruct row as [|c cs]; [done|].
  destruct (row_text_head c cs Hrow) as (ch & s & E & Hch).
  destruct Hrow as [[Hc Hcs]%Forall_cons _].
  destruct (read_stream_cell [] c Hc) as (r1 & Hr1 & Hread).
  destruct (read_stream_row_tail cs r1 [] _ Hr1 Hcs) as (r & fs & f & Hr & Efs & Hnext).
  exists r, fs, f. split_and!; [done..|intros rest].
  rewrite E, string_app_cons, read_stream_start, <-string_app_cons, <-E by done.
  cbn [row_text]. rewrite string_app_assoc.
  change (set_state START_FIELD parse_reset) with (Reader START_FIELD [] "" 0).
  by rewrite Hread, Hnext.
Qed.

(** A row and its line feed: the reader yields the values of the cells. *)
Lemma read_stream_row row rest :
  row_ok row →
  read_stream parse_reset (row_text row +:+ String LF rest) =
  cons_row (row_values row) (read_stream parse_reset rest).
Proof.
  intros Hrow. destruct (decide (row = [])) as [->|Hne]; [done|].
  destruct (read_stream_row_held row Hrow Hne) as (r & fs & f & Hr & -> & ->).
  by apply read_stream_row_end, held_LF.
Qed.

(** The rows [vs], then what follows them. *)
Definition rows_then (vs : list (list string)) (p : list (list string) * option exn)
    : list (list string) * option exn :=
  foldr cons_row p vs.

Lemma rows_then_end vs failure : rows_then vs ([], failure) = (vs, failure).
Proof. induction vs as [|v vs IH]; [done|]. cbn. unfold rows_then in IH. by rewrite IH. Qed.

(** The rows of a table, then the text that follows them. *)
Lemma read_stream_table rows rest :
  Forall row_ok rows →
  read_stream parse_reset (table_text Unix rows +:+ rest) =
  rows_then (table_values rows) (read_stream parse_reset rest).
Proof.
  induction 1 as [|row rows Hrow _ IH]; [by rewrite string_app_nil_l|].
  cbn [table_text eol_text]. rewrite !string_app_assoc, string_app_cons, string_app_nil_l.
  by rewrite read_stream_row, IH.
Qed.

(** ** Line ends *)

Lemma translate_newlines_app a b :
  CR ∉ chars a → translate_newlines (a +:+ b) = a +:+ translate_newlines b.
Proof.
  induction a as [|c a IH]; [done|]. cbn [chars]. intros [Hc Ha]%not_elem_of_cons.
  rewrite !string_app_cons. cbn. by rewrite decide_False, IH.
Qed.

Lemma translate_newlines_eol e s :
  (∀ s', e = Mac → s ≠ String LF s') →
  translate_newlines (eol_text e +:+ s) = String LF (translate_newlines s).
Proof.
  intros Hs. destruct e; cbn [eol_text]; rewrite ?string_app_cons, string_app_nil_l;
    [done|done|].
  destruct s as [|c s]; [done|].
  cbn [translate_newlines]. rewrite (decide_True (P := CR = CR)) by done.
  rewrite (decide_False (P := c = LF)); [done|]. intros ->. by eapply Hs.
Qed.

Lemma escape_chars c f : c ∈ chars (escape f) → c = QUOTE ∨ c ∈ chars f.
Proof.
  induction f as [|d f IH]; [by right|]. cbn. case_decide as Hd; cbn.
  - subst d. rewrite !elem_of_cons. naive_solver.
  - rewrite !elem_of_cons. naive_solver.
Qed.

Lemma cell_text_no_CR c : cell_ok c → CR ∉ chars (cell_text c).
Proof.
  intros [_ Hc]. destruct c as [f|f]; cbn.
  - intros Hcr. rewrite Forall_forall in Hc. by apply Hc in Hcr.
  - rewrite chars_app. cbn. rewrite not_elem_of_cons, not_elem_of_app, not_elem_of_cons.
    split_and!; try done. by intros [?|?]%escape_chars. apply not_elem_of_nil.
Qed.

Lemma row_tail_no_CR cs : Forall cell_ok cs → CR ∉ chars (row_tail cs).
Proof.
  induction 1 as [|c cs Hc _ IH]; cbn; [apply not_elem_of_nil|].
  rewrite chars_app, not_elem_of_cons, not_elem_of_app.
  split_and!; [done|by apply cell_text_no_CR|done].
Qed.

Lemma row_text_no_CR row : Forall cell_ok row → CR ∉ chars (row_text row).
Proof.
  destruct 1 as [|c cs Hc Hcs]; cbn; [apply not_elem_of_nil|].
  rewrite chars_app, not_elem_of_app. split; [by apply cell_text_no_CR|by apply row_tail_no_CR].
Qed.

Lemma table_text_head e rows s s' :
  Forall row_ok rows → e ≠ Unix → (∀ t, s ≠ String LF t) →
  table_text e rows +:+ s ≠ String LF s'.
Proof.
  destruct 1 as [|[|c cs] rows Hrow _]; intros He Hs;
    [by rewrite string_app_nil_l|by destruct e|].
  destruct (row_text_head c cs Hrow) as (ch & t & E & Hch).
  cbn [table_text]. rewrite E, !string_app_cons. intros [= -> _]. done.
Qed.

(** Reading in text mode turns the line ends of the table into line feeds,
    and goes on with the text that follows. *)
Lemma translate_newlines_table e rows s :
  Forall row_ok rows → (∀ t, s ≠ String LF t) →
  translate_newlines (table_text e rows +:+ s) =
  table_text Unix rows +:+ translate_newlines s.
Proof.
  intros Hrows Hs. induction Hrows as [|row rows Hrow Hrows IH];
    [by rewrite !string_app_nil_l|].
  cbn [table_text]. rewrite !string_app_assoc.
  rewrite translate_newlines_app by (by apply row_text_no_CR, Hrow).
  rewrite translate_newlines_eol, IH; [done|].
  intros s' ->. by apply table_text_head.
Qed.

(** The reader on the text of a table and the text that follows it. *)
Lemma csv_reader_table_then e rows s :
  Forall row_ok rows → (∀ t, s ≠ String LF t) →
  csv_reader (table_text e rows +:+ s) =
  rows_then (table_values rows) (read_stream parse_reset (translate_newlines s)).
Proof.
  intros Hrows Hs. by rewrite csv_reader_stream, translate_newlines_table, read_stream_table.
Qed.

(** The reader gives the values of the cells of a table back, row by row,
    whatever the line ends of the file. *)
Lemma csv_reader_table_values e rows :
  Forall row_ok rows → csv_reader (table_text e rows) = (table_values rows, None).
Proof.
  intros Hrows. rewrite <-(string_app_nil_r (table_text e rows)).
  rewrite csv_reader_table_then by done. apply rows_then_end.
Qed.

(** C14: the rows the reader yields for the text of a table are the values
    of its cells, row by row and in order, and the reader raises nothing:
    a quoted cell gives its text with the doubled quotes undone and its
    commas and line feeds kept, an empty line gives the empty row, and the
    line ends may be line feeds, carriage returns or both. *)
Theorem csv_reader_table e rows :
  Forall row_ok rows →
  csv_reader (table_text e rows) = (table_values rows, None).
Proof. apply csv_reader_table_values. Qed.

(** ** A field beyond the limit

    A character that joins a field of [field_limit] characters makes the
    reader raise; the rows before that row were yielded already. *)

Lemma held_full r fs f c :
  held r fs f → len f = field_limit → c ≠ COMMA → is_newline c = false →
  process_char r (Some c) = Raise CsvError.
Proof.
  intros [_ <- Hlen Hst] Hf Hc Hn. rewrite Hf in Hlen.
  unfold process_char, start_field, parse_add_char.
  destruct Hst as [[_ E]|[-> | ->]]; [by rewrite E in Hf|..];
    rewrite ?Hn, Hlen, N.leb_refl; by repeat case_decide.
Qed.

Lemma read_stream_raise r c s e :
  process_char r (Some c) = Raise e → read_stream r (String c s) = ([], Some e).
Proof. intros E. cbn. by rewrite E. Qed.

Lemma translate_newlines_char c s :
  is_newline c = false → translate_newlines (String c s) = String c (translate_newlines s).
Proof.
  intros [_ Hc%bool_decide_eq_false]%orb_false_iff. cbn. by rewrite decide_False.
Qed.

Lemma csv_reader_too_long e rows row c rest :
  Forall row_ok rows → overflows row c →
  csv_reader (table_text e rows +:+ row_text row +:+ String c rest) =
  (table_values rows, Some CsvError).
Proof.
  intros Hrows [Hrow (f & Hlast & Hf) Hc Hn].
  assert (row ≠ []) as Hne by (by intros ->).
  destruct (read_stream_row_held row Hrow Hne) as (r & fs & f' & Hr & E & Hread).
  rewrite E, last_snoc in Hlast. injection Hlast as ->.
  destruct row as [|c0 cs]; [done|].
  destruct (row_text_head c0 cs Hrow) as (ch & t & Et & Hch).
  rewrite csv_reader_table_then; [|done|].
  - rewrite translate_newlines_app by apply row_text_no_CR, Hrow.
    rewrite translate_newlines_char, Hread by done.
    rewrite (read_stream_raise _ _ _ _ (held_full r fs f c Hr Hf Hc Hn)).
    apply rows_then_end.
  - intros t'. rewrite Et, string_app_cons. by intros [= -> _].
Qed.

(** C28: a row whose last field so far has the [field_limit] characters
    and goes on makes the reader raise [csv.Error]; the rows before it are
    those the reader yielded, whatever follows in the text. *)
Theorem csv_reader_field_too_long e rows row c rest :
  Forall row_ok rows → overflows row c →
  csv_reader (table_text e rows +:+ row_text row +:+ String c rest) =
  (table_values rows, Some CsvError).
Proof. apply csv_reader_too_long. Qed.

(** ** Lines without quotes

    On a line without quotes the reader does what [split] at the commas
    does; the empty line is the empty row. *)

Definition split_row (l : string) : list string :=
  if decide (l = "") then [] else py_split COMMA l.

Definition plain_line (l : string) : Prop :=
  (len l ≤ field_limit)%N ∧ Forall (λ c, c ≠ QUOTE ∧ c ≠ LF ∧ c ≠ CR) (chars l).

Fixpoint unlines (e : line_end) (ls : list string) : string :=
  match ls with
  | [] => ""
  | l :: ls' => l +:+ eol_text e +:+ unlines e ls'
  end.

#[export] Instance plain_line_dec l : Decision (plain_line l).
Proof. unfold plain_line. apply _. Defined.

Lemma row_tail_plain ps :
  ps ≠ [] → String COMMA (py_join COMMA ps) = row_tail (Plain <$> ps).
Proof.
  induction ps as [|p ps IH]; [done|intros _]. destruct ps as [|q ps].
  - cbn. by rewrite string_app_nil_r.
  - rewrite py_join_cons. cbn [fmap list_fmap row_tail cell_text]. by rewrite IH.
Qed.

Lemma row_text_plain ps : row_text (Plain <$> ps) = py_join COMMA ps.
Proof.
  destruct ps as [|p [|q ps]]; [done|by cbn; rewrite string_app_nil_r|].
  rewrite py_join_cons, row_tail_plain by done. done.
Qed.

Lemma row_values_plain ps : row_values (Plain <$> ps) = ps.
Proof. unfold row_values. rewrite <-list_fmap_compose. apply list_fmap_id. Qed.

Lemma row_text_split_row l : row_text (Plain <$> split_row l) = l.
Proof.
  unfold split_row. case_decide; [by subst|]. by rewrite row_text_plain, py_join_split.
Qed.

Lemma split_part_ok l p : plain_line l → p ∈ py_split COMMA l → cell_ok (Plain p).
Proof.
  intros [Hlen Hl] Hp. destruct (py_split_part _ _ _ Hp) as (a & b & ->).
  rewrite !len_app in Hlen. split; [cbn; lia|]. cbn.
  rewrite !chars_app, !Forall_app in Hl. destruct Hl as (_ & Hl & _).
  pose proof (py_split_parts_no_sep COMMA (a +:+ p +:+ b)) as Hsep.
  rewrite Forall_forall in Hsep. apply Hsep in Hp.
  unfold str_mem in Hp. apply bool_decide_eq_false in Hp.
  apply Forall_forall. intros c Hc. apply plain_char_spec.
  rewrite Forall_forall in Hl. destruct (Hl c Hc) as (? & ? & ?).
  split_and!; try done. by intros ->.
Qed.

Lemma split_row_ok l : plain_line l → row_ok (Plain <$> split_row l).
Proof.
  intros Hl. unfold split_row. case_decide as Hne; [done|]. split.
  - apply Forall_fmap, Forall_forall. intros p Hp. by eapply split_part_ok.
  - intros E. apply Hne. rewrite <-(py_join_split COMMA l).
    destruct (py_split COMMA l) as [|p [|q ps]]; by simplify_eq/=.
Qed.

(** The table of a text of lines without quotes. *)
Definition plain_rows (ls : list string) : list (list cell) :=
  (λ l, Plain <$> split_row l) <$> ls.

Lemma table_text_plain_rows e ls : table_text e (plain_rows ls) = unlines e ls.
Proof.
  induction ls as [|l ls IH]; [done|].
  cbn [plain_rows fmap list_fmap table_text unlines]. by rewrite row_text_split_row, <-IH.
Qed.

Lemma table_values_plain_rows ls : table_values (plain_rows ls) = split_row <$> ls.
Proof.
  induction ls as [|l ls IH]; [done|].
  cbn [plain_rows table_values fmap list_fmap] in *. by rewrite row_values_plain, <-IH.
Qed.

(** C25: on a text of lines without quotes the reader is [split] at the
    commas, line by line, with the empty row for an empty line; the line
    ends may be those of any system. *)
Theorem csv_reader_split_lines e ls :
  Forall plain_line ls → csv_reader (unlines e ls) = (split_row <$> ls, None).
Proof.
  intros Hls.
  rewrite <-table_text_plain_rows, csv_reader_table_values, table_values_plain_rows; [done|].
  apply Forall_fmap. eapply Forall_impl; [done|]. apply split_row_ok.
Qed.

(** ** Writing and reading

    [csv.writer] with the same dialect writes a field between quotes when
    it holds a character that is not plain, and the row of one empty field
    as a pair of quotes. *)

Definition write_cell (f : string) : cell :=
  if forallb plain_char (chars f) then Plain f else Quoted f.

Definition write_row (row : list string) : list cell :=
  if decide (row = [""]) then [Quoted ""] else write_cell <$> row.

Definition write_table (e : line_end) (rows : list (list string)) : string :=
  table_text e (write_row <$> rows).

(** A field that can be written and read back. *)
Definition field_ok (f : string) : Prop :=
  (len f ≤ field_limit)%N ∧ CR ∉ chars f.

#[export] Instance field_ok_dec f : Decision (field_ok f).
Proof. unfold field_ok. apply _. Defined.

Lemma cell_value_write_cell f : cell_value (write_cell f) = f.
Proof. unfold write_cell. by case_match. Qed.

Lemma write_cell_ok f : field_ok f → cell_ok (write_cell f).
Proof.
  intros [Hlen Hcr]. split; [by rewrite cell_value_write_cell|].
  unfold write_cell. destruct (forallb plain_char (chars f)) eqn:E; [|done].
  apply Forall_forall. intros c Hc. rewrite forallb_forall in E. by apply E, list_elem_of_In.
Qed.

Lemma write_cell_empty f : write_cell f = Plain "" → f = "".
Proof. unfold write_cell. by case_match; intros [= ->]. Qed.

Lemma row_values_write_row row : row_values (write_row row) = row.
Proof.
  unfold write_row, row_values. case_decide as E; [by subst|].
  rewrite <-list_fmap_compose. rewrite <-(list_fmap_id row) at 2.
  apply list_fmap_ext. intros _ f _. apply cell_value_write_cell.
Qed.

Lemma write_row_ok row : Forall field_ok row → row_ok (write_row row).
Proof.
  intros Hrow. unfold write_row. case_decide as E.
  - split; [|done]. apply Forall_singleton. split; [by vm_compute|apply not_elem_of_nil].
  - split; [apply Forall_fmap; eapply Forall_impl; [done|apply write_cell_ok]|].
    destruct row as [|f [|g row]]; [done| |done].
    intros [= ->%write_cell_empty]. done.
Qed.

(** C24: what the writer writes, the reader reads: the rows of the text
    written for a list of rows are these rows, for fields within the limit
    and without carriage returns, commas, quotes and line feeds in the
    fields included. *)
Theorem csv_reader_roundtrip e rows :
  Forall (Forall field_ok) rows → csv_reader (write_table e rows) = (rows, None).
Proof.
  intros Hrows. unfold write_table. rewrite csv_reader_table_values.
  - f_equal. unfold table_values. rewrite <-list_fmap_compose.
    rewrite <-(list_fmap_id rows) at 2. apply list_fmap_ext.
    intros _ row _. apply row_values_write_row.
  - apply Forall_fmap. eapply Forall_impl; [done|apply write_row_ok].
Qed.

(** ** Examples *)

Definition example_rows : list (list cell) :=
  [[Plain "a"; Quoted "b,c"; Plain ""]; []; [Quoted ""]; [Quoted (String QUOTE (String LF "x"))]].

Lemma csv_reader_table_witness :
  csv_reader (table_text Dos example_rows) = (table_values example_rows, None).
Proof. apply csv_reader_table. compute_done. Defined.

Lemma csv_reader_roundtrip_witness :
  csv_reader (write_table Mac [["a"; "b,c"; ""]; [""]; []; ["x"]]) =
  ([["a"; "b,c"; ""]; [""]; []; ["x"]], None).
Proof. apply csv_reader_roundtrip. compute_done. Defined.

Lemma csv_reader_split_lines_witness :
  csv_reader (unlines Unix ["Year,Yom Tov"; ""; "2025,,Pesach"]) =
  (split_row <$> ["Year,Yom Tov"; ""; "2025,,Pesach"], None).
Proof. apply csv_reader_split_lines. compute_done. Defined.

(** A field of [n] letters, and one at the limit. *)
Fixpoint letters (n : nat) : string :=
  match n with
  | 0 => ""
  | S n' => String "a" (letters n')
  end.

Definition full_field : string := letters (N.to_nat field_limit).

Lemma len_letters n : len (letters n) = N.of_nat n.
Proof. unfold len. f_equal. induction n; cbn; congruence. Qed.

Lemma letters_plain n : Forall (λ ch, plain_char ch = true) (chars (letters n)).
Proof. induction n; by constructor. Qed.

Lemma full_field_ok : cell_ok (Plain full_field).
Proof.
  split; [|apply letters_plain]. unfold full_field. cbn [cell_value].
  by rewrite len_letters, N2Nat.id.
Qed.

Definition full_row : list cell := [Plain "2025"; Plain full_field].

Lemma full_row_overflows : overflows full_row "a".
Proof.
  split; [split; [|discriminate]|exists full_field; split; [reflexivity|]|discriminate|reflexivity].
  - apply Forall_cons; split; [compute_done|apply Forall_singleton, full_field_ok].
  - unfold full_field. by rewrite len_letters, N2Nat.id.
Qed.

Lemma csv_reader_field_too_long_witness :
  csv_reader (table_text Dos example_rows +:+ row_text full_row +:+ String "a" "x,y") =
  (table_values example_rows, Some CsvError).
Proof.
  apply csv_reader_field_too_long; [compute_done|apply full_row_overflows].
Defined.
