(* ===== verification/Effects.v ===== *)
(** * The effects of the script

    A run of a piece of the script is a [ran]: how it ended ([Ret] or
    [Raise]), the events it caused in the order they happened, and the
    state of the remote service afterwards.  [prog A] is the monad of such
    runs; [try_except] is Python's [try]/[except].

    The remote service is the class [Network]: what it answers to a GET and
    to a POST, given its state.  The script never sees the state; an
    instance may be a list of canned answers or a model of the service.
    A [response] is a status and a text: [json] is [response.json()], the
    decoder of [Json] on the text, and [http_post] is
    [requests.post(..., json=body)], which writes the body with the
    encoder ([request_body]) before anything is sent.

    Three views of a run serve the theorems about the script: what the
    events show through a projection ([shows]), that the state of the
    service is the [replay] of the requests ([traced]), and that two
    services which answer alike get the same run ([related], for a
    [simulation]). *)

From S2P Require Import Prelude PyStr PyValue Json.

(** ** HTTP *)

Definition headers := list (string * string).

Record response := Response {
  status_code : Z;
  text : string;
}.

Section Requests.
Context `{!Interp}.

(** What [response.json()] raises when [json.loads] raises: the
    [JSONDecodeError] of [requests] for the one of [json] where it has
    one, and what the decoder raised. *)
Definition decode_error (f : failure) : exn :=
  match f with
  | NotJson => JSONDecodeError json_decode_error
  | _ => failure_exn f
  end.

(** [response.json()]: [json.loads] of the text of the response. *)
Definition json (r : response) : result value :=
  reraise decode_error (json_loads int_max_str_digits recursion_room (text r)).

(** What [requests] raises when [json.dumps] raises: [InvalidJSONError],
    a [RequestException], for a [ValueError] where it has it. *)
Definition encode_error (f : failure) : exn :=
  if isinstance (failure_exn f) CValueError && invalid_json_error then RequestException
  else failure_exn f.

(** The body of a request with the argument [json=body]: [json.dumps] of
    it, without [allow_nan] where [requests] has [InvalidJSONError]. *)
Definition request_body (body : value) : result string :=
  reraise encode_error
    (json_dumps (negb invalid_json_error) int_max_str_digits recursion_room body).

(** What [response.json()] raises: a [ValueError], [RecursionError], or
    the run leaves the model. *)
Lemma json_raises r e :
  json r = Raise e → isinstance e CValueError = true ∨ e = RecursionError ∨ e = OutOfModel.
Proof.
  unfold json. destruct (json_loads _ _ _) as [v|f]; [done|]. intros [= <-].
  destruct f; cbn; auto.
Qed.

Lemma json_escapes r e :
  json r = Raise e → isinstance e CValueError = false →
  e = RecursionError ∨ e = OutOfModel.
Proof. intros [He|?]%json_raises; [congruence|done]. Qed.

(** The response of a service that writes the value [v] as its body. *)
Definition json_response (code : Z) (v : value) : response :=
  Response code (dumps_text v).

(** The script reads the value back when it is plain, its integers are
    within the limit and its depth within the room of the decoder. *)
Lemma json_json_response code v :
  json_plain v = true → refusal true int_max_str_digits recursion_room v = None →
  json (json_response code v) = Ret v.
Proof.
  intros Hp Hr. unfold json. cbn [json_response text].
  rewrite (json_loads_dumps true _ _ recursion_room v (dumps_text v)); [done..|].
  unfold json_dumps. by rewrite Hr.
Qed.

(** It raises [RecursionError] on a value deeper than the room of the
    decoder. *)
Lemma json_deep_response code v :
  json_plain v = true → encodable true int_max_str_digits v = true →
  recursion_room < value_depth v →
  json (json_response code v) = Raise RecursionError.
Proof.
  intros Hp He Hd. unfold json. cbn [json_response text].
  by rewrite (json_loads_short true).
Qed.

End Requests.

(** What [requests.get] and [requests.post] give: a response, or an
    exception of the class [RequestException]. *)
Inductive http_result :=
| HttpFail
| HttpOk (r : response).

Class Network (S : Type) := {
  net_get : string → headers → S → http_result * S;
  net_post : string → headers → value → S → http_result * S;
}.

(** A service that answers from a list: each request takes the next answer,
    and fails when none is left.  It serves as the concrete service of the
    examples. *)
Definition next_answer (s : list http_result) : http_result * list http_result :=
  match s with
  | r :: s' => (r, s')
  | [] => (HttpFail, [])
  end.

#[export] Instance canned_network : Network (list http_result) := {
  net_get _ _ := next_answer;
  net_post _ _ _ := next_answer;
}.

(** ** Events *)

(** The lines the script prints, by the values they interpolate. *)
Inductive message :=
| MsgConfigMissing
| MsgStatus (code : Z)
| MsgContent (body : string)
| WarnNoRuleList
| WarnInvalidJson (body : string)
| WarnFetchStatus (code : Z) (body : string)
| WarnFetchError (e : exn)
| MsgRuleExists (name : string) (id : value)
| ErrInvalidDate (name date_str : string)
| MsgCreated (name : string) (id : value)
| MsgCreateFailed (name : string) (code : Z) (body : string)
| ErrCreating (name : string) (e : exn)
| ErrCsvHeaders
| MsgSkipFirst (yom_tov year : string)
| MsgSkipLast (yom_tov year : string)
| ErrCsvNotFound (file : string)
| ErrUnexpected (e : exn).

Inductive event :=
| EvPrint (m : message)
| EvGet (url : string) (hs : headers)
| EvPost (url : string) (hs : headers) (body : value)
| EvSleep (seconds : Z).

#[export] Instance message_eq_dec : EqDecision message.
Proof. solve_decision. Defined.

#[export] Instance event_eq_dec : EqDecision event.
Proof. solve_decision. Defined.

(** ** Runs *)

Record ran (S A : Type) := Ran {
  ran_result : result A;
  ran_events : list event;
  ran_state : S;
}.

#[global] Arguments Ran {S A} _ _ _.
#[global] Arguments ran_result {S A} _.
#[global] Arguments ran_events {S A} _.
#[global] Arguments ran_state {S A} _.

Definition prog (S A : Type) : Type := S → ran S A.

Section Prog.
Context {S : Type}.

(** The events [evs] happened before the run [r]. *)
Definition after {A} (evs : list event) (r : ran S A) : ran S A :=
  let '(Ran res evs' s) := r in Ran res (evs ++ evs') s.

(** The run [r], then [f] on its value if it returned one. *)
Definition ran_then {A B} (r : ran S A) (f : A → prog S B) : ran S B :=
  match r with
  | Ran (Ret a) evs s => after evs (f a s)
  | Ran (Raise e) evs s => Ran (Raise e) evs s
  end.

Definition prog_ret {A} (a : A) : prog S A := λ s, Ran (Ret a) [] s.

Definition prog_bind {A B} (m : prog S A) (f : A → prog S B) : prog S B :=
  λ s, ran_then (m s) f.

Definition raise {A} (e : exn) : prog S A := λ s, Ran (Raise e) [] s.

(** A computation without effects. *)
Definition lift {A} (r : result A) : prog S A := λ s, Ran r [] s.

Definition emit (ev : event) : prog S () := λ s, Ran (Ret ()) [ev] s.

Definition print (m : message) : prog S () := emit (EvPrint m).

Definition sleep (seconds : Z) : prog S () := emit (EvSleep seconds).

Definition sys_exit {A} (code : Z) : prog S A := raise (SystemExit code).

(** [try: body except ...]: [handler e] is the clause that catches [e], if
    one does.  What the clause raises is not caught again. *)
Definition try_except {A} (body : prog S A) (handler : exn → option (prog S A))
    : prog S A :=
  λ s, match body s with
       | Ran (Ret a) evs s' => Ran (Ret a) evs s'
       | Ran (Raise e) evs s' =>
           match handler e with
           | Some h => after evs (h s')
           | None => Ran (Raise e) evs s'
           end
       end.

(** One clause [except cls as e: h e]. *)
Definition except (cls : exn_class) {A} (h : exn → prog S A) (e : exn)
    : option (prog S A) :=
  if isinstance e cls then Some (h e) else None.

(** Clauses in the order they are written. *)
Definition or_except {A} (h1 h2 : exn → option (prog S A)) (e : exn)
    : option (prog S A) :=
  match h1 e with
  | Some h => Some h
  | None => h2 e
  end.

(** The loop [for x in l: body x]. *)
Fixpoint for_each {A} (l : list A) (body : A → prog S ()) : prog S () :=
  match l with
  | [] => prog_ret ()
  | x :: l' => prog_bind (body x) (λ _, for_each l' body)
  end.

Context `{!Network S}.

Definition http_raise (r : http_result) : result response :=
  match r with
  | HttpOk resp => Ret resp
  | HttpFail => Raise RequestException
  end.

Definition http_get (url : string) (hs : headers) : prog S response :=
  λ s, let '(r, s') := net_get url hs s in Ran (http_raise r) [EvGet url hs] s'.

Context `{!Interp}.

(** The request on its way, and the answer. *)
Definition send_post (url : string) (hs : headers) (body : value) : prog S response :=
  λ s, let '(r, s') := net_post url hs body s in
       Ran (http_raise r) [EvPost url hs body] s'.

(** [requests.post(url, json=body, headers=hs)]: nothing is sent when the
    body cannot be written. *)
Definition http_post (url : string) (hs : headers) (body : value) : prog S response :=
  prog_bind (lift (request_body body)) (λ _, send_post url hs body).

(** [response.json()]. *)
Definition response_json (r : response) : prog S value := lift (json r).

End Prog.

#[export] Instance prog_mret {S} : MRet (prog S) := λ A, @prog_ret S A.
#[export] Instance prog_mbind {S} : MBind (prog S) := λ A B f m, @prog_bind S A B m f.

(** ** Notation *)

Declare Scope prog_scope.
Delimit Scope prog_scope with prog.
Bind Scope prog_scope with prog.

Infix "|||" := or_except (at level 50, left associativity) : prog_scope.

(** ** What a run did *)

Definition post_of (ev : event) : option value :=
  match ev with EvPost _ _ body => Some body | _ => None end.

Definition is_sleep (ev : event) : bool :=
  match ev with EvSleep _ => true | _ => false end.

Definition is_request (ev : event) : bool :=
  match ev with EvGet _ _ | EvPost _ _ _ => true | _ => false end.

(** The bodies posted, in order. *)
Definition posts (evs : list event) : list value := omap post_of evs.

(** The requests sent, in order. *)
Definition requests (evs : list event) : list event :=
  filter (λ ev, is_request ev = true) evs.

(** The requests and the pauses, in order. *)
Definition traffic (evs : list event) : list event :=
  filter (λ ev, is_request ev || is_sleep ev = true) evs.

Definition sleeps (evs : list event) : nat := length (filter (λ ev, is_sleep ev = true) evs).

(** The exit status of the process: 0 when the script runs to its end, the
    argument of [sys.exit], or 1 when an exception reaches the top level. *)
Definition exit_status {A} (r : result A) : Z :=
  match r with
  | Ret _ => 0
  | Raise (SystemExit code) => code
  | Raise _ => 1
  end.

(** ** Equations of runs *)

Section Runs.
Context {S : Type}.
Implicit Types (s : S) (evs : list event) (e : exn).

Lemma after_Ran {A} evs (r : result A) evs' s :
  after evs (Ran r evs' s) = Ran r (evs ++ evs') s.
Proof. done. Qed.

Lemma after_nil {A} (r : ran S A) : after [] r = r.
Proof. by destruct r. Qed.

Lemma after_after {A} evs evs' (r : ran S A) :
  after evs (after evs' r) = after (evs ++ evs') r.
Proof. destruct r. cbn. by rewrite app_assoc. Qed.

Lemma ran_then_Ret {A B} (a : A) evs s (f : A → prog S B) :
  ran_then (Ran (Ret a) evs s) f = after evs (f a s).
Proof. done. Qed.

Lemma ran_then_Raise {A B} e evs s (f : A → prog S B) :
  ran_then (Ran (Raise e) evs s) f = Ran (Raise e) evs s.
Proof. done. Qed.

Lemma ran_then_after {A B} evs (r : ran S A) (f : A → prog S B) :
  ran_then (after evs r) f = after evs (ran_then r f).
Proof.
  destruct r as [[a|e] evs' s]; cbn; [|done].
  by rewrite after_after.
Qed.

Lemma run_ret {A} (a : A) s : (mret a : prog S A) s = Ran (Ret a) [] s.
Proof. done. Qed.

Lemma run_bind {A B} (m : prog S A) (f : A → prog S B) s :
  (m ≫= f) s = ran_then (m s) f.
Proof. done. Qed.

Lemma run_raise {A} e s : raise (A:=A) e s = Ran (Raise e) [] s.
Proof. done. Qed.

Lemma run_lift {A} (r : result A) s : lift r s = Ran r [] s.
Proof. done. Qed.

Lemma run_lift_bind {A B} (a : A) (f : A → prog S B) s :
  (lift (Ret a) ≫= f) s = f a s.
Proof. rewrite run_bind, run_lift, ran_then_Ret. apply after_nil. Qed.

Lemma run_print m s : print m s = Ran (Ret ()) [EvPrint m] s.
Proof. done. Qed.

Lemma run_sleep n s : sleep n s = Ran (Ret ()) [EvSleep n] s.
Proof. done. Qed.

Lemma run_try_Ret {A} (body : prog S A) h s a evs s' :
  body s = Ran (Ret a) evs s' → try_except body h s = Ran (Ret a) evs s'.
Proof. intros H. unfold try_except. by rewrite H. Qed.

Lemma run_try_caught {A} (body : prog S A) h s e evs s' k :
  body s = Ran (Raise e) evs s' → h e = Some k →
  try_except body h s = after evs (k s').
Proof. intros H Hh. unfold try_except. by rewrite H, Hh. Qed.

Lemma run_try_uncaught {A} (body : prog S A) h s e evs s' :
  body s = Ran (Raise e) evs s' → h e = None →
  try_except body h s = Ran (Raise e) evs s'.
Proof. intros H Hh. unfold try_except. by rewrite H, Hh. Qed.

(** The laws of the monad, run by run. *)
Lemma prog_bind_ret_l {A B} (a : A) (f : A → prog S B) s :
  ((mret a : prog S A) ≫= f) s = f a s.
Proof. rewrite run_bind, run_ret, ran_then_Ret. apply after_nil. Qed.

Lemma prog_bind_ret_r {A} (m : prog S A) s : (m ≫= mret) s = m s.
Proof.
  rewrite run_bind. destruct (m s) as [[a|e] evs s']; [|done].
  rewrite ran_then_Ret, run_ret, after_Ran. by rewrite app_nil_r.
Qed.

Lemma prog_bind_assoc {A B C} (m : prog S A) (f : A → prog S B) (g : B → prog S C) s :
  ((m ≫= f) ≫= g) s = (m ≫= λ a, f a ≫= g) s.
Proof.
  rewrite !run_bind. destruct (m s) as [[a|e] evs s']; [|done].
  by rewrite !ran_then_Ret, ran_then_after.
Qed.

(** ** The loop *)

Lemma for_each_nil {A} (body : A → prog S ()) s :
  for_each [] body s = Ran (Ret ()) [] s.
Proof. done. Qed.

Lemma for_each_cons {A} (x : A) l (body : A → prog S ()) s :
  for_each (x :: l) body s = ran_then (body x s) (λ _, for_each l body).
Proof. done. Qed.

Lemma for_each_app {A} (l1 l2 : list A) (body : A → prog S ()) s :
  for_each (l1 ++ l2) body s = ran_then (for_each l1 body s) (λ _, for_each l2 body).
Proof.
  revert s. induction l1 as [|x l1 IH]; intros s.
  - cbn [app]. rewrite for_each_nil, ran_then_Ret. by rewrite after_nil.
  - cbn [app]. rewrite !for_each_cons.
    destruct (body x s) as [[[]|e] evs s']; [|done].
    by rewrite !ran_then_Ret, IH, ran_then_after.
Qed.

(** A loop over a list of lists is the loop over their concatenation. *)
Lemma for_each_concat {A B} (l : list A) (f : A → list B) (body : B → prog S ()) s :
  for_each l (λ x, for_each (f x) body) s = for_each (concat (f <$> l)) body s.
Proof.
  revert s. induction l as [|x l IH]; intros s; [done|].
  rewrite fmap_cons. cbn [concat]. rewrite for_each_cons, for_each_app.
  destruct (for_each (f x) body s) as [[[]|e] evs s']; [|done].
  by rewrite !ran_then_Ret, IH.
Qed.

(** Loops with bodies that agree on the elements agree. *)
Lemma for_each_ext {A} (l : list A) (body body' : A → prog S ()) s :
  (∀ x s, x ∈ l → body x s = body' x s) →
  for_each l body s = for_each l body' s.
Proof.
  revert s. induction l as [|x l IH]; intros s H; [done|].
  rewrite !for_each_cons, H by left.
  destruct (body' x s) as [[[]|e] evs s']; [|done].
  rewrite !ran_then_Ret, IH; [done|]. intros. apply H. by right.
Qed.

End Runs.

#[export] Hint Rewrite @after_Ran @after_nil @after_after @ran_then_Ret
  @ran_then_Raise @run_ret @run_bind @run_raise @run_lift @run_print
  @run_sleep @for_each_nil @for_each_cons : pyrw.

(** [run_prog] unfolds the operations of the monad, so that a run whose
    inputs are known computes. *)
Ltac run_prog :=
  unfold try_except, or_except, except, http_get, http_post, send_post, response_json,
    print, sleep, emit, sys_exit, raise, lift, mbind, prog_mbind, prog_bind,
    mret, prog_mret, prog_ret, ran_then, after in *;
  cbn [ran_result ran_events ran_state] in *.

(** ** Counting what a run did *)

Section Traces.
Implicit Types (evs : list event).

Lemma posts_app evs evs' : posts (evs ++ evs') = posts evs ++ posts evs'.
Proof. apply omap_app. Qed.

Lemma posts_print m evs : posts (EvPrint m :: evs) = posts evs.
Proof. done. Qed.

Lemma posts_sleep n evs : posts (EvSleep n :: evs) = posts evs.
Proof. done. Qed.

Lemma posts_post url hs body evs :
  posts (EvPost url hs body :: evs) = body :: posts evs.
Proof. done. Qed.

Lemma sleeps_app evs evs' : sleeps (evs ++ evs') = sleeps evs + sleeps evs'.
Proof. unfold sleeps. by rewrite filter_app, length_app. Qed.

Lemma sleeps_cons ev evs :
  sleeps (ev :: evs) = (if is_sleep ev then 1 else 0) + sleeps evs.
Proof.
  unfold sleeps. rewrite filter_cons. by destruct (is_sleep ev); cbn.
Qed.

Lemma posts_prints (ms : list message) : posts (EvPrint <$> ms) = [].
Proof. induction ms as [|m ms IH]; [done|]. by rewrite fmap_cons, posts_print. Qed.

Lemma sleeps_prints (ms : list message) : sleeps (EvPrint <$> ms) = 0.
Proof. induction ms as [|m ms IH]; [done|]. by rewrite fmap_cons, sleeps_cons. Qed.

Lemma requests_app evs1 evs2 : requests (evs1 ++ evs2) = requests evs1 ++ requests evs2.
Proof. apply filter_app. Qed.

Lemma requests_cons ev evs :
  requests (ev :: evs) = (if is_request ev then [ev] else []) ++ requests evs.
Proof. unfold requests. rewrite filter_cons. by destruct (is_request ev). Qed.

Lemma requests_prints (ms : list message) : requests (EvPrint <$> ms) = [].
Proof. induction ms as [|m ms IH]; [done|]. by rewrite fmap_cons, requests_cons. Qed.

Lemma traffic_app evs1 evs2 : traffic (evs1 ++ evs2) = traffic evs1 ++ traffic evs2.
Proof. apply filter_app. Qed.

Lemma traffic_cons ev evs :
  traffic (ev :: evs) = (if is_request ev || is_sleep ev then [ev] else []) ++ traffic evs.
Proof. unfold traffic. rewrite filter_cons. by destruct (is_request ev || is_sleep ev). Qed.

Lemma traffic_prints (ms : list message) : traffic (EvPrint <$> ms) = [].
Proof. induction ms as [|m ms IH]; [done|]. by rewrite fmap_cons, traffic_cons. Qed.

End Traces.

(** ** What a run raises *)

Section Raises.
Context {S : Type}.

Lemma result_after {A} evs (r : ran S A) : ran_result (after evs r) = ran_result r.
Proof. by destruct r. Qed.

Lemma events_after {A} evs (r : ran S A) :
  ran_events (after evs r) = evs ++ ran_events r.
Proof. by destruct r. Qed.

Lemma state_after {A} evs (r : ran S A) : ran_state (after evs r) = ran_state r.
Proof. by destruct r. Qed.

Lemma ran_then_raises {A B} (r : ran S A) (f : A → prog S B) e :
  ran_result (ran_then r f) = Raise e →
  ran_result r = Raise e ∨
  ∃ a evs s, r = Ran (Ret a) evs s ∧ ran_result (f a s) = Raise e.
Proof.
  destruct r as [[a|e'] evs s]; [|cbn; intros [= ->]; by left].
  rewrite ran_then_Ret, result_after. intros H. right. by exists a, evs, s.
Qed.

(** What a loop raises, one of its rounds raises. *)
Lemma for_each_raises {A} (l : list A) (body : A → prog S ()) s e :
  ran_result (for_each l body s) = Raise e →
  ∃ x s', x ∈ l ∧ ran_result (body x s') = Raise e.
Proof.
  revert s. induction l as [|x l IH]; intros s; [by rewrite for_each_nil|].
  rewrite for_each_cons.
  intros [H|(a & evs & s' & _ & H)]%ran_then_raises.
  - exists x, s. split; [apply list_elem_of_here|done].
  - destruct (IH _ H) as (y & s'' & Hy & Hr). exists y, s''.
    split; [by apply list_elem_of_further|done].
Qed.

End Raises.

(** ** The state of the service follows from the requests

    The script changes the service by [requests.get] and [requests.post]
    only: the state after a run is the state the requests of its events
    lead to, one after the other.  [traced] says so of a program; the
    operations of the monad are traced and keep programs traced, which the
    hints of the database [traced] prove of a program built from them. *)

Section Replay.
Context {S : Type} `{!Network S} {interp : Interp}.
Implicit Types (s : S) (evs : list event).

Definition replay_event (s : S) (ev : event) : S :=
  match ev with
  | EvGet url hs => (net_get url hs s).2
  | EvPost url hs body => (net_post url hs body s).2
  | EvPrint _ | EvSleep _ => s
  end.

Definition replay (evs : list event) (s : S) : S := foldl replay_event s evs.

Definition traced {A} (p : prog S A) : Prop :=
  ∀ s, ran_state (p s) = replay (ran_events (p s)) s.

(** The clauses of a [try] statement are traced. *)
Definition traced_handler {A} (h : exn → option (prog S A)) : Prop :=
  ∀ e k, h e = Some k → traced k.

Lemma replay_app evs1 evs2 s : replay (evs1 ++ evs2) s = replay evs2 (replay evs1 s).
Proof. apply foldl_app. Qed.

Lemma traced_after {A} (k : prog S A) evs s :
  traced k →
  ran_state (after evs (k (replay evs s))) =
  replay (ran_events (after evs (k (replay evs s)))) s.
Proof. intros Hk. by rewrite state_after, events_after, replay_app, Hk. Qed.

Lemma traced_ret {A} (a : A) : traced (mret a).
Proof. done. Qed.

Lemma traced_raise {A} e : traced (raise (A:=A) e).
Proof. done. Qed.

Lemma traced_sys_exit {A} code : traced (sys_exit (A:=A) code).
Proof. done. Qed.

Lemma traced_lift {A} (r : result A) : traced (lift r).
Proof. done. Qed.

Lemma traced_print m : traced (print m).
Proof. done. Qed.

Lemma traced_sleep n : traced (sleep n).
Proof. done. Qed.

Lemma traced_http_get url hs : traced (http_get url hs).
Proof. intros s. unfold http_get. by destruct (net_get url hs s) eqn:E; cbn; rewrite E. Qed.

Lemma traced_send_post url hs body : traced (send_post url hs body).
Proof.
  intros s. unfold send_post. by destruct (net_post url hs body s) eqn:E; cbn; rewrite E.
Qed.

Lemma traced_response_json r : traced (response_json r).
Proof. apply traced_lift. Qed.

Lemma traced_bind {A B} (m : prog S A) (f : A → prog S B) :
  traced m → (∀ a, traced (f a)) → traced (m ≫= f).
Proof.
  intros Hm Hf s. rewrite run_bind. specialize (Hm s).
  destruct (m s) as [[a|e] evs s']; cbn in Hm; subst; [|done].
  rewrite ran_then_Ret. by apply traced_after.
Qed.

Lemma traced_http_post url hs body : traced (http_post url hs body).
Proof. apply (traced_bind (lift _)); [apply traced_lift|]. intros. apply traced_send_post. Qed.

Lemma traced_try_except {A} (body : prog S A) h :
  traced body → traced_handler h → traced (try_except body h).
Proof.
  intros Hb Hh s. unfold try_except. specialize (Hb s).
  destruct (body s) as [[a|e] evs s']; cbn in Hb; subst; [done|].
  destruct (h e) as [k|] eqn:E; [|done]. by apply traced_after, (Hh e).
Qed.

Lemma traced_except {A} cls (h : exn → prog S A) :
  (∀ e, traced (h e)) → traced_handler (except cls h).
Proof. intros Hh e k. unfold except. case_match; [|done]. by intros [= <-]. Qed.

Lemma traced_or_except {A} (h1 h2 : exn → option (prog S A)) :
  traced_handler h1 → traced_handler h2 → traced_handler (or_except h1 h2).
Proof.
  intros H1 H2 e k. unfold or_except. destruct (h1 e) as [k1|] eqn:E.
  - intros [= <-]. by apply (H1 e).
  - apply H2.
Qed.

Lemma traced_for_each {A} (l : list A) (body : A → prog S ()) :
  (∀ x, traced (body x)) → traced (for_each l body).
Proof.
  intros Hbody. induction l as [|x l IH]; [done|]. by apply (traced_bind (body x)).
Qed.

End Replay.

Create HintDb traced discriminated.

#[export] Hint Resolve traced_ret traced_raise traced_sys_exit traced_lift traced_print
  traced_sleep traced_http_get traced_http_post traced_response_json traced_bind
  traced_try_except traced_except traced_or_except traced_for_each : traced.

#[export] Hint Extern 2 (traced (if ?b then _ else _)) => destruct b : traced.
#[export] Hint Extern 2 (traced (match ?x with _ => _ end)) => destruct x : traced.

(** ** Services the script cannot tell apart

    A relation between the states of two services is a simulation when
    related states answer every request alike and end in related states.
    A program run from related states then ends alike, with the same
    events, in related states: [related].  As for [traced], the operations
    of the monad keep programs related, and the hints of the database
    [related] prove it of a program built from them. *)

Section Simulation.
Context {S1 S2 : Type} `{!Network S1, !Network S2} {interp : Interp} (R : S1 → S2 → Prop).

Definition answers_alike {X} (a1 : X * S1) (a2 : X * S2) : Prop :=
  a1.1 = a2.1 ∧ R a1.2 a2.2.

Record simulation : Prop := {
  sim_get url hs s1 s2 :
    R s1 s2 → answers_alike (net_get url hs s1) (net_get url hs s2);
  sim_post url hs body s1 s2 :
    R s1 s2 → answers_alike (net_post url hs body s1) (net_post url hs body s2);
}.

Record ran_alike {A} (r1 : ran S1 A) (r2 : ran S2 A) : Prop := {
  alike_result : ran_result r1 = ran_result r2;
  alike_events : ran_events r1 = ran_events r2;
  alike_state : R (ran_state r1) (ran_state r2);
}.

Definition related {A} (p1 : prog S1 A) (p2 : prog S2 A) : Prop :=
  ∀ s1 s2, R s1 s2 → ran_alike (p1 s1) (p2 s2).

Definition related_handler {A} (h1 : exn → option (prog S1 A))
    (h2 : exn → option (prog S2 A)) : Prop :=
  ∀ e, match h1 e, h2 e with
       | Some k1, Some k2 => related k1 k2
       | None, None => True
       | _, _ => False
       end.

Lemma ran_alike_after {A} evs (r1 : ran S1 A) (r2 : ran S2 A) :
  ran_alike r1 r2 → ran_alike (after evs r1) (after evs r2).
Proof.
  intros [Hr He Hs]. split; rewrite ?result_after, ?events_after, ?state_after;
    by rewrite ?He.
Qed.

Lemma related_ret {A} (a : A) : related (mret a) (mret a).
Proof. by split. Qed.

Lemma related_raise {A} e : related (raise (A:=A) e) (raise e).
Proof. by split. Qed.

Lemma related_sys_exit {A} code : related (sys_exit (A:=A) code) (sys_exit code).
Proof. by split. Qed.

Lemma related_lift {A} (r : result A) : related (lift r) (lift r).
Proof. by split. Qed.

Lemma related_print m : related (print m) (print m).
Proof. by split. Qed.

Lemma related_sleep n : related (sleep n) (sleep n).
Proof. by split. Qed.

Lemma related_response_json r : related (response_json r) (response_json r).
Proof. apply related_lift. Qed.

Lemma related_bind {A B} (m1 : prog S1 A) m2 (f1 : A → prog S1 B) f2 :
  related m1 m2 → (∀ a, related (f1 a) (f2 a)) → related (m1 ≫= f1) (m2 ≫= f2).
Proof.
  intros Hm Hf s1 s2 Hs. rewrite !run_bind. destruct (Hm s1 s2 Hs) as [Hr He Hs'].
  destruct (m1 s1) as [[a|e] evs s1'], (m2 s2) as [res2 evs2 s2'];
    cbn [ran_result ran_events ran_state] in Hr, He, Hs'; subst.
  - rewrite !ran_then_Ret. by apply ran_alike_after, Hf.
  - by split.
Qed.

Lemma related_try_except {A} (b1 : prog S1 A) b2 h1 h2 :
  related b1 b2 → related_handler h1 h2 → related (try_except b1 h1) (try_except b2 h2).
Proof.
  intros Hb Hh s1 s2 Hs. unfold try_except. destruct (Hb s1 s2 Hs) as [Hr He Hs'].
  destruct (b1 s1) as [[a|e] evs s1'], (b2 s2) as [res2 evs2 s2'];
    cbn [ran_result ran_events ran_state] in Hr, He, Hs'; subst; [by split|].
  specialize (Hh e). destruct (h1 e), (h2 e); try done.
  by apply ran_alike_after, Hh.
Qed.

Lemma related_except {A} cls (h1 : exn → prog S1 A) h2 :
  (∀ e, related (h1 e) (h2 e)) → related_handler (except cls h1) (except cls h2).
Proof. intros Hh e. unfold except. destruct (isinstance e cls); [apply Hh|done]. Qed.

Lemma related_or_except {A} (h1 h1' : exn → option (prog S1 A)) h2 h2' :
  related_handler h1 h2 → related_handler h1' h2' →
  related_handler (or_except h1 h1') (or_except h2 h2').
Proof.
  intros H H' e. unfold or_except. specialize (H e).
  destruct (h1 e), (h2 e); try done. apply H'.
Qed.

Lemma related_for_each {A} (l : list A) (b1 : A → prog S1 ()) b2 :
  (∀ x, related (b1 x) (b2 x)) → related (for_each l b1) (for_each l b2).
Proof.
  intros Hb. induction l as [|x l IH]; [by split|]. by apply (related_bind (b1 x)).
Qed.

Context (HR : simulation).

Lemma related_http_get url hs : related (http_get url hs) (http_get url hs).
Proof.
  intros s1 s2 Hs. unfold http_get. destruct (sim_get HR url hs s1 s2 Hs) as [Ha Hs'].
  destruct (net_get url hs s1), (net_get url hs s2); cbn in *. by subst.
Qed.

Lemma related_send_post url hs body : related (send_post url hs body) (send_post url hs body).
Proof.
  intros s1 s2 Hs. unfold send_post.
  destruct (sim_post HR url hs body s1 s2 Hs) as [Ha Hs'].
  destruct (net_post url hs body s1), (net_post url hs body s2); cbn in *. by subst.
Qed.

Lemma related_http_post url hs body : related (http_post url hs body) (http_post url hs body).
Proof.
  apply (related_bind (lift _) (lift _)); [apply related_lift|]. intros. apply related_send_post.
Qed.

End Simulation.

Create HintDb related discriminated.

#[export] Hint Resolve related_ret related_raise related_sys_exit related_lift
  related_print related_sleep related_response_json related_bind related_try_except
  related_except related_or_except related_for_each related_http_get
  related_http_post : related.

#[export] Hint Extern 2 (related _ (if ?b then _ else _) _) => destruct b : related.
#[export] Hint Extern 2 (related _ (match ?x with _ => _ end) _) => destruct x : related.

(** ** Loops, seen through a projection of the events

    [p] picks from the events what a property is about (the requests, the
    bodies posted, ...).  When each round of a loop shows a prefix of what
    is expected of it, and all of it when it returns, so does the loop. *)

Section Loops.
Context {S A X : Type} (p : list event → list X) (spec : A → list X).
Context (body : A → prog S ()).
Hypothesis p_app : ∀ evs1 evs2, p (evs1 ++ evs2) = p evs1 ++ p evs2.
Hypothesis p_nil : p [] = [].

Definition shows (r : ran S ()) (expected : list X) : Prop :=
  p (ran_events r) `prefix_of` expected ∧
  (is_ret (ran_result r) = true → p (ran_events r) = expected).

Lemma shows_after evs r expected :
  shows r expected → shows (after evs r) (p evs ++ expected).
Proof.
  destruct r as [res evs' s]. rewrite after_Ran. unfold shows. cbn.
  rewrite p_app. intros [Hpre Heq]. split; [by apply prefix_app|].
  intros Hr. by rewrite Heq.
Qed.

Lemma shows_then (r : ran S ()) (k : prog S ()) expected1 expected2 :
  shows r expected1 → (∀ s, shows (k s) expected2) →
  shows (ran_then r (λ _, k)) (expected1 ++ expected2).
Proof.
  destruct r as [[[]|e] evs s]; intros [Hpre Heq] Hk.
  - rewrite ran_then_Ret. cbn in Heq. rewrite <-Heq by done. by apply shows_after.
  - rewrite ran_then_Raise. split; [|done]. by apply prefix_app_r.
Qed.

Lemma for_each_shows (l : list A) (s : S) :
  (∀ x s, shows (body x s) (spec x)) →
  shows (for_each l body s) (concat (spec <$> l)).
Proof.
  intros Hbody. revert s. induction l as [|x l IH]; intros s.
  - split; cbn; by rewrite p_nil.
  - rewrite for_each_cons, fmap_cons. cbn [concat]. by apply shows_then.
Qed.

End Loops.

#[export] Hint Rewrite posts_app posts_print posts_sleep posts_post sleeps_app
  sleeps_cons posts_prints sleeps_prints requests_app requests_prints traffic_app traffic_prints : pyrw.
