(* ===== verification/Config.v ===== *)
(** * Configuration: lines 8-24 of the script

    The four settings are read from the process environment with
    [os.environ.get], which gives [None] for a variable that is not set.
    The script exits with status 1 unless all four are set and not empty.
    [API_URL], [CSV_FILE] and [TIME_ZONE] are the constants of lines 18-24. *)

From stdpp Require Import gmap.
From S2P Require Import Prelude PyStr PyValue Effects.

(** The process environment, [os.environ]. *)
Abbreviation environ := (gmap string string).

Record config := Config {
  TOKEN : string;
  DEVICE_ID : string;
  LOCATION_ID : string;
  VIRTUAL_SWITCH_ID : string;
}.

(** The truth value of what [os.environ.get] returns. *)
Definition opt_truthy (o : option string) : bool :=
  match o with
  | Some s => str_truthy s
  | None => false
  end.

(** [all(l)] on truth values. *)
Definition py_all (l : list bool) : bool := forallb id l.

Definition load_config {S} (env : environ) : prog S config :=
  let token := env !! "SMARTTHINGS_TOKEN" in
  let device_id := env !! "DEVICE_ID" in
  let location_id := env !! "LOCATION_ID" in
  let virtual_switch_id := env !! "VIRTUAL_SWITCH_ID" in
  if py_all (opt_truthy <$> [token; device_id; location_id; virtual_switch_id])
  then mret (Config (default "" token) (default "" device_id)
                    (default "" location_id) (default "" virtual_switch_id))
  else print MsgConfigMissing ;; sys_exit 1.

Definition API_URL (cfg : config) : string :=
  "https://api.smartthings.com/v1/rules?locationId=" +:+ LOCATION_ID cfg.

Definition CSV_FILE : string := "yom_tov_dates.csv".

Definition TIME_ZONE : string := "America/New_York".

(** The settings are complete: each variable is set to a text that is not
    empty. *)
Definition env_complete (env : environ) (cfg : config) : Prop :=
  env !! "SMARTTHINGS_TOKEN" = Some (TOKEN cfg) ∧
  env !! "DEVICE_ID" = Some (DEVICE_ID cfg) ∧
  env !! "LOCATION_ID" = Some (LOCATION_ID cfg) ∧
  env !! "VIRTUAL_SWITCH_ID" = Some (VIRTUAL_SWITCH_ID cfg) ∧
  TOKEN cfg ≠ "" ∧ DEVICE_ID cfg ≠ "" ∧ LOCATION_ID cfg ≠ "" ∧
  VIRTUAL_SWITCH_ID cfg ≠ "".

Lemma opt_truthy_true (o : option string) :
  opt_truthy o = true ↔ ∃ s, o = Some s ∧ s ≠ "".
Proof.
  destruct o as [[|c s]|]; cbn; split; try done; try (by intros (? & ? & ?)).
  - intros (s' & [= <-] & Hs'). done.
  - intros _. by exists (String c s).
Qed.

Lemma load_config_complete {S} (env : environ) (cfg : config) (s : S) :
  env_complete env cfg → load_config env s = Ran (Ret cfg) [] s.
Proof.
  intros (Ht & Hd & Hl & Hv & ? & ? & ? & ?). unfold load_config.
  rewrite Ht, Hd, Hl, Hv. cbn.
  assert (∀ t, t ≠ "" → str_truthy t = true) as Htr by (by intros []).
  rewrite !Htr by done. by destruct cfg.
Qed.

Lemma load_config_ret {S} (env : environ) (cfg : config) (s : S) :
  ran_result (load_config env s) = Ret cfg → env_complete env cfg.
Proof.
  unfold load_config. case_match eqn:E; [|done].
  cbn in E. rewrite !andb_true_iff, !opt_truthy_true in E.
  destruct E as ((t & Ht & ?) & (d & Hd & ?) & (l & Hl & ?) & (v & Hv & ?) & _).
  rewrite Ht, Hd, Hl, Hv. cbn. intros [= <-]. by repeat split.
Qed.

(** C12: the configuration check returns the settings, and prints nothing,
    exactly when all four variables are set and not empty; the settings
    returned are the values of the variables. *)
Theorem load_config_ok_iff {S} (env : environ) (cfg : config) (s : S) :
  load_config env s = Ran (Ret cfg) [] s ↔ env_complete env cfg.
Proof.
  split; [|apply load_config_complete].
  intros H. apply (load_config_ret env cfg s). by rewrite H.
Qed.

(** When a variable is missing or empty the check prints the error and
    exits with status 1. *)
Lemma load_config_incomplete {S} (env : environ) (s : S) :
  (∀ cfg, ¬ env_complete env cfg) →
  load_config env s = Ran (Raise (SystemExit 1)) [EvPrint MsgConfigMissing] s.
Proof.
  intros Hno. unfold load_config. case_match eqn:E; [|done].
  exfalso. cbn in E. rewrite !andb_true_iff, !opt_truthy_true in E.
  destruct E as ((t & Ht & ?) & (d & Hd & ?) & (l & Hl & ?) & (v & Hv & ?) & _).
  apply (Hno (Config t d l v)). by repeat split.
Qed.

(** The check returns the settings or exits with status 1. *)
Lemma load_config_cases {S} (env : environ) (s : S) :
  (∃ cfg, env_complete env cfg ∧ load_config env s = Ran (Ret cfg) [] s) ∨
  ((∀ cfg, ¬ env_complete env cfg) ∧
   load_config env s = Ran (Raise (SystemExit 1)) [EvPrint MsgConfigMissing] s).
Proof.
  destruct (load_config env s) as [[cfg|e] evs s'] eqn:E.
  - left. exists cfg. assert (env_complete env cfg) as Hc.
    { apply (load_config_ret env cfg s). by rewrite E. }
    split; [done|]. by rewrite <-E, (load_config_complete env cfg).
  - right. assert (∀ cfg, ¬ env_complete env cfg) as Hno.
    { intros cfg Hc. by rewrite (load_config_complete env cfg) in E. }
    split; [done|]. by rewrite <-E, load_config_incomplete.
Qed.
