(* ===== verification/ExistingRules.v ===== *)
(** * The existing rules: lines 26-55 of the script

    [get_existing_rules] asks the service for the rules of the location and
    returns a dictionary from rule name to rule identifier.  A transport
    failure, a status other than 200 and a body that is not JSON give the
    empty dictionary and a warning.  A body that is JSON is trusted: the
    membership test, the subscriptions and the comprehension of lines 42-43
    raise [TypeError] or [KeyError] on other shapes, and no handler of the
    function catches these. *)

From stdpp Require Import gmap.
From S2P Require Import Prelude PyStr PyValue Json Effects Config.

(** The request headers of line 33. *)
Definition auth_headers (cfg : config) : headers :=
  [("Authorization", "Bearer " +:+ TOKEN cfg)].

(** One step of the comprehension of line 43: [rule['name']], then
    [rule['id']], then the store into the dictionary. *)
Definition add_rule (d : pydict) (rule : value) : result pydict :=
  name ← py_getitem rule "name";
  id ← py_getitem rule "id";
  dict_setitem d name id.

(** [{rule['name']: rule['id'] for rule in items}]. *)
Definition rules_of_items (items : list value) : result pydict :=
  outcome_foldl add_rule [] items.

(** Lines 42-46: what the function returns for a parsed body, [None] here
    for the branch that warns and returns the empty dictionary. *)
Definition index_of_listing (data : value) : result (option pydict) :=
  has_items ← py_contains "items" data;
  if has_items : bool then
    items ← py_getitem data "items";
    match items with
    | VList l => Some <$> rules_of_items l
    | _ => Ret None
    end
  else Ret None.

Section GetExistingRules.
Context {S : Type} `{!Network S} {interp : Interp}.

Definition get_existing_rules (cfg : config) : prog S pydict :=
  let headers := auth_headers cfg in
  try_except
    (response ← http_get (API_URL cfg) headers;
     print (MsgStatus (status_code response));;
     print (MsgContent (text response));;
     if bool_decide (status_code response = 200%Z) then
       try_except
         (data ← response_json response;
          index ← lift (index_of_listing data);
          match index with
          | Some d => mret d
          | None => print WarnNoRuleList;; mret []
          end)
         (except CValueError (λ _,
            print (WarnInvalidJson (text response));; mret []))
     else
       print (WarnFetchStatus (status_code response) (text response));;
       mret [])
    (except CRequestException (λ e, print (WarnFetchError e);; mret [])).

End GetExistingRules.

(** ** The listing as the script reads it

    A listing is well formed when it is an object whose ["items"] is a list
    of objects that have a ["name"] and an ["id"], the name hashable. *)

Definition rule_ok (rule : value) : Prop :=
  ∃ name id, py_getitem rule "name" = Ret name ∧ py_getitem rule "id" = Ret id ∧
             hashable name = true.

Definition listing_ok (data : value) : Prop :=
  ∃ d items, data = VDict d ∧ assoc "items" d = Some (VList items) ∧
             Forall rule_ok items.

(** The rules of the listing that have a string as name, by name: the later
    rule of a name wins. *)
Definition named_rules (items : list value) : gmap string value :=
  foldl (λ m rule,
           match py_getitem rule "name", py_getitem rule "id" with
           | Ret (VStr name), Ret id => <[name := id]> m
           | _, _ => m
           end) ∅ items.

(** ** The comprehension *)

Lemma py_getitem_raises data key e :
  py_getitem data key = Raise e → e = TypeError ∨ e = KeyError key.
Proof.
  destruct data; cbn; try (intros [= <-]; by left).
  destruct (assoc key d); cbn; [done|]. intros [= <-]. by right.
Qed.

Lemma py_contains_raises needle data e :
  py_contains needle data = Raise e → e = TypeError.
Proof. destruct data; cbn; by intros [= <-]. Qed.

Lemma dict_setitem_raises d k v e : dict_setitem d k v = Raise e → e = TypeError.
Proof. unfold dict_setitem. case_match; by intros [= <-]. Qed.

(** What the function lets through is a [TypeError] or a [KeyError]. *)
Definition shape_error (e : exn) : Prop := e = TypeError ∨ ∃ key, e = KeyError key.

Lemma shape_error_uncaught e :
  shape_error e → isinstance e CValueError = false ∧ isinstance e CRequestException = false.
Proof. by intros [-> | [key ->]]. Qed.

Lemma add_rule_raises d rule e : add_rule d rule = Raise e → shape_error e.
Proof.
  unfold add_rule. intros [H|(name & _ & H)]%outcome_bind_Raise_inv;
    [|apply outcome_bind_Raise_inv in H as [H|(id & _ & H)]].
  - apply py_getitem_raises in H as [-> | ->]; [by left | right; eauto].
  - apply py_getitem_raises in H as [-> | ->]; [by left | right; eauto].
  - apply dict_setitem_raises in H as ->. by left.
Qed.

Lemma rules_of_items_raises items e : rules_of_items items = Raise e → shape_error e.
Proof.
  unfold rules_of_items. generalize (@nil (value * value)).
  induction items as [|rule items IH]; intros d; [done|]. cbn.
  intros [H|(d' & _ & H)]%outcome_bind_Raise_inv; [by eapply add_rule_raises | by eapply IH].
Qed.

Lemma index_of_listing_raises data e :
  index_of_listing data = Raise e → shape_error e.
Proof.
  unfold index_of_listing.
  intros [H|(has & _ & H)]%outcome_bind_Raise_inv.
  { apply py_contains_raises in H as ->. by left. }
  destruct has; [|done].
  apply outcome_bind_Raise_inv in H as [H|(items & _ & H)].
  { apply py_getitem_raises in H as [-> | ->]; [by left | right; eauto]. }
  destruct items; try done.
  destruct (rules_of_items l) eqn:E; [done|]. cbn in H. injection H as <-.
  by eapply rules_of_items_raises.
Qed.

Lemma add_rule_ok d rule name id :
  py_getitem rule "name" = Ret name → py_getitem rule "id" = Ret id →
  hashable name = true →
  add_rule d rule = Ret (dict_update d name id).
Proof.
  intros Hn Hi Hh. unfold add_rule, dict_setitem.
  cbn. rewrite Hn. cbn. rewrite Hi. cbn. by rewrite Hh.
Qed.

(** The dictionary a step builds from the rule, when the rule is well
    formed. *)
Definition add_rule_pure (d : pydict) (rule : value) : pydict :=
  match py_getitem rule "name", py_getitem rule "id" with
  | Ret name, Ret id => dict_update d name id
  | _, _ => d
  end.

Lemma rules_of_items_ok items :
  Forall rule_ok items → rules_of_items items = Ret (foldl add_rule_pure [] items).
Proof.
  intros Hok. apply outcome_foldl_pure. intros d rule Hin.
  rewrite Forall_forall in Hok. destruct (Hok rule Hin) as (name & id & Hn & Hi & Hh).
  unfold add_rule_pure. rewrite Hn, Hi. by apply add_rule_ok.
Qed.

(** A dictionary and a map agree on the names. *)
Definition agree (d : pydict) (m : gmap string value) : Prop :=
  ∀ name, dict_lookup d (VStr name) = m !! name.

Lemma agree_step d m rule :
  rule_ok rule → agree d m →
  agree (add_rule_pure d rule)
        (match py_getitem rule "name", py_getitem rule "id" with
         | Ret (VStr name), Ret id => <[name := id]> m
         | _, _ => m
         end).
Proof.
  intros (k & v & Hn & Hi & Hh) Hdm name. unfold add_rule_pure. rewrite Hn, Hi.
  destruct (decide (k = VStr name)) as [->|Hne].
  - rewrite dict_lookup_update_eq, lookup_insert_eq; [done|done|].
    by apply key_eqb_refl.
  - rewrite dict_lookup_update_ne.
    + rewrite Hdm. destruct k; try done. rewrite lookup_insert_ne; [done|congruence].
    + apply not_true_is_false. by rewrite key_eqb_str_r.
Qed.

Lemma add_rule_pure_wf d rule : rule_ok rule → dict_wf d → dict_wf (add_rule_pure d rule).
Proof.
  intros (k & v & Hn & Hi & Hh) Hd. unfold add_rule_pure. rewrite Hn, Hi.
  by apply dict_update_wf.
Qed.

(** On well-formed items the dictionary of the comprehension and the
    finite map of the names agree. *)
Lemma index_agrees items :
  Forall rule_ok items → agree (foldl add_rule_pure [] items) (named_rules items).
Proof.
  rewrite Forall_forall. intros Hok. apply (foldl_rel agree); [done|].
  intros. by apply agree_step; [apply Hok|].
Qed.

(** *** The invariant of the dictionary

    Whatever the items are, a comprehension that returns has built a
    dictionary of hashable, pairwise different keys. *)




(** ** Runs of [get_existing_rules], by the answer of the service *)

Section Runs.
Context {S : Type} `{!Network S} {interp : Interp}.
Implicit Types (s : S) (cfg : config) (resp : response).

(** The request and the two lines printed for every response. *)
Definition fetch_events (cfg : config) (resp : response) : list event :=
  [EvGet (API_URL cfg) (auth_headers cfg);
   EvPrint (MsgStatus (status_code resp)); EvPrint (MsgContent (text resp))].

Lemma get_existing_rules_fail cfg s s' :
  net_get (API_URL cfg) (auth_headers cfg) s = (HttpFail, s') →
  get_existing_rules cfg s =
  Ran (Ret []) [EvGet (API_URL cfg) (auth_headers cfg);
                EvPrint (WarnFetchError RequestException)] s'.
Proof.
  intros H. unfold get_existing_rules, try_except, http_get.
  rewrite run_bind, H. done.
Qed.

Lemma get_existing_rules_status cfg s s' resp :
  net_get (API_URL cfg) (auth_headers cfg) s = (HttpOk resp, s') →
  status_code resp ≠ 200%Z →
  get_existing_rules cfg s =
  Ran (Ret [])
      (fetch_events cfg resp ++
       [EvPrint (WarnFetchStatus (status_code resp) (text resp))]) s'.
Proof.
  intros H Hst. unfold get_existing_rules, try_except, http_get.
  rewrite run_bind, H. cbn. by rewrite bool_decide_eq_false_2.
Qed.

(** The decoder raises a [ValueError]: the inner handler catches it. *)
Lemma get_existing_rules_invalid cfg s s' resp e :
  net_get (API_URL cfg) (auth_headers cfg) s = (HttpOk resp, s') →
  status_code resp = 200%Z → json resp = Raise e → isinstance e CValueError = true →
  get_existing_rules cfg s =
  Ran (Ret []) (fetch_events cfg resp ++ [EvPrint (WarnInvalidJson (text resp))]) s'.
Proof.
  intros H Hst Hj He. unfold get_existing_rules. run_prog.
  rewrite H. cbn. rewrite Hj, bool_decide_eq_true_2 by done. cbn. by rewrite He.
Qed.

(** The decoder raises what is no [ValueError]: no handler catches it. *)
Lemma get_existing_rules_escapes cfg s s' resp e :
  net_get (API_URL cfg) (auth_headers cfg) s = (HttpOk resp, s') →
  status_code resp = 200%Z → json resp = Raise e → isinstance e CValueError = false →
  get_existing_rules cfg s = Ran (Raise e) (fetch_events cfg resp) s'.
Proof.
  intros H Hst Hj He. unfold get_existing_rules. run_prog.
  rewrite H. cbn. rewrite Hj, bool_decide_eq_true_2 by done. cbn.
  by destruct (json_escapes resp e) as [-> | ->].
Qed.

Lemma get_existing_rules_json cfg s s' resp data :
  net_get (API_URL cfg) (auth_headers cfg) s = (HttpOk resp, s') →
  status_code resp = 200%Z → json resp = Ret data →
  get_existing_rules cfg s =
  match index_of_listing data with
  | Ret (Some d) => Ran (Ret d) (fetch_events cfg resp) s'
  | Ret None => Ran (Ret []) (fetch_events cfg resp ++ [EvPrint WarnNoRuleList]) s'
  | Raise e => Ran (Raise e) (fetch_events cfg resp) s'
  end.
Proof.
  intros H Hst Hj. unfold get_existing_rules. run_prog.
  rewrite H. cbn. rewrite Hj, bool_decide_eq_true_2 by done. cbn.
  destruct (index_of_listing data) as [[d|]|e] eqn:E; cbn; try done.
  apply index_of_listing_raises, shape_error_uncaught in E as [E1 E2].
  by rewrite E1, E2.
Qed.

End Runs.

(** The five ways of a call: the request fails, or the answer has status
    200 and is JSON, or the decoder raises on it a [ValueError] or
    something else, or the answer has another status. *)
Inductive get_existing_rules_spec {S} `{!Network S} {interp : Interp} (cfg : config) (s : S)
    : ran S pydict → Prop :=
| FetchFail s' :
    net_get (API_URL cfg) (auth_headers cfg) s = (HttpFail, s') →
    get_existing_rules_spec cfg s
      (Ran (Ret []) [EvGet (API_URL cfg) (auth_headers cfg);
                     EvPrint (WarnFetchError RequestException)] s')
| FetchJson resp s' data :
    net_get (API_URL cfg) (auth_headers cfg) s = (HttpOk resp, s') →
    status_code resp = 200%Z → json resp = Ret data →
    get_existing_rules_spec cfg s
      match index_of_listing data with
      | Ret (Some d) => Ran (Ret d) (fetch_events cfg resp) s'
      | Ret None => Ran (Ret []) (fetch_events cfg resp ++ [EvPrint WarnNoRuleList]) s'
      | Raise e => Ran (Raise e) (fetch_events cfg resp) s'
      end
| FetchInvalid resp s' e :
    net_get (API_URL cfg) (auth_headers cfg) s = (HttpOk resp, s') →
    status_code resp = 200%Z → json resp = Raise e → isinstance e CValueError = true →
    get_existing_rules_spec cfg s
      (Ran (Ret []) (fetch_events cfg resp ++ [EvPrint (WarnInvalidJson (text resp))]) s')
| FetchEscapes resp s' e :
    net_get (API_URL cfg) (auth_headers cfg) s = (HttpOk resp, s') →
    status_code resp = 200%Z → json resp = Raise e → isinstance e CValueError = false →
    get_existing_rules_spec cfg s (Ran (Raise e) (fetch_events cfg resp) s')
| FetchStatus resp s' :
    net_get (API_URL cfg) (auth_headers cfg) s = (HttpOk resp, s') →
    status_code resp ≠ 200%Z →
    get_existing_rules_spec cfg s
      (Ran (Ret [])
           (fetch_events cfg resp ++
            [EvPrint (WarnFetchStatus (status_code resp) (text resp))]) s').

Lemma get_existing_rules_specP {S} `{!Network S} {interp : Interp} cfg (s : S) :
  get_existing_rules_spec cfg s (get_existing_rules cfg s).
Proof.
  destruct (net_get (API_URL cfg) (auth_headers cfg) s) as [[|resp] s'] eqn:Hnet.
  { rewrite (get_existing_rules_fail cfg s s') by done. by constructor. }
  destruct (decide (status_code resp = 200%Z)) as [Hst|Hst];
    [|rewrite (get_existing_rules_status cfg s s' resp) by done; by constructor].
  destruct (json resp) as [data|e] eqn:Hj.
  - rewrite (get_existing_rules_json cfg s s' resp data) by done. by constructor.
  - destruct (isinstance e CValueError) eqn:He.
    + rewrite (get_existing_rules_invalid cfg s s' resp e) by done. by econstructor.
    + rewrite (get_existing_rules_escapes cfg s s' resp e) by done. by econstructor.
Qed.

(** ** Properties of [get_existing_rules] *)

(** The function changes the service by its request only. *)
Lemma get_existing_rules_traced {S} `{!Network S} {interp : Interp} cfg : traced (get_existing_rules cfg).
Proof. unfold get_existing_rules. eauto 40 with traced. Qed.

(** Services that answer alike get the same run of the function. *)
Lemma get_existing_rules_related {S1 S2} `{!Network S1, !Network S2} {interp : Interp}
    (R : S1 → S2 → Prop) cfg :
  simulation R → related R (get_existing_rules cfg) (get_existing_rules cfg).
Proof. intros HR. unfold get_existing_rules. eauto 40 with related. Qed.

Lemma index_of_listing_ok d items :
  assoc "items" d = Some (VList items) → Forall rule_ok items →
  index_of_listing (VDict d) = Ret (Some (foldl add_rule_pure [] items)).
Proof.
  intros Hi Hok. unfold index_of_listing. cbn. rewrite Hi. cbn.
  by rewrite rules_of_items_ok.
Qed.

Section Properties.
Context {S : Type} `{!Network S} {interp : Interp}.
Implicit Types (s : S) (cfg : config) (resp : response).

(** The run on a well-formed listing. *)
Lemma get_existing_rules_listing cfg s s' resp d items :
  net_get (API_URL cfg) (auth_headers cfg) s = (HttpOk resp, s') →
  status_code resp = 200%Z → json resp = Ret (VDict d) →
  assoc "items" d = Some (VList items) → Forall rule_ok items →
  get_existing_rules cfg s =
  Ran (Ret (foldl add_rule_pure [] items)) (fetch_events cfg resp) s'.
Proof.
  intros Hnet Hst Hj Hi Hok.
  rewrite (get_existing_rules_json cfg s s' resp (VDict d)) by done.
  by rewrite (index_of_listing_ok d items).
Qed.


(** The answers the function cannot use: a transport failure, a status
    other than 200, a body on which the decoder raises a [ValueError]: one
    that is not JSON, or has an integer of more digits than [int]
    converts. *)
Definition unusable (r : http_result) : Prop :=
  match r with
  | HttpFail => True
  | HttpOk resp =>
      status_code resp ≠ 200%Z ∨ ∃ e, json resp = Raise e ∧ isinstance e CValueError = true
  end.

(** C30: on a transport failure, a status other than 200 or a body that is not
    JSON, the function returns the empty dictionary; it raises nothing and
    leaves the service as the request left it. *)
Theorem get_existing_rules_degrades cfg s :
  unusable (net_get (API_URL cfg) (auth_headers cfg) s).1 →
  ran_result (get_existing_rules cfg s) = Ret [] ∧
  ran_state (get_existing_rules cfg s) = (net_get (API_URL cfg) (auth_headers cfg) s).2.
Proof.
  destruct (net_get _ _ s) as [[|resp] s'] eqn:E; cbn.
  - intros _. by rewrite (get_existing_rules_fail cfg s s').
  - destruct (decide (status_code resp = 200%Z)) as [Hst|Hst].
    + intros [?|(e & Hj & He)]; [done|].
      by rewrite (get_existing_rules_invalid cfg s s' resp e).
    + intros _. by rewrite (get_existing_rules_status cfg s s' resp).
Qed.

(** C4: on a well-formed listing the function returns a dictionary that maps
    each rule name to the identifier of the last rule of that name in the
    listing, and has no other string key; its keys are hashable and
    pairwise different. *)
Theorem get_existing_rules_index cfg s s' resp d items :
  net_get (API_URL cfg) (auth_headers cfg) s = (HttpOk resp, s') →
  status_code resp = 200%Z → json resp = Ret (VDict d) →
  assoc "items" d = Some (VList items) → Forall rule_ok items →
  ∃ index,
    get_existing_rules cfg s = Ran (Ret index) (fetch_events cfg resp) s' ∧
    (∀ name, dict_lookup index (VStr name) = named_rules items !! name) ∧
    dict_wf index.
Proof.
  intros Hnet Hst Hj Hi Hok. exists (foldl add_rule_pure [] items).
  rewrite (get_existing_rules_listing cfg s s' resp d items) by done.
  split_and!; [done | by apply index_agrees |].
  rewrite Forall_forall in Hok.
  apply (foldl_inv dict_wf); [done|]. intros. by apply add_rule_pure_wf; [apply Hok|].
Qed.

(** C31: the function raises exactly when the service answers 200 with a body
    that is JSON and on which the membership test, a subscription or the
    comprehension raises, or with a body on which the decoder raises what
    is no [ValueError]; no handler of the function catches what it
    raises. *)
Theorem get_existing_rules_raises_iff cfg s e :
  ran_result (get_existing_rules cfg s) = Raise e ↔
  ∃ resp s',
    net_get (API_URL cfg) (auth_headers cfg) s = (HttpOk resp, s') ∧
    status_code resp = 200%Z ∧
    ((∃ data, json resp = Ret data ∧ index_of_listing data = Raise e) ∨
     (json resp = Raise e ∧ isinstance e CValueError = false)).
Proof.
  split.
  - destruct (get_existing_rules_specP cfg s)
      as [s' Hnet|resp s' data Hnet Hst Hj|resp s' e' Hnet Hst Hj He
         |resp s' e' Hnet Hst Hj He|resp s' Hnet Hst]; try done.
    + destruct (index_of_listing data) as [[?|]|e'] eqn:Hi; try done.
      intros [= <-]. exists resp, s'. split_and!; [done..|]. left. by exists data.
    + intros [= <-]. exists resp, s'. split_and!; [done..|]. by right.
  - intros (resp & s' & Hnet & Hst & [(data & Hj & Hi)|[Hj He]]).
    + by rewrite (get_existing_rules_json cfg s s' resp data), Hi.
    + by rewrite (get_existing_rules_escapes cfg s s' resp e).
Qed.

(** What the function raises is a [TypeError] or a [KeyError] of the
    comprehension, or what the decoder raised: [RecursionError] on a body
    nested deeper than the interpreter allows. *)
Lemma get_existing_rules_raises cfg s e :
  ran_result (get_existing_rules cfg s) = Raise e →
  shape_error e ∨ e = RecursionError ∨ e = OutOfModel.
Proof.
  destruct (get_existing_rules_specP cfg s)
    as [s' Hnet|resp s' data Hnet Hst Hj|resp s' e' Hnet Hst Hj He
       |resp s' e' Hnet Hst Hj He|resp s' Hnet Hst]; try done.
  - destruct (index_of_listing data) as [[?|]|e'] eqn:Hi; try done.
    intros [= <-]. left. by eapply index_of_listing_raises.
  - intros [= <-]. right. by eapply json_escapes.
Qed.

(** C32: a body that is JSON nested deeper than the interpreter has room for
    makes the function raise [RecursionError]: it is no [ValueError] and
    no [RequestException], so that neither handler catches it, and it
    reaches the top level of the script before the file is read. *)
Theorem get_existing_rules_deep_body cfg s s' v :
  net_get (API_URL cfg) (auth_headers cfg) s = (HttpOk (json_response 200 v), s') →
  json_plain v = true → encodable true int_max_str_digits v = true →
  recursion_room < value_depth v →
  get_existing_rules cfg s =
  Ran (Raise RecursionError) (fetch_events cfg (json_response 200 v)) s'.
Proof.
  intros Hnet Hp He Hd.
  by apply get_existing_rules_escapes; [..|apply json_deep_response|].
Qed.

(** A body that is a JSON number makes the function raise [TypeError]:
    the test ['items' in data] is not defined on a number, and the
    exception is neither a [ValueError] nor a [RequestException].  The
    script then ends with status 1 before it reads the CSV file. *)
Theorem get_existing_rules_number_body cfg s s' resp n :
  net_get (API_URL cfg) (auth_headers cfg) s = (HttpOk resp, s') →
  status_code resp = 200%Z → json resp = Ret (VInt n) →
  get_existing_rules cfg s = Ran (Raise TypeError) (fetch_events cfg resp) s'.
Proof.
  intros Hnet Hst Hj. by rewrite (get_existing_rules_json cfg s s' resp (VInt n)).
Qed.

(** The events of a call: the GET, then lines of output. *)
Lemma get_existing_rules_events cfg s :
  ∃ msgs, ran_events (get_existing_rules cfg s) =
          EvGet (API_URL cfg) (auth_headers cfg) :: (EvPrint <$> msgs).
Proof.
  destruct (get_existing_rules_specP cfg s)
    as [s' Hnet|resp s' data Hnet Hst Hj|resp s' e Hnet Hst Hj He
       |resp s' e Hnet Hst Hj He|resp s' Hnet Hst];
    [by eexists [_] | | by eexists [_; _; _] | by eexists [_; _] | by eexists [_; _; _]].
  destruct (index_of_listing data) as [[?|]|e'];
    first [by eexists [_; _] | by eexists [_; _; _]].
Qed.

(** Whatever the service answers, the function sends one request, the
    GET of the rules of the location with the bearer token, before anything
    else, and otherwise only prints: it posts nothing and does not sleep. *)
Theorem get_existing_rules_one_request cfg s :
  head (ran_events (get_existing_rules cfg s)) =
    Some (EvGet (API_URL cfg) (auth_headers cfg)) ∧
  requests (ran_events (get_existing_rules cfg s)) =
    [EvGet (API_URL cfg) (auth_headers cfg)] ∧
  sleeps (ran_events (get_existing_rules cfg s)) = 0.
Proof.
  destruct (get_existing_rules_events cfg s) as [msgs ->].
  by rewrite sleeps_cons, sleeps_prints, requests_cons, requests_prints.
Qed.

End Properties.

(** ** Examples *)

#[local] Existing Instance cpython311.

Definition example_config : config := Config "tok" "fridge" "home" "switch".

Definition example_listing : value :=
  VDict [("items",
          VList [VDict [("name", VStr "Pesach (2025)"); ("id", VStr "r1")];
                 VDict [("id", VStr "r2"); ("name", VStr "Sukkos (2025)")];
                 VDict [("name", VStr "Pesach (2025)"); ("id", VStr "r3")]])].


Lemma get_existing_rules_degrades_witness :
  ran_result (get_existing_rules example_config [HttpOk (Response 503 "busy")]) = Ret [] ∧
  ran_state (get_existing_rules example_config [HttpOk (Response 503 "busy")]) = [].
Proof.
  refine (get_existing_rules_degrades example_config
            [HttpOk (Response 503 "busy")] _).
  cbn. by left.
Defined.

Lemma get_existing_rules_index_witness :
  ∃ index,
    get_existing_rules example_config [HttpOk (json_response 200 example_listing)] =
      Ran (Ret index) (fetch_events example_config (json_response 200 example_listing)) [] ∧
    (∀ name, dict_lookup index (VStr name) =
             named_rules
               [VDict [("name", VStr "Pesach (2025)"); ("id", VStr "r1")];
                VDict [("id", VStr "r2"); ("name", VStr "Sukkos (2025)")];
                VDict [("name", VStr "Pesach (2025)"); ("id", VStr "r3")]] !! name) ∧
    dict_wf index.
Proof.
  eapply (get_existing_rules_index example_config _ [] (json_response 200 example_listing));
    [done|done|by vm_compute|done|].
  repeat constructor; by eexists _, _.
Defined.

Lemma get_existing_rules_number_body_witness :
  get_existing_rules example_config [HttpOk (Response 200 "5")] =
  Ran (Raise TypeError) (fetch_events example_config (Response 200 "5")) [].
Proof.
  apply (get_existing_rules_number_body example_config _ [] _ 5); [done|done|by vm_compute].
Defined.

Lemma get_existing_rules_deep_body_witness :
  get_existing_rules example_config [HttpOk (json_response 200 (nest 991))] =
  Ran (Raise RecursionError) (fetch_events example_config (json_response 200 (nest 991))) [].
Proof.
  apply (get_existing_rules_deep_body example_config _ [] (nest 991));
    [done|by vm_compute|by vm_compute|vm_compute; lia].
Defined.
