(* ===== verification/RuleBuilder.v ===== *)
(** * The date and the rule: lines 62-125 of the script

    [parse_date] is line 62: the date text is split at ["-"], [int] is
    mapped over the parts and the result is unpacked into three names.
    Each of the three steps can raise [ValueError].

    [build_rule] is the dictionary of lines 68-125, key by key.

    The second half of the file states what the dictionary means.  The
    rules service reads it as a rule: [rule], [action], [condition] and
    [operand] are the part of its schema the script uses, [encode_rule] is
    the JSON form of a rule, [decode_rule] reads the form back and
    [run_rule] is what a rule does in a situation.  [sabbath_rule] is the
    rule the script means to create. *)

From Stdlib Require Import ZifyN.
From S2P Require Import Prelude PyStr PyNum PyValue Json Effects Config.

(** [lia] with quotients and remainders by constants. *)
Ltac lia_div := zify; Z.to_euclidean_division_equations; lia.

(** ** The date *)

Section ParseDate.
Context {interp : Interp}.

Definition parse_date (date_str : string) : result (Z * Z * Z) :=
  match py_split "-" date_str with
  | [y; m; d] =>
      year_int ← of_option (py_int int_max_str_digits y) ValueError;
      month_int ← of_option (py_int int_max_str_digits m) ValueError;
      day_int ← of_option (py_int int_max_str_digits d) ValueError;
      Ret (year_int, month_int, day_int)
  | _ => Raise ValueError
  end.

End ParseDate.

(** ** The rule *)

Definition build_rule (cfg : config) (name : string) (year_int month_int day_int : Z)
    : value :=
  VDict [
    ("name", VStr name);
    ("timeZoneId", VStr TIME_ZONE);
    ("actions", VList [
      VDict [
        ("if", VDict [
          ("and", VList [
            VDict [
              ("equals", VDict [
                ("left", VDict [
                  ("device", VDict [
                    ("devices", VList [VStr (VIRTUAL_SWITCH_ID cfg)]);
                    ("component", VStr "main");
                    ("capability", VStr "switch");
                    ("attribute", VStr "switch")
                  ])
                ]);
                ("right", VDict [("string", VStr "on")])
              ])
            ];
            VDict [
              ("equals", VDict [
                ("left", VDict [
                  ("date", VDict [
                    ("timeZoneId", VStr TIME_ZONE);
                    ("reference", VStr "Today")
                  ])
                ]);
                ("right", VDict [
                  ("date", VDict [
                    ("timeZoneId", VStr TIME_ZONE);
                    ("year", VInt year_int);
                    ("month", VInt month_int);
                    ("day", VInt day_int)
                  ])
                ])
              ])
            ]
          ]);
          ("then", VList [
            VDict [
              ("command", VDict [
                ("devices", VList [VStr (DEVICE_ID cfg)]);
                ("commands", VList [
                  VDict [
                    ("component", VStr "main");
                    ("capability", VStr "samsungce.sabbathMode");
                    ("command", VStr "on");
                    ("arguments", VList [])
                  ]
                ])
              ])
            ]
          ])
        ])
      ]
    ])
  ].

(** The rule has ten arrays and objects inside one another. *)
Definition rule_depth : nat := 10.

(** The interpreter has room for the encoder to write the rule. *)
Class RoomForRule `{!Interp} : Prop := room_for_rule : rule_depth ≤ recursion_room.

#[export] Instance cpython311_room : RoomForRule (H:=cpython311).
Proof. unfold RoomForRule, rule_depth. cbn. lia. Qed.

(** The request headers of lines 128-131. *)
Definition post_headers (cfg : config) : headers :=
  [("Authorization", "Bearer " +:+ TOKEN cfg);
   ("Content-Type", "application/json")].

(** ** Dates in ISO form

    [iso_date y m d] is the text [YYYY-MM-DD] of a date: four digits, two
    digits, two digits. *)

Definition two_digits (n : N) : list nat :=
  N.to_nat <$> [n / 10; n mod 10]%N.

Definition four_digits (n : N) : list nat :=
  N.to_nat <$> [n / 1000; n / 100 mod 10; n / 10 mod 10; n mod 10]%N.

Definition iso_date (y m d : N) : string :=
  digits_str (four_digits y) +:+ "-" +:+ digits_str (two_digits m) +:+ "-" +:+
  digits_str (two_digits d).

(** ** Lemmas on [parse_date] *)

Section ParseDateLemmas.
Context {interp : Interp}.
Implicit Types (s a b c : string) (y m d : Z).

Lemma parse_date_parts s a b c :
  py_split "-" s = [a; b; c] →
  parse_date s =
  (year_int ← of_option (py_int int_max_str_digits a) ValueError;
   month_int ← of_option (py_int int_max_str_digits b) ValueError;
   day_int ← of_option (py_int int_max_str_digits c) ValueError;
   Ret (year_int, month_int, day_int)).
Proof. intros H. unfold parse_date. by rewrite H. Qed.

Lemma parse_date_inv s y m d :
  parse_date s = Ret (y, m, d) →
  ∃ a b c, py_split "-" s = [a; b; c] ∧
    py_int int_max_str_digits a = Some y ∧
    py_int int_max_str_digits b = Some m ∧
    py_int int_max_str_digits c = Some d.
Proof.
  unfold parse_date.
  destruct (py_split "-" s) as [|a [|b [|c [|? ?]]]]; try done.
  destruct (py_int _ a) as [y'|] eqn:Ey; cbn; [|done].
  destruct (py_int _ b) as [m'|] eqn:Em; cbn; [|done].
  destruct (py_int _ c) as [d'|] eqn:Ed; cbn; [|done].
  intros [= <- <- <-]. by exists a, b, c.
Qed.

(** Whatever goes wrong is a [ValueError]. *)
Lemma parse_date_raises s e : parse_date s = Raise e → e = ValueError.
Proof.
  unfold parse_date.
  destruct (py_split "-" s) as [|a [|b [|c [|? ?]]]]; try by intros [= <-].
  destruct (py_int _ a); cbn; [|by intros [= <-]].
  destruct (py_int _ b); cbn; [|by intros [= <-]].
  destruct (py_int _ c); cbn; by intros [= <-].
Qed.

Lemma digits_str_no_dash (g : list nat) :
  is_digits g → str_mem "-" (digits_str g) = false.
Proof.
  induction 1 as [|k g Hk _ IH]; [done|]. cbn [digits_str].
  apply str_mem_false_cons. split; [|done].
  destruct (digit_char_plain k Hk) as (_ & _ & Hm). congruence.
Qed.

Lemma four_digits_spec (n : N) :
  (n < 10000)%N →
  is_digits (four_digits n) ∧ digits_val (four_digits n) = Z.of_N n.
Proof.
  intros Hn. split.
  - unfold is_digits, four_digits. cbn [fmap list_fmap].
    rewrite !Forall_cons. split_and!; [lia_div..|constructor].
  - unfold digits_val, digits_val_from, four_digits. cbn [foldl fmap list_fmap]. lia_div.
Qed.

Lemma two_digits_spec (n : N) :
  (n < 100)%N →
  is_digits (two_digits n) ∧ digits_val (two_digits n) = Z.of_N n.
Proof.
  intros Hn. split.
  - unfold is_digits, two_digits. cbn [fmap list_fmap].
    rewrite !Forall_cons. split_and!; [lia_div..|constructor].
  - unfold digits_val, digits_val_from, two_digits. cbn [foldl fmap list_fmap]. lia_div.
Qed.

Lemma parse_date_joined a b c y m d :
  str_mem "-" a = false → str_mem "-" b = false → str_mem "-" c = false →
  py_int int_max_str_digits a = Some y →
  py_int int_max_str_digits b = Some m →
  py_int int_max_str_digits c = Some d →
  parse_date (a +:+ "-" +:+ b +:+ "-" +:+ c) = Ret (y, m, d).
Proof.
  intros Ha Hb Hc Hy Hm Hd.
  rewrite (parse_date_parts _ a b c), Hy, Hm, Hd; [done|].
  rewrite !string_app_cons, !string_app_nil_l, !py_split_app by done.
  by rewrite py_split_no_sep_id.
Qed.

Lemma parse_date_no_dash s a b c :
  py_split "-" s = [a; b; c] →
  str_mem "-" a = false ∧ str_mem "-" b = false ∧ str_mem "-" c = false.
Proof.
  intros Hs. pose proof (py_split_parts_no_sep "-" s) as Hno. rewrite Hs in Hno.
  by apply Forall_cons in Hno as [Ha [Hb [Hc _]%Forall_cons]%Forall_cons].
Qed.

End ParseDateLemmas.

(** ** Properties of [parse_date] *)

Section ParseDateProperties.
Context {interp : Interp}.
Implicit Types (s a b c : string) (y m d : Z).

(** C3: the date text is accepted exactly when it is three texts joined by
    two dashes, none of them holding a dash, each of which [int] accepts;
    the result is the three numbers. *)
Theorem parse_date_ok_iff s y m d :
  parse_date s = Ret (y, m, d) ↔
  ∃ a b c, s = a +:+ "-" +:+ b +:+ "-" +:+ c ∧
    str_mem "-" a = false ∧ str_mem "-" b = false ∧ str_mem "-" c = false ∧
    py_int int_max_str_digits a = Some y ∧
    py_int int_max_str_digits b = Some m ∧
    py_int int_max_str_digits c = Some d.
Proof.
  split.
  - intros (a & b & c & Hs & Hy & Hm & Hd)%parse_date_inv. exists a, b, c.
    destruct (parse_date_no_dash s a b c Hs) as (Ha & Hb & Hc).
    split_and!; try done. by rewrite <-(py_join_split "-" s), Hs.
  - intros (a & b & c & -> & Ha & Hb & Hc & Hy & Hm & Hd).
    by apply parse_date_joined.
Qed.

(** The three numbers of an accepted date are not negative: a minus sign
    is a dash, and the split leaves no dash in a part. *)
Theorem parse_date_nonneg s y m d :
  parse_date s = Ret (y, m, d) → (0 ≤ y ∧ 0 ≤ m ∧ 0 ≤ d)%Z.
Proof.
  intros (a & b & c & Hs & Hy & Hm & Hd)%parse_date_inv.
  destruct (parse_date_no_dash s a b c Hs) as (Ha & Hb & Hc).
  split_and!; eapply py_int_nonneg; [apply Ha|done|apply Hb|done|apply Hc|done].
Qed.

(** C40: every date in the form [YYYY-MM-DD] is accepted and parses to its
    year, month and day, when the interpreter allows numbers of four
    digits. *)
Theorem parse_date_iso (y m d : N) :
  (y < 10000)%N → (m < 100)%N → (d < 100)%N →
  within_limit int_max_str_digits 4 = true →
  parse_date (iso_date y m d) = Ret (Z.of_N y, Z.of_N m, Z.of_N d).
Proof.
  intros [Hy1 Hy2]%four_digits_spec [Hm1 Hm2]%two_digits_spec
    [Hd1 Hd2]%two_digits_spec Hlim.
  assert (within_limit int_max_str_digits 2 = true) as Hlim2.
  { revert Hlim. unfold within_limit. destruct int_max_str_digits; [|done].
    rewrite !bool_decide_eq_true. lia. }
  rewrite <-Hy2, <-Hm2, <-Hd2.
  apply parse_date_joined; try (by apply digits_str_no_dash);
    by apply py_int_digits.
Qed.

(** A date text is refused with [ValueError] when it does not have
    exactly two dashes, or holds a character that is not a digit, a blank,
    an underscore or a sign; no other exception leaves the parser. *)
Theorem parse_date_rejects s :
  str_count "-" s ≠ 2 ∨ (∃ ch : ascii, ch ∈ chars s ∧ int_char ch = false) →
  parse_date s = Raise ValueError.
Proof.
  intros Hbad. destruct (parse_date s) as [[[y m] d]|e] eqn:E;
    [exfalso | by apply parse_date_raises in E as ->].
  apply parse_date_inv in E as (a & b & c & Hs & Hy & Hm & Hd).
  destruct Hbad as [Hn|(ch & Hch & Hf)].
  - pose proof (py_split_length "-" s) as Hl. rewrite Hs in Hl. cbn in Hl. lia.
  - rewrite <-(py_join_split "-" s), Hs in Hch.
    apply py_join_chars in Hch as [-> | (p & Hp & Hch)]; [done|].
    assert (py_int int_max_str_digits p = None) as Hnone
      by (by eapply py_int_foreign_char).
    repeat (apply elem_of_cons in Hp as [-> | Hp]; [congruence|]).
    by apply elem_of_nil in Hp.
Qed.

End ParseDateProperties.

Lemma parse_date_nonneg_witness : (0 ≤ 2024 ∧ 0 ≤ 10 ∧ 0 ≤ 3)%Z.
Proof. by apply (parse_date_nonneg (interp:=cpython311) "2024-10-03"). Defined.

Lemma parse_date_iso_witness :
  parse_date (interp:=cpython311) (iso_date 2024 13 45) = Ret (2024, 13, 45)%Z.
Proof. by apply (parse_date_iso (interp:=cpython311) 2024 13 45). Defined.

Lemma parse_date_rejects_witness :
  parse_date (interp:=cpython311) "2024/10/03" = Raise ValueError.
Proof. apply parse_date_rejects. left. by vm_compute. Defined.

(** ** The rule language of the service

    The part of the schema of the rules service that the script uses: a
    rule is a name, a time zone and actions; an action is a conditional or
    a command to devices; a condition is an equality of two operands or a
    conjunction; an operand is a text, an attribute of a device, today's
    date or a given date. *)

Inductive operand :=
| OString (s : string)
| ODevice (devices : list string) (component capability attribute : string)
| OToday (time_zone : string)
| ODate (time_zone : string) (year month day : Z).

#[local] Unset Elimination Schemes.

Inductive condition :=
| CEquals (left right : operand)
| CAnd (conds : list condition).

Record command := Command {
  cmd_component : string;
  cmd_capability : string;
  cmd_command : string;
  cmd_arguments : list value;
}.

Inductive action :=
| AIf (cond : condition) (then_ : list action)
| ACommand (devices : list string) (commands : list command).

#[local] Set Elimination Schemes.

Record rule := Rule {
  rule_name : string;
  rule_time_zone : string;
  rule_actions : list action;
}.

(** *** The JSON form of a rule *)

Definition encode_operand (o : operand) : value :=
  match o with
  | OString s => VDict [("string", VStr s)]
  | ODevice devices component capability attribute =>
      VDict [("device", VDict [("devices", VList (VStr <$> devices));
                               ("component", VStr component);
                               ("capability", VStr capability);
                               ("attribute", VStr attribute)])]
  | OToday tz =>
      VDict [("date", VDict [("timeZoneId", VStr tz); ("reference", VStr "Today")])]
  | ODate tz year month day =>
      VDict [("date", VDict [("timeZoneId", VStr tz); ("year", VInt year);
                             ("month", VInt month); ("day", VInt day)])]
  end.

(** A condition is an object with one key; inside an [if] its key stands
    beside [then]. *)
Fixpoint condition_fields (c : condition) : list (string * value) :=
  match c with
  | CEquals l r =>
      [("equals", VDict [("left", encode_operand l); ("right", encode_operand r)])]
  | CAnd conds =>
      [("and", VList ((λ c, VDict (condition_fields c)) <$> conds))]
  end.

Definition encode_command (c : command) : value :=
  VDict [("component", VStr (cmd_component c));
         ("capability", VStr (cmd_capability c));
         ("command", VStr (cmd_command c));
         ("arguments", VList (cmd_arguments c))].

Fixpoint encode_action (a : action) : value :=
  match a with
  | AIf cond then_ =>
      VDict [("if", VDict (condition_fields cond ++
                           [("then", VList (encode_action <$> then_))]))]
  | ACommand devices commands =>
      VDict [("command", VDict [("devices", VList (VStr <$> devices));
                                ("commands", VList (encode_command <$> commands))])]
  end.

Definition encode_rule (r : rule) : value :=
  VDict [("name", VStr (rule_name r));
         ("timeZoneId", VStr (rule_time_zone r));
         ("actions", VList (encode_action <$> rule_actions r))].

(** *** Reading a rule back

    The service reads the JSON form back into a rule.  The reader below
    accepts the objects in the form [encode_rule] writes them, keys in
    this order; it shows that the JSON form determines the rule. *)

Definition decode_string (v : value) : option string :=
  match v with VStr s => Some s | _ => None end.

Definition decode_operand (v : value) : option operand :=
  match v with
  | VDict [(k, VStr s)] => if decide (k = "string") then Some (OString s) else None
  | VDict [(k, VDict [(k1, VList devices); (k2, VStr component);
                      (k3, VStr capability); (k4, VStr attribute)])] =>
      if decide (k = "device" ∧ k1 = "devices" ∧ k2 = "component" ∧
                 k3 = "capability" ∧ k4 = "attribute")
      then devices' ← mapM decode_string devices;
           Some (ODevice devices' component capability attribute)
      else None
  | VDict [(k, VDict [(k1, VStr tz); (k2, VStr reference)])] =>
      if decide (k = "date" ∧ k1 = "timeZoneId" ∧ k2 = "reference" ∧ reference = "Today")
      then Some (OToday tz) else None
  | VDict [(k, VDict [(k1, VStr tz); (k2, VInt year); (k3, VInt month); (k4, VInt day)])] =>
      if decide (k = "date" ∧ k1 = "timeZoneId" ∧ k2 = "year" ∧ k3 = "month" ∧ k4 = "day")
      then Some (ODate tz year month day) else None
  | _ => None
  end.

(** A condition from its key and the value under it. *)
Fixpoint decode_condition (k : string) (v : value) {struct v} : option condition :=
  match v with
  | VDict [(k1, l); (k2, r)] =>
      if decide (k = "equals" ∧ k1 = "left" ∧ k2 = "right")
      then l' ← decode_operand l; r' ← decode_operand r; Some (CEquals l' r')
      else None
  | VList conds =>
      if decide (k = "and")
      then CAnd <$> mapM (λ c, match c with
                               | VDict [(k', v')] => decode_condition k' v'
                               | _ => None
                               end) conds
      else None
  | _ => None
  end.

Definition decode_command (v : value) : option command :=
  match v with
  | VDict [(k1, VStr component); (k2, VStr capability); (k3, VStr cmd); (k4, VList args)] =>
      if decide (k1 = "component" ∧ k2 = "capability" ∧ k3 = "command" ∧ k4 = "arguments")
      then Some (Command component capability cmd args) else None
  | _ => None
  end.

Fixpoint decode_action (v : value) : option action :=
  match v with
  | VDict [(k, VDict [(kc, cv); (kt, VList then_)])] =>
      if decide (k = "if" ∧ kt = "then")
      then cond ← decode_condition kc cv;
           acts ← mapM decode_action then_;
           Some (AIf cond acts)
      else if decide (k = "command" ∧ kc = "devices" ∧ kt = "commands")
      then match cv with
           | VList devices =>
               devices' ← mapM decode_string devices;
               commands ← mapM decode_command then_;
               Some (ACommand devices' commands)
           | _ => None
           end
      else None
  | _ => None
  end.

Definition decode_rule (v : value) : option rule :=
  match v with
  | VDict [(k1, VStr name); (k2, VStr tz); (k3, VList actions)] =>
      if decide (k1 = "name" ∧ k2 = "timeZoneId" ∧ k3 = "actions")
      then Rule name tz <$> mapM decode_action actions else None
  | _ => None
  end.

(** Induction on conditions and actions descends into their lists. *)
Section RuleInd.
Context (P : condition → Prop) (Q : action → Prop).
Context (HEquals : ∀ l r, P (CEquals l r))
  (HAnd : ∀ conds, Forall P conds → P (CAnd conds))
  (HIf : ∀ cond then_, Forall Q then_ → Q (AIf cond then_))
  (HCommand : ∀ devices commands, Q (ACommand devices commands)).

Fixpoint condition_ind' (c : condition) : P c :=
  match c with
  | CEquals l r => HEquals l r
  | CAnd conds =>
      HAnd conds ((fix go (l : list condition) : Forall P l :=
                     match l with
                     | [] => Forall_nil_2 P
                     | x :: l' => Forall_cons_2 P x l' (condition_ind' x) (go l')
                     end) conds)
  end.

Fixpoint action_ind' (a : action) : Q a :=
  match a with
  | AIf cond then_ =>
      HIf cond then_ ((fix go (l : list action) : Forall Q l :=
                         match l with
                         | [] => Forall_nil_2 Q
                         | x :: l' => Forall_cons_2 Q x l' (action_ind' x) (go l')
                         end) then_)
  | ACommand devices commands => HCommand devices commands
  end.

End RuleInd.

Lemma decode_strings (l : list string) : mapM decode_string (VStr <$> l) = Some l.
Proof. apply mapM_fmap_Some, Forall_true. done. Qed.

Lemma decode_encode_operand (o : operand) : decode_operand (encode_operand o) = Some o.
Proof. destruct o; cbn; [done| |done|done]. by rewrite decode_strings. Qed.

(** The one field of a condition. *)
Definition condition_key (c : condition) : string :=
  match c with CEquals _ _ => "equals" | CAnd _ => "and" end.

Definition condition_body (c : condition) : value :=
  match c with
  | CEquals l r => VDict [("left", encode_operand l); ("right", encode_operand r)]
  | CAnd conds => VList ((λ c, VDict (condition_fields c)) <$> conds)
  end.

Lemma condition_fields_one (c : condition) :
  condition_fields c = [(condition_key c, condition_body c)].
Proof. by destruct c. Qed.

Lemma decode_encode_condition (c : condition) :
  decode_condition (condition_key c) (condition_body c) = Some c.
Proof.
  induction c as [l r|conds IH] using condition_ind'; cbn.
  - by rewrite !decode_encode_operand.
  - rewrite mapM_fmap_Some; [done|]. eapply Forall_impl; [done|].
    intros c Hc. by rewrite condition_fields_one.
Qed.

Lemma decode_encode_command (c : command) : decode_command (encode_command c) = Some c.
Proof. by destruct c. Qed.

Lemma decode_encode_action (a : action) : decode_action (encode_action a) = Some a.
Proof.
  induction a as [cond then_ IH|devices commands] using action_ind';
    cbn [encode_action].
  - rewrite condition_fields_one. cbn. rewrite decode_encode_condition. cbn.
    by rewrite mapM_fmap_Some.
  - cbn. rewrite decode_strings. cbn.
    rewrite mapM_fmap_Some; [done|]. apply Forall_true, decode_encode_command.
Qed.

Lemma decode_encode_rule_ok (r : rule) : decode_rule (encode_rule r) = Some r.
Proof.
  destruct r as [name tz actions]. cbn.
  rewrite mapM_fmap_Some; [done|]. apply Forall_true, decode_encode_action.
Qed.

(** *** What a rule does

    A situation gives the attributes of the devices and today's date in a
    time zone.  Running a rule yields the commands it sends, each with the
    device it is sent to. *)

Record situation := Situation {
  attribute_of : string → string → string → string → option string;
  today_in : string → Z * Z * Z;
}.

Inductive rval :=
| RText (s : string)
| RDate (date : Z * Z * Z).

#[export] Instance rval_eq_dec : EqDecision rval.
Proof. solve_decision. Defined.

Definition eval_operand (sit : situation) (o : operand) : option rval :=
  match o with
  | OString s => Some (RText s)
  | ODevice [device] component capability attribute =>
      RText <$> attribute_of sit device component capability attribute
  | ODevice _ _ _ _ => None
  | OToday tz => Some (RDate (today_in sit tz))
  | ODate _ year month day => Some (RDate (year, month, day))
  end.

Fixpoint eval_condition (sit : situation) (c : condition) : bool :=
  match c with
  | CEquals l r =>
      match eval_operand sit l, eval_operand sit r with
      | Some a, Some b => bool_decide (a = b)
      | _, _ => false
      end
  | CAnd conds => forallb (eval_condition sit) conds
  end.

Fixpoint run_action (sit : situation) (a : action) : list (string * command) :=
  match a with
  | AIf cond then_ =>
      if eval_condition sit cond then flat_map (run_action sit) then_ else []
  | ACommand devices commands =>
      device ← devices; c ← commands; [(device, c)]
  end.

Definition run_rule (sit : situation) (r : rule) : list (string * command) :=
  flat_map (run_action sit) (rule_actions r).

(** *** The rule the script means to create

    When the virtual switch is on and today, in the time zone of the
    script, is the given date, turn the sabbath mode of the device on. *)

Definition sabbath_command : command :=
  Command "main" "samsungce.sabbathMode" "on" [].

Definition sabbath_rule (cfg : config) (name : string) (year month day : Z) : rule :=
  Rule name TIME_ZONE
    [AIf (CAnd [CEquals (ODevice [VIRTUAL_SWITCH_ID cfg] "main" "switch" "switch")
                        (OString "on");
                CEquals (OToday TIME_ZONE) (ODate TIME_ZONE year month day)])
         [ACommand [DEVICE_ID cfg] [sabbath_command]]].

(** The switch is on and today is the date. *)
Definition sabbath_time (cfg : config) (sit : situation) (year month day : Z) : Prop :=
  attribute_of sit (VIRTUAL_SWITCH_ID cfg) "main" "switch" "switch" = Some "on" ∧
  today_in sit TIME_ZONE = (year, month, day).

#[export] Instance sabbath_time_dec cfg sit y m d : Decision (sabbath_time cfg sit y m d).
Proof. unfold sabbath_time. apply _. Defined.

Lemma sabbath_rule_runs cfg name y m d sit :
  run_rule sit (sabbath_rule cfg name y m d) =
  if decide (sabbath_time cfg sit y m d) then [(DEVICE_ID cfg, sabbath_command)] else [].
Proof.
  unfold run_rule, sabbath_rule. cbn.
  destruct (decide (sabbath_time cfg sit y m d)) as [[Ha Ht]|Hn].
  - rewrite Ha, Ht. cbn. by rewrite !bool_decide_eq_true_2.
  - destruct (attribute_of sit _ _ _ _) as [v|] eqn:Ea; cbn; [|done].
    repeat case_bool_decide; simplify_eq; cbn; try done.
    destruct Hn. by split.
Qed.

(** ** Properties of [build_rule] *)

(** C5: the dictionary the script posts is the JSON form of one rule, the
    rule the service reads from it, and that rule sends one command, the
    sabbath mode of the configured device, when the virtual switch is on
    and today is the parsed date in the time zone of the script, and no
    command otherwise. *)
Theorem build_rule_meaning (cfg : config) (name : string) (y m d : Z) :
  ∃ r, decode_rule (build_rule cfg name y m d) = Some r ∧
       encode_rule r = build_rule cfg name y m d ∧
       rule_name r = name ∧
       ∀ sit, run_rule sit r =
              if decide (sabbath_time cfg sit y m d)
              then [(DEVICE_ID cfg, sabbath_command)] else [].
Proof.
  exists (sabbath_rule cfg name y m d). split_and!; [|done|done|].
  - apply (decode_encode_rule_ok (sabbath_rule cfg name y m d)).
  - intros sit. apply sabbath_rule_runs.
Qed.

(** The JSON form of a rule determines the rule: reading the form of
    a rule back gives the rule, whatever its conditions, actions and
    commands. *)
Theorem decode_encode_rule (r : rule) : decode_rule (encode_rule r) = Some r.
Proof. apply decode_encode_rule_ok. Qed.

(** Rules of different names or dates are different requests: the
    dictionary determines the name and the three numbers of the date. *)
Theorem build_rule_inj (cfg : config) (name name' : string) (y m d y' m' d' : Z) :
  build_rule cfg name y m d = build_rule cfg name' y' m' d' →
  name = name' ∧ (y, m, d) = (y', m', d').
Proof. intros [= -> -> -> ->]. done. Qed.

Lemma build_rule_inj_witness :
  "Pesach (2025)" = "Pesach (2025)" ∧ (2025, 4, 12)%Z = (2025, 4, 12)%Z.
Proof.
  by apply (build_rule_inj (Config "t" "dev" "loc" "sw") _ _ 2025 4 12 2025 4 12).
Defined.

(** ** The rule as the body of a request *)

Lemma build_rule_depth cfg name y m d : value_depth (build_rule cfg name y m d) = rule_depth.
Proof. done. Qed.

Lemma build_rule_plain cfg name y m d : json_plain (build_rule cfg name y m d) = true.
Proof. by vm_compute. Qed.

Section Wire.
Context {interp : Interp}.
Implicit Types (cfg : config) (name s : string) (y m d : Z).

(** [str] writes the numbers of a date that [int] read. *)
Lemma build_rule_encodable allow_nan cfg name s y m d :
  parse_date s = Ret (y, m, d) →
  encodable allow_nan int_max_str_digits (build_rule cfg name y m d) = true.
Proof.
  intros (a & b & c & _ & Ha%py_int_within & Hb%py_int_within & Hc%py_int_within)%parse_date_inv.
  cbn. by rewrite Ha, Hb, Hc.
Qed.

(** The encoder writes the rule of a parsed date when it has room for
    it. *)
Lemma request_body_rule {room : RoomForRule} cfg name s y m d :
  parse_date s = Ret (y, m, d) →
  request_body (build_rule cfg name y m d) = Ret (dumps_text (build_rule cfg name y m d)).
Proof.
  intros Hd. unfold request_body, json_dumps.
  rewrite (proj2 (refusal_None _ _ _ _)); [done|].
  split; [by eapply build_rule_encodable|]. by rewrite build_rule_depth.
Qed.

(** Without that room the encoder raises [RecursionError]. *)
Lemma request_body_no_room cfg name y m d :
  recursion_room < rule_depth →
  request_body (build_rule cfg name y m d) = Raise RecursionError.
Proof.
  intros Hroom. unfold request_body, json_dumps, rule_depth in *.
  do 10 (destruct recursion_room as [|recursion_room]; [done|]). lia.
Qed.

(** C16: the rule on the wire: the encoder writes the rule of a parsed date,
    a service that decodes the body as Python does reads the dictionary
    the script built, and the dictionary is the JSON form of the rule
    the script means. *)
Theorem rule_on_the_wire {room : RoomForRule} cfg name s y m d :
  parse_date s = Ret (y, m, d) →
  ∃ text,
    request_body (build_rule cfg name y m d) = Ret text ∧
    json_loads int_max_str_digits recursion_room text = Ret (build_rule cfg name y m d) ∧
    decode_rule (build_rule cfg name y m d) = Some (sabbath_rule cfg name y m d).
Proof.
  intros Hd. exists (dumps_text (build_rule cfg name y m d)).
  split_and!; [by eapply request_body_rule|
    |apply (decode_encode_rule_ok (sabbath_rule cfg name y m d))].
  apply (json_loads_dumps (negb invalid_json_error) _ _ recursion_room);
    [apply build_rule_plain|done|].
  unfold json_dumps. rewrite (proj2 (refusal_None _ _ _ _)); [done|].
  split; [by eapply build_rule_encodable|]. by rewrite build_rule_depth.
Qed.

End Wire.

Lemma rule_on_the_wire_witness :
  ∃ text,
    request_body (H:=cpython311) (build_rule (Config "t" "dev" "loc" "sw") "Pesach (2025)" 2025 4 12)
      = Ret text ∧
    json_loads (Some 4300) 990 text =
      Ret (build_rule (Config "t" "dev" "loc" "sw") "Pesach (2025)" 2025 4 12) ∧
    decode_rule (build_rule (Config "t" "dev" "loc" "sw") "Pesach (2025)" 2025 4 12) =
      Some (sabbath_rule (Config "t" "dev" "loc" "sw") "Pesach (2025)" 2025 4 12).
Proof.
  apply (rule_on_the_wire (interp:=cpython311) (Config "t" "dev" "loc" "sw")
           "Pesach (2025)" "2025-04-12" 2025 4 12).
  by vm_compute.
Defined.
