(* ===== verification/CreateRule.v ===== *)
(** * Creating one rule: lines 57-145 of the script

    [create_rule name date_str] does nothing but print when the name is a
    key of the dictionary of existing rules, or when the date cannot be
    parsed.  Otherwise it posts the rule once, prints what the service
    answered, and sleeps one second.

    The handler of the request catches [RequestException] only.  An answer
    with status 200 or 201 whose body is JSON but not an object makes
    [.get] raise [AttributeError]; a body that is not JSON raises a
    [JSONDecodeError], which is a [RequestException] from requests 2.27 on
    only; an integer too long for [int] raises [ValueError] and a body
    nested too deep [RecursionError].  What is not caught leaves the
    function before the sleep.

    The theorems are about an interpreter with room for the encoder to
    write the rule ([RoomForRule]); without it the call raises
    [RecursionError] before it sends anything ([create_rule_no_room]). *)

From S2P Require Import Prelude PyStr PyValue Json Effects Config RuleBuilder.

Section CreateRule.
Context {S : Type} `{!Network S} {interp : Interp}.

(** Lines 134-142: the request and the report of its answer. *)
Definition post_rule (cfg : config) (name : string) (rule : value) : prog S () :=
  let headers := post_headers cfg in
  try_except
    (response ← http_post (API_URL cfg) headers rule;
     if bool_decide (status_code response ∈ [200; 201]%Z) then
       body ← response_json response;
       rule_id ← lift (py_get body "id" (VStr "unknown"));
       print (MsgCreated name rule_id)
     else
       print (MsgCreateFailed name (status_code response) (text response)))
    (except CRequestException (λ e, print (ErrCreating name e))).

Definition create_rule (cfg : config) (existing_rules : pydict)
    (name date_str : string) : prog S () :=
  if dict_contains existing_rules name then
    id ← lift (of_option (dict_lookup existing_rules (VStr name)) (KeyError name));
    print (MsgRuleExists name id)
  else
    date ← try_except
              (date ← lift (parse_date date_str); mret (Some date))
              (except CValueError (λ _,
                 print (ErrInvalidDate name date_str);; mret None));
    match date with
    | None => mret ()
    | Some (year_int, month_int, day_int) =>
        let rule := build_rule cfg name year_int month_int day_int in
        post_rule cfg name rule;;
        sleep 1
    end.

End CreateRule.

(** ** The calls change the service by their requests only *)

Section Traced.
Context {S : Type} `{!Network S} {interp : Interp}.

Lemma post_rule_traced cfg name rule : traced (post_rule cfg name rule).
Proof. unfold post_rule. eauto 40 with traced. Qed.

Lemma create_rule_traced cfg index name date_str :
  traced (create_rule cfg index name date_str).
Proof. unfold create_rule. eauto 40 using post_rule_traced with traced. Qed.

End Traced.

(** ** Services that answer alike get the same calls *)

Section Related.
Context {S1 S2 : Type} `{!Network S1, !Network S2} {interp : Interp}.
Context (R : S1 → S2 → Prop) (HR : simulation R).

Lemma post_rule_related cfg name rule :
  related R (post_rule cfg name rule) (post_rule cfg name rule).
Proof. unfold post_rule. eauto 40 with related. Qed.

Lemma create_rule_related cfg index name date_str :
  related R (create_rule cfg index name date_str) (create_rule cfg index name date_str).
Proof. unfold create_rule. eauto 40 using post_rule_related with related. Qed.

End Related.


(** ** What a call sends

    [to_post] is the list of the bodies a call posts: the rule, or nothing. *)

Definition to_post {interp : Interp} (cfg : config) (index : pydict)
    (name date_str : string) : list value :=
  match dict_lookup index (VStr name), parse_date date_str with
  | None, Ret (y, m, d) => [build_rule cfg name y m d]
  | _, _ => []
  end.

(** A request and the pause after it. *)
Definition exchange (cfg : config) (body : value) : list event :=
  [EvPost (API_URL cfg) (post_headers cfg) body; EvSleep 1].

(** ** What an answer leads to

    [report name r] is what [post_rule] prints for the answer [r], and
    [post_result r] how it ends. *)

Definition good_status (code : Z) : bool := bool_decide (code ∈ [200; 201]%Z).

Definition post_result `{!Interp} (r : http_result) : result () :=
  match r with
  | HttpFail => Ret ()
  | HttpOk resp =>
      if good_status (status_code resp) then
        match json resp with
        | Ret (VDict _) => Ret ()
        | Ret _ => Raise AttributeError
        | Raise e => if isinstance e CRequestException then Ret () else Raise e
        end
      else Ret ()
  end.

Definition report `{!Interp} (name : string) (r : http_result) : list message :=
  match r with
  | HttpFail => [ErrCreating name RequestException]
  | HttpOk resp =>
      if good_status (status_code resp) then
        match json resp with
        | Ret (VDict d) => [MsgCreated name (default (VStr "unknown") (assoc "id" d))]
        | Ret _ => []
        | Raise e => if isinstance e CRequestException then [ErrCreating name e] else []
        end
      else [MsgCreateFailed name (status_code resp) (text resp)]
  end.

(** The events after the request: the report, and the sleep unless the
    function was left by an exception. *)
Definition after_post `{!Interp} (name : string) (r : http_result) : list event :=
  (EvPrint <$> report name r) ++
  (if is_ret (post_result r) then [EvSleep 1] else []).

Section Runs.
Context {S : Type} `{!Network S} {interp : Interp}.
Implicit Types (s : S) (cfg : config) (index : pydict) (name date_str : string).

Lemma post_rule_run cfg name rule s r s' t :
  request_body rule = Ret t →
  net_post (API_URL cfg) (post_headers cfg) rule s = (r, s') →
  post_rule cfg name rule s =
  Ran (post_result r)
      (EvPost (API_URL cfg) (post_headers cfg) rule :: (EvPrint <$> report name r)) s'.
Proof.
  intros Ht H. unfold post_rule. run_prog. rewrite Ht, H.
  destruct r as [|resp]; cbn; [done|]. unfold good_status.
  case_bool_decide; cbn; [|done].
  destruct (json resp) as [[]|e]; try done. cbn. by destruct (isinstance e _).
Qed.

(** The encoder raises what is no [RequestException]: nothing is sent. *)
Lemma post_rule_refused cfg name rule s e :
  request_body rule = Raise e → isinstance e CRequestException = false →
  post_rule cfg name rule s = Ran (Raise e) [] s.
Proof. intros Ht He. unfold post_rule. run_prog. by rewrite Ht, He. Qed.

Lemma create_rule_exists cfg index name date_str s id :
  dict_lookup index (VStr name) = Some id →
  create_rule cfg index name date_str s = Ran (Ret ()) [EvPrint (MsgRuleExists name id)] s.
Proof.
  intros H. unfold create_rule, dict_contains.
  rewrite bool_decide_eq_true_2 by (by rewrite H). run_prog. by rewrite H.
Qed.

Lemma create_rule_bad_date cfg index name date_str s :
  dict_lookup index (VStr name) = None →
  parse_date date_str = Raise ValueError →
  create_rule cfg index name date_str s =
  Ran (Ret ()) [EvPrint (ErrInvalidDate name date_str)] s.
Proof.
  intros H Hd. unfold create_rule, dict_contains.
  rewrite bool_decide_eq_false_2 by (rewrite H; by intros [? ?]).
  run_prog. by rewrite Hd.
Qed.

Lemma create_rule_post {room : RoomForRule} cfg index name date_str s y m d r s' :
  dict_lookup index (VStr name) = None →
  parse_date date_str = Ret (y, m, d) →
  net_post (API_URL cfg) (post_headers cfg) (build_rule cfg name y m d) s = (r, s') →
  create_rule cfg index name date_str s =
  Ran (post_result r)
      (EvPost (API_URL cfg) (post_headers cfg) (build_rule cfg name y m d)
         :: after_post name r) s'.
Proof.
  intros H Hd Hnet. unfold create_rule, dict_contains.
  rewrite bool_decide_eq_false_2 by (rewrite H; by intros [? ?]).
  run_prog. rewrite Hd. cbn.
  rewrite (post_rule_run _ _ _ _ r s' _ (request_body_rule _ _ _ _ _ _ Hd)) by done.
  unfold after_post. destruct (post_result r) as [[]|e]; cbn; [done|].
  by rewrite app_nil_r.
Qed.

(** Without room for the rule the call raises [RecursionError] where it
    would send the request: nothing is sent, and the call does not sleep. *)
Lemma create_rule_no_room cfg index name date_str s y m d :
  recursion_room < rule_depth →
  dict_lookup index (VStr name) = None →
  parse_date date_str = Ret (y, m, d) →
  create_rule cfg index name date_str s = Ran (Raise RecursionError) [] s.
Proof.
  intros Hroom H Hd. unfold create_rule, dict_contains.
  rewrite bool_decide_eq_false_2 by (rewrite H; by intros [? ?]).
  run_prog. rewrite Hd. cbn.
  by rewrite (post_rule_refused _ _ _ _ RecursionError (request_body_no_room _ _ _ _ _ Hroom)).
Qed.

End Runs.

(** The three ways of a call: the name is known, the date is bad, or the
    rule is posted and the service answers [r]. *)
Inductive create_rule_spec {S} `{!Network S} {interp : Interp} (cfg : config)
    (index : pydict) (name date_str : string) (s : S) : ran S () → Prop :=
| CallExists id :
    dict_lookup index (VStr name) = Some id →
    create_rule_spec cfg index name date_str s
      (Ran (Ret ()) [EvPrint (MsgRuleExists name id)] s)
| CallBadDate :
    dict_lookup index (VStr name) = None → parse_date date_str = Raise ValueError →
    create_rule_spec cfg index name date_str s
      (Ran (Ret ()) [EvPrint (ErrInvalidDate name date_str)] s)
| CallPost y m d r s' :
    dict_lookup index (VStr name) = None → parse_date date_str = Ret (y, m, d) →
    net_post (API_URL cfg) (post_headers cfg) (build_rule cfg name y m d) s = (r, s') →
    create_rule_spec cfg index name date_str s
      (Ran (post_result r)
           (EvPost (API_URL cfg) (post_headers cfg) (build_rule cfg name y m d)
              :: after_post name r) s').

Lemma create_rule_specP {S} `{!Network S} {interp : Interp} {room : RoomForRule}
    cfg index name date_str (s : S) :
  create_rule_spec cfg index name date_str s (create_rule cfg index name date_str s).
Proof.
  destruct (dict_lookup index (VStr name)) as [id|] eqn:Hi.
  { rewrite (create_rule_exists cfg index name date_str s id) by done. by constructor. }
  destruct (parse_date date_str) as [[[y m] d]|e'] eqn:Hd.
  - destruct (net_post (API_URL cfg) (post_headers cfg) (build_rule cfg name y m d) s)
      as [r s'] eqn:Hnet.
    rewrite (create_rule_post cfg index name date_str s y m d r s') by done.
    by constructor.
  - pose proof (parse_date_raises _ _ Hd) as ->.
    rewrite (create_rule_bad_date cfg index name date_str s) by done. by constructor.
Qed.

(** ** Dictionaries that agree on the names

    [create_rule] looks at the dictionary through string keys only. *)

Definition same_names (d1 d2 : pydict) : Prop :=
  ∀ name, dict_lookup d1 (VStr name) = dict_lookup d2 (VStr name).

#[export] Instance same_names_equiv : Equivalence same_names.
Proof.
  split; [done| |]; unfold same_names.
  - intros d1 d2 H name. by rewrite H.
  - intros d1 d2 d3 H1 H2 name. by rewrite H1.
Qed.

#[export] Instance dict_contains_proper : Proper (same_names ==> eq ==> eq) dict_contains.
Proof. intros d1 d2 Hd name ? <-. unfold dict_contains. by rewrite Hd. Qed.

#[export] Instance create_rule_proper {S} `{!Network S} {interp : Interp} cfg :
  Proper (same_names ==> eq ==> eq ==> eq) (create_rule (S:=S) cfg).
Proof.
  intros d1 d2 Hd name ? <- date_str ? <-. unfold create_rule.
  by rewrite (dict_contains_proper d1 d2 Hd name name eq_refl), (Hd name).
Qed.

(** ** Properties of [create_rule] *)

Section Properties.
Context {S : Type} `{!Network S} {interp : Interp} {room : RoomForRule}.
Implicit Types (s : S) (cfg : config) (index : pydict) (name date_str : string).

Lemma dict_contains_false index name :
  dict_contains index name = false ↔ dict_lookup index (VStr name) = None.
Proof.
  unfold dict_contains. rewrite bool_decide_eq_false, <-eq_None_not_Some. done.
Qed.

Lemma parse_date_not_ret date_str :
  is_ret (parse_date date_str) = false → parse_date date_str = Raise ValueError.
Proof.
  destruct (parse_date date_str) as [|e] eqn:E; [done|].
  by apply parse_date_raises in E as ->.
Qed.

(** C1: a name that is a key of the dictionary of existing rules is not
    submitted: the call prints the identifier found, sends no request, does
    not sleep and leaves the service as it was. *)
Theorem create_rule_skips_existing cfg index name date_str s :
  dict_contains index name = true →
  ∃ id, dict_lookup index (VStr name) = Some id ∧
        create_rule cfg index name date_str s =
        Ran (Ret ()) [EvPrint (MsgRuleExists name id)] s.
Proof.
  intros [id Hid]%dict_contains_spec. exists id. split; [done|].
  by apply create_rule_exists.
Qed.

(** A date that cannot be parsed is reported and nothing else happens: no
    request, no sleep, no exception. *)
Theorem create_rule_invalid_date cfg index name date_str s :
  dict_contains index name = false →
  is_ret (parse_date date_str) = false →
  create_rule cfg index name date_str s =
  Ran (Ret ()) [EvPrint (ErrInvalidDate name date_str)] s.
Proof.
  intros Hn%dict_contains_false Hd%parse_date_not_ret.
  by apply create_rule_bad_date.
Qed.

Lemma elem_of_to_post cfg index name date_str body :
  body ∈ to_post cfg index name date_str →
  dict_contains index name = false ∧
  ∃ y m d, parse_date date_str = Ret (y, m, d) ∧ body = build_rule cfg name y m d.
Proof.
  unfold to_post. destruct (dict_lookup index (VStr name)) eqn:Hi;
    [by intros ?%elem_of_nil|].
  destruct (parse_date date_str) as [[[y m] d]|e]; [|by intros ?%elem_of_nil].
  intros ->%list_elem_of_singleton. split; [by apply dict_contains_false|].
  by exists y, m, d.
Qed.

(** What a call posts, whatever the service answers: the rule built from
    the name and the parsed date, once, when the name is no key of the
    dictionary and the date parses; nothing otherwise. *)
Lemma create_rule_posts cfg index name date_str s :
  posts (ran_events (create_rule cfg index name date_str s)) =
  to_post cfg index name date_str.
Proof.
  unfold to_post. destruct (create_rule_specP cfg index name date_str s)
    as [id Hi|Hi Hd|y m d r s' Hi Hd Hnet];
    rewrite Hi, ?Hd; [done..|].
  cbn [ran_events]. unfold after_post. rewrite posts_post, posts_app, posts_prints.
  by destruct (is_ret _).
Qed.

(** The requests and pauses of a call: the request and the pause after it,
    the pause missing when the call raises. *)
Lemma create_rule_traffic cfg index name date_str s :
  shows traffic (create_rule cfg index name date_str s)
        (concat (exchange cfg <$> to_post cfg index name date_str)).
Proof.
  unfold to_post. destruct (create_rule_specP cfg index name date_str s)
    as [id Hi|Hi Hd|y m d r s' Hi Hd Hnet];
    rewrite Hi, ?Hd; [done..|].
  unfold shows, after_post. cbn [ran_events ran_result].
  rewrite traffic_cons, traffic_app, traffic_prints.
  destruct (post_result r); cbn; [done|]. split; [|done]. by exists [EvSleep 1].
Qed.

(** What a call raises is an [Exception]: the handlers of the driver
    catch it. *)
Lemma create_rule_raises_exception cfg index name date_str s e :
  ran_result (create_rule cfg index name date_str s) = Raise e →
  isinstance e CException = true ∨ e = OutOfModel.
Proof.
  destruct (create_rule_specP cfg index name date_str s)
    as [id Hi|Hi Hd|y m d r s' Hi Hd Hnet]; [done..|].
  cbn [ran_result]. destruct r as [|resp]; cbn; [done|].
  destruct (good_status _); [|done].
  destruct (json resp) as [[]|e'] eqn:Hj; try (intros [= <-]; by left); try done.
  destruct (isinstance e' CRequestException) eqn:He; [done|]. intros [= <-].
  destruct (json_raises _ _ Hj) as [Hv|[->| ->]]; auto. left. by destruct e'.
Qed.

(** C10: a call that returns has slept once for each request it sent, after
    the request: the pause between two requests of the script. *)
Theorem create_rule_throttles cfg index name date_str s :
  ran_result (create_rule cfg index name date_str s) = Ret () →
  sleeps (ran_events (create_rule cfg index name date_str s)) =
  length (posts (ran_events (create_rule cfg index name date_str s))) ∧
  (posts (ran_events (create_rule cfg index name date_str s)) ≠ [] →
   last (ran_events (create_rule cfg index name date_str s)) = Some (EvSleep 1)).
Proof.
  destruct (create_rule_specP cfg index name date_str s)
    as [id Hi|Hi Hd|y m d r s' Hi Hd Hnet]; [done..|].
  cbn [ran_result ran_events]. unfold after_post. intros ->. cbn [is_ret].
  rewrite posts_post, sleeps_cons, !posts_app, !sleeps_app.
  rewrite posts_prints, sleeps_prints. split; [done|].
  intros _. by rewrite app_comm_cons, last_snoc.
Qed.

(** C36: when the service accepts the rule (status 200 or 201) and answers
    with a body that is JSON but not an object, the call raises
    [AttributeError] right after the request: nothing is printed and the
    sleep is skipped, although the rule exists now. *)
Theorem create_rule_skips_sleep cfg index name date_str s y m d resp v s' :
  dict_contains index name = false →
  parse_date date_str = Ret (y, m, d) →
  net_post (API_URL cfg) (post_headers cfg) (build_rule cfg name y m d) s
    = (HttpOk resp, s') →
  good_status (status_code resp) = true →
  json resp = Ret v → (∀ d, v ≠ VDict d) →
  create_rule cfg index name date_str s =
  Ran (Raise AttributeError)
      [EvPost (API_URL cfg) (post_headers cfg) (build_rule cfg name y m d)] s'.
Proof.
  intros Hn%dict_contains_false Hd Hnet Hst Hj Hv.
  rewrite (create_rule_post _ _ _ _ _ y m d (HttpOk resp) s') by done.
  unfold after_post. cbn. rewrite Hst, Hj.
  destruct v; try done. by destruct (Hv d0).
Qed.

(** C35: a call raises exactly when it sent the request and reading the
    answer raised: [AttributeError] on a body that is not an object, or
    what the decoder raised when that is no [RequestException].  The lookup
    [existing_rules[name]] of line 59 never raises [KeyError], and no
    [ValueError] of the parser leaves the call. *)
Theorem create_rule_raises_iff cfg index name date_str s e :
  ran_result (create_rule cfg index name date_str s) = Raise e ↔
  dict_contains index name = false ∧
  ∃ y m d, parse_date date_str = Ret (y, m, d) ∧
    post_result (net_post (API_URL cfg) (post_headers cfg)
                   (build_rule cfg name y m d) s).1 = Raise e.
Proof.
  destruct (create_rule_specP cfg index name date_str s)
    as [id Hi|Hi Hd|y m d r s' Hi Hd Hnet];
    rewrite ?Hd; cbn [ran_result].
  - split; [done|]. intros [Hc%dict_contains_false _]. congruence.
  - split; [done|]. by intros (_ & y & m & d & ? & _).
  - apply dict_contains_false in Hi. split.
    + intros Hr. split; [done|]. exists y, m, d. by rewrite Hnet.
    + intros (_ & y' & m' & d' & [= <- <- <-] & Hr). by rewrite Hnet in Hr.
Qed.

End Properties.

(** ** Examples *)

#[local] Existing Instance cpython311.

Definition example_cfg : config := Config "tok" "fridge" "home" "switch".

Definition example_index : pydict := [(VStr "Pesach (2025)", VStr "r1")].

Lemma create_rule_skips_existing_witness :
  ∃ id, dict_lookup example_index (VStr "Pesach (2025)") = Some id ∧
        create_rule example_cfg example_index
          "Pesach (2025)" "2025-04-12" [HttpFail] =
        Ran (Ret ()) [EvPrint (MsgRuleExists "Pesach (2025)" id)] [HttpFail].
Proof. by apply create_rule_skips_existing. Defined.

Lemma create_rule_invalid_date_witness :
  create_rule example_cfg example_index
    "Sukkos (2025)" "2025/10/06" [HttpFail] =
  Ran (Ret ()) [EvPrint (ErrInvalidDate "Sukkos (2025)" "2025/10/06")] [HttpFail].
Proof. by apply create_rule_invalid_date. Defined.

Definition created : http_result :=
  HttpOk (json_response 200 (VDict [("id", VStr "r9")])).

Lemma create_rule_throttles_witness :
  sleeps (ran_events (create_rule example_cfg example_index
                        "Sukkos (2025)" "2025-10-06" [created])) =
  length (posts (ran_events (create_rule example_cfg example_index
                               "Sukkos (2025)" "2025-10-06" [created]))) ∧
  (posts (ran_events (create_rule example_cfg example_index
                        "Sukkos (2025)" "2025-10-06" [created])) ≠ [] →
   last (ran_events (create_rule example_cfg example_index
                       "Sukkos (2025)" "2025-10-06" [created])) = Some (EvSleep 1)).
Proof. by apply create_rule_throttles. Defined.

Lemma create_rule_skips_sleep_witness :
  create_rule example_cfg example_index
    "Sukkos (2025)" "2025-10-06" [HttpOk (Response 201 "[]")] =
  Ran (Raise AttributeError)
      [EvPost (API_URL example_cfg) (post_headers example_cfg)
         (build_rule example_cfg "Sukkos (2025)" 2025 10 6)] [].
Proof.
  by apply (create_rule_skips_sleep _ _ _ _ _ 2025 10 6
              (Response 201 "[]") (VList [])).
Defined.

Lemma create_rule_raises_iff_witness :
  ran_result (create_rule example_cfg example_index "Sukkos (2025)" "2025-10-06"
                [HttpOk (Response 201 "[]")]) = Raise AttributeError ↔
  dict_contains example_index "Sukkos (2025)" = false ∧
  ∃ y m d, parse_date "2025-10-06" = Ret (y, m, d) ∧
    post_result (net_post (API_URL example_cfg) (post_headers example_cfg)
                   (build_rule example_cfg "Sukkos (2025)" y m d)
                   [HttpOk (Response 201 "[]")]).1 = Raise AttributeError.
Proof. apply create_rule_raises_iff. Defined.

(** With room for nine arrays and objects the encoder cannot write the
    rule: the call raises [RecursionError] and sends nothing. *)
Example create_rule_little_room :
  create_rule (interp:={| int_max_str_digits := Some 4300; recursion_room := 9;
                          json_decode_error := true; invalid_json_error := true |})
    example_cfg example_index "Sukkos (2025)" "2025-10-06" [created] =
  Ran (Raise RecursionError) [] [created].
Proof. by apply (create_rule_no_room _ _ _ _ _ 2025 10 6); [cbn; unfold rule_depth; lia|..]. Qed.
