(* ===== verification/CsvDriver.v ===== *)
(** * The driver: lines 148-183 of the script

    The CSV file is what [csv.reader] yields: a list of rows, each a list
    of fields, possibly followed by an exception (a decoding error, or a
    field beyond the limit of the reader); [text_file] is the file of a
    text, read by the reader of [Csv].
    [DictReader] takes the first row as the field names, skips empty rows
    and pairs the fields of every other row with the names; a name without
    a field gets [None].  (A field without a name goes under the key
    [None], which the script never reads; it is left out.)

    [process_row] is the body of the loop, [main_loop] the [try] statement
    of lines 150-183 and [script] the whole program. *)

From stdpp Require Import gmap.
From S2P Require Import Prelude PyStr PyValue Csv CsvTable Effects Config.
From S2P Require Import ExistingRules RuleBuilder CreateRule.

(** ** The file *)

Inductive csv_file :=
| CsvOpenError (e : exn)
| CsvRows (rows : list (list string)) (failure : option exn).

(** The file that opens and holds the text: [csv.reader] reads it. *)
Definition text_file (text : string) : csv_file :=
  CsvRows (csv_reader text).1 (csv_reader text).2.

(** A row of [DictReader]: a dictionary from field name to field. *)
Abbreviation dict_row := (gmap string (option string)).

(** [dict(zip(fieldnames, row))], then [None] for the names past the row:
    lines as in [DictReader.__next__].  A later binding of a name replaces
    an earlier one. *)
Definition make_row (fieldnames row : list string) : dict_row :=
  let d := foldl (λ d kv, <[kv.1 := Some kv.2]> d) ∅ (zip fieldnames row) in
  foldl (λ d k, <[k := None]> d) d (drop (length row) fieldnames).

(** The rows [DictReader] yields: every row that is not empty. *)
Definition dict_rows (fieldnames : list string) (rows : list (list string))
    : list dict_row :=
  make_row fieldnames <$> filter (λ row, row ≠ []) rows.

(** [row[key]]. *)
Definition row_get (row : dict_row) (key : string) : result (option string) :=
  of_option (row !! key) (KeyError key).

(** [str(x)] for a field, in an f-string. *)
Definition py_str (x : option string) : string := default "None" x.

Definition expected_headers : list string :=
  ["Year"; "Yom Tov"; "Start of First Days"; "Start of Last Day (After Chol Hamoed)"].

(** [expected_headers.issubset(fieldnames)]; the field names are [None]
    when the file is empty, and [None] is not iterable. *)
Definition issubset (expected : list string) (fieldnames : option (list string))
    : result bool :=
  match fieldnames with
  | Some names => Ret (forallb (λ h, bool_decide (h ∈ names)) expected)
  | None => Raise TypeError
  end.

(** ** The names of the rules of a row: lines 168 and 175 *)

Definition first_days_name (yom_tov year last_day_date : option string) : string :=
  if opt_truthy last_day_date
  then py_str yom_tov +:+ " First Days (" +:+ py_str year +:+ ")"
  else py_str yom_tov +:+ " (" +:+ py_str year +:+ ")".

Definition last_day_name (yom_tov year : option string) : string :=
  py_str yom_tov +:+ " Last Day (" +:+ py_str year +:+ ")".

Section Driver.
Context {S : Type} `{!Network S} {interp : Interp} {room : RoomForRule}.

(** The body of the loop, lines 159-176. *)
Definition process_row (cfg : config) (existing_rules : pydict) (row : dict_row)
    : prog S () :=
  year ← lift (row_get row "Year");
  yom_tov ← lift (row_get row "Yom Tov");
  first_days_date ← lift (row_get row "Start of First Days");
  last_day_date ← lift (row_get row "Start of Last Day (After Chol Hamoed)");
  (if negb (opt_truthy first_days_date) then
     print (MsgSkipFirst (py_str yom_tov) (py_str year))
   else
     let name := first_days_name yom_tov year last_day_date in
     create_rule cfg existing_rules name (py_str first_days_date));;
  (if negb (opt_truthy last_day_date) then
     print (MsgSkipLast (py_str yom_tov) (py_str year))
   else
     let name := last_day_name yom_tov year in
     create_rule cfg existing_rules name (py_str last_day_date)).

(** What is raised when the reader is asked for a row it cannot give. *)
Definition reader_end (failure : option exn) : prog S () :=
  match failure with
  | Some e => raise e
  | None => mret ()
  end.

(** [reader.fieldnames]: the first row, [None] for an empty file. *)
Definition read_fieldnames (rows : list (list string)) (failure : option exn)
    : prog S (option (list string)) :=
  match rows with
  | names :: _ => mret (Some names)
  | [] => reader_end failure;; mret None
  end.

(** Lines 151-176: the body of the [try] statement. *)
Definition read_csv (cfg : config) (existing_rules : pydict) (file : csv_file)
    : prog S () :=
  match file with
  | CsvOpenError e => raise e
  | CsvRows rows failure =>
      fieldnames ← read_fieldnames rows failure;
      ok ← lift (issubset expected_headers fieldnames);
      if negb ok then
        print ErrCsvHeaders;; sys_exit 1
      else
        for_each (dict_rows (default [] fieldnames) (tail rows))
          (process_row cfg existing_rules);;
        reader_end failure
  end.

(** Lines 178-183: the handlers of the [try] statement. *)
Definition handlers : exn → option (prog S ()) :=
  (except CFileNotFoundError (λ _, print (ErrCsvNotFound CSV_FILE);; sys_exit 1)
   ||| except CException (λ e, print (ErrUnexpected e);; sys_exit 1))%prog.

(** Lines 150-183. *)
Definition main_loop (cfg : config) (existing_rules : pydict) (file : csv_file)
    : prog S () :=
  try_except (read_csv cfg existing_rules file) handlers.

(** The whole script. *)
Definition script (env : environ) (file : csv_file) : prog S () :=
  cfg ← load_config env;
  existing_rules ← get_existing_rules cfg;
  main_loop cfg existing_rules file.

End Driver.

(** ** The plan of a run

    What the loop does for a row is two steps: for each of the two dates,
    a line that says the date is missing, or a call of [create_rule].  The
    plan of a file is the steps of its rows, in order. *)

Inductive step :=
| Skip (m : message)
| Call (name date_str : string).

Definition row_field (row : dict_row) (key : string) : option string :=
  default None (row !! key).

Definition steps_of_row (row : dict_row) : list step :=
  let year := row_field row "Year" in
  let yom_tov := row_field row "Yom Tov" in
  let first_days_date := row_field row "Start of First Days" in
  let last_day_date := row_field row "Start of Last Day (After Chol Hamoed)" in
  [if opt_truthy first_days_date
   then Call (first_days_name yom_tov year last_day_date) (py_str first_days_date)
   else Skip (MsgSkipFirst (py_str yom_tov) (py_str year));
   if opt_truthy last_day_date
   then Call (last_day_name yom_tov year) (py_str last_day_date)
   else Skip (MsgSkipLast (py_str yom_tov) (py_str year))].

Definition plan (fieldnames : list string) (rows : list (list string)) : list step :=
  concat (steps_of_row <$> dict_rows fieldnames rows).

(** The request a step leads to, if any. *)
Definition post_of_step `{!Interp} (cfg : config) (index : pydict) (st : step)
    : list value :=
  match st with
  | Skip _ => []
  | Call name date_str => to_post cfg index name date_str
  end.

Definition planned_posts `{!Interp} (cfg : config) (index : pydict) (steps : list step)
    : list value :=
  concat (post_of_step cfg index <$> steps).

(** The plan of a file: nothing unless the file opens and its first row
    names the expected columns. *)
Definition file_plan (file : csv_file) : list step :=
  match file with
  | CsvRows (names :: rows) _ =>
      if bool_decide (Forall (λ h, h ∈ names) expected_headers)
      then plan names rows else []
  | _ => []
  end.

(** The header row names every expected column. *)
Definition headers_ok (fieldnames : list string) : Prop :=
  Forall (λ h, h ∈ fieldnames) expected_headers.

(** The row has a field, possibly [None], for every expected column. *)
Definition row_complete (row : dict_row) : Prop :=
  Forall (λ h, is_Some (row !! h)) expected_headers.

(** The plan of the rows of a file is the plans of its parts, one after
    the other. *)
Lemma plan_app (fieldnames : list string) (rows1 rows2 : list (list string)) :
  plan fieldnames (rows1 ++ rows2) = plan fieldnames rows1 ++ plan fieldnames rows2.
Proof. unfold plan, dict_rows. by rewrite filter_app, !fmap_app, concat_app. Qed.

Lemma planned_posts_app `{!Interp} cfg index steps1 steps2 :
  planned_posts cfg index (steps1 ++ steps2) =
  planned_posts cfg index steps1 ++ planned_posts cfg index steps2.
Proof. unfold planned_posts. by rewrite fmap_app, concat_app. Qed.

(** ** Rows *)

Lemma foldl_insert_is_Some {A B} (f : B → string) (g : B → A) (l : list B)
    (d : gmap string A) (k : string) :
  is_Some (d !! k) ∨ k ∈ f <$> l →
  is_Some (foldl (λ d x, <[f x := g x]> d) d l !! k).
Proof.
  revert d. induction l as [|x l IH]; intros d.
  - intros [?|?%elem_of_nil]; done.
  - intros H. cbn. apply IH. rewrite fmap_cons, elem_of_cons in H.
    destruct (decide (f x = k)) as [<-|Hne].
    + left. by rewrite lookup_insert_eq.
    + rewrite lookup_insert_ne by done. naive_solver.
Qed.

Lemma foldl_insert_notin {A B} (f : B → string) (g : B → A) (l : list B)
    (d : gmap string A) (k : string) :
  k ∉ f <$> l → foldl (λ d x, <[f x := g x]> d) d l !! k = d !! k.
Proof.
  revert d. induction l as [|x l IH]; intros d; [done|].
  rewrite fmap_cons, not_elem_of_cons. intros [Hne Hk]. cbn.
  by rewrite IH, lookup_insert_ne.
Qed.

(** With distinct keys every binding of the list is in the dictionary. *)
Lemma foldl_insert_lookup {A B} (f : B → string) (g : B → A) (l : list B)
    (d : gmap string A) (i : nat) (x : B) :
  NoDup (f <$> l) → l !! i = Some x →
  foldl (λ d x, <[f x := g x]> d) d l !! f x = Some (g x).
Proof.
  revert d i. induction l as [|y l IH]; intros d i; [done|].
  rewrite fmap_cons, NoDup_cons. intros [Hy Hnd]. destruct i as [|i]; cbn.
  - intros [= ->]. by rewrite foldl_insert_notin, lookup_insert_eq.
  - intros Hx. by eapply IH.
Qed.

Lemma make_row_is_Some (fieldnames row : list string) (k : string) :
  k ∈ fieldnames → is_Some (make_row fieldnames row !! k).
Proof.
  intros Hk. unfold make_row.
  rewrite <-(take_drop (length row) fieldnames) in Hk.
  apply elem_of_app in Hk as [Hk|Hk].
  - apply (foldl_insert_is_Some id (λ _, None)). left.
    apply (foldl_insert_is_Some fst (λ kv, Some kv.2)). right.
    by rewrite fst_zip_take.
  - apply (foldl_insert_is_Some id (λ _, None)). right. by rewrite list_fmap_id.
Qed.

(** Under distinct field names the row of [DictReader] has, for each
    name, the field at the position of the name, and [None] when the row
    is too short to have one. *)
Theorem make_row_lookup (fieldnames row : list string) (i : nat) (key : string) :
  NoDup fieldnames → fieldnames !! i = Some key →
  make_row fieldnames row !! key = Some (row !! i).
Proof.
  intros Hnd Hi. unfold make_row.
  pose proof (take_drop (length row) fieldnames) as Hsplit.
  rewrite <-Hsplit in Hnd. apply NoDup_app in Hnd as (Htake & Hdisj & Hdrop).
  destruct (decide (i < length row)) as [Hlt|Hge].
  - destruct (lookup_lt_is_Some_2 row i Hlt) as [field Hfield].
    rewrite (foldl_insert_notin id (λ _, None)).
    + rewrite Hfield.
      apply (foldl_insert_lookup fst (λ kv, Some kv.2) _ _ i (key, field)).
      * by rewrite fst_zip_take.
      * apply lookup_zip_with_Some. by exists key, field.
    + rewrite list_fmap_id. apply Hdisj, list_elem_of_lookup. exists i.
      by rewrite lookup_take_lt.
  - rewrite (lookup_ge_None_2 row i) by lia.
    apply (foldl_insert_lookup id (λ _, None) _ _ (i - length row) key).
    + by rewrite list_fmap_id.
    + rewrite lookup_drop. rewrite <-Hi. f_equal. lia.
Qed.

(** A row of [DictReader] has the field names as its keys, all of them
    and no other, whatever the number of fields of the row. *)
Theorem make_row_keys (fieldnames row : list string) (key : string) :
  is_Some (make_row fieldnames row !! key) ↔ key ∈ fieldnames.
Proof.
  split; [|apply make_row_is_Some].
  intros Hsome. destruct (decide (key ∈ fieldnames)) as [|Hno]; [done|].
  rewrite <-(take_drop (length row) fieldnames), not_elem_of_app in Hno.
  destruct Hno as [Htake Hdrop]. unfold make_row in Hsome.
  rewrite (foldl_insert_notin id (λ _, None)) in Hsome by (by rewrite list_fmap_id).
  rewrite (foldl_insert_notin fst (λ kv, Some kv.2)) in Hsome by (by rewrite fst_zip_take).
  by apply is_Some_None in Hsome.
Qed.

Lemma make_row_complete (fieldnames row : list string) :
  headers_ok fieldnames → row_complete (make_row fieldnames row).
Proof.
  unfold headers_ok, row_complete. intros H. eapply Forall_impl; [done|].
  intros h. apply make_row_is_Some.
Qed.

Lemma issubset_ok (fieldnames : list string) :
  issubset expected_headers (Some fieldnames) = Ret true ↔ headers_ok fieldnames.
Proof.
  unfold issubset, headers_ok.
  rewrite <-(forallb_bool_decide (λ h, h ∈ fieldnames) expected_headers).
  split; [intros H; by injection H | by intros ->].
Qed.

Lemma issubset_not_ok (fieldnames : list string) :
  ¬ headers_ok fieldnames → issubset expected_headers (Some fieldnames) = Ret false.
Proof.
  intros Hno. destruct (issubset expected_headers (Some fieldnames)) as [[]|e] eqn:E;
    [by apply issubset_ok in E | done | done].
Qed.

Lemma row_get_complete (row : dict_row) (key : string) :
  row_complete row → key ∈ expected_headers →
  row_get row key = Ret (row_field row key).
Proof.
  unfold row_complete, row_get, row_field. rewrite Forall_forall.
  intros H [v Hv]%H. by rewrite Hv.
Qed.

(** ** Runs of the loop *)

Section Runs.
Context {S : Type} `{!Network S} {interp : Interp} {room : RoomForRule}.
Implicit Types (s : S) (cfg : config) (index : pydict) (row : dict_row).

Definition run_step (cfg : config) (index : pydict) (st : step) : prog S () :=
  match st with
  | Skip m => print m
  | Call name date_str => create_rule cfg index name date_str
  end.

Lemma for_each_two {A} (x y : A) (body : A → prog S ()) s :
  for_each [x; y] body s = (body x;; body y) s.
Proof.
  rewrite !for_each_cons, run_bind.
  destruct (body x s) as [[[]|e] evs s']; [|done].
  rewrite !ran_then_Ret, for_each_cons. f_equal.
  destruct (body y s') as [[[]|e] evs' s'']; [|done].
  by rewrite ran_then_Ret, for_each_nil, after_Ran, app_nil_r.
Qed.

(** The body of the loop does the steps of the row. *)
Lemma process_row_steps cfg index row s :
  row_complete row →
  process_row cfg index row s = for_each (steps_of_row row) (run_step cfg index) s.
Proof.
  intros Hrow. unfold process_row, steps_of_row.
  rewrite !(row_get_complete row) by (done || set_solver).
  repeat (rewrite run_lift_bind; cbn beta). rewrite for_each_two.
  by do 2 destruct (opt_truthy _).
Qed.

(** The loop over the rows does the plan. *)
Lemma rows_loop_plan cfg index fieldnames rows s :
  headers_ok fieldnames →
  for_each (dict_rows fieldnames rows) (process_row cfg index) s =
  for_each (plan fieldnames rows) (run_step cfg index) s.
Proof.
  intros Hok. unfold plan. rewrite <-for_each_concat. apply for_each_ext.
  intros row s' Hrow. apply process_row_steps.
  unfold dict_rows in Hrow. apply list_elem_of_fmap in Hrow as (fields & -> & _).
  by apply make_row_complete.
Qed.

(** What a step posts is what the plan says, whatever the service answers. *)
Lemma run_step_posts cfg index st s :
  posts (ran_events (run_step cfg index st s)) = post_of_step cfg index st.
Proof. destruct st; [done|]. apply create_rule_posts. Qed.

(** The requests and pauses of a step. *)
Lemma run_step_traffic cfg index st s :
  shows traffic (run_step cfg index st s)
        (concat (exchange cfg <$> post_of_step cfg index st)).
Proof. destruct st; [done|]. apply create_rule_traffic. Qed.

Lemma run_step_shows_posts cfg index st s :
  shows posts (run_step cfg index st s) (post_of_step cfg index st).
Proof. unfold shows. by rewrite run_step_posts. Qed.

End Runs.

(** ** The [try] statement *)

(** What the handlers make of an exception: the line printed and what is
    raised in its place. *)
Definition crash (e : exn) : list message * exn :=
  if isinstance e CFileNotFoundError then ([ErrCsvNotFound CSV_FILE], SystemExit 1)
  else if isinstance e CException then ([ErrUnexpected e], SystemExit 1)
  else ([], e).

Definition finish {S} (r : ran S ()) : ran S () :=
  match r with
  | Ran (Ret a) evs s => Ran (Ret a) evs s
  | Ran (Raise e) evs s => Ran (Raise (crash e).2) (evs ++ (EvPrint <$> (crash e).1)) s
  end.

(** What the reader may raise: the error of [open], or of a read. *)
Definition csv_failure (file : csv_file) : option exn :=
  match file with
  | CsvOpenError e => Some e
  | CsvRows _ failure => failure
  end.

Section Main.
Context {S : Type} `{!Network S} {interp : Interp} {room : RoomForRule}.
Implicit Types (s : S) (cfg : config) (index : pydict) (file : csv_file).

Lemma main_loop_finish cfg index file s :
  main_loop cfg index file s = finish (read_csv cfg index file s).
Proof.
  unfold main_loop, try_except, finish, handlers, or_except, except, crash.
  destruct (read_csv cfg index file s) as [[[]|e] evs s']; [done|].
  destruct (isinstance e CFileNotFoundError), (isinstance e CException);
    run_prog; by rewrite ?app_nil_r.
Qed.

Lemma state_finish (r : ran S ()) : ran_state (finish r) = ran_state r.
Proof. by destruct r as [[[]|e] evs s]. Qed.

Lemma read_csv_bad_headers cfg index names rows failure s :
  ¬ headers_ok names →
  read_csv cfg index (CsvRows (names :: rows) failure) s =
  Ran (Raise (SystemExit 1)) [EvPrint ErrCsvHeaders] s.
Proof.
  intros Hno. unfold read_csv, read_fieldnames.
  rewrite prog_bind_ret_l, (issubset_not_ok names), run_lift_bind; done.
Qed.

Lemma read_csv_plan cfg index names rows failure s :
  headers_ok names →
  read_csv cfg index (CsvRows (names :: rows) failure) s =
  ran_then (for_each (plan names rows) (run_step cfg index) s) (λ _, reader_end failure).
Proof.
  intros Hok. unfold read_csv, read_fieldnames.
  rewrite prog_bind_ret_l. apply issubset_ok in Hok as Hsub. rewrite Hsub.
  rewrite run_lift_bind. cbn [negb default tail]. rewrite run_bind.
  by rewrite rows_loop_plan.
Qed.

End Main.

(** ** The script changes the service by its requests only *)

Section Traced.
Context {S : Type} `{!Network S} {interp : Interp} {room : RoomForRule}.

Lemma load_config_traced env : traced (load_config (S:=S) env).
Proof. unfold load_config. eauto 40 with traced. Qed.

Lemma process_row_traced cfg index row : traced (process_row cfg index row).
Proof. unfold process_row. eauto 40 using create_rule_traced with traced. Qed.

Lemma reader_end_traced failure : traced (reader_end (S:=S) failure).
Proof. unfold reader_end. eauto with traced. Qed.

Lemma read_csv_traced cfg index file : traced (read_csv cfg index file).
Proof.
  unfold read_csv, read_fieldnames.
  eauto 40 using process_row_traced, reader_end_traced with traced.
Qed.

Lemma main_loop_traced cfg index file : traced (main_loop cfg index file).
Proof. unfold main_loop, handlers. eauto 40 using read_csv_traced with traced. Qed.

Lemma script_traced env file : traced (script env file).
Proof.
  unfold script.
  eauto 40 using load_config_traced, get_existing_rules_traced, main_loop_traced with traced.
Qed.

End Traced.

(** ** Services that answer alike get the same run of the script *)

Section Related.
Context {S1 S2 : Type} `{!Network S1, !Network S2} {interp : Interp} {room : RoomForRule}.
Context (R : S1 → S2 → Prop) (HR : simulation R).

Lemma process_row_related cfg index row :
  related R (process_row cfg index row) (process_row cfg index row).
Proof. unfold process_row. eauto 40 using create_rule_related with related. Qed.

Lemma read_csv_related cfg index file :
  related R (read_csv cfg index file) (read_csv cfg index file).
Proof.
  unfold read_csv, read_fieldnames, reader_end.
  eauto 40 using process_row_related with related.
Qed.

Lemma main_loop_related cfg index file :
  related R (main_loop cfg index file) (main_loop cfg index file).
Proof. unfold main_loop, handlers. eauto 40 using read_csv_related with related. Qed.

Lemma script_related env file : related R (script env file) (script env file).
Proof.
  unfold script, load_config.
  eauto 40 using get_existing_rules_related, main_loop_related with related.
Qed.

End Related.


(** ** Properties of the driver *)

Section Properties.
Context {S : Type} `{!Network S} {interp : Interp} {room : RoomForRule}.
Implicit Types (s : S) (cfg : config) (index : pydict) (file : csv_file).

Lemma read_csv_empty cfg index failure s :
  read_csv cfg index (CsvRows [] failure) s = Ran (Raise (default TypeError failure)) [] s.
Proof. by destruct failure. Qed.

Section Shows.
Context {X : Type} (p : list event → list X) (spec : step → list X).
Hypothesis p_app : ∀ evs1 evs2, p (evs1 ++ evs2) = p evs1 ++ p evs2.
Hypothesis p_prints : ∀ ms, p (EvPrint <$> ms) = [].

Lemma finish_shows (r : ran S ()) expected :
  shows p r expected → shows p (finish r) expected.
Proof.
  destruct r as [[[]|e] evs s]; [done|]. intros [Hpre _]. split; [|done].
  cbn. by rewrite p_app, p_prints, app_nil_r.
Qed.

Lemma raise_shows e (msgs : list message) s :
  shows p (Ran (Raise e) (EvPrint <$> msgs) s) [].
Proof. split; [|done]. cbn. by rewrite p_prints. Qed.

(** Whatever the file, the loop shows what the plan of the file says. *)
Lemma main_loop_shows cfg index file s :
  (∀ st s, shows p (run_step cfg index st s) (spec st)) →
  shows p (main_loop cfg index file s) (concat (spec <$> file_plan file)).
Proof.
  intros Hstep. rewrite main_loop_finish. apply finish_shows.
  destruct file as [e|[|names rows] failure]; cbn [file_plan].
  - apply (raise_shows e []).
  - rewrite read_csv_empty. apply (raise_shows _ []).
  - case_bool_decide as Hok.
    + rewrite read_csv_plan by done. rewrite <-(app_nil_r (concat _)).
      apply shows_then;
        [done | apply for_each_shows; [done | apply (p_prints []) | done] |].
      intros s'. destruct failure; [apply (raise_shows _ [])|].
      pose proof (p_prints []) as Hnil. cbn in Hnil. split; cbn; by rewrite Hnil.
    + rewrite read_csv_bad_headers by done. apply (raise_shows _ [_]).
Qed.

End Shows.

(** The bodies posted, and the requests and pauses, of a run of the loop. *)
Lemma main_loop_shows_posts cfg index file s :
  shows posts (main_loop cfg index file s) (planned_posts cfg index (file_plan file)).
Proof.
  apply main_loop_shows; [apply posts_app | apply posts_prints |].
  apply run_step_shows_posts.
Qed.

Lemma main_loop_shows_traffic cfg index file s :
  shows traffic (main_loop cfg index file s)
        (concat (exchange cfg <$> planned_posts cfg index (file_plan file))).
Proof.
  unfold planned_posts. rewrite concat_fmap_concat, <-list_fmap_compose.
  apply main_loop_shows; [apply traffic_app | apply traffic_prints |].
  apply run_step_traffic.
Qed.

(** C2: the bodies the loop posts are the rules of the plan of the file, in
    the order of the rows, first days before last day: all of them when the
    loop runs to its end, a prefix of them when it is left by an
    exception.  The plan has no rule for a name of the dictionary of
    existing rules or for a date that does not parse. *)
Theorem main_loop_posts cfg index file s :
  posts (ran_events (main_loop cfg index file s))
    `prefix_of` planned_posts cfg index (file_plan file) ∧
  (ran_result (main_loop cfg index file s) = Ret () →
   posts (ran_events (main_loop cfg index file s)) =
   planned_posts cfg index (file_plan file)).
Proof.
  destruct (main_loop_shows_posts cfg index file s) as [Hpre Heq].
  split; [done|]. intros Hr. apply Heq. by rewrite Hr.
Qed.

(** The requests of the loop are paced: each POST is followed by a pause
    of one second before the next request, and the only POST that may lack
    its pause is the last one of a run that an exception ended. *)
Theorem main_loop_paced cfg index file s :
  traffic (ran_events (main_loop cfg index file s))
    `prefix_of` concat (exchange cfg <$> planned_posts cfg index (file_plan file)) ∧
  (ran_result (main_loop cfg index file s) = Ret () →
   traffic (ran_events (main_loop cfg index file s)) =
   concat (exchange cfg <$> planned_posts cfg index (file_plan file))).
Proof.
  destruct (main_loop_shows_traffic cfg index file s) as [Hpre Heq].
  split; [done|]. intros Hr. apply Heq. by rewrite Hr.
Qed.

(** C21: a rule whose name is a key of the dictionary of existing rules is
    never submitted, whatever the file holds and the service answers: every
    body posted is the rule of a name that is not in the dictionary. *)
Theorem main_loop_never_resubmits cfg index file s body :
  body ∈ posts (ran_events (main_loop cfg index file s)) →
  ∃ name y m d, body = build_rule cfg name y m d ∧ dict_contains index name = false.
Proof.
  destruct (main_loop_shows_posts cfg index file s) as [Hpre _].
  intros Hin. apply (elem_of_prefix _ _ _ Hin) in Hpre.
  apply elem_of_concat in Hpre as (l & Hl & Hbody).
  apply list_elem_of_fmap in Hl as ([m|name date_str] & -> & _);
    [by apply elem_of_nil in Hbody|].
  apply elem_of_to_post in Hbody as (Hno & y & m & d & _ & ->). by exists name, y, m, d.
Qed.

(** C39: the dictionary of existing rules is not updated while the loop
    runs: what the loop posts for the rows of a file does not depend on
    the rows before them, so a file that lists its rows twice has every
    rule submitted twice, although the first request created the rule. *)
Theorem main_loop_duplicate_rows cfg index names rows s :
  headers_ok names →
  ran_result (main_loop cfg index (CsvRows (names :: rows ++ rows) None) s) = Ret () →
  posts (ran_events (main_loop cfg index (CsvRows (names :: rows ++ rows) None) s)) =
  planned_posts cfg index (plan names rows) ++ planned_posts cfg index (plan names rows).
Proof.
  intros Hok Hr.
  destruct (main_loop_shows_posts cfg index (CsvRows (names :: rows ++ rows) None) s)
    as [_ ->]; [|by rewrite Hr].
  cbn [file_plan]. rewrite bool_decide_eq_true_2 by done.
  by rewrite plan_app, planned_posts_app.
Qed.

(** *** How the loop ends *)

Lemma crash_exception e : isinstance e CException = true → (crash e).2 = SystemExit 1.
Proof. intros He. unfold crash. rewrite He. by destruct (isinstance e CFileNotFoundError). Qed.

Lemma crash_out_of_model : (crash OutOfModel).2 = OutOfModel.
Proof. done. Qed.

Lemma run_step_raises cfg index st s e :
  ran_result (run_step cfg index st s) = Raise e →
  isinstance e CException = true ∨ e = OutOfModel.
Proof. destruct st; [done|]. apply create_rule_raises_exception. Qed.

(** What leaves the body of the [try] statement is [SystemExit 1], an
    exception of the reader, or an [Exception] that a call raised. *)
Lemma read_csv_raises cfg index file s e :
  ran_result (read_csv cfg index file s) = Raise e →
  e = SystemExit 1 ∨ csv_failure file = Some e ∨ isinstance e CException = true ∨
  e = OutOfModel.
Proof.
  destruct file as [e'|[|names rows] failure].
  - intros [= ->]. by right; left.
  - rewrite read_csv_empty. destruct failure; intros [= <-]; [by right; left|by right; right; left].
  - destruct (decide (headers_ok names)) as [Hok|Hno];
      [|rewrite read_csv_bad_headers by done; intros [= <-]; by left].
    rewrite read_csv_plan by done.
    intros [(st & s' & _ & H)%for_each_raises|(a & evs & s' & _ & H)]%ran_then_raises.
    + right; right. by eapply run_step_raises.
    + right; left. destruct failure; [by injection H as ->|done].
Qed.

Lemma main_loop_exit_cases cfg index file s :
  (∀ e, csv_failure file = Some e → isinstance e CException = true) →
  ran_result (main_loop cfg index file s) = Ret () ∨
  ran_result (main_loop cfg index file s) = Raise (SystemExit 1) ∨
  ran_result (main_loop cfg index file s) = Raise OutOfModel.
Proof.
  intros Hfile. rewrite main_loop_finish.
  destruct (read_csv cfg index file s) as [[[]|e] evs s'] eqn:E; [by left|right].
  cbn.
  destruct (read_csv_raises cfg index file s e) as [->|[He|[He| ->]]];
    [by rewrite E|by left|left; f_equal; apply crash_exception; auto
    |left; f_equal; by apply crash_exception|by right].
Qed.

(** The loop ends in one of two ways, provided what the reader raises
    is an [Exception]: it runs to its end, or it exits with status 1
    after a line that names the error.  No exception of a call of
    [create_rule] or of the reader leaves the [try] statement as it is.
    The third way is that of the runs that leave the model. *)
Theorem main_loop_exit cfg index file s :
  (∀ e, csv_failure file = Some e → isinstance e CException = true) →
  main_loop cfg index file s = read_csv cfg index file s ∧
    ran_result (main_loop cfg index file s) = Ret () ∨
  ran_result (main_loop cfg index file s) = Raise (SystemExit 1) ∨
  ran_result (main_loop cfg index file s) = Raise OutOfModel.
Proof.
  intros Hfile. destruct (main_loop_exit_cases cfg index file s Hfile) as [H|H];
    [left|by right].
  split; [|done]. rewrite main_loop_finish in *.
  by destruct (read_csv cfg index file s) as [[[]|e] evs s'].
Qed.

(** C13: a first row that lacks one of the four column names makes the loop
    print the error and exit with status 1; no row is read and nothing is
    sent. *)
Theorem main_loop_bad_headers cfg index names rows failure s :
  ¬ headers_ok names →
  main_loop cfg index (CsvRows (names :: rows) failure) s =
  Ran (Raise (SystemExit 1)) [EvPrint ErrCsvHeaders] s.
Proof. intros Hno. by rewrite main_loop_finish, read_csv_bad_headers. Qed.

(** When the file does not exist the loop prints that the file was not
    found and exits with status 1. *)
Theorem main_loop_file_not_found cfg index s :
  main_loop cfg index (CsvOpenError FileNotFoundError) s =
  Ran (Raise (SystemExit 1)) [EvPrint (ErrCsvNotFound "yom_tov_dates.csv")] s.
Proof. by rewrite main_loop_finish. Qed.


(** *** From the text of the file *)

Lemma text_file_table e rows :
  Forall row_ok rows → text_file (table_text e rows) = CsvRows (table_values rows) None.
Proof. intros Hrows. unfold text_file. by rewrite csv_reader_table_values. Qed.

Lemma ran_then_reader_end (r : ran S ()) : ran_then r (λ _, reader_end None) = r.
Proof.
  destruct r as [[[]|e] evs s]; [|done].
  rewrite ran_then_Ret. cbn [reader_end]. rewrite run_ret, after_Ran. by rewrite app_nil_r.
Qed.

(** C15: the loop on the text of a table whose first row names the four
    columns runs the steps of the plan of the rows that follow, in order,
    whatever the line ends of the file and whichever cells are quoted;
    the reader raises nothing, and the handlers see what a step raises. *)
Theorem main_loop_from_text cfg index e header rows s :
  Forall row_ok (header :: rows) → headers_ok (row_values header) →
  main_loop cfg index (text_file (table_text e (header :: rows))) s =
  finish (for_each (plan (row_values header) (table_values rows)) (run_step cfg index) s).
Proof.
  intros Hrows Hok. rewrite text_file_table, main_loop_finish by done.
  cbn [table_values fmap list_fmap]. by rewrite read_csv_plan, ran_then_reader_end.
Qed.

(** A field beyond the limit of the reader: the loop runs the steps of the
    rows before it, then the handlers see [csv.Error]; the loop reports an
    unexpected error and exits with status 1, and the rows after the
    field are never read. *)
Theorem main_loop_field_too_long cfg index e header rows row c rest s :
  Forall row_ok (header :: rows) → headers_ok (row_values header) → overflows row c →
  main_loop cfg index
    (text_file (table_text e (header :: rows) +:+ row_text row +:+ String c rest)) s =
  finish (ran_then (for_each (plan (row_values header) (table_values rows)) (run_step cfg index) s)
            (λ _, raise CsvError)).
Proof.
  intros Hrows Hok Hrow. unfold text_file. rewrite csv_reader_too_long by done.
  cbn [fst snd table_values fmap list_fmap]. by rewrite main_loop_finish, read_csv_plan.
Qed.

(** *** The rules of a row *)

(** The body of the loop on a row with the four fields. *)
Lemma process_row_fields cfg index row (year yom_tov first last : option string) s :
  row !! "Year" = Some year → row !! "Yom Tov" = Some yom_tov →
  row !! "Start of First Days" = Some first →
  row !! "Start of Last Day (After Chol Hamoed)" = Some last →
  process_row cfg index row s =
  (run_step cfg index
     (if opt_truthy first
      then Call (first_days_name yom_tov year last) (py_str first)
      else Skip (MsgSkipFirst (py_str yom_tov) (py_str year)));;
   run_step cfg index
     (if opt_truthy last
      then Call (last_day_name yom_tov year) (py_str last)
      else Skip (MsgSkipLast (py_str yom_tov) (py_str year)))) s.
Proof.
  intros Hy Hn Hf Hl. rewrite process_row_steps.
  - unfold steps_of_row, row_field. rewrite Hy, Hn, Hf, Hl. apply for_each_two.
  - unfold row_complete, expected_headers.
    rewrite !Forall_cons, Hy, Hn, Hf, Hl. by split_and!.
Qed.

(** C11: a row with both dates leads to two calls of [create_rule], in this
    order: the first date under the name "<yom tov> First Days (<year>)",
    the second under "<yom tov> Last Day (<year>)". *)
Theorem process_row_both_dates cfg index row (year yom_tov first last : string) s :
  row !! "Year" = Some (Some year) → row !! "Yom Tov" = Some (Some yom_tov) →
  row !! "Start of First Days" = Some (Some first) →
  row !! "Start of Last Day (After Chol Hamoed)" = Some (Some last) →
  first ≠ "" → last ≠ "" →
  process_row cfg index row s =
  (create_rule cfg index (yom_tov +:+ " First Days (" +:+ year +:+ ")") first;;
   create_rule cfg index (yom_tov +:+ " Last Day (" +:+ year +:+ ")") last) s.
Proof.
  intros Hy Hn Hf Hl Hfirst%str_truthy_true Hlast%str_truthy_true.
  rewrite (process_row_fields _ _ _ _ _ _ _ _ Hy Hn Hf Hl).
  unfold first_days_name. cbn [opt_truthy]. by rewrite Hfirst, Hlast.
Qed.

(** A row with the first date only, the last one empty or missing, leads
    to one call of [create_rule], under the name "<yom tov> (<year>)"
    without a suffix, and to the line that says the last day is skipped. *)
Theorem process_row_first_only cfg index row (year yom_tov first : string)
    (last : option string) s :
  row !! "Year" = Some (Some year) → row !! "Yom Tov" = Some (Some yom_tov) →
  row !! "Start of First Days" = Some (Some first) →
  row !! "Start of Last Day (After Chol Hamoed)" = Some last →
  first ≠ "" → opt_truthy last = false →
  process_row cfg index row s =
  (create_rule cfg index (yom_tov +:+ " (" +:+ year +:+ ")") first;;
   print (MsgSkipLast yom_tov year)) s.
Proof.
  intros Hy Hn Hf Hl Hfirst%str_truthy_true Hlast.
  rewrite (process_row_fields _ _ _ _ _ _ _ _ Hy Hn Hf Hl).
  unfold first_days_name. cbn [opt_truthy]. by rewrite Hfirst, Hlast.
Qed.

(** A row that lacks the first date still gets its last day: the first
    days are skipped with a line of output and the rule of the last day
    is created under "<yom tov> Last Day (<year>)". *)
Theorem process_row_last_only cfg index row (year yom_tov last : string)
    (first : option string) s :
  row !! "Year" = Some (Some year) → row !! "Yom Tov" = Some (Some yom_tov) →
  row !! "Start of First Days" = Some first →
  row !! "Start of Last Day (After Chol Hamoed)" = Some (Some last) →
  opt_truthy first = false → last ≠ "" →
  process_row cfg index row s =
  (print (MsgSkipFirst yom_tov year);;
   create_rule cfg index (yom_tov +:+ " Last Day (" +:+ year +:+ ")") last) s.
Proof.
  intros Hy Hn Hf Hl Hfirst Hlast%str_truthy_true.
  rewrite (process_row_fields _ _ _ _ _ _ _ _ Hy Hn Hf Hl).
  cbn [opt_truthy]. by rewrite Hfirst, Hlast.
Qed.

(** Once the header row names the four columns, no subscription of a
    row raises [KeyError]: every row of the reader has a field, possibly
    [None], under each of the four names, however short the row is. *)
Theorem row_get_never_raises names rows row key :
  headers_ok names → row ∈ dict_rows names rows → key ∈ expected_headers →
  ∃ field, row_get row key = Ret field.
Proof.
  intros Hok (fields & -> & _)%list_elem_of_fmap Hkey.
  eexists. apply row_get_complete; [by apply make_row_complete|done].
Qed.

(** *** The whole script *)

Lemma script_run env cfg file s :
  env_complete env cfg →
  script env file s = ran_then (get_existing_rules cfg s) (λ index, main_loop cfg index file).
Proof.
  intros Hc. unfold script.
  by rewrite run_bind, (load_config_complete env cfg), ran_then_Ret, after_nil.
Qed.

(** When a variable of the environment is missing or empty the script
    prints the error and exits with status 1: it sends no request and does
    not open the file. *)
Theorem script_missing_config env file s :
  (∀ cfg, ¬ env_complete env cfg) →
  script env file s = Ran (Raise (SystemExit 1)) [EvPrint MsgConfigMissing] s.
Proof.
  intros Hno. unfold script. by rewrite run_bind, load_config_incomplete.
Qed.

(** C37: the header of the file is checked after the rules were fetched: a
    file whose first row lacks a column name makes the script exit with
    status 1 when the GET of the rules has been sent already.  It is the
    only request of such a run. *)
Theorem script_bad_headers env cfg names rows failure s :
  env_complete env cfg → ¬ headers_ok names →
  is_ret (ran_result (get_existing_rules cfg s)) = true →
  ran_result (script env (CsvRows (names :: rows) failure) s) = Raise (SystemExit 1) ∧
  requests (ran_events (script env (CsvRows (names :: rows) failure) s)) =
    [EvGet (API_URL cfg) (auth_headers cfg)].
Proof.
  intros Hc Hno Hret. rewrite (script_run env cfg) by done.
  destruct (get_existing_rules_events cfg s) as [msgs Hev].
  destruct (get_existing_rules cfg s) as [[index|e] evs s']; [|done].
  cbn in Hev. subst evs.
  rewrite ran_then_Ret, main_loop_finish, read_csv_bad_headers by done.
  cbn [finish crash isinstance snd fst]. rewrite after_Ran. cbn [ran_result ran_events].
  split; [done|]. by rewrite requests_app, requests_cons, requests_prints.
Qed.

(** C22: the requests and pauses of a run whose settings are complete and
    whose fetch returns the dictionary [index]: the GET of the rules, then
    for each rule of the plan a POST and a pause of one second, up to the
    point where the run ends. *)
Theorem script_traffic env cfg index file s :
  env_complete env cfg → ran_result (get_existing_rules cfg s) = Ret index →
  traffic (ran_events (script env file s)) `prefix_of`
    EvGet (API_URL cfg) (auth_headers cfg) ::
    concat (exchange cfg <$> planned_posts cfg index (file_plan file)) ∧
  (ran_result (script env file s) = Ret () →
   traffic (ran_events (script env file s)) =
   EvGet (API_URL cfg) (auth_headers cfg) ::
   concat (exchange cfg <$> planned_posts cfg index (file_plan file))).
Proof.
  intros Hc Hret. rewrite (script_run env cfg) by done.
  destruct (get_existing_rules_events cfg s) as [msgs Hev].
  destruct (get_existing_rules cfg s) as [res evs s']. cbn in Hev, Hret. subst.
  rewrite ran_then_Ret.
  destruct (main_loop_shows_traffic cfg index file s') as [Hpre Heq].
  destruct (main_loop cfg index file s') as [r evs' s'']. rewrite after_Ran.
  cbn [ran_events ran_result] in *.
  rewrite traffic_app, traffic_cons, traffic_prints. cbn [is_request orb app].
  split; [by apply prefix_cons|]. intros ->. by rewrite Heq.
Qed.

(** An answer of the list endpoint that makes the fetch raise ends the
    script there: the exception reaches the top level, the file is not read
    and the exit status is 1. *)
Theorem script_fetch_raises env cfg file s e :
  env_complete env cfg → ran_result (get_existing_rules cfg s) = Raise e →
  ran_result (script env file s) = Raise e ∧
  ran_events (script env file s) = ran_events (get_existing_rules cfg s) ∧
  exit_status (ran_result (script env file s)) = 1%Z.
Proof.
  intros Hc Hr. rewrite (script_run env cfg) by done.
  apply get_existing_rules_raises in Hr as Hshape.
  destruct (get_existing_rules cfg s) as [res evs s']. cbn in Hr. subst res.
  rewrite ran_then_Raise. by destruct Hshape as [[-> | [key ->]]|[-> | ->]].
Qed.

(** The exit status of the script is 0 or 1, provided what the reader
    raises is an [Exception]. *)
Theorem script_exit_status env file s :
  (∀ e, csv_failure file = Some e → isinstance e CException = true) →
  exit_status (ran_result (script env file s)) = 0%Z ∨
  exit_status (ran_result (script env file s)) = 1%Z.
Proof.
  intros Hfile.
  destruct (load_config_cases env s) as [(cfg & Hc & _)|[Hno _]];
    [|rewrite script_missing_config by done; by right].
  rewrite (script_run env cfg) by done.
  destruct (get_existing_rules cfg s) as [[index|e] evs s'] eqn:E.
  - rewrite ran_then_Ret, result_after.
    by destruct (main_loop_exit_cases cfg index file s' Hfile) as [-> | [-> | ->]];
      [left|right..].
  - rewrite ran_then_Raise. right.
    assert (shape_error e ∨ e = RecursionError ∨ e = OutOfModel)
      as [[-> | [key ->]]|[-> | ->]]; [|done..].
    apply (get_existing_rules_raises cfg s). by rewrite E.
Qed.

End Properties.

(** ** Examples *)

Definition example_env : environ :=
  {[ "SMARTTHINGS_TOKEN" := "tok"; "DEVICE_ID" := "fridge";
     "LOCATION_ID" := "home"; "VIRTUAL_SWITCH_ID" := "switch" ]}.

Definition pesach : list string := ["2025"; "Pesach"; "2025-04-12"; "2025-04-18"].

Definition shavuos : list string := ["2025"; "Shavuos"; "2025-06-01"].

Definition example_file : csv_file := CsvRows [expected_headers; pesach; []; shavuos] None.

(** The same file as a table: a quoted name, an empty line. *)
Definition example_header : list cell := Plain <$> expected_headers.

Definition example_body : list (list cell) :=
  [[Plain "2025"; Quoted "Pesach"; Plain "2025-04-12"; Plain "2025-04-18"];
   [];
   Plain <$> shavuos].

Definition example_known : pydict := [(VStr "Pesach First Days (2025)", VStr "r1")].

Definition listed : http_result :=
  HttpOk (json_response 200
            (VDict [("items",
               VList [VDict [("name", VStr "Pesach First Days (2025)");
                             ("id", VStr "r1")]])])).

Section Examples.
#[local] Existing Instance cpython311.

Lemma make_row_lookup_witness :
  make_row expected_headers shavuos !! "Start of Last Day (After Chol Hamoed)" = Some None.
Proof. apply (make_row_lookup expected_headers shavuos 3); [compute_done|done]. Defined.

Lemma main_loop_posts_witness :
  posts (ran_events (main_loop example_cfg example_known example_file [created; created]))
    `prefix_of` planned_posts example_cfg example_known (file_plan example_file) ∧
  (ran_result (main_loop example_cfg example_known example_file [created; created]) = Ret () →
   posts (ran_events (main_loop example_cfg example_known example_file [created; created])) =
   planned_posts example_cfg example_known (file_plan example_file)).
Proof. apply main_loop_posts. Defined.

Lemma main_loop_paced_witness :
  traffic (ran_events (main_loop example_cfg example_known example_file [created; created]))
    `prefix_of` concat (exchange example_cfg <$>
                          planned_posts example_cfg example_known (file_plan example_file)) ∧
  (ran_result (main_loop example_cfg example_known example_file [created; created]) = Ret () →
   traffic (ran_events (main_loop example_cfg example_known example_file [created; created])) =
   concat (exchange example_cfg <$>
             planned_posts example_cfg example_known (file_plan example_file))).
Proof. apply main_loop_paced. Defined.

Lemma main_loop_never_resubmits_witness :
  ∃ name y m d,
    build_rule example_cfg "Shavuos (2025)" 2025 6 1 = build_rule example_cfg name y m d ∧
    dict_contains example_known name = false.
Proof.
  apply (main_loop_never_resubmits example_cfg example_known
           example_file [created; created]).
  vm_compute. apply list_elem_of_further, list_elem_of_here.
Defined.

Lemma main_loop_exit_witness :
  main_loop example_cfg example_known example_file [created; created] =
    read_csv example_cfg example_known example_file [created; created] ∧
    ran_result (main_loop example_cfg example_known example_file
                  [created; created]) = Ret () ∨
  ran_result (main_loop example_cfg example_known example_file
                [created; created]) = Raise (SystemExit 1) ∨
  ran_result (main_loop example_cfg example_known example_file
                [created; created]) = Raise OutOfModel.
Proof. apply main_loop_exit. intros e. by cbn. Defined.

Lemma main_loop_from_text_witness :
  main_loop example_cfg example_known
    (text_file (table_text Dos (example_header :: example_body))) [created; created] =
  finish (for_each (plan (row_values example_header) (table_values example_body))
            (run_step example_cfg example_known) [created; created]).
Proof. apply main_loop_from_text; compute_done. Defined.

(** The names of the header are compared as they stand in the file: with
    a blank after each comma the file has none of the columns but the
    first. *)
Example main_loop_header_exact :
  main_loop example_cfg example_known
    (text_file ("Year, Yom Tov, Start of First Days, Start of Last Day (After Chol Hamoed)"
                +:+ eol_text Unix)) [] =
  Ran (Raise (SystemExit 1)) [EvPrint ErrCsvHeaders] [].
Proof. by vm_compute. Qed.

(** The text of the example and the rows the reader makes of it. *)
Example example_text :
  table_text Dos (example_header :: example_body) =
  "Year,Yom Tov,Start of First Days,Start of Last Day (After Chol Hamoed)" +:+ eol_text Dos +:+
  "2025," +:+ String QUOTE ("Pesach" +:+ String QUOTE ",2025-04-12,2025-04-18") +:+
  eol_text Dos +:+ eol_text Dos +:+
  "2025,Shavuos,2025-06-01" +:+ eol_text Dos.
Proof. by vm_compute. Qed.

(** A row with a field beyond the limit after the rows of the example:
    the two rules of the example are posted, then the loop reports the
    error of the reader and exits. *)
Example main_loop_long_field :
  ∀ r, r = main_loop example_cfg example_known
             (text_file (table_text Dos (example_header :: example_body) +:+
                         row_text full_row +:+ String "a" "")) [created; created] →
  ran_result r = Raise (SystemExit 1) ∧
  last (ran_events r) = Some (EvPrint (ErrUnexpected CsvError)) ∧
  length (posts (ran_events r)) = 2.
Proof.
  intros r ->. rewrite main_loop_field_too_long;
    [by vm_compute|compute_done..|apply full_row_overflows].
Qed.

Lemma main_loop_bad_headers_witness :
  main_loop example_cfg example_known
    (CsvRows [["Year"; "Yom Tov"; "Start"]; pesach] None) [created] =
  Ran (Raise (SystemExit 1)) [EvPrint ErrCsvHeaders] [created].
Proof. apply main_loop_bad_headers. compute_done. Defined.

Lemma process_row_both_dates_witness :
  process_row example_cfg example_known
    (make_row expected_headers pesach) [created; created] =
  (create_rule example_cfg example_known "Pesach First Days (2025)" "2025-04-12";;
   create_rule example_cfg example_known "Pesach Last Day (2025)" "2025-04-18")
    [created; created].
Proof. by apply (process_row_both_dates _ _ _ "2025" "Pesach"). Defined.

Lemma process_row_first_only_witness :
  process_row example_cfg example_known
    (make_row expected_headers shavuos) [created] =
  (create_rule example_cfg example_known "Shavuos (2025)" "2025-06-01";;
   print (MsgSkipLast "Shavuos" "2025")) [created].
Proof. by apply (process_row_first_only _ _ _ "2025" "Shavuos" _ None). Defined.

Lemma process_row_last_only_witness :
  process_row example_cfg example_known
    (make_row expected_headers ["2025"; "Pesach"; ""; "2025-04-18"]) [created] =
  (print (MsgSkipFirst "Pesach" "2025");;
   create_rule example_cfg example_known "Pesach Last Day (2025)" "2025-04-18") [created].
Proof. by apply (process_row_last_only _ _ _ "2025" "Pesach" _ (Some "")). Defined.

Lemma row_get_never_raises_witness :
  ∃ field, row_get (make_row expected_headers shavuos)
             "Start of Last Day (After Chol Hamoed)" = Ret field.
Proof.
  apply (row_get_never_raises expected_headers [pesach; []; shavuos]);
    [compute_done | | compute_done].
  apply list_elem_of_fmap. exists shavuos. split; [done|compute_done].
Defined.

Lemma example_env_complete : env_complete example_env example_cfg.
Proof. unfold env_complete. by split_and!. Qed.

Lemma script_missing_config_witness :
  script {[ "SMARTTHINGS_TOKEN" := "tok" ]} example_file [listed] =
  Ran (Raise (SystemExit 1)) [EvPrint MsgConfigMissing] [listed].
Proof.
  apply script_missing_config. intros cfg (_ & Hd & _). by vm_compute in Hd.
Defined.

Lemma script_bad_headers_witness :
  ran_result (script example_env (CsvRows [["Year"; "Yom Tov"]; pesach] None) [listed])
    = Raise (SystemExit 1) ∧
  requests (ran_events (script example_env (CsvRows [["Year"; "Yom Tov"]; pesach] None)
                          [listed])) =
    [EvGet (API_URL example_cfg) (auth_headers example_cfg)].
Proof.
  apply script_bad_headers; [apply example_env_complete | compute_done | done].
Defined.

Lemma script_traffic_witness :
  traffic (ran_events (script example_env example_file [listed; created; created]))
    `prefix_of`
    EvGet (API_URL example_cfg) (auth_headers example_cfg) ::
    concat (exchange example_cfg <$>
              planned_posts example_cfg example_known (file_plan example_file)) ∧
  (ran_result (script example_env example_file [listed; created; created]) = Ret () →
   traffic (ran_events (script example_env example_file [listed; created; created])) =
   EvGet (API_URL example_cfg) (auth_headers example_cfg) ::
   concat (exchange example_cfg <$>
             planned_posts example_cfg example_known (file_plan example_file))).
Proof. apply script_traffic; [apply example_env_complete | done]. Defined.

Lemma script_fetch_raises_witness :
  ran_result (script example_env example_file [HttpOk (Response 200 "5")])
    = Raise TypeError ∧
  ran_events (script example_env example_file [HttpOk (Response 200 "5")])
    = ran_events (get_existing_rules example_cfg
                    [HttpOk (Response 200 "5")]) ∧
  exit_status (ran_result (script example_env example_file
                             [HttpOk (Response 200 "5")])) = 1%Z.
Proof. apply script_fetch_raises; [apply example_env_complete | done]. Defined.

Lemma script_exit_status_witness :
  exit_status (ran_result (script example_env example_file [listed; created])) = 0%Z ∨
  exit_status (ran_result (script example_env example_file [listed; created])) = 1%Z.
Proof. apply script_exit_status. intros e. by cbn. Defined.

Lemma main_loop_duplicate_rows_witness :
  posts (ran_events (main_loop example_cfg example_known
                       (CsvRows (expected_headers :: [shavuos] ++ [shavuos]) None)
                       [created; created])) =
  planned_posts example_cfg example_known (plan expected_headers [shavuos]) ++
  planned_posts example_cfg example_known (plan expected_headers [shavuos]).
Proof. apply main_loop_duplicate_rows; [compute_done|done]. Defined.

(** The holiday of the example, listed twice, is submitted twice. *)
Example shavuos_posted_twice :
  posts (ran_events (main_loop example_cfg example_known
                       (CsvRows [expected_headers; shavuos; shavuos] None)
                       [created; created])) =
  [build_rule example_cfg "Shavuos (2025)" 2025 6 1;
   build_rule example_cfg "Shavuos (2025)" 2025 6 1].
Proof. by vm_compute. Qed.

End Examples.
