(* ===== verification/Server.v ===== *)
(** * The script against an ideal rules service

    The script never sees the service but through [requests.get] and
    [requests.post], the class [Network].  This file gives the class an
    instance that behaves as the script expects of the service: it keeps
    the rules it was sent, lists them with their names and identifiers, and
    accepts every rule that has a text as its name.  The body of its
    answers is JSON text, which the script reads back.

    Against this service a run stores the rules of its plan and a second
    run of the same file sends nothing, which is what the dictionary of
    existing rules is for.  The service is modelled from what the script
    expects of it, not from code of the repository. *)

From stdpp Require Import gmap.
From S2P Require Import Prelude PyStr PyNum PyValue Json Csv CsvTable Effects Config.
From S2P Require Import ExistingRules RuleBuilder CreateRule CsvDriver.

(** ** The service *)

Record stored_rule := Stored {
  stored_id : string;
  stored_name : string;
  stored_body : value;
}.

(** The state of the service: the rules in the order they were created. *)
Definition store := list stored_rule.

Definition names (st : store) : list string := stored_name <$> st.

(** A rule as the list endpoint shows it. *)
Definition item_of (r : stored_rule) : value :=
  VDict [("id", VStr (stored_id r)); ("name", VStr (stored_name r))].

Definition listing (st : store) : value := VDict [("items", VList (item_of <$> st))].

Definition listed_as (st : store) : response := json_response 200 (listing st).

(** The identifier of the next rule: the number of the rules, in digits. *)
Definition fresh_id (st : store) : string := nat_str (Z.of_nat (length st)).

(** The answer to a POST: the rule is stored under a fresh identifier when
    its name is a text, and refused otherwise. *)
Definition accept (body : value) (st : store) : http_result * store :=
  match py_getitem body "name" with
  | Ret (VStr name) =>
      (HttpOk (json_response 200 (item_of (Stored (fresh_id st) name body))),
       st ++ [Stored (fresh_id st) name body])
  | _ => (HttpOk (json_response 422 (VDict [("error", VStr "name")])), st)
  end.

#[export] Instance ideal_service : Network store := {
  net_get _ _ st := (HttpOk (listed_as st), st);
  net_post _ _ body st := accept body st;
}.

(** The store after the service accepted the bodies in order. *)
Definition accept_all (st : store) (bodies : list value) : store :=
  foldl (λ st body, (accept body st).2) st bodies.

(** The dictionary the script builds from the listing of a store. *)
Definition index_of (st : store) : pydict := foldl add_rule_pure [] (item_of <$> st).

(** ** The listing *)

Lemma items_ok (st : store) : Forall rule_ok (item_of <$> st).
Proof.
  apply Forall_fmap, Forall_true. intros r.
  by exists (VStr (stored_name r)), (VStr (stored_id r)).
Qed.

Lemma named_rules_snoc items (r : stored_rule) :
  named_rules (items ++ [item_of r]) = <[stored_name r := VStr (stored_id r)]> (named_rules items).
Proof. unfold named_rules. by rewrite foldl_snoc. Qed.

Lemma named_rules_names (st : store) (name : string) :
  is_Some (named_rules (item_of <$> st) !! name) ↔ name ∈ names st.
Proof.
  unfold names. induction st as [|r st IH] using rev_ind.
  - cbn. rewrite lookup_empty, elem_of_nil. split; [by intros [? ?]|done].
  - rewrite !fmap_app, elem_of_app. cbn [fmap list_fmap].
    rewrite named_rules_snoc, list_elem_of_singleton.
    destruct (decide (stored_name r = name)) as [->|Hne].
    + rewrite lookup_insert_eq. naive_solver.
    + rewrite lookup_insert_ne by done. naive_solver.
Qed.

(** The dictionary knows exactly the names of the store. *)
Lemma index_of_contains (st : store) (name : string) :
  dict_contains (index_of st) name = true ↔ name ∈ names st.
Proof.
  unfold dict_contains, index_of. rewrite bool_decide_eq_true.
  rewrite (index_agrees _ (items_ok st) name). apply named_rules_names.
Qed.

Lemma index_of_lookup_None (st : store) (name : string) :
  dict_lookup (index_of st) (VStr name) = None ↔ name ∉ names st.
Proof.
  rewrite <-index_of_contains, <-dict_contains_false. by destruct (dict_contains _ _).
Qed.

(** ** The script reads the answers

    The answers hold texts only, three objects and arrays deep: the
    script reads them back where it has room for the rule. *)

Section Answers.
Context {interp : Interp} {room : RoomForRule}.
Implicit Types (st : store) (r : stored_rule).

Lemma json_item code r : json (json_response code (item_of r)) = Ret (item_of r).
Proof.
  apply json_json_response; [done|]. apply refusal_None. split; [done|].
  pose proof room_for_rule. unfold rule_depth in *. cbn. lia.
Qed.

Lemma json_listed st : json (listed_as st) = Ret (listing st).
Proof.
  apply json_json_response; [|apply refusal_None; split].
  - cbn. rewrite andb_true_r. apply forallb_Forall, Forall_fmap, Forall_true. by intros r.
  - cbn. rewrite andb_true_r. apply forallb_Forall, Forall_fmap, Forall_true. by intros r.
  - pose proof room_for_rule. unfold rule_depth in *. cbn.
    assert (max_list (value_depth <$> (item_of <$> st)) ≤ 1); [|lia].
    apply max_list_le, Forall_fmap, Forall_fmap, Forall_true. intros r. cbn. lia.
Qed.

End Answers.

(** ** Runs against the service *)

Section Runs.
Context {interp : Interp} {room : RoomForRule}.
Implicit Types (st : store) (cfg : config) (index : pydict).

Lemma fetch_ideal cfg st :
  get_existing_rules cfg st = Ran (Ret (index_of st)) (fetch_events cfg (listed_as st)) st.
Proof.
  apply (get_existing_rules_listing cfg st st (listed_as st)
           [("items", VList (item_of <$> st))] (item_of <$> st));
    [done|done|apply json_listed|done|apply items_ok].
Qed.

Lemma accept_rule cfg name y m d st :
  accept (build_rule cfg name y m d) st =
  (HttpOk (json_response 200 (item_of (Stored (fresh_id st) name (build_rule cfg name y m d)))),
   st ++ [Stored (fresh_id st) name (build_rule cfg name y m d)]).
Proof. done. Qed.

Lemma accept_all_cons st body bodies :
  accept_all st (body :: bodies) = accept_all (accept body st).2 bodies.
Proof. done. Qed.

Lemma accept_all_app st bodies1 bodies2 :
  accept_all st (bodies1 ++ bodies2) = accept_all (accept_all st bodies1) bodies2.
Proof. apply foldl_app. Qed.

(** A call returns, and the store has accepted what the call had to post. *)
Lemma create_rule_ideal cfg index name date_str st :
  ran_result (create_rule cfg index name date_str st) = Ret () ∧
  ran_state (create_rule cfg index name date_str st) =
    accept_all st (to_post cfg index name date_str).
Proof.
  unfold to_post.
  destruct (create_rule_specP cfg index name date_str st)
    as [id Hi|Hi Hd|y m d r s' Hi Hd Hnet]; rewrite Hi, ?Hd; [done..|].
  cbn in Hnet. rewrite accept_rule in Hnet. injection Hnet as <- <-.
  cbn [ran_result ran_state post_result json_response status_code].
  change (good_status 200) with true. cbn iota. by rewrite (json_item 200).
Qed.

Lemma run_step_ideal cfg index step st :
  ran_result (run_step cfg index step st) = Ret () ∧
  ran_state (run_step cfg index step st) = accept_all st (post_of_step cfg index step).
Proof. destruct step; [done|]. apply create_rule_ideal. Qed.

Lemma steps_ideal cfg index steps st :
  ran_result (for_each steps (run_step cfg index) st) = Ret () ∧
  ran_state (for_each steps (run_step cfg index) st) =
    accept_all st (planned_posts cfg index steps).
Proof.
  revert st. induction steps as [|step steps IH]; intros st; [done|].
  rewrite for_each_cons. unfold planned_posts. rewrite fmap_cons. cbn [concat].
  rewrite accept_all_app. destruct (run_step_ideal cfg index step st) as [Hr Hs].
  destruct (run_step cfg index step st) as [res evs st']. cbn in Hr, Hs. subst.
  rewrite ran_then_Ret, result_after, state_after. apply IH.
Qed.

(** Whatever the file, the store after the loop has accepted the rules of
    the plan. *)
Lemma main_loop_ideal cfg index file st :
  ran_state (main_loop cfg index file st) =
  accept_all st (planned_posts cfg index (file_plan file)).
Proof.
  rewrite main_loop_finish, state_finish.
  destruct file as [e|[|names rows] failure]; cbn [file_plan]; [done| |].
  { by rewrite read_csv_empty. }
  case_bool_decide as Hok; [|by rewrite read_csv_bad_headers].
  rewrite read_csv_plan by done.
  destruct (steps_ideal cfg index (plan names rows) st) as [Hr Hs].
  destruct (for_each _ _ st) as [res evs st']. cbn in Hr, Hs. subst.
  rewrite ran_then_Ret, state_after. by destruct failure.
Qed.

Lemma script_ideal env cfg file st :
  env_complete env cfg →
  script env file st =
  after (fetch_events cfg (listed_as st)) (main_loop cfg (index_of st) file st).
Proof. intros Hc. by rewrite (script_run env cfg), fetch_ideal, ran_then_Ret. Qed.

(** ** What the store holds after a run *)

Lemma accept_extends body st : ∃ k, (accept body st).2 = st ++ k.
Proof.
  unfold accept. destruct (py_getitem body "name") as [[]|];
    first [by eexists [_] | by exists []; rewrite app_nil_r].
Qed.

Lemma accept_all_extends st bodies : ∃ k, accept_all st bodies = st ++ k.
Proof.
  revert st. induction bodies as [|body bodies IH]; intros st.
  - exists []. by rewrite app_nil_r.
  - rewrite accept_all_cons. destruct (accept_extends body st) as [k1 ->].
    destruct (IH (st ++ k1)) as [k2 ->]. exists (k1 ++ k2). by rewrite app_assoc.
Qed.

Lemma names_accept_all st bodies name :
  name ∈ names st → name ∈ names (accept_all st bodies).
Proof.
  destruct (accept_all_extends st bodies) as [k ->]. unfold names.
  rewrite fmap_app, elem_of_app. by left.
Qed.

(** A rule that was posted is in the store under its name. *)
Lemma posted_in_store cfg name y m d bodies st :
  build_rule cfg name y m d ∈ bodies → name ∈ names (accept_all st bodies).
Proof.
  revert st. induction bodies as [|body bodies IH]; intros st.
  - by intros ?%elem_of_nil.
  - intros [<-|Hin]%elem_of_cons; [|by apply IH].
    rewrite accept_all_cons, accept_rule. cbn [snd].
    apply names_accept_all. unfold names. rewrite fmap_app, elem_of_app. right.
    by apply list_elem_of_singleton.
Qed.

Lemma to_post_known cfg st name date_str :
  name ∈ names st → to_post cfg (index_of st) name date_str = [].
Proof.
  intros Hin. unfold to_post.
  destruct (dict_lookup (index_of st) (VStr name)) eqn:E; [done|].
  by apply index_of_lookup_None in E.
Qed.

Lemma planned_posts_cons cfg index step steps :
  planned_posts cfg index (step :: steps) =
  post_of_step cfg index step ++ planned_posts cfg index steps.
Proof. done. Qed.

Lemma planned_posts_nil cfg index steps :
  (∀ name date_str, Call name date_str ∈ steps → to_post cfg index name date_str = []) →
  planned_posts cfg index steps = [].
Proof.
  induction steps as [|step steps IH]; intros H; [done|].
  rewrite planned_posts_cons.
  rewrite (IH (λ name d Hin, H name d (list_elem_of_further _ _ _ Hin))).
  destruct step as [|name d]; [done|]. cbn. rewrite (H name d); [done|left].
Qed.

(** A rule of the plan whose date parses is posted, unless the store has
    its name. *)
Lemma planned_rule_posted cfg st steps name date_str y m d :
  Call name date_str ∈ steps → parse_date date_str = Ret (y, m, d) →
  name ∉ names st →
  build_rule cfg name y m d ∈ planned_posts cfg (index_of st) steps.
Proof.
  intros Hin Hd Hk. apply elem_of_concat.
  exists (post_of_step cfg (index_of st) (Call name date_str)). split.
  - apply list_elem_of_fmap. by exists (Call name date_str).
  - apply index_of_lookup_None in Hk. cbn. unfold to_post. rewrite Hk, Hd. left.
Qed.

(** After the store accepted the rules of a plan, the plan has nothing
    left to post. *)
Lemma plan_done cfg st steps :
  planned_posts cfg (index_of (accept_all st (planned_posts cfg (index_of st) steps))) steps
  = [].
Proof.
  apply planned_posts_nil. intros name date_str Hin.
  destruct (decide (name ∈ names st)) as [Hk|Hk].
  { by apply to_post_known, names_accept_all. }
  destruct (parse_date date_str) as [[[y m] d]|e] eqn:Hd;
    [|unfold to_post; rewrite Hd; by case_match].
  by eapply to_post_known, posted_in_store, planned_rule_posted.
Qed.

(** C23: against the ideal service the store after a run of the script is
    the store before it extended by the rules of the plan of the file, in
    order, each under a fresh identifier; nothing else is changed. *)
Theorem run_stores_plan env cfg file st :
  env_complete env cfg →
  ran_state (script env file st) =
  accept_all st (planned_posts cfg (index_of st) (file_plan file)).
Proof.
  intros Hc. by rewrite (script_ideal env cfg), state_after, main_loop_ideal.
Qed.

(** Against the ideal service every rule the file calls for under a date
    that parses is in the store when the run is over: the store had it, or
    the run has created it. *)
Lemma script_has_rule env cfg file st name date_str y m d :
  env_complete env cfg →
  Call name date_str ∈ file_plan file → parse_date date_str = Ret (y, m, d) →
  name ∈ names (ran_state (script env file st)).
Proof.
  intros Hc Hin Hd. rewrite (script_ideal env cfg), state_after, main_loop_ideal by done.
  destruct (decide (name ∈ names st)) as [Hk|Hk]; [by apply names_accept_all|].
  by eapply posted_in_store, planned_rule_posted.
Qed.

(** C18: against the ideal service a second run of the script on the same
    file posts nothing: every rule the first run had to create is listed
    by the service and found in the dictionary of existing rules. *)
Theorem second_run_posts_nothing env cfg file (st : store) :
  env_complete env cfg →
  posts (ran_events (script env file (ran_state (script env file st)))) = [].
Proof.
  intros Hc. rewrite (script_ideal env cfg _ (ran_state _)) by done.
  rewrite (script_ideal env cfg file st), state_after, main_loop_ideal by done.
  rewrite events_after, posts_app.
  destruct (main_loop_shows_posts cfg (index_of (accept_all st
              (planned_posts cfg (index_of st) (file_plan file)))) file
              (accept_all st (planned_posts cfg (index_of st) (file_plan file))))
    as [Hpre _].
  rewrite plan_done in Hpre. by apply prefix_nil_inv in Hpre as ->.
Qed.

End Runs.

(** ** Examples *)

Section Examples.
#[local] Existing Instance cpython311.

Lemma run_stores_plan_witness :
  ran_state (script example_env example_file []) =
  accept_all [] (planned_posts example_cfg (index_of []) (file_plan example_file)).
Proof. apply run_stores_plan, example_env_complete. Defined.

Lemma second_run_posts_nothing_witness :
  posts (ran_events (script example_env example_file
                       (ran_state (script example_env example_file [])))) = [].
Proof. apply second_run_posts_nothing with example_cfg, example_env_complete. Defined.

(** Against the ideal service a file that lists a holiday twice leaves two
    rules of the same name in the store: the second row is submitted
    although the first created the rule. *)
Example duplicate_rows_stored_twice :
  names (ran_state (script example_env
                      (CsvRows [expected_headers; shavuos; shavuos] None) [])) =
  ["Shavuos (2025)"; "Shavuos (2025)"].
Proof. by vm_compute. Qed.

(** From the text of the file to the store: the script reads the table,
    finds no rule in the empty store and creates the three of the file. *)
Example script_text_stores :
  names (ran_state (script example_env
                      (text_file (table_text Dos (example_header :: example_body))) [])) =
  ["Pesach First Days (2025)"; "Pesach Last Day (2025)"; "Shavuos (2025)"].
Proof. by vm_compute. Qed.

End Examples.
