(* ===== verification/Service.v ===== *)
(** * The script against services that may refuse

    [Server] runs the script against a service that accepts every rule.
    A real service may fail to answer, refuse a rule or answer with an
    error.  The class [Service] says what the script may count on in any
    case: the service keeps a list of rules, a GET leaves it as it is, and
    a POST leaves it as it is or stores the rule as the ideal service would.

    Against every such service the rules in the store after a run are the
    rules before it followed by some of the rules the run posted, in order
    ([names_after_run]); hence a run that was shown the rules of the store
    never leaves two rules of one name, unless the file names a rule twice
    ([run_keeps_names_distinct]).  The hypothesis on the answer to the GET
    is needed: when the fetch fails the script goes on with an empty
    dictionary and creates every rule again ([failed_fetch_duplicates]).

    [ideal_service] and the service [unreliable], which answers by a list
    of verdicts, are instances of the class.  Once its verdicts are used
    up, [unreliable] is the ideal service to the script
    ([granted_simulation]), so that one more run completes what earlier
    runs were refused ([retry_creates_every_rule]). *)

From S2P Require Import Prelude PyStr PyValue Effects Config.
From S2P Require Import ExistingRules RuleBuilder CreateRule CsvDriver Server.

(** ** The interface *)

Class Service (S : Type) `{!Network S} := {
  rules_of : S → store;
  service_get url hs s : rules_of (net_get url hs s).2 = rules_of s;
  service_post url hs body s :
    rules_of (net_post url hs body s).2 = rules_of s ∨
    rules_of (net_post url hs body s).2 = (accept body (rules_of s)).2;
}.

#[global] Arguments rules_of {S _ _} s : assert.

(** The name under which a body is stored, if the service stores it. *)
Definition body_name (body : value) : option string :=
  match py_getitem body "name" with
  | Ret (VStr name) => Some name
  | _ => None
  end.

(** The names of the rules a plan calls for. *)
Definition call_names (steps : list step) : list string :=
  omap (λ st, match st with Call name _ => Some name | Skip _ => None end) steps.

(** ** A service that answers by verdicts

    Each request takes the next verdict of the list, and is granted when
    the list is empty.  A GET that is not granted fails; a POST that is
    not granted is answered with status 429 and stores nothing. *)

Record unreliable := Unreliable {
  kept : store;
  luck : list bool;
}.

Definition next_verdict (s : unreliable) : bool * unreliable :=
  match luck s with
  | b :: l => (b, Unreliable (kept s) l)
  | [] => (true, s)
  end.

Definition unreliable_get (s : unreliable) : http_result * unreliable :=
  let '(granted, s') := next_verdict s in
  (if granted then HttpOk (listed_as (kept s)) else HttpFail, s').

Definition unreliable_post (body : value) (s : unreliable) : http_result * unreliable :=
  let '(granted, s') := next_verdict s in
  if granted then
    let '(r, st) := accept body (kept s) in (r, Unreliable st (luck s'))
  else (HttpOk (Response 429 "Too Many Requests"), s').

#[export] Instance unreliable_network : Network unreliable := {
  net_get _ _ := unreliable_get;
  net_post _ _ := unreliable_post;
}.

(** ** The instances *)

#[export] Instance ideal_is_service : Service store.
Proof. by refine {| rules_of st := st |}; intros; [|right]. Defined.

Lemma kept_next_verdict s : kept (next_verdict s).2 = kept s.
Proof. unfold next_verdict. by destruct (luck s). Qed.

#[export] Instance unreliable_is_service : Service unreliable.
Proof.
  refine {| rules_of := kept |}.
  - intros url hs s. cbn. unfold unreliable_get.
    pose proof (kept_next_verdict s). by destruct (next_verdict s).
  - intros url hs body s. cbn. unfold unreliable_post.
    pose proof (kept_next_verdict s) as Hk. destruct (next_verdict s) as [[] s'].
    + right. by destruct (accept body (kept s)).
    + by left.
Defined.

(** ** The store after a run *)

Lemma names_accept body st :
  names (accept body st).2 = names st ++ option_list (body_name body).
Proof.
  unfold accept, body_name, names.
  destruct (py_getitem body "name") as [[]|]; cbn; by rewrite ?fmap_app, ?app_nil_r.
Qed.

Section Service.
Context {S : Type} `{Service S} {interp : Interp} {room : RoomForRule}.
Implicit Types (s : S) (cfg : config) (evs : list event).

(** One request: the names of the store grow by the name of the body, or
    not at all. *)
Lemma names_replay_event s ev :
  ∃ sub, sub `sublist_of` omap body_name (posts [ev]) ∧
         names (rules_of (replay_event s ev)) = names (rules_of s) ++ sub.
Proof.
  destruct ev as [m|url hs|url hs body|n]; cbn [replay_event];
    try (by exists []; rewrite app_nil_r).
  - exists []. by rewrite service_get, app_nil_r.
  - destruct (service_post url hs body s) as [-> | ->].
    + exists []. split; [apply sublist_nil_l|by rewrite app_nil_r].
    + exists (option_list (body_name body)). rewrite names_accept. split; [|done].
      cbn. by destruct (body_name body).
Qed.

(** The store after the requests of a list of events holds the rules
    before them and some of the rules posted, in the order of the posts. *)
Lemma names_replay evs s :
  ∃ sub, sub `sublist_of` omap body_name (posts evs) ∧
         names (rules_of (replay evs s)) = names (rules_of s) ++ sub.
Proof.
  revert s. induction evs as [|ev evs IH]; intros s.
  { exists []. by rewrite app_nil_r. }
  destruct (names_replay_event s ev) as (sub1 & Hsub1 & Hs1).
  destruct (IH (replay_event s ev)) as (sub2 & Hsub2 & Hs2).
  exists (sub1 ++ sub2). cbn [replay foldl]. fold (replay evs (replay_event s ev)).
  rewrite Hs2, Hs1, <-app_assoc. split; [|done].
  change (ev :: evs) with ([ev] ++ evs). rewrite posts_app, omap_app.
  by apply sublist_app.
Qed.

Lemma names_after_run {A} (p : prog S A) s :
  traced p →
  ∃ sub, sub `sublist_of` omap body_name (posts (ran_events (p s))) ∧
         names (rules_of (ran_state (p s))) = names (rules_of s) ++ sub.
Proof. intros Hp. rewrite Hp. apply names_replay. Qed.

Lemma names_to_post cfg index name date_str :
  omap body_name (to_post cfg index name date_str) `sublist_of` [name] ∧
  ∀ n, n ∈ omap body_name (to_post cfg index name date_str) →
       dict_contains index n = false.
Proof.
  unfold to_post. destruct (dict_lookup index (VStr name)) eqn:Hi.
  { split; [apply sublist_nil_l|by intros ? ?%elem_of_nil]. }
  destruct (parse_date date_str) as [[[y m] d]|e];
    [|split; [apply sublist_nil_l|by intros ? ?%elem_of_nil]].
  cbn. split; [done|]. intros n ->%list_elem_of_singleton. by apply dict_contains_false.
Qed.

(** The rules of a plan are rules of the names it calls for, in order, and
    of no name of the dictionary. *)
Lemma names_planned_posts cfg index steps :
  omap body_name (planned_posts cfg index steps) `sublist_of` call_names steps ∧
  ∀ n, n ∈ omap body_name (planned_posts cfg index steps) →
       dict_contains index n = false.
Proof.
  induction steps as [|[m|name date_str] steps [IH1 IH2]].
  { split; [done|by intros ? ?%elem_of_nil]. }
  { by split. }
  change (Call name date_str :: steps) with ([Call name date_str] ++ steps).
  rewrite planned_posts_app, omap_app.
  destruct (names_to_post cfg index name date_str) as [H1 H2].
  unfold planned_posts at 1 3. cbn [fmap list_fmap concat post_of_step]. rewrite app_nil_r.
  split; [|intros n [?|?]%elem_of_app; auto].
  change (call_names _) with ([name] ++ call_names steps). by apply sublist_app.
Qed.

(** *** A run that was shown the rules *)

(** The script when the GET is answered with the rules of the store. *)
Lemma script_listed env cfg file s :
  env_complete env cfg →
  (net_get (API_URL cfg) (auth_headers cfg) s).1 = HttpOk (listed_as (rules_of s)) →
  script env file s =
  after (fetch_events cfg (listed_as (rules_of s)))
        (main_loop cfg (index_of (rules_of s)) file
           (net_get (API_URL cfg) (auth_headers cfg) s).2).
Proof.
  intros Hc Hget. rewrite (script_run env cfg) by done.
  destruct (net_get (API_URL cfg) (auth_headers cfg) s) as [r s'] eqn:E.
  cbn in Hget. subst r.
  by rewrite (get_existing_rules_listing cfg s s' (listed_as (rules_of s))
                [("items", VList (item_of <$> rules_of s))] (item_of <$> rules_of s))
    by (done || apply items_ok || apply json_listed).
Qed.

Lemma script_listed_posts env cfg file s :
  env_complete env cfg →
  (net_get (API_URL cfg) (auth_headers cfg) s).1 = HttpOk (listed_as (rules_of s)) →
  posts (ran_events (script env file s))
    `prefix_of` planned_posts cfg (index_of (rules_of s)) (file_plan file).
Proof.
  intros Hc Hget. rewrite (script_listed env cfg) by done.
  rewrite events_after, posts_app. apply main_loop_shows_posts.
Qed.

(** The names of the store after a run: those before it, then names of
    rules of the plan that the dictionary did not know, in order. *)
Lemma names_after_script env cfg file s :
  env_complete env cfg →
  (net_get (API_URL cfg) (auth_headers cfg) s).1 = HttpOk (listed_as (rules_of s)) →
  ∃ sub, sub `sublist_of` call_names (file_plan file) ∧
         (∀ n, n ∈ sub → n ∉ names (rules_of s)) ∧
         names (rules_of (ran_state (script env file s))) = names (rules_of s) ++ sub.
Proof.
  intros Hc Hget.
  destruct (names_after_run (script env file) s (script_traced env file))
    as (sub & Hsub & Hnames).
  destruct (script_listed_posts env cfg file s Hc Hget) as [rest Hposts].
  destruct (names_planned_posts cfg (index_of (rules_of s)) (file_plan file))
    as [Hplan Hnew].
  rewrite Hposts, omap_app in Hplan, Hnew.
  assert (sub `sublist_of` omap body_name (posts (ran_events (script env file s))) ++
                           omap body_name rest) as Hsub'
    by (by apply sublist_inserts_r).
  exists sub. split_and!; [by etrans| |done].
  intros n Hn Hin. apply (elem_of_sublist _ _ _ Hn), Hnew in Hsub'.
  apply index_of_contains in Hin. congruence.
Qed.

(** C19: against a service that keeps its rules and stores nothing but what
    it is sent, a run that was shown the rules of the store leaves no two
    rules of one name, whatever the service refuses and however the run
    ends, provided the rules of the store have different names and the
    file calls for no name twice. *)
Theorem run_keeps_names_distinct env cfg file s :
  env_complete env cfg →
  (net_get (API_URL cfg) (auth_headers cfg) s).1 = HttpOk (listed_as (rules_of s)) →
  NoDup (names (rules_of s)) → NoDup (call_names (file_plan file)) →
  NoDup (names (rules_of (ran_state (script env file s)))).
Proof.
  intros Hc Hget Hstore Hfile.
  destruct (names_after_script env cfg file s Hc Hget) as (sub & Hsub & Hnew & ->).
  apply NoDup_app. split_and!; [done| |by eapply sublist_NoDup].
  intros n Hn Hin. by apply (Hnew n).
Qed.

End Service.

(** ** A run in which every request is granted

    With no verdict left the refusing service answers as the ideal service
    does: the script cannot tell them apart. *)

Definition granted (s : unreliable) (st : store) : Prop :=
  kept s = st ∧ luck s = [].

Lemma granted_simulation : simulation granted.
Proof.
  split.
  - intros url hs [st l] ? [<- Hl]. cbn in Hl. subst l. by split.
  - intros url hs body [st l] ? [<- Hl]. cbn in Hl. subst l.
    cbn. unfold unreliable_post. cbn. by destruct (accept body st).
Qed.

Section Retry.
Context {interp : Interp} {room : RoomForRule}.

(** The run of the script against the refusing service, once every
    request is granted, is its run against the ideal service. *)
Lemma script_granted env file st :
  ran_alike granted (script env file (Unreliable st [])) (script env file st).
Proof. by apply (script_related granted granted_simulation). Qed.

(** C20: whatever a run of the script was refused, one more run in which
    every request is granted leaves in the store every rule the file
    calls for under a date that parses. *)
Theorem retry_creates_every_rule env cfg file (s : unreliable) name date_str y m d :
  env_complete env cfg →
  Call name date_str ∈ file_plan file → parse_date date_str = Ret (y, m, d) →
  name ∈ names (kept (ran_state
    (script env file (Unreliable (kept (ran_state (script env file s))) [])))).
Proof.
  intros Hc Hin Hd.
  destruct (script_granted env file (kept (ran_state (script env file s))))
    as [_ _ [-> _]].
  by eapply script_has_rule.
Qed.

End Retry.

(** ** Examples *)

Section Examples.
#[local] Existing Instance cpython311.

(** The second POST is refused: the run goes on and stores the third rule. *)
Lemma run_keeps_names_distinct_witness :
  NoDup (names (rules_of (ran_state
    (script example_env example_file (Unreliable [] [true; true; false]))))).
Proof.
  apply (run_keeps_names_distinct example_env example_cfg);
    [apply example_env_complete|done|constructor|compute_done].
Defined.

(** The run of the witness above left the rule of the last day out; the
    next run, with every request granted, creates it. *)
Lemma retry_creates_every_rule_witness :
  "Pesach Last Day (2025)" ∈ names (kept (ran_state
    (script example_env example_file
       (Unreliable (kept (ran_state (script example_env example_file
                                       (Unreliable [] [true; true; false])))) [])))).
Proof.
  apply (retry_creates_every_rule _ example_cfg _ _ _ "2025-04-18" 2025 4 18);
    [apply example_env_complete|vm_compute; repeat constructor|done].
Defined.

Example refused_rule_not_stored :
  names (kept (ran_state
    (script example_env example_file (Unreliable [] [true; true; false])))) =
  ["Pesach First Days (2025)"; "Shavuos (2025)"].
Proof. by vm_compute. Qed.

(** When the fetch fails the script takes the store for empty: a second
    run creates the rules of the first run again. *)
Example failed_fetch_duplicates :
  names (kept (ran_state
    (script example_env example_file
       (Unreliable (ran_state (script example_env example_file [])) [false])))) =
  ["Pesach First Days (2025)"; "Pesach Last Day (2025)"; "Shavuos (2025)";
   "Pesach First Days (2025)"; "Pesach Last Day (2025)"; "Shavuos (2025)"].
Proof. by vm_compute. Qed.

End Examples.
