(* ===== verification/Render.v ===== *)
(** * The text of the printed lines

    The script prints with f-strings.  [Effects] keeps a printed line as
    a [message], the constructor naming the line and its arguments the
    values the f-string interpolates; this file gives the text: [render]
    is the line [print] writes for a message, [stdout] the text a run
    writes.

    An f-string formats a value with [str]: [str_value] for the values of
    JSON (the identifier of a rule, lines 59 and 138), which is [repr]
    but for a string, [int_text] for a status.  [repr_str] is [repr] of a
    string: single quotes unless the string has a single quote and no
    double quote, a backslash before the quote and the backslash, [\t],
    [\n], [\r], and [\xhh] for what is not printable.  [str] of an
    integer raises [ValueError] beyond the digit limit ([py_format]); the
    identifiers the script prints come from the decoder, which has the
    same limit, so that the lines never raise ([printed_ids_render]).

    The text of an exception is what the library that raised it gave
    it; the development keeps the class of an exception only, and
    [render] takes the text as a parameter, the key of a [KeyError]
    apart. *)

From Stdlib Require Import Floats.SpecFloat.
From S2P Require Import Prelude PyStr PyNum PyValue Json Csv Effects.
From S2P Require Import Config ExistingRules RuleBuilder CreateRule CsvDriver Server.

(** ** [repr] of a string *)

Definition SQ : ascii := "'"%char.

(** [str.isprintable] on a code point below 256. *)
Definition is_printable (c : ascii) : bool :=
  let n := N_of_ascii c in
  ((32 <=? n) && (n <=? 126) || (161 <=? n) && negb (n =? 173))%N.

(** A character inside the quotes [quote]. *)
Definition repr_char (quote c : ascii) : string :=
  let n := N_of_ascii c in
  if decide (c = quote) then String BS (String c "")
  else if decide (c = BS) then String BS (String BS "")
  else if (n =? 9)%N then String BS "t"
  else if (n =? 10)%N then String BS "n"
  else if (n =? 13)%N then String BS "r"
  else if is_printable c then String c ""
  else String BS (String "x" (String (hex_char (n / 16)) (String (hex_char (n mod 16)) ""))).

Fixpoint repr_chars (quote : ascii) (s : string) : string :=
  match s with
  | "" => ""
  | String c s' => repr_char quote c +:+ repr_chars quote s'
  end.

Fixpoint has_char (c : ascii) (s : string) : bool :=
  match s with
  | "" => false
  | String c' s' => bool_decide (c' = c) || has_char c s'
  end.

(** The quotes of [repr]: double quotes for a string with a single quote
    and no double quote. *)
Definition repr_quote (s : string) : ascii :=
  if has_char SQ s && negb (has_char DQ s) then DQ else SQ.

Definition repr_str (s : string) : string :=
  let quote := repr_quote s in
  String quote (repr_chars quote s +:+ String quote "").

(** ** [str] of a value *)

Definition bool_str (b : bool) : string := if b then "True" else "False".

(** [repr(v)], the limit on the digits of an integer apart. *)
Fixpoint repr_value (v : value) : string :=
  match v with
  | VNone => "None"
  | VBool b => bool_str b
  | VInt n => int_text n
  | VFloat x => float_str x
  | VStr s => repr_str s
  | VList l => "[" +:+ join_items (repr_value <$> l) +:+ "]"
  | VDict d =>
      "{" +:+ join_items ((λ kv, repr_str kv.1 +:+ ": " +:+ repr_value kv.2) <$> d) +:+ "}"
  end.

(** [str(v)], the limit apart: a string is itself. *)
Definition str_value (v : value) : string :=
  match v with
  | VStr s => s
  | _ => repr_value v
  end.

(** [str(v)], as the f-strings of lines 59 and 138 call it. *)
Definition py_format `{!Interp} (v : value) : result string :=
  if encodable true int_max_str_digits v then Ret (str_value v) else Raise ValueError.

(** ** The lines *)

Section Render.
Context (exn_text : exn → string).

(** [str(e)]: the key of a [KeyError] in quotes, and the text the
    exception was raised with. *)
Definition exn_str (e : exn) : string :=
  match e with
  | KeyError key => repr_str key
  | _ => exn_text e
  end.

(** The line of a message, lines 14, 36-54, 59, 64, 138-142, 155, 166,
    173, 179 and 182. *)
Definition render (m : message) : string :=
  match m with
  | MsgConfigMissing =>
      "Error: Please set SMARTTHINGS_TOKEN, DEVICE_ID, LOCATION_ID, and VIRTUAL_SWITCH_ID environment variables."
  | MsgStatus code => "Status Code: " +:+ int_text code
  | MsgContent body => "Response Content: " +:+ body
  | WarnNoRuleList => "Warning: Response does not contain a list of rules."
  | WarnInvalidJson body => "Warning: Response is not valid JSON. Content:" +:+ " " +:+ body
  | WarnFetchStatus code body =>
      "Warning: Could not fetch existing rules: " +:+ int_text code +:+ " - " +:+ body
  | WarnFetchError e => "Warning: Error fetching existing rules: " +:+ exn_str e
  | MsgRuleExists name id =>
      "Rule '" +:+ name +:+ "' already exists with ID: " +:+ str_value id +:+ ". Skipping."
  | ErrInvalidDate name date_str =>
      "Error: Invalid date format for '" +:+ name +:+ "': " +:+ date_str
      +:+ ". Expected YYYY-MM-DD."
  | MsgCreated name id =>
      "Successfully created rule '" +:+ name +:+ "' with ID: " +:+ str_value id
  | MsgCreateFailed name code body =>
      "Failed to create rule '" +:+ name +:+ "': " +:+ int_text code +:+ " - " +:+ body
  | ErrCreating name e => "Error creating rule '" +:+ name +:+ "': " +:+ exn_str e
  | ErrCsvHeaders =>
      "Error: CSV must contain headers: Year, Yom Tov, Start of First Days, Start of Last Day (After Chol Hamoed)"
  | MsgSkipFirst yom_tov year =>
      "Skipping " +:+ yom_tov +:+ " (" +:+ year +:+ ") First Days: No start date provided."
  | MsgSkipLast yom_tov year =>
      "Skipping " +:+ yom_tov +:+ " (" +:+ year +:+ ") Last Day: No last day date provided."
  | ErrCsvNotFound file => "Error: CSV file '" +:+ file +:+ "' not found."
  | ErrUnexpected e => "Unexpected error: " +:+ exn_str e
  end.

(** The lines of a run, in order. *)
Definition printed (evs : list event) : list string :=
  omap (λ ev, match ev with EvPrint m => Some (render m) | _ => None end) evs.

(** What [print] wrote on the standard output: every line and its end. *)
Definition stdout (evs : list event) : string :=
  foldr (λ line out, line +:+ String LF out) "" (printed evs).

End Render.

(** ** What [repr] wrote determines the string

    [read_chars] reads the inside of a string literal up to the closing
    quote, with the escapes [repr] writes. *)

Fixpoint read_chars (quote : ascii) (s : string) : option string :=
  match s with
  | "" => None
  | String c s' =>
      if decide (c = quote) then (if decide (s' = "") then Some "" else None)
      else if decide (c = BS) then
        match s' with
        | String e s'' =>
            if decide (e = "x"%char) then
              match s'' with
              | String h (String l rest) =>
                  hi ← hex_val h; lo ← hex_val l;
                  String (ascii_of_N (16 * hi + lo)) <$> read_chars quote rest
              | _ => None
              end
            else
              String (if decide (e = "t"%char) then "009"%char
                      else if decide (e = "n"%char) then LF
                      else if decide (e = "r"%char) then CR
                      else e) <$> read_chars quote s''
        | "" => None
        end
      else String c <$> read_chars quote s'
  end.

(** The string of a literal in single or double quotes. *)
Definition read_literal (s : string) : option string :=
  match s with
  | String quote s' =>
      if bool_decide (quote = SQ) || bool_decide (quote = DQ)
      then read_chars quote s' else None
  | "" => None
  end.

Section Repr.
Implicit Types (s t : string) (c quote : ascii).

Lemma read_chars_repr_char quote c t :
  quote = SQ ∨ quote = DQ →
  read_chars quote (repr_char quote c +:+ t) = String c <$> read_chars quote t.
Proof. intros [-> | ->]; by destruct c as [[] [] [] [] [] [] [] []]. Qed.

Lemma read_chars_repr_chars quote s :
  quote = SQ ∨ quote = DQ →
  read_chars quote (repr_chars quote s +:+ String quote "") = Some s.
Proof.
  intros Hq. induction s as [|c s IH]; cbn [repr_chars].
  - rewrite string_app_nil_l. cbn. by rewrite decide_True.
  - by rewrite string_app_assoc, read_chars_repr_char, IH.
Qed.

(** [repr] of a string is a literal of the string. *)
Lemma read_literal_repr_str s : read_literal (repr_str s) = Some s.
Proof.
  unfold repr_str, read_literal, repr_quote.
  destruct (has_char SQ s && negb (has_char DQ s));
    (rewrite orb_true_intro by (by vm_compute; auto));
    apply read_chars_repr_chars; auto.
Qed.

Lemma repr_str_inj s t : repr_str s = repr_str t → s = t.
Proof.
  intros E. apply (f_equal read_literal) in E. rewrite !read_literal_repr_str in E.
  by injection E.
Qed.

End Repr.

(** ** The identifiers the script prints

    [str] raises on an integer beyond the digit limit.  The identifiers
    of lines 59 and 138 are parts of a decoded body, and the decoder
    returns no such integer. *)

Section Formats.
Context {interp : Interp}.
Implicit Types (v id : value) (d : list (string * value)) (l : list value).

(** [str(v)] returns. *)
Definition formats (v : value) : Prop := py_format v = Ret (str_value v).

Lemma formats_encodable v : formats v ↔ encodable true int_max_str_digits v = true.
Proof. unfold formats, py_format. by destruct (encodable _ _ _). Qed.

Lemma formats_assoc d key v : formats (VDict d) → assoc key d = Some v → formats v.
Proof.
  rewrite !formats_encodable. cbn [encodable]. intros Hd%forallb_Forall.
  induction Hd as [|[k x] d Hx _ IH]; cbn; [done|]. case_decide; [by intros [= <-]|done].
Qed.

Lemma formats_elem l v : formats (VList l) → v ∈ l → formats v.
Proof.
  rewrite !formats_encodable. cbn [encodable]. intros Hl%forallb_Forall Hv.
  by apply (proj1 (Forall_forall _ _) Hl).
Qed.

Lemma py_getitem_formats data key v :
  formats data → py_getitem data key = Ret v → formats v.
Proof.
  destruct data; try done. cbn. destruct (assoc key d) eqn:E; [|done].
  intros Hd [= <-]. by eapply formats_assoc.
Qed.

Lemma py_get_formats body key dflt v :
  formats body → formats dflt → py_get body key dflt = Ret v → formats v.
Proof.
  destruct body; try done. cbn. intros Hd Hdflt [= <-].
  destruct (assoc key d) eqn:E; [by eapply formats_assoc|done].
Qed.

(** What [response.json()] returns, [str] writes. *)
Lemma json_formats r v : json r = Ret v → formats v.
Proof.
  unfold json. destruct (json_loads _ _ _) as [v'|] eqn:E; [|done]. intros [= <-].
  apply json_loads_yields in E as [_ [He _]%refusal_None]. by apply formats_encodable.
Qed.

(** The values of a dictionary of rules. *)
Definition ids_format (d : pydict) : Prop := Forall (λ kv, formats kv.2) d.

Lemma dict_update_formats (d : pydict) k v :
  ids_format d → formats v → ids_format (dict_update d k v).
Proof.
  intros Hd Hv. induction Hd as [|[k' v'] d Hx Hd IH]; cbn; [by repeat constructor|].
  case_match; by constructor.
Qed.

Lemma dict_lookup_formats (d : pydict) k v :
  ids_format d → dict_lookup d k = Some v → formats v.
Proof.
  induction 1 as [|[k' v'] d Hx _ IH]; cbn; [done|]. case_match; [by intros [= <-]|done].
Qed.

Lemma add_rule_formats (d d' : pydict) rule :
  formats rule → ids_format d → add_rule d rule = Ret d' → ids_format d'.
Proof.
  unfold add_rule, dict_setitem. intros Hr Hd.
  destruct (py_getitem rule "name") as [name|]; [cbn|done].
  destruct (py_getitem rule "id") as [id|] eqn:Hi; [cbn|done].
  case_match; [|done]. intros [= <-]. apply dict_update_formats; [done|].
  by eapply py_getitem_formats.
Qed.

Lemma index_of_listing_formats data (d : pydict) :
  formats data → index_of_listing data = Ret (Some d) → ids_format d.
Proof.
  unfold index_of_listing. intros Hdata.
  destruct (py_contains "items" data) as [[]|]; try done. cbn.
  destruct (py_getitem data "items") as [[]|] eqn:Hi; try done. cbn.
  destruct (rules_of_items _) as [d'|] eqn:E; [|done]. intros [= <-].
  apply py_getitem_formats in Hi; [|done]. revert E.
  apply (outcome_foldl_inv ids_format); [|constructor].
  intros b x b' Hx Hb. apply add_rule_formats; [|done]. by eapply formats_elem.
Qed.

Context {S : Type} `{!Network S}.

(** The dictionary of the existing rules holds values [str] writes. *)
Lemma get_existing_rules_formats cfg (s : S) (d : pydict) :
  ran_result (get_existing_rules cfg s) = Ret d → ids_format d.
Proof.
  destruct (get_existing_rules_specP cfg s) as [| resp s' data _ _ Hj | | |];
    try (by intros [= <-]; apply Forall_nil_2).
  destruct (index_of_listing data) as [[d'|]|] eqn:E; cbn; intros [= <-];
    [|by apply Forall_nil_2].
  eapply index_of_listing_formats; [|done]. by eapply json_formats.
Qed.

(** C17: the f-strings of lines 59 and 138 raise nothing: the identifier
    line 59 prints for a known name comes from the dictionary
    [get_existing_rules] returned, the identifier line 138 prints from
    the body of the answer, and [str] writes both, no integer in them
    being beyond the digit limit. *)
Theorem printed_ids_render cfg (s : S) (d : pydict) name r body id :
  ran_result (get_existing_rules cfg s) = Ret d ∧ dict_lookup d (VStr name) = Some id ∨
  json r = Ret body ∧ py_get body "id" (VStr "unknown") = Ret id →
  py_format id = Ret (str_value id).
Proof.
  intros [[Hd Hid]|[Hj Hid]].
  - eapply dict_lookup_formats; [|done]. by eapply get_existing_rules_formats.
  - eapply py_get_formats; [by eapply json_formats| |done]. by apply formats_encodable.
Qed.

End Formats.

(** ** The lines of a call *)

Section Lines.
Context {S : Type} `{!Network S} {interp : Interp} {room : RoomForRule}.
Context (exn_text : exn → string).

Lemma printed_app evs evs' :
  printed exn_text (evs ++ evs') = printed exn_text evs ++ printed exn_text evs'.
Proof. apply omap_app. Qed.

Lemma printed_prints ms : printed exn_text (EvPrint <$> ms) = render exn_text <$> ms.
Proof. induction ms as [|m ms IH]; [done|]. cbn. by f_equal. Qed.

(** The report of an answer is one line, unless reading the answer
    raised what leaves the function. *)
Lemma report_one_line name r :
  length (report name r) = if is_ret (post_result r) then 1 else 0.
Proof.
  destruct r as [|resp]; [done|]. cbn. destruct (good_status _); [|done].
  destruct (json resp) as [[]|e]; try done. by destruct (isinstance e _).
Qed.

(** A call of [create_rule] that returns has printed one line, and a
    call that raises has printed none: the exception left before the
    [print] of line 138. *)
Theorem create_rule_one_line cfg index name date_str (s : S) :
  length (printed exn_text (ran_events (create_rule cfg index name date_str s))) =
  if is_ret (ran_result (create_rule cfg index name date_str s)) then 1 else 0.
Proof.
  destruct (create_rule_specP cfg index name date_str s) as [id _| |y m d r s' _ _ _];
    [done..|].
  cbn [ran_events ran_result]. unfold after_post.
  change (EvPost ?u ?h ?b :: ?l) with ([EvPost u h b] ++ l).
  rewrite !printed_app, printed_prints, !length_app, length_fmap, report_one_line.
  by destruct (post_result r).
Qed.

(** One mark for every line. *)
Definition line_marks (evs : list event) : list () := (λ _, ()) <$> printed exn_text evs.

Lemma line_marks_app evs evs' : line_marks (evs ++ evs') = line_marks evs ++ line_marks evs'.
Proof. unfold line_marks. by rewrite printed_app, fmap_app. Qed.

Lemma line_marks_length evs : length (line_marks evs) = length (printed exn_text evs).
Proof. apply length_fmap. Qed.

Lemma run_step_one_line cfg index st (s : S) :
  shows line_marks (run_step cfg index st s) [()].
Proof.
  destruct st as [m|name date_str]; [done|]. cbn [run_step].
  pose proof (create_rule_one_line cfg index name date_str s) as H.
  rewrite <-line_marks_length in H. unfold shows.
  destruct (line_marks _) as [|[] [|??]], (is_ret _); try done.
  split; [apply prefix_nil|done].
Qed.

(** A run of the loop that returns has printed one line for every step
    of the plan of the file, two for every row: the line of
    [create_rule] for a date, and the line that says a date is
    missing. *)
Theorem main_loop_line_per_step cfg index file (s : S) :
  is_ret (ran_result (main_loop cfg index file s)) = true →
  length (printed exn_text (ran_events (main_loop cfg index file s))) =
  length (file_plan file).
Proof.
  rewrite main_loop_finish.
  destruct (read_csv cfg index file s) as [[[]|e] evs s'] eqn:E; [|done]. intros _.
  cbn [finish ran_events]. revert E.
  destruct file as [e|[|names rows] failure]; cbn [file_plan]; [done|by rewrite read_csv_empty|].
  case_bool_decide as Hok; [|by rewrite read_csv_bad_headers].
  rewrite read_csv_plan by done.
  pose proof (for_each_shows line_marks (λ _, [()]) (run_step cfg index) line_marks_app
                eq_refl (plan names rows) s (run_step_one_line cfg index)) as [_ Hall].
  destruct (for_each _ _ s) as [[[]|e] evs' s'']; [|done].
  rewrite ran_then_Ret. destruct failure; [done|]. cbn. intros [= <- _].
  specialize (Hall eq_refl). cbn [ran_events] in Hall.
  rewrite app_nil_r, <-line_marks_length, Hall.
  clear. induction (plan names rows) as [|st l IH]; [done|]. cbn. by rewrite IH.
Qed.

End Lines.

(** ** Examples *)

Section Examples.
#[local] Existing Instance cpython311.

Lemma printed_ids_render_witness : py_format (VInt 42) = Ret "42".
Proof.
  apply (printed_ids_render example_config ([] : store) [] "" (json_response 200
           (VDict [("id", VInt 42)])) (VDict [("id", VInt 42)]) (VInt 42)).
  right. by vm_compute.
Defined.

Lemma create_rule_one_line_witness :
  length (printed (λ _, "") (ran_events
            (create_rule example_config [] "Purim (2025)" "2025-03-14" ([] : store)))) = 1.
Proof. exact (create_rule_one_line (λ _, "") example_config [] "Purim (2025)" "2025-03-14" []). Defined.

(** [repr] takes double quotes for a string with a single quote, and
    writes what is not printable as an escape. *)
Example repr_str_quotes :
  repr_str "Shavuos" = "'Shavuos'" ∧
  repr_value (VList [VStr "rabbi's"; VFloat (S754_infinity true); VBool true]) =
  "[" +:+ String DQ "rabbi's" +:+ String DQ ", -inf, True]".
Proof. by vm_compute. Qed.

(** What the script writes when the service holds the rule of Shavuos:
    the two lines of the fetch, a line for the rule that exists and one
    for each date that is missing, a line for the rule it creates and a
    line for the date that does not parse. *)
Example script_transcript :
  printed (λ _, "") (ran_events
    (script example_env
       (CsvRows [expected_headers; shavuos; ["2025"; "Purim"; ""; ""];
                 ["2025"; "Pesach"; "2025-04-12"; "2025/04/18"]] None)
       [Stored "7" "Shavuos (2025)" VNone])) =
  ["Status Code: 200";
   "Response Content: " +:+ text (listed_as [Stored "7" "Shavuos (2025)" VNone]);
   "Rule 'Shavuos (2025)' already exists with ID: 7. Skipping.";
   "Skipping Shavuos (2025) Last Day: No last day date provided.";
   "Skipping Purim (2025) First Days: No start date provided.";
   "Skipping Purim (2025) Last Day: No last day date provided.";
   "Successfully created rule 'Pesach First Days (2025)' with ID: 1";
   "Error: Invalid date format for 'Pesach Last Day (2025)': 2025/04/18. Expected YYYY-MM-DD."].
Proof. by vm_compute. Qed.

End Examples.
